(* ===== verification/_CoqProject ===== *)
-Q . S2P
Prelude.v
Doubles.v
Events.v
Lz4.v
WebClient.v
Websock.v
Messages.v
Display.v
Base64.v
Decoders.v
Strings.v
Localization.v
Settings.v
Keys.v
Keysyms.v
Script.v
Generator.v
KeyInput.v
Keyboard.v
Des.v
DesSpec.v
Mouse.v
Cursor.v
Browser.v
Pages.v
Rfb.v
Samples.v
Lifecycle.v
Session.v
Handshake.v
Input.v
Pointer.v
Ui.v
Page.v
Client.v
Progress.v
Lost.v
Termination.v
