(* ===== verification/Prelude.v ===== *)
(** * LiliTun remote control: the verified model of its browser clients

    LiliTun lets a browser see and operate a distant desktop.  Two JavaScript
    clients do the work, and this library models both, from the source at
    [src/]:

    - the client of the remote desktop application, one closure around one
      WebSocket (src/RemoteDesktop/WebClient/lilitun-remote-client.js and the LZ4
      decoder it uses, lz4dec.js);
    - noVNC, the VNC client of the control server's pages
      (src/ControlServer/web/www/novnc).  Its [RFB] object (core/rfb.js) owns a
      buffered WebSocket, a display, a decoder for each encoding, a keyboard, a
      mouse and a cursor; the page around it (app/) starts a session, passes on what
      the user does to it, and is told of its life by events.

    The pages of the control server load parts of themselves by a script of their own
    (src/ControlServer/web/www/js/scripts.js).

    ** Files, from the callees to the callers

    - [Prelude]: ECMAScript numbers (ToInt32, the bitwise operators at 32 bits, typed
      array indexing, IEEE doubles for what may be fractional), strings as lists of
      code units, the state-and-exception monad [M] in which every method is
      written, record update, what code [keeps] true, and shared lemmas.
    - [Doubles]: when the arithmetic of doubles is that of integers.
    - [Events] (core/util/eventtarget.js, events.js): Module [EventTarget] is the mixin
      of the [RFB] object, Module [Capture] the emulation of [setCapture].
    - [Lz4], Module [LZ4] (lz4dec.js); [Lz4Format] is the block format.
    - [WebClient] (lilitun-remote-client.js): the record [client] is the closure, each
      handler a method, [handle] the event that runs it; [WebServer] is the other side.
    - [Websock] (core/websock.js): the receive queue in a heap of typed arrays, so
      that the views handed out alias it; [ByteQueue] is its specification.
    - [Messages] (RFB.messages of core/rfb.js); [RfbFormat] is the layout of the
      protocol.
    - [Display] (core/display.js): the render queue, viewport, damage, tiles and
      pictures; [Rendering] is its specification.
    - [Base64] (core/base64.js).
    - [Decoders] (core/decoders/ and core/inflator.js): one record [decoding] holds the
      progress of all decoders; [Canvas] is the picture that results.
    - [Strings] (core/util/strings.js); [Utf8] is the encoding.
    - [Localization] (app/localization.js): the choice of a language, and the translation
      of a page, a tree.
    - [Settings] (app/webutil.js, core/util/logging.js): parameters of the address,
      cookies, settings with their cache and storage; Module [Logging], its levels.
    - [Keys], [Keysyms], [KeyInput], [Keyboard] (core/input/): the tables, entry by entry,
      the translation of a browser event, and the handler with its list of keys;
      [Receiver] is a server that believes what it is told.
    - [Des] (core/des.js and genDES); [DesSpec], Module [Fips], is the standard.
    - [Mouse] (core/input/mouse.js): mouse, touch and wheel, with their timers.
    - [Cursor] (core/util/cursor.js): the canvas that follows the pointer.
    - [Rfb] (core/rfb.js, core/encodings.js and the visible part of core/util/cursor.js):
      the record [rfb] is the object; [perform] runs what can happen to it (socket
      events, timers, frames, input, calls of its owner), [step] adds the paste,
      whose loop need not end.
    - [Samples]: small concrete sessions.
    - [Lifecycle], [Session], [Handshake], [Input]: theorems about the [RFB] object as a
      whole; [Input] joins it with its keyboard, [Pointer] with its mouse.
    - [Ui] (app/ui.js): the record [ui] is the object with the controls of its page, its
      timers and, as [remote], what it knows of a session and asked of it; [handle] runs
      what the page hears.  [Page] has the theorems about it; [Client] joins it with a
      session.
    - [Browser] (core/util/browser.js, app/error-handler.js): names of browsers and
      systems; the first uncaught error.
    - [Pages] (js/scripts.js of the control server): the parts of a page that are loaded
      once or again and again, in a tree of elements.
    - [Generator] (utils/genkeysymdef.js): the script that makes the keysym table of
      [Keysyms] from the X11 header, with the regular expressions it uses; [Script] is
      the part of JavaScript that it prints, to be read and run.
    - [Progress]: triples, and how far the readers and decoders take the reader of the
      socket; [Lost]: the one place where the session can lose its read index;
      [Termination]: why the loops of the session end.

    ** What the theorems show

    - The web client: the opening conversation and a screen update come out as the
      protocol means them, every region in its place with its pixels, raw and LZ4 in
      order, JPEG whenever its image has loaded; in every reachable state request and reading state fit together; input is queued, never
      lost.  The LZ4 decoder expands every well-formed block, and returns on every
      input; [decompress] loses the end of an incompressible picture.
    - The socket: the receive queue refines a queue of bytes through growth and
      compaction; no unread byte is lost as long as no message is refused; every message builder has the layout of the
      protocol; a paste goes out whole, or never ends while the socket is closed.
    - The display: drawings and flips happen exactly once and in the order asked for,
      whatever images load when; the viewport stays inside; a flip shows what was damaged; a
      flush is answered once.
    - The decoders, fed in any pieces: raw rows, RRE sub-rectangles, Tight's data
      blocks, two-colour and Hextile tiles come out as the encodings define them.
    - The session: its state only goes forward and is told once; the handshake with no
      security, byte by byte; an update of copied rectangles; input only reaches the
      socket when it may; what an unknown message does; no message, well formed or
      not, keeps the message loop from ending, and where it returns it leaves a session
      that can read on.  One case is not followed to its end: a raw rectangle of no
      width, with nothing buffered while the display is busy, makes the read index NaN
      ([raw_no_width]); the exception [NaNIndex] marks it, and nothing else does.
    - Authentication: the cipher is DES, for all passwords and challenges.
    - The keyboard: whatever the browser does, the reports are consistent; all keys are
      released when the focus is lost; AltGr of Windows is one key; what is typed
      reaches the server, message by message.  Its tables identify characters, but
      for two pairs, and are what their generator makes of a header.
    - The mouse: every report is inside the target; what was scrolled is reported in the
      end, unless the mouse is let go of before; what hits the canvas reaches the server
      at the pixel below the pointer of its event, button by button.  An element that
      captures the mouse has it until its button is released, wherever that is;
      the drawn cursor has its hot spot at the pointer.
    - The page: "disconnect" is final, whatever timers run; an error stays until it is
      clicked on or "connect" is pressed; one panel is open at most; the virtual keyboard makes of the text at the
      server what its own text becomes; the handle stays in its bar.  Settings and
      parameters of the address are read back as they were written; the language is the
      first that fits, and translation changes what people read, and nothing else but
      the white space around it.
    - The pages of the control server, where no code of their own comes in between: each
      part is asked for once, and none is left waiting whatever the responses bring; the
      first uncaught error stays.
    - Base64 and UTF-8 are inverted by their decoders.

    ** Fuel

    Most loops are structural.  Of those that are not: the LZ4 decoder runs with the
    length of its input plus one, which always suffices ([decompressBlock_total]); a
    paste takes its fuel as an argument, and how much it needs, or that none is
    enough, is a theorem; the RRE, Hextile and rectangle loops run as many rounds as
    there are sub-rectangles, tiles or rectangles, and each round takes one away; the
    message loop runs one round for each unread byte and two more, since every
    message but a resumed update takes a byte ([message_loop_ends]); [_init_msg] runs
    with four, and calls itself at most three times ([counted_loops_end]).

    ** Parameters

    The inflater of the vendored pako library (a state, its reset and a step), the file
    the generator reads, and the browser: its kind, the image formats and cursors it
    supports, whether key events have codes, the size of the screen and of what is on
    it, the pixels of the device, upper and lower case, its parser of HTML, what other
    scripts of a page do when they are called or run, and when images, frames, timers and responses arrive.  No
    theorem assumes more of them than its statement says.

    ** Not modelled

    The polyfill of core/util, and how the features of a browser are tested; the script
    that converts noVNC for old browsers (utils/use_require.js), which copies files and
    calls Babel.  Of the page: XMLHttpRequest, the calls that ask a browser for the full
    screen, the labels of the controls and the sound of the bell.  Logging, styles and
    focus are left out of the methods that have them, unless something depends on them.
    [Ui] and [Rfb] are composed only in what the page asks of a session ([Client]); what
    a session tells the page is any of its events.  A JavaScript stack has no limit
    here.  The servers are C and C++ programs; vendored libraries (src/thirdparty,
    vendor/) are left aside. *)

From stdpp Require Export base numbers list gmap strings.
From Stdlib Require Export ZArith Lia.
From Stdlib Require Import SpecFloat.
From Stdlib Require Ascii.

#[export] Set Default Goal Selector "!".
Open Scope Z_scope.

(** Linear arithmetic with [/] and [mod] by constants. *)
Ltac zlia := Z.div_mod_to_equations; lia.

(** ** ECMAScript numbers

    An integral Number is a [Z]; [num] adds the one non-integral value the
    modelled code can meet in arithmetic, [NaN] (also the result of doing
    arithmetic on [undefined]), as [None]. *)

Definition num : Type := option Z.

(** ToInt32, ToUint32, ToUint8 and ToUint8Clamp of ECMA-262. *)
Definition toUint32 (n : Z) : Z := n mod 2 ^ 32.
Definition toInt32 (n : Z) : Z :=
  let m := n mod 2 ^ 32 in if m <? 2 ^ 31 then m else m - 2 ^ 32.
Definition toUint8 (n : Z) : Z := n mod 256.
Definition toUint8Clamp (n : Z) : Z := Z.max 0 (Z.min 255 n).

Declare Scope js_scope.
Delimit Scope js_scope with js.

(** The bitwise operators, at their 32-bit width. *)
Definition js_shl (a k : Z) : Z := toInt32 (Z.shiftl (toInt32 a) (k mod 32)).
Definition js_shr (a k : Z) : Z := Z.shiftr (toInt32 a) (k mod 32).
Definition js_ushr (a k : Z) : Z := Z.shiftr (toUint32 a) (k mod 32).
Definition js_and (a b : Z) : Z := Z.land (toInt32 a) (toInt32 b).
Definition js_or (a b : Z) : Z := Z.lor (toInt32 a) (toInt32 b).
Definition js_xor (a b : Z) : Z := Z.lxor (toInt32 a) (toInt32 b).
Definition js_not (a : Z) : Z := Z.lnot (toInt32 a).

Notation "a '<<.' b" := (js_shl a b) (at level 38, left associativity) : js_scope.
Notation "a '>>.' b" := (js_shr a b) (at level 38, left associativity) : js_scope.
Notation "a '>>>.' b" := (js_ushr a b) (at level 38, left associativity) : js_scope.
Notation "a '&.' b" := (js_and a b) (at level 40, left associativity) : js_scope.
Notation "a '|.' b" := (js_or a b) (at level 50, left associativity) : js_scope.
Notation "a '^.' b" := (js_xor a b) (at level 48, left associativity) : js_scope.

(** ToInt32 of a value that may be NaN or undefined. *)
Definition nint (x : num) : Z := toInt32 (default 0 x).

Definition nadd (x y : num) : num :=
  match x, y with Some a, Some b => Some (a + b) | _, _ => None end.
Definition nlt (x y : num) : bool :=
  match x, y with Some a, Some b => a <? b | _, _ => false end.

(** Numbers that need not be integral are IEEE-754 binary64 values. *)
Definition double : Type := spec_float.
Definition prec : Z := 53.
Definition emax : Z := 1024.
Definition dbl_of_Z (n : Z) : double := binary_normalize prec emax n 0 false.
Definition dbl_add (x y : double) : double := SFadd prec emax x y.
Definition dbl_mul (x y : double) : double := SFmul prec emax x y.
Definition dbl_div (x y : double) : double := SFdiv prec emax x y.

(** Truncation towards zero; NaN and the infinities give 0, as in ToInt32. *)
Definition dbl_trunc (x : double) : Z :=
  match x with
  | S754_finite s m e =>
      let n := if e <? 0 then Z.shiftr (Z.pos m) (- e) else Z.shiftl (Z.pos m) e in
      if s then - n else n
  | _ => 0
  end.

(** [Math.floor], for finite numbers. *)
Definition dbl_floor (x : double) : Z :=
  match x with
  | S754_finite s m e =>
      let n := if s then Z.neg m else Z.pos m in
      if e <? 0 then Z.shiftr n (- e) else Z.shiftl n e
  | _ => 0
  end.
Definition dbl_sub (x y : double) : double := SFsub prec emax x y.
Definition dbl_sqrt (x : double) : double := SFsqrt prec emax x.
Definition dbl_abs (x : double) : double := SFabs x.
Definition dbl_le (x y : double) : bool := SFleb x y.
Definition dbl_lt (x y : double) : bool := SFltb x y.
Definition dbl_is0 (x : double) : bool := SFeqb x (S754_zero false).

(** A JavaScript string is the list of its code units. *)
Definition codes (s : string) : list Z :=
  map (fun c => Z.of_N (Ascii.N_of_ascii c)) (String.list_ascii_of_string s).

(** A byte value. *)
Definition is_byte (b : Z) : Prop := 0 <= b < 256.
Abbreviation bytes l := (Forall is_byte l).

#[export] Instance is_byte_dec b : Decision (is_byte b).
Proof. unfold is_byte. apply _. Defined.

Lemma is_byte_wrap n : is_byte (toUint8 n).
Proof. unfold is_byte, toUint8. zlia. Qed.

Lemma toUint8_byte b : is_byte b -> toUint8 b = b.
Proof. unfold is_byte, toUint8. intros. apply Z.mod_small. lia. Qed.

Lemma toUint8Clamp_byte b : is_byte b -> toUint8Clamp b = b.
Proof. unfold is_byte, toUint8Clamp. lia. Qed.

Lemma toInt32_small n : - 2 ^ 31 <= n < 2 ^ 31 -> toInt32 n = n.
Proof.
  intros H. unfold toInt32. destruct (n mod 2 ^ 32 <? 2 ^ 31) eqn:E;
    [apply Z.ltb_lt in E | apply Z.ltb_ge in E];
    Z.div_mod_to_equations; lia.
Qed.

Lemma toInt32_range n : - 2 ^ 31 <= toInt32 n < 2 ^ 31.
Proof.
  unfold toInt32. pose proof (Z.mod_pos_bound n (2 ^ 32)).
  destruct (Z.ltb_spec (n mod 2 ^ 32) (2 ^ 31)); lia.
Qed.

Lemma toInt32_mod n : toInt32 n mod 2 ^ 32 = n mod 2 ^ 32.
Proof.
  unfold toInt32. destruct (n mod 2 ^ 32 <? 2 ^ 31).
  - apply Z.mod_mod. lia.
  - rewrite <- (Z.mod_add _ 1) by lia.
    replace (n mod 2 ^ 32 - 2 ^ 32 + 1 * 2 ^ 32) with (n mod 2 ^ 32) by lia.
    apply Z.mod_mod. lia.
Qed.

Lemma toInt32_byte b : is_byte b -> toInt32 b = b.
Proof. intros H. apply toInt32_small. unfold is_byte in H. lia. Qed.

Arguments toUint32 : simpl never.
Arguments toInt32 : simpl never.
Arguments toUint8 : simpl never.
Arguments toUint8Clamp : simpl never.
Arguments js_shl : simpl never.
Arguments js_shr : simpl never.
Arguments js_ushr : simpl never.
Arguments js_and : simpl never.
Arguments js_or : simpl never.
Arguments js_xor : simpl never.

Create HintDb js.
Create Rewrite HintDb js.
#[export] Hint Resolve is_byte_wrap toInt32_range : js.
#[export] Hint Rewrite toUint8_byte toUint8Clamp_byte toInt32_byte
  using (assumption || (unfold is_byte; lia)) : js.

(** ** Outcomes: a value or an exception *)

Inductive exn :=
  | RangeError
  | TypeError
  | URIError
  | InvalidState           (* DOMException: InvalidStateError, IndexSizeError *)
  | Error (msg : string)
  | NaNIndex.              (* no exception of the program: [_rQi] has become NaN, and what
                              the program does from there is not followed *)

#[export] Instance exn_eq_dec : EqDecision exn.
Proof. solve_decision. Defined.

Inductive outcome (A : Type) :=
  | Ret (a : A)
  | Throw (e : exn).
Arguments Ret {A} a.
Arguments Throw {A} e.

#[export] Instance outcome_eq_dec `{EqDecision A} : EqDecision (outcome A).
Proof. solve_decision. Defined.

#[export] Instance outcome_ret : MRet outcome := @Ret.
#[export] Instance outcome_bind : MBind outcome := fun A B f m =>
  match m with Ret a => f a | Throw e => Throw e end.

(** ** Lists as arrays *)

(** [l[i]] of a typed array or an Array: [None] ([undefined]) off its ends. *)
Definition aget {A} (l : list A) (i : Z) : option A :=
  if i <? 0 then None else l !! Z.to_nat i.

(** [l[i] = v] of a typed array: ignored off its ends. *)
Definition aset {A} (l : list A) (i : Z) (v : A) : list A :=
  if i <? 0 then l else <[Z.to_nat i := v]> l.

Arguments aget : simpl never.
Arguments aset : simpl never.

Lemma length_aset {A} (l : list A) i v : length (aset l i v) = length l.
Proof. unfold aset. destruct (i <? 0); [done|]. apply length_insert. Qed.

Lemma aget_nat {A} (l : list A) (n : nat) : aget l (Z.of_nat n) = l !! n.
Proof. unfold aget. rewrite (proj2 (Z.ltb_ge _ _)), Nat2Z.id by lia. done. Qed.

Lemma aset_nat {A} (l : list A) (n : nat) v : aset l (Z.of_nat n) v = <[n := v]> l.
Proof. unfold aset. rewrite (proj2 (Z.ltb_ge _ _)), Nat2Z.id by lia. done. Qed.

Lemma aget_ge {A} (l : list A) i : Z.of_nat (length l) <= i -> aget l i = None.
Proof.
  intros. unfold aget. destruct (Z.ltb_spec i 0); [done|].
  apply lookup_ge_None. lia.
Qed.

Lemma aset_ge {A} (l : list A) i v : Z.of_nat (length l) <= i -> aset l i v = l.
Proof.
  intros. unfold aset. destruct (Z.ltb_spec i 0); [done|].
  apply list_insert_ge. lia.
Qed.

#[export] Hint Rewrite @length_aset : js.

(** The length of an array, as the number the code sees. *)
Definition zlen {A} (l : list A) : Z := Z.of_nat (length l).
Arguments zlen : simpl never.

Lemma zlen_nonneg {A} (l : list A) : 0 <= zlen l.
Proof. unfold zlen. lia. Qed.

Lemma zlen_nil {A} : zlen (@nil A) = 0.
Proof. done. Qed.

Lemma zlen_app {A} (l k : list A) : zlen (l ++ k) = zlen l + zlen k.
Proof. unfold zlen. rewrite length_app. lia. Qed.

Lemma zlen_cons {A} (x : A) l : zlen (x :: l) = 1 + zlen l.
Proof. unfold zlen. simpl. lia. Qed.

Lemma zlen_snoc {A} (l : list A) x : zlen (l ++ [x]) = zlen l + 1.
Proof. by rewrite zlen_app. Qed.

Lemma aget_mid {A} (l : list A) x k : aget (l ++ x :: k) (zlen l) = Some x.
Proof. unfold zlen. rewrite aget_nat. by apply list_lookup_middle. Qed.

Lemma aset_mid {A} (l : list A) x k v : aset (l ++ x :: k) (zlen l) v = l ++ v :: k.
Proof. unfold zlen. rewrite aset_nat. by rewrite <- (Nat.add_0_r (length l)), insert_app_r. Qed.

#[export] Hint Rewrite @zlen_nil @zlen_app @zlen_cons : js.
#[export] Hint Resolve zlen_nonneg : js.

(** [dst.set(src, off)] of typed arrays, for an offset and a source that fit. *)
Definition splice {A} (dst : list A) (off : Z) (src : list A) : list A :=
  take (Z.to_nat off) dst ++ src ++ drop (Z.to_nat off + length src) dst.

(** [l.subarray(off, off + len)], in bounds. *)
Definition slice {A} (l : list A) (off len : Z) : list A :=
  take (Z.to_nat len) (drop (Z.to_nat off) l).

Lemma length_splice {A} (dst : list A) off src :
  0 <= off -> off + zlen src <= zlen dst -> length (splice dst off src) = length dst.
Proof.
  unfold splice, zlen. intros. rewrite !length_app, length_take, length_drop. lia.
Qed.

Lemma zlen_splice {A} (dst : list A) off src :
  0 <= off -> off + zlen src <= zlen dst -> zlen (splice dst off src) = zlen dst.
Proof. intros. unfold zlen. f_equal. by apply length_splice. Qed.

Lemma zlen_slice {A} (l : list A) off len :
  0 <= off -> 0 <= len -> off + len <= zlen l -> zlen (slice l off len) = len.
Proof. unfold slice, zlen. intros. rewrite length_take, length_drop. lia. Qed.

Lemma slice_app {A} (l : list A) off a b :
  0 <= off -> 0 <= a -> 0 <= b -> slice l off (a + b) = slice l off a ++ slice l (off + a) b.
Proof.
  intros. unfold slice. rewrite !Z2Nat.inj_add by lia. rewrite <- drop_drop.
  by rewrite <- take_take_drop.
Qed.

Lemma slice_slice {A} (l : list A) off len o k :
  0 <= off -> 0 <= o -> 0 <= k -> o + k <= len ->
  slice (slice l off len) o k = slice l (off + o) k.
Proof.
  intros. unfold slice. rewrite skipn_firstn_comm, drop_drop, take_take. f_equal; [lia|].
  f_equal. lia.
Qed.

Lemma slice_nil {A} (l : list A) off : slice l off 0 = [].
Proof. done. Qed.

Lemma slice_all {A} (l : list A) : slice l 0 (zlen l) = l.
Proof. unfold slice, zlen. rewrite drop_0, take_ge; [done|lia]. Qed.

(** What a splice leaves before it, and what it holds. *)
Lemma slice_splice_before {A} (dst : list A) off src o k :
  0 <= o -> 0 <= k -> o + k <= off -> off <= zlen dst ->
  slice (splice dst off src) o k = slice dst o k.
Proof.
  unfold slice, splice, zlen. intros.
  rewrite drop_app_le by (rewrite length_take; lia).
  rewrite take_app_le by (rewrite length_drop, length_take; lia).
  rewrite skipn_firstn_comm, take_take. f_equal. lia.
Qed.

Lemma slice_splice_at {A} (dst : list A) off src o k :
  0 <= off <= zlen dst -> off <= o -> 0 <= k -> o + k <= off + zlen src ->
  slice (splice dst off src) o k = slice src (o - off) k.
Proof.
  unfold slice, splice, zlen. intros.
  rewrite drop_app_ge by (rewrite length_take; lia). rewrite length_take, Nat.min_l by lia.
  rewrite drop_app_le by lia. rewrite take_app_le by (rewrite length_drop; lia).
  f_equal. f_equal. lia.
Qed.

Lemma bytes_slice l off len : bytes l -> bytes (slice l off len).
Proof. intros. unfold slice. by apply Forall_take, Forall_drop. Qed.

Lemma bytes_splice dst off src : bytes dst -> bytes src -> bytes (splice dst off src).
Proof.
  intros. unfold splice. apply Forall_app; split; [by apply Forall_take|].
  apply Forall_app; split; [done|by apply Forall_drop].
Qed.

Lemma aget_slice {A} (l : list A) off len i :
  0 <= off -> 0 <= i < len -> aget (slice l off len) i = aget l (off + i).
Proof.
  intros. unfold aget, slice. rewrite !(proj2 (Z.ltb_ge _ _)) by lia.
  rewrite lookup_take_lt by lia. rewrite lookup_drop. f_equal. lia.
Qed.

(** ** Record update: [r <| field := v |>]

    [Eta R] gives a record as its constructor applied to its fields; the
    setter of a field is read off it. *)

Class Eta (R : Type) := eta : R -> R.
Class Setter {R E : Type} (proj : R -> E) := setf : (E -> E) -> R -> R.
Arguments setf {R E} proj {Setter} f r /.

Ltac mk_setter :=
  lazymatch goal with |- @Setter ?R ?E ?p =>
    unfold Setter; let g := fresh in let r := fresh in intros g r;
    let t := eval hnf in (@eta R _ r) in
    let t := eval pattern (p r) in t in
    lazymatch t with ?F _ => let u := eval cbv beta in (F (g (p r))) in exact u end
  end.
#[export] Hint Extern 1 (Setter _) => mk_setter : typeclass_instances.

Notation "r <| p := v |>" := (setf p (fun _ => v) r)
  (at level 1, left associativity, p at level 10, v at level 200).

(** ** Code with state and exceptions

    A method of a component with state [S]: what it does to the state before
    it throws stays done. *)

Definition M (S A : Type) : Type := S -> outcome A * S.

#[export] Instance M_ret S : MRet (M S) := fun A a s => (Ret a, s).
#[export] Instance M_bind S : MBind (M S) := fun A B f m s =>
  match m s with (Ret a, s) => f a s | (Throw e, s) => (Throw e, s) end.

Definition throw {S A} (e : exn) : M S A := fun s => (Throw e, s).
Definition gets {S A} (f : S -> A) : M S A := fun s => (Ret (f s), s).
Definition modify {S} (f : S -> S) : M S unit := fun s => (Ret tt, f s).
Definition lift {S A} (o : outcome A) : M S A := fun s => (o, s).
Definition skip {S} : M S unit := mret tt.
Definition when {S} (b : bool) (m : M S unit) : M S unit := if b then m else skip.
(** [try { m } catch (e) { h(e) }] *)
Definition catch {S A} (m : M S A) (h : exn -> M S A) : M S A := fun s =>
  match m s with (Ret a, s) => (Ret a, s) | (Throw e, s) => h e s end.

(** A method of a component run inside a larger object that holds it. *)
Definition zoom {S T A} (proj : S -> T) `{!Setter proj} (m : M T A) : M S A := fun s =>
  let '(o, t) := m (proj s) in (o, s <| proj := t |>).

(** [for (let i = 0; i < n; i++) body(i)], for [n] fixed by the caller. *)
Fixpoint for_upto {S} (n : nat) (i : Z) (body : Z -> M S unit) : M S unit :=
  match n with
  | O => skip
  | S n => body i ;; for_upto n (i + 1) body
  end.

Lemma bind_ret {S A B} (a : A) (f : A -> M S B) s : (mret a ≫= f) s = f a s.
Proof. done. Qed.

Lemma bind_assoc {S A B C} (m : M S A) (f : A -> M S B) (g : B -> M S C) s :
  ((m ≫= f) ≫= g) s = (m ≫= (fun a => f a ≫= g)) s.
Proof. unfold mbind, M_bind. destruct (m s) as [[]]; done. Qed.

(** Unfold the monad's operations in a goal. *)
Ltac run_monad :=
  cbv [mret M_ret mbind M_bind throw gets modify lift skip when catch zoom] in *.

(** One operation at a time. *)
Lemma bind_run {S A B} (m : M S A) (f : A -> M S B) s :
  (m ≫= f) s = match m s with (Ret a, s) => f a s | (Throw e, s) => (Throw e, s) end.
Proof. done. Qed.
Lemma gets_run {S A} (f : S -> A) (s : S) : gets f s = (Ret (f s), s).
Proof. done. Qed.
Lemma modify_run {S} (f : S -> S) s : modify f s = (Ret tt, f s).
Proof. done. Qed.

(** *** What code keeps true *)

Definition keeps {S A} (P : S -> Prop) (m : M S A) : Prop := forall s, P s -> P (m s).2.

Section Keeps.
Context {S : Type} (P : S -> Prop).

Lemma keeps_ret {A} (a : A) : keeps P (mret a).
Proof. by intros s. Qed.

Lemma keeps_bind {A B} (m : M S A) (f : A -> M S B) :
  keeps P m -> (forall a, keeps P (f a)) -> keeps P (m ≫= f).
Proof.
  intros Hm Hf s Hs. unfold mbind, M_bind. specialize (Hm s Hs).
  destruct (m s) as [[a|e] s']; [by apply Hf|done].
Qed.

Lemma keeps_throw {A} e : keeps P (throw (A := A) e).
Proof. by intros s. Qed.

Lemma keeps_gets {A} (f : S -> A) : keeps P (gets f).
Proof. by intros s. Qed.

Lemma keeps_lift {A} (o : outcome A) : keeps P (lift o).
Proof. by intros s. Qed.

Lemma keeps_skip : keeps P skip.
Proof. by intros s. Qed.

Lemma keeps_modify (f : S -> S) : (forall s, P s -> P (f s)) -> keeps P (modify f).
Proof. by intros H s Hs; apply H. Qed.

Lemma keeps_when b (m : M S unit) : keeps P m -> keeps P (when b m).
Proof. by destruct b; [|intros _ s]. Qed.

Lemma keeps_catch {A} (m : M S A) h : keeps P m -> (forall e, keeps P (h e)) -> keeps P (catch m h).
Proof.
  intros Hm Hh s Hs. unfold catch. specialize (Hm s Hs).
  destruct (m s) as [[a|e] s']; [done|by apply Hh].
Qed.

Lemma keeps_zoom {T A} (proj : S -> T) `{!Setter proj} (m : M T A) :
  (forall s t, P s -> P (s <| proj := t |>)) -> keeps P (zoom proj m).
Proof. intros H s Hs. unfold zoom. destruct (m (proj s)) as [o t]. by apply H. Qed.

(** Code that keeps [P] and answers what is in [Q]. *)
Definition yields {A} (m : M S A) (Q : A -> Prop) : Prop :=
  forall s, P s -> P (m s).2 /\ match (m s).1 with Ret a => Q a | Throw _ => True end.

Lemma keeps_yields {A B} (m : M S A) (f : A -> M S B) Q :
  yields m Q -> (forall a, Q a -> keeps P (f a)) -> keeps P (m ≫= f).
Proof.
  intros Hm Hf s Hs. unfold mbind, M_bind. destruct (Hm s Hs) as [H1 H2].
  destruct (m s) as [[a|e] s']; [by apply Hf|done].
Qed.

Lemma yields_bind {A B} (m : M S A) (f : A -> M S B) Q R :
  yields m Q -> (forall a, Q a -> yields (f a) R) -> yields (m ≫= f) R.
Proof.
  intros Hm Hf s Hs. unfold mbind, M_bind. destruct (Hm s Hs) as [H1 H2].
  destruct (m s) as [[a|e] s']; [by apply Hf|done].
Qed.

Lemma yields_keeps {A B} (m : M S A) (f : A -> M S B) Q :
  keeps P m -> (forall a, yields (f a) Q) -> yields (m ≫= f) Q.
Proof.
  intros Hm Hf. apply (yields_bind m f (fun _ => True)); [|by intros a _]. intros s Hs.
  split; [by apply Hm|by destruct (m s).1].
Qed.

Lemma yields_ret {A} (a : A) (Q : A -> Prop) : Q a -> yields (mret a) Q.
Proof. by intros Ha s Hs. Qed.

Lemma yields_throw {A} e (Q : A -> Prop) : yields (throw e) Q.
Proof. by intros s Hs. Qed.

End Keeps.

(** One step of a proof that code keeps something: by the shape of the code, or
    by [solve_base] at its leaves. *)
Ltac keeps_by solve_base :=
  repeat first
    [ solve [solve_base ()]
    | match goal with
      | |- keeps _ (mbind _ _) => apply keeps_bind; [|intros ?]
      | |- keeps _ (mret _) => apply keeps_ret
      | |- keeps _ (throw _) => apply keeps_throw
      | |- keeps _ (gets _) => apply keeps_gets
      | |- keeps _ (lift _) => apply keeps_lift
      | |- keeps _ skip => apply keeps_skip
      | |- keeps _ (when _ _) => apply keeps_when
      | |- keeps _ (catch _ _) => apply keeps_catch; [|intros ?]
      | |- keeps _ (if ?b then _ else _) => destruct b
      | |- keeps _ (match ?x with _ => _ end) => destruct x
      | |- keeps _ (let '_ := ?x in _) => destruct x
      end
    | progress cbv zeta ].

(** ** Triples: what holds when code returns *)

Definition triple {S A} (P : S -> Prop) (m : M S A) (Q : A -> S -> Prop) : Prop :=
  forall s, P s -> match m s with (Ret a, s') => Q a s' | (Throw _, _) => True end.

Section Triples.
Context {S : Type}.
Implicit Types (P : S -> Prop).

Lemma triple_ret {A} P (a : A) Q : (forall s, P s -> Q a s) -> triple P (mret a) Q.
Proof. intros H s Hs. by apply H. Qed.

Lemma triple_bind {A B} P (m : M S A) (f : A -> M S B) R Q :
  triple P m R -> (forall a, triple (R a) (f a) Q) -> triple P (m ≫= f) Q.
Proof.
  intros Hm Hf s Hs. unfold mbind, M_bind. specialize (Hm s Hs). destruct (m s) as [[a|e] s']; [by apply Hf|done].
Qed.

(** The shapes of [bind]. *)
Lemma triple_assoc {A B C} P (m : M S A) (f : A -> M S B) (g : B -> M S C) Q :
  triple P (m ≫= fun a => f a ≫= g) Q -> triple P ((m ≫= f) ≫= g) Q.
Proof. intros H s Hs. rewrite bind_assoc. by apply H. Qed.

Lemma triple_ret_bind {A B} P (a : A) (f : A -> M S B) Q : triple P (f a) Q -> triple P (mret a ≫= f) Q.
Proof. done. Qed.

Lemma triple_throw {A} P e Q : triple P (throw (A := A) e) Q.
Proof. by intros s _. Qed.

Lemma triple_throw_bind {A B} P e (f : A -> M S B) Q : triple P (throw e ≫= f) Q.
Proof. by intros s _. Qed.

Lemma triple_weaken {A} P P' (m : M S A) Q : (forall s, P s -> P' s) -> triple P' m Q -> triple P m Q.
Proof. intros H Hm s Hs. by apply Hm, H. Qed.

Lemma triple_strong {A} P (m : M S A) Q Q' : triple P m Q -> (forall a s, Q a s -> Q' a s) -> triple P m Q'.
Proof. intros Hm H s Hs. specialize (Hm s Hs). destruct (m s) as [[a|e] s']; auto. Qed.

(** Code that keeps the precondition, and code that only looks. *)
Lemma triple_keeps {A B} P (m : M S A) (f : A -> M S B) Q :
  keeps P m -> (forall a, triple P (f a) Q) -> triple P (m ≫= f) Q.
Proof.
  intros Hm Hf. apply (triple_bind P m f (fun _ => P)); [|done]. intros s Hs. specialize (Hm s Hs). by destruct (m s) as [[a|e] s'].
Qed.

Lemma triple_kept {A} P (m : M S A) (Q : A -> S -> Prop) : keeps P m -> (forall a s, P s -> Q a s) -> triple P m Q.
Proof. intros Hm HQ s Hs. specialize (Hm s Hs). destruct (m s) as [[a|e] s']; [by apply HQ|done]. Qed.

Lemma triple_gets {A B} P (f : S -> A) (g : A -> M S B) Q :
  (forall a, triple (fun s => P s /\ f s = a) (g a) Q) -> triple P (gets f ≫= g) Q.
Proof. intros H s Hs. by apply (H (f s) s). Qed.

Lemma triple_zoom {T A} (proj : S -> T) `{!Setter proj} P (R : T -> Prop) (m : M T A) (Q : A -> T -> Prop) (Q' : A -> S -> Prop) :
  (forall s, P s -> R (proj s)) -> triple R m Q ->
  (forall s a t, P s -> Q a t -> Q' a (s <| proj := t |>)) -> triple P (zoom proj m) Q'.
Proof.
  intros HP Hm HQ s Hs. unfold zoom. specialize (Hm (proj s) (HP s Hs)). destruct (m (proj s)) as [[a|e] t]; [|done]. by apply HQ.
Qed.

Lemma triple_catch {A} P (m : M S A) h Q :
  triple P m Q -> (forall e, triple (fun _ => True) (h e) Q) -> triple P (catch m h) Q.
Proof.
  intros Hm Hh s Hs. unfold catch. specialize (Hm s Hs). destruct (m s) as [[a|e] s']; [done|by apply Hh].
Qed.

End Triples.

(** ** 32-bit integers and their bytes *)

Lemma toInt32_testbit n i : 0 <= i -> Z.testbit (toInt32 n) i = Z.testbit n (Z.min i 31).
Proof.
  intros Hi. unfold toInt32. set (m := n mod 2 ^ 32).
  assert (Hm : forall j, 0 <= j < 32 -> Z.testbit m j = Z.testbit n j)
    by (intros; unfold m; apply Z.mod_pow2_bits_low; lia).
  assert (H0 : 0 <= m < 2 ^ 32) by (apply Z.mod_pos_bound; lia).
  assert (Hhi : forall j, 32 <= j -> Z.testbit m j = false)
    by (intros; unfold m; apply Z.mod_pow2_bits_high; lia).
  assert (H31 : Z.testbit n 31 = negb (m <? 2 ^ 31)).
  { rewrite <- (Hm 31), Z.testbit_eqb by lia.
    destruct (Z.ltb_spec m (2 ^ 31)); simpl.
    - rewrite Z.div_small by lia. done.
    - replace (m / 2 ^ 31) with 1 by zlia. done. }
  destruct (Z.ltb_spec m (2 ^ 31)); cbn [negb] in H31.
  - destruct (Z.le_gt_cases i 31).
    + rewrite Z.min_l, Hm by lia. done.
    + rewrite Z.min_r, Hhi, H31 by lia. done.
  - destruct (Z.le_gt_cases i 31).
    + rewrite Z.min_l by lia. rewrite <- (Hm i) by lia.
      rewrite <- (Z.mod_pow2_bits_low (m - 2 ^ 32) 32 i) by lia.
      replace (m - 2 ^ 32) with (m + (-1) * 2 ^ 32) by lia.
      rewrite Z.mod_add by lia. rewrite Z.mod_pow2_bits_low by lia. done.
    + rewrite Z.min_r, H31 by lia. rewrite <- (Z.opp_involutive (m - 2 ^ 32)).
      rewrite Z.bits_opp by lia. rewrite Z.testbit_eqb by lia.
      rewrite Z.div_small; [done|]. split; [lia|].
      apply Z.lt_le_trans with (2 ^ 32); [lia|]. apply Z.pow_le_mono_r; lia.
Qed.

Lemma lor_add a k b : 0 <= k -> 0 <= b < 2 ^ k -> Z.lor (a * 2 ^ k) b = a * 2 ^ k + b.
Proof.
  intros Hk Hb. assert (H0 : Z.land (a * 2 ^ k) b = 0).
  { apply Z.bits_inj'; intros i Hi; rewrite Z.land_spec, Z.bits_0.
    destruct (Z.lt_ge_cases i k).
    - rewrite Z.mul_pow2_bits_low by lia. done.
    - rewrite <- (Z.mod_small b (2 ^ k)) by lia.
      rewrite Z.mod_pow2_bits_high by lia. apply andb_false_r. }
  rewrite <- Z.lxor_lor, <- Z.add_nocarry_lxor by done. done.
Qed.

(** Four bytes, most significant first. *)
Definition be32 (b0 b1 b2 b3 : Z) : Z := b0 * 2 ^ 24 + b1 * 2 ^ 16 + b2 * 2 ^ 8 + b3.

Definition be_bytes (n : Z) : list Z :=
  [n / 2 ^ 24 mod 256; n / 2 ^ 16 mod 256; n / 2 ^ 8 mod 256; n mod 256].

Lemma be32_be_bytes n :
  be32 (n / 2 ^ 24 mod 256) (n / 2 ^ 16 mod 256) (n / 2 ^ 8 mod 256) (n mod 256)
    = n mod 2 ^ 32.
Proof.
  unfold be32. change (2 ^ 24) with 16777216. change (2 ^ 16) with 65536.
  change (2 ^ 8) with 256. change (2 ^ 32) with 4294967296. zlia.
Qed.

Lemma be_bytes_bytes n : bytes (be_bytes n).
Proof. repeat constructor; zlia. Qed.

Lemma toInt32_mod32 n : toInt32 (n mod 2 ^ 32) = toInt32 n.
Proof. unfold toInt32. by rewrite Z.mod_mod by lia. Qed.

(** [(n & (0xff << k)) >>> k] is a byte of [n]. *)
Lemma js_byte n k :
  0 <= k <= 24 -> toUint8 (js_ushr (js_and n (255 * 2 ^ k)) k) = n / 2 ^ k mod 256.
Proof.
  intros Hk. unfold toUint8, js_ushr, js_and, toUint32.
  rewrite (Z.mod_small k) by lia. rewrite <- Z.shiftr_div_pow2 by lia.
  change 256 with (2 ^ 8). apply Z.bits_inj'. intros i Hi.
  destruct (Z.lt_ge_cases i 8);
    [rewrite !Z.mod_pow2_bits_low by lia | by rewrite !Z.mod_pow2_bits_high by lia].
  rewrite !Z.shiftr_spec, Z.mod_pow2_bits_low, Z.land_spec, !toInt32_testbit by lia.
  rewrite Z.min_l by lia. rewrite Z.mul_pow2_bits by lia. replace (i + k - k) with i by lia.
  change 255 with (Z.ones 8). rewrite Z.ones_spec_low by lia. apply andb_true_r.
Qed.

Lemma js_shl_byte b k :
  is_byte b -> 0 <= k <= 24 -> js_shl b k = toInt32 (b * 2 ^ k).
Proof.
  intros. unfold js_shl. rewrite (toInt32_byte b), Z.mod_small, Z.shiftl_mul_pow2 by (done || lia).
  done.
Qed.

(** [(b0 << 24) | (b1 << 16) | (b2 << 8) | b3] *)
Lemma js_or_be b0 b1 b2 b3 :
  is_byte b0 -> is_byte b1 -> is_byte b2 -> is_byte b3 ->
  js_or (js_or (js_or (js_shl b0 24) (js_shl b1 16)) (js_shl b2 8)) b3
    = toInt32 (be32 b0 b1 b2 b3).
Proof.
  intros H0 H1 H2 H3. rewrite !js_shl_byte by (done || lia).
  unfold is_byte in *.
  assert (exists s, toInt32 (b0 * 2 ^ 24) = s * 2 ^ 24 /\ -128 <= s < 128
    /\ (s = b0 \/ s = b0 - 256)) as (s & -> & Hs & Hs').
  { unfold toInt32. rewrite Z.mod_small by lia.
    destruct (Z.ltb_spec (b0 * 2 ^ 24) (2 ^ 31)); [exists b0|exists (b0 - 256)]; lia. }
  rewrite !(toInt32_small (_ * 2 ^ _)) by lia. unfold js_or.
  rewrite !(toInt32_small (_ * 2 ^ _)), (toInt32_small b3) by lia.
  rewrite lor_add by lia. replace (s * 2 ^ 24 + b1 * 2 ^ 16) with ((s * 2 ^ 8 + b1) * 2 ^ 16) by lia.
  rewrite !(toInt32_small (_ * 2 ^ _)) by lia.
  rewrite lor_add by lia. replace ((s * 2 ^ 8 + b1) * 2 ^ 16 + b2 * 2 ^ 8)
    with ((s * 2 ^ 16 + b1 * 2 ^ 8 + b2) * 2 ^ 8) by lia.
  rewrite !(toInt32_small (_ * 2 ^ _)) by lia. rewrite lor_add by lia.
  unfold toInt32, be32. rewrite Z.mod_small by lia.
  destruct (Z.ltb_spec (b0 * 2 ^ 24 + b1 * 2 ^ 16 + b2 * 2 ^ 8 + b3) (2 ^ 31)); lia.
Qed.

(** What holds of every byte can be computed. *)
Lemma every_byte (P : Z -> bool) b :
  forallb P (map Z.of_nat (seq 0 256)) = true -> is_byte b -> P b = true.
Proof.
  intros H [H0 H1]. rewrite forallb_forall in H. apply H. apply in_map_iff.
  exists (Z.to_nat b). split; [lia|]. apply in_seq. lia.
Qed.
