(* ===== verification/Doubles.v ===== *)
(** * Doubles that are integers

    Up to 2^53 in absolute value the integers are doubles, and sums, differences
    and comparisons of doubles are those of the integers: coordinates, which
    mostly are integral, can be reasoned about as such. *)

From S2P Require Import Prelude.
From Stdlib Require Import SpecFloat.

(** ** The rounding of an exact value *)

Abbreviation digits q := (Z.pos (digits2_pos q)).

Lemma iter_pos_nat {A} (f : A -> A) p x : iter_pos f p x = Nat.iter (Pos.to_nat p) f x.
Proof.
  revert x. induction p as [p IH|p IH|]; intros x; cbn [iter_pos]; rewrite ?IH; [| |done].
  - rewrite Pos2Nat.inj_xI, Nat.iter_succ_r, <- Nat.iter_add. f_equal. lia.
  - rewrite Pos2Nat.inj_xO, <- Nat.iter_add. f_equal. lia.
Qed.

Lemma iter_xO q p : Pos.iter xO q p = Pos.shiftl_nat q (Pos.to_nat p).
Proof. by rewrite Pos2Nat.inj_iter. Qed.

Lemma shiftl_S q n : Pos.shiftl_nat q (S n) = xO (Pos.shiftl_nat q n).
Proof. done. Qed.

Lemma shiftl_add q n k : Pos.shiftl_nat (Pos.shiftl_nat q n) k = Pos.shiftl_nat q (n + k).
Proof. induction k as [|k IH]; [by rewrite Nat.add_0_r|]. by rewrite shiftl_S, IH, Nat.add_succ_r, shiftl_S. Qed.

Lemma shiftl_Z q n : Z.pos (Pos.shiftl_nat q n) = Z.pos q * 2 ^ Z.of_nat n.
Proof. induction n as [|n IH]; [by rewrite Z.mul_1_r|]. rewrite shiftl_S, Pos2Z.inj_xO, IH, Nat2Z.inj_succ, Z.pow_succ_r by lia. lia. Qed.

Lemma digits_shiftl q n : digits (Pos.shiftl_nat q n) = digits q + Z.of_nat n.
Proof. induction n as [|n IH]; [by rewrite Z.add_0_r|]. rewrite shiftl_S. cbn [digits2_pos]. rewrite Pos2Z.inj_succ, IH. lia. Qed.

Lemma digits_bounds q : 2 ^ (digits q - 1) <= Z.pos q < 2 ^ digits q.
Proof.
  induction q as [q IH|q IH|]; cbn [digits2_pos]; rewrite ?Pos2Z.inj_succ; [| |done].
  all: replace (Z.succ (digits q) - 1) with (Z.succ (digits q - 1)) by lia; rewrite !Z.pow_succ_r by lia.
  - change (Z.pos q~1) with (2 * Z.pos q + 1). lia.
  - change (Z.pos q~0) with (2 * Z.pos q). lia.
Qed.

(** Shifting right what was shifted left loses nothing. *)
Lemma shr_exact q n :
  Nat.iter n shr_1 (Build_shr_record (Z.pos (Pos.shiftl_nat q n)) false false) = Build_shr_record (Z.pos q) false false.
Proof. induction n as [|n IH]; [done|]. rewrite Nat.iter_succ_r, shiftl_S. exact IH. Qed.

Lemma shr_record_exact q n e :
  shr (Build_shr_record (Z.pos (Pos.shiftl_nat q n)) false false) e (Z.of_nat n)
  = (Build_shr_record (Z.pos q) false false, e + Z.of_nat n).
Proof.
  destruct n as [|n]; [by rewrite Z.add_0_r|]. unfold shr. rewrite (Nat2Z.inj_succ n), <- Zpos_P_of_succ_nat.
  rewrite iter_pos_nat, SuccNat2Pos.id_succ. by rewrite shr_exact.
Qed.

Lemma round_aux_exact s q n e :
  digits q = 53 -> -1074 <= e + Z.of_nat n <= 971 ->
  binary_round_aux prec emax s (Z.pos (Pos.shiftl_nat q n)) e loc_Exact = S754_finite s q (e + Z.of_nat n).
Proof.
  intros Hd He. unfold binary_round_aux, shr_fexp. cbn [shr_record_of_loc Zdigits2].
  rewrite digits_shiftl, Hd. unfold fexp, emin, prec, emax.
  replace (Z.max (53 + Z.of_nat n + e - 53) (3 - 1024 - 53) - e) with (Z.of_nat n) by lia.
  rewrite shr_record_exact. cbn [shr_m loc_of_shr_record round_nearest_even shr_record_of_loc Zdigits2].
  rewrite Hd. replace (Z.max (53 + (e + Z.of_nat n) - 53) (3 - 1024 - 53) - (e + Z.of_nat n)) with 0 by lia.
  cbn [shr shr_m]. destruct (Z.leb_spec (e + Z.of_nat n) (1024 - 53)); [done|lia].
Qed.

(** The double of value [q * 2^(e + n)]: the mantissa has its 53 digits. *)
Definition canonical (s : bool) (q : positive) (e : Z) : double :=
  S754_finite s (Pos.shiftl_nat q (Z.to_nat (53 - digits q))) (e + digits q - 53).

Lemma round_exact s q n e :
  digits q <= 53 -> -1074 <= e + Z.of_nat n + digits q - 53 <= 971 ->
  binary_round prec emax s (Pos.shiftl_nat q n) e = canonical s q (e + Z.of_nat n).
Proof.
  intros Hd He. unfold binary_round, shl_align. rewrite digits_shiftl. unfold fexp, emin, prec, emax.
  replace (Z.max (digits q + Z.of_nat n + e - 53) (3 - 1024 - 53)) with (e + (Z.of_nat n + digits q - 53)) by lia.
  set (k := Z.to_nat (53 - digits q)). assert (Hk : Z.of_nat k = 53 - digits q) by (unfold k; lia).
  assert (Hq : digits (Pos.shiftl_nat q k) = 53) by (rewrite digits_shiftl; lia).
  unfold canonical. fold k.
  destruct (decide (Z.of_nat n + digits q < 53)) as [Hlt|Hge].
  - replace (e + (Z.of_nat n + digits q - 53) - e) with (Z.neg (Z.to_pos (53 - digits q - Z.of_nat n))) by lia.
    rewrite iter_xO, shiftl_add. replace (n + Pos.to_nat (Z.to_pos (53 - digits q - Z.of_nat n)))%nat with k by lia.
    etrans; [apply (round_aux_exact s _ 0); [done|lia]|]. f_equal. lia.
  - replace (match e + (Z.of_nat n + digits q - 53) - e with Z.neg d => (Pos.iter xO (Pos.shiftl_nat q n) d, e + (Z.of_nat n + digits q - 53))
      | _ => (Pos.shiftl_nat q n, e) end) with (Pos.shiftl_nat q n, e) by (case_match; [done..|lia]).
    set (j := (n - k)%nat). replace n with (k + j)%nat at 1 by (unfold j; lia). rewrite <- shiftl_add.
    etrans; [apply (round_aux_exact s _ j); [done|unfold j; lia]|]. f_equal. unfold j. lia.
Qed.

(** ** Integers as doubles *)

(** Represented exactly. *)
Definition exact (n : Z) : Prop := - 2 ^ 53 < n < 2 ^ 53.

Lemma digits_le q n : Z.pos q < 2 ^ n -> digits q <= n.
Proof.
  intros H. pose proof (digits_bounds q). destruct (Z.le_gt_cases (digits q) n); [done|].
  assert (2 ^ n <= 2 ^ (digits q - 1)) by (apply Z.pow_le_mono_r; lia). lia.
Qed.

Lemma exact_pos q : exact (Z.pos q) -> digits q <= 53.
Proof. intros [_ H]. by apply digits_le. Qed.

Lemma normalize_scaled n (k : nat) :
  exact n -> Z.of_nat k <= 1000 -> binary_normalize prec emax (n * 2 ^ Z.of_nat k) (- Z.of_nat k) false = dbl_of_Z n.
Proof.
  intros Hn Hk. destruct n as [|p|p]; [done| |].
  all: assert (Hp : digits p <= 53) by (apply exact_pos; unfold exact in *; lia).
  - rewrite <- shiftl_Z. unfold dbl_of_Z, binary_normalize. cbv iota. rewrite round_exact by lia.
    etrans; [|symmetry; apply (round_exact false p 0); lia]. f_equal. lia.
  - change (Z.neg p) with (- Z.pos p). rewrite Z.mul_opp_l, <- shiftl_Z. unfold dbl_of_Z, binary_normalize. rewrite !Pos2Z.opp_pos.
    rewrite round_exact by lia. etrans; [|symmetry; apply (round_exact true p 0); lia]. f_equal. lia.
Qed.

Lemma dbl_of_pos p : exact (Z.pos p) -> dbl_of_Z (Z.pos p) = canonical false p 0.
Proof. intros H%exact_pos. apply (round_exact false p 0); lia. Qed.

Lemma dbl_of_neg p : exact (Z.neg p) -> dbl_of_Z (Z.neg p) = canonical true p 0.
Proof. intros H. assert (digits p <= 53) by (apply exact_pos; unfold exact in *; lia). apply (round_exact true p 0); lia. Qed.

(** The mantissa of an integer at a lower exponent. *)
Lemma align_canonical p (k : nat) :
  digits p <= 53 -> 53 - digits p <= Z.of_nat k ->
  Z.pos (fst (shl_align (Pos.shiftl_nat p (Z.to_nat (53 - digits p))) (digits p - 53) (- Z.of_nat k))) = Z.pos p * 2 ^ Z.of_nat k.
Proof.
  intros Hp Hk. rewrite <- shiftl_Z. f_equal. unfold shl_align.
  destruct (- Z.of_nat k - (digits p - 53)) as [|d|d] eqn:E; [|lia|]; cbn [fst].
  - f_equal. lia.
  - rewrite iter_xO, shiftl_add. f_equal. lia.
Qed.

(** A double that is [a], but for the sign of zero. *)
Lemma dbl_of_Z_cases a :
  exact a -> a = 0 /\ dbl_of_Z a = S754_zero false
             \/ exists s p, a = cond_Zopp s (Z.pos p) /\ digits p <= 53 /\ dbl_of_Z a = canonical s p 0.
Proof.
  intros Ha. destruct a as [|p|p]; [by left|right; exists false, p|right; exists true, p].
  - split; [done|]. split; [by apply exact_pos|by apply dbl_of_pos].
  - split; [done|]. split; [apply exact_pos; unfold exact in *; lia|by apply dbl_of_neg].
Qed.

Lemma aligned s p (k : nat) :
  digits p <= 53 -> 53 - digits p <= Z.of_nat k ->
  cond_Zopp s (Z.pos (fst (shl_align (Pos.shiftl_nat p (Z.to_nat (53 - digits p))) (0 + digits p - 53) (- Z.of_nat k))))
  = cond_Zopp s (Z.pos p) * 2 ^ Z.of_nat k.
Proof. intros Hp Hk. rewrite Z.add_0_l, align_canonical by done. destruct s; unfold cond_Zopp; lia. Qed.

Lemma dbl_add_Z a b : exact a -> exact b -> exact (a + b) -> dbl_add (dbl_of_Z a) (dbl_of_Z b) = dbl_of_Z (a + b).
Proof.
  intros Ha Hb Hab. destruct (dbl_of_Z_cases a Ha) as [[-> E]|(s & p & Ep & Hp & E)]; rewrite E.
  { destruct (dbl_of_Z_cases b Hb) as [[-> E']|(s' & p' & Ep' & Hp' & E')]; rewrite E'; [done|]. rewrite Z.add_0_l, E'. done. }
  destruct (dbl_of_Z_cases b Hb) as [[-> E']|(s' & p' & Ep' & Hp' & E')]; rewrite E'.
  { rewrite Z.add_0_r, E. done. }
  unfold dbl_add, canonical, SFadd. cbv zeta.
  set (k := Z.to_nat (53 - Z.min (digits p) (digits p'))).
  replace (Z.min (0 + digits p - 53) (0 + digits p' - 53)) with (- Z.of_nat k) by lia.
  rewrite !aligned by lia. rewrite <- Z.mul_add_distr_r, <- Ep, <- Ep'. apply normalize_scaled; [done|lia].
Qed.

Lemma dbl_sub_Z a b : exact a -> exact b -> exact (a - b) -> dbl_sub (dbl_of_Z a) (dbl_of_Z b) = dbl_of_Z (a - b).
Proof.
  intros Ha Hb Hab. destruct (dbl_of_Z_cases a Ha) as [[-> E]|(s & p & Ep & Hp & E)]; rewrite E.
  { destruct b as [|p'|p']; [done| |].
    - rewrite (dbl_of_pos p') by done. rewrite Z.sub_0_l, Pos2Z.opp_pos. by rewrite dbl_of_neg.
    - rewrite (dbl_of_neg p') by done. rewrite Z.sub_0_l, Pos2Z.opp_neg. by rewrite dbl_of_pos. }
  destruct (dbl_of_Z_cases b Hb) as [[-> E']|(s' & p' & Ep' & Hp' & E')]; rewrite E'.
  { rewrite Z.sub_0_r, E. done. }
  unfold dbl_sub, canonical, SFsub. cbv zeta.
  set (k := Z.to_nat (53 - Z.min (digits p) (digits p'))).
  replace (Z.min (0 + digits p - 53) (0 + digits p' - 53)) with (- Z.of_nat k) by lia.
  rewrite !aligned by lia. rewrite <- Z.mul_sub_distr_r, <- Ep, <- Ep'. apply normalize_scaled; [done|lia].
Qed.

(** ** Order and rounding *)

Lemma compare_canonical p p' :
  digits p <= 53 -> digits p' <= 53 ->
  match 0 + digits p - 53 ?= 0 + digits p' - 53 with
  | Lt => Lt
  | Gt => Gt
  | Eq => Pos.compare_cont Eq (Pos.shiftl_nat p (Z.to_nat (53 - digits p))) (Pos.shiftl_nat p' (Z.to_nat (53 - digits p')))
  end = (Z.pos p ?= Z.pos p').
Proof.
  intros Hp Hp'. pose proof (digits_bounds p). pose proof (digits_bounds p').
  destruct (Z.compare_spec (0 + digits p - 53) (0 + digits p' - 53)) as [E|E|E].
  - assert (Ed : digits p = digits p') by lia. rewrite Ed.
    change ((Z.pos (Pos.shiftl_nat p (Z.to_nat (53 - digits p'))) ?= Z.pos (Pos.shiftl_nat p' (Z.to_nat (53 - digits p'))))
      = (Z.pos p ?= Z.pos p')).
    rewrite !shiftl_Z. symmetry. rewrite !(Z.mul_comm (Z.pos _)). apply Zmult_compare_compat_l. lia.
  - symmetry. apply Z.compare_lt_iff. assert (2 ^ digits p <= 2 ^ (digits p' - 1)) by (apply Z.pow_le_mono_r; lia). lia.
  - symmetry. apply Z.compare_gt_iff. assert (2 ^ digits p' <= 2 ^ (digits p - 1)) by (apply Z.pow_le_mono_r; lia). lia.
Qed.

Lemma compare_Z a b : exact a -> exact b -> SFcompare (dbl_of_Z a) (dbl_of_Z b) = Some (a ?= b).
Proof.
  intros Ha Hb. destruct (dbl_of_Z_cases a Ha) as [[-> E]|(s & p & Ep & Hp & E)]; rewrite E.
  { destruct (dbl_of_Z_cases b Hb) as [[-> E']|([] & p' & -> & Hp' & E')]; by rewrite E'. }
  destruct (dbl_of_Z_cases b Hb) as [[-> E']|(s' & p' & Ep' & Hp' & E')]; rewrite E'.
  { subst a. by destruct s. }
  unfold canonical, SFcompare. subst a b. pose proof (compare_canonical p p' Hp Hp') as Hc.
  destruct s, s'; cbn [cond_Zopp]; try done; f_equal.
  - change (- Z.pos p) with (Z.neg p). change (- Z.pos p') with (Z.neg p'). change (Z.neg p ?= Z.neg p') with (CompOpp (Z.pos p ?= Z.pos p')).
    rewrite <- Hc. by destruct (_ ?= _).
  - exact Hc.
Qed.

Lemma dbl_lt_Z a b : exact a -> exact b -> dbl_lt (dbl_of_Z a) (dbl_of_Z b) = (a <? b).
Proof. intros Ha Hb. unfold dbl_lt, SFltb. rewrite compare_Z by done. unfold Z.ltb. by destruct (a ?= b). Qed.

Lemma dbl_le_Z a b : exact a -> exact b -> dbl_le (dbl_of_Z a) (dbl_of_Z b) = (a <=? b).
Proof. intros Ha Hb. unfold dbl_le, SFleb. rewrite compare_Z by done. unfold Z.leb. by destruct (a ?= b). Qed.

Lemma dbl_trunc_Z a : exact a -> dbl_trunc (dbl_of_Z a) = a.
Proof.
  intros Ha. destruct (dbl_of_Z_cases a Ha) as [[-> E]|(s & p & -> & Hp & E)]; rewrite E; [done|].
  unfold canonical, dbl_trunc. rewrite shiftl_Z. cbv zeta.
  replace (if _ <? 0 then _ else _) with (Z.pos p); [by destruct s|].
  destruct (Z.ltb_spec (0 + digits p - 53) 0).
  - rewrite Z.shiftr_div_pow2 by lia. replace (- (0 + digits p - 53)) with (Z.of_nat (Z.to_nat (53 - digits p))) by lia.
    by rewrite Z.div_mul by lia.
  - assert (digits p = 53) as -> by lia. by rewrite Z.mul_1_r.
Qed.

Lemma dbl_floor_Z a : exact a -> dbl_floor (dbl_of_Z a) = a.
Proof.
  intros Ha. destruct (dbl_of_Z_cases a Ha) as [[-> E]|(s & p & -> & Hp & E)]; rewrite E; [done|].
  unfold canonical, dbl_floor. cbv zeta.
  assert (Hs : forall q, (if s then Z.neg q else Z.pos q) = cond_Zopp s (Z.pos q)) by (by destruct s). rewrite Hs, shiftl_Z.
  replace (cond_Zopp s (Z.pos p * 2 ^ _)) with (cond_Zopp s (Z.pos p) * 2 ^ Z.of_nat (Z.to_nat (53 - digits p))) by (destruct s; cbn [cond_Zopp]; lia).
  destruct (Z.ltb_spec (0 + digits p - 53) 0).
  - rewrite Z.shiftr_div_pow2 by lia. replace (- (0 + digits p - 53)) with (Z.of_nat (Z.to_nat (53 - digits p))) by lia.
    by rewrite Z.div_mul by lia.
  - assert (digits p = 53) as -> by lia. by rewrite Z.mul_1_r.
Qed.

Lemma dbl_div_1 a : exact a -> dbl_div (dbl_of_Z a) (dbl_of_Z 1) = dbl_of_Z a.
Proof.
  intros Ha. change (dbl_of_Z 1) with (S754_finite false (Pos.shiftl_nat 1 52) (-52)).
  destruct (dbl_of_Z_cases a Ha) as [[-> E]|(s & p & -> & Hp & E)]; rewrite E; [done|].
  unfold canonical. set (q := Pos.shiftl_nat p _). assert (Hq : digits q = 53) by (unfold q; rewrite digits_shiftl; lia).
  set (e := 0 + digits p - 53). assert (He : -52 <= e <= 0) by (unfold e; lia). clearbody q e.
  unfold dbl_div, SFdiv, SFdiv_core_binary. cbn [Zdigits2]. rewrite Hq. change (digits (Pos.shiftl_nat 1 52)) with 53.
  unfold fexp, emin, prec, emax. cbv zeta.
  replace (e - -52 - _) with 53 by lia. rewrite Z.shiftl_mul_pow2 by lia. rewrite shiftl_Z.
  replace (Z.min _ (e - -52)) with (e - 1) by lia.
  pose proof (Z.div_eucl_eq (Z.pos q * 2 ^ 53) (1 * 2 ^ Z.of_nat 52)) as Hdiv.
  assert (Hqr : Z.div_eucl (Z.pos q * 2 ^ 53) (1 * 2 ^ Z.of_nat 52) = (Z.pos q~0, 0)).
  { assert (H1 : (Z.pos q * 2 ^ 53) / (1 * 2 ^ Z.of_nat 52) = Z.pos q~0).
    { replace (Z.pos q * 2 ^ 53) with (Z.pos q~0 * (1 * 2 ^ Z.of_nat 52)) by lia. apply Z.div_mul. done. }
    assert (H2 : (Z.pos q * 2 ^ 53) mod (1 * 2 ^ Z.of_nat 52) = 0).
    { replace (Z.pos q * 2 ^ 53) with (Z.pos q~0 * (1 * 2 ^ Z.of_nat 52)) by lia. apply Z.mod_mul. done. }
    unfold Z.div, Z.modulo in H1, H2. destruct (Z.div_eucl _ _). by rewrite H1, H2. }
  rewrite Hqr. change (new_location _ 0) with loc_Exact. rewrite xorb_false_r.
  etrans; [apply (round_aux_exact s q 1); [done|lia]|]. f_equal. lia.
Qed.
