(* ===== verification/Events.v ===== *)
(** * Events of noVNC
    (src/ControlServer/web/www/novnc/core/util/eventtarget.js and events.js)

    Module [EventTarget] is the mixin that makes an [RFB] object a source of events;
    Module [Capture] is the emulation of [setCapture], by which an element goes on
    getting the events of a mouse that was pressed on it and has left it. *)

From S2P Require Import Prelude.

Module EventTarget.

Section Target.
(** [C] are the callbacks; [St] is the rest of the state they work on. *)
Context {C St : Type} `{EqDecision C}.

(** A [Set] is visited in the order of insertion, what is added meanwhile too; what was
    deleted leaves a hole. *)
Record target := Target { listeners : gmap string (list (option C)); rest : St }.

Context (call : C -> M target unit) (defaultPrevented : St -> bool).

Definition set_add (c : C) (s : list (option C)) : list (option C) :=
  if bool_decide (Some c ∈ s) then s else s ++ [Some c].
Definition set_delete (c : C) (s : list (option C)) : list (option C) :=
  map (fun o => if decide (o = Some c) then None else o) s.

Definition addEventListener (type : string) (callback : C) : M target unit := modify (fun t =>
  Target (<[type := set_add callback (default [] (listeners t !! type))]> (listeners t)) (rest t)).

Definition removeEventListener (type : string) (callback : C) : M target unit := modify (fun t =>
  match listeners t !! type with
  | Some s => Target (<[type := set_delete callback s]> (listeners t)) (rest t)
  | None => t
  end).

(** [forEach] from the [i]-th entry; more than [fuel] entries are not visited. *)
Fixpoint for_each (fuel : nat) (type : string) (i : nat) : M target unit :=
  match fuel with
  | O => skip
  | S fuel =>
      ls ← gets listeners;
      match default [] (ls !! type) !! i with
      | None => skip
      | Some None => for_each fuel type (S i)
      | Some (Some c) => call c;; for_each fuel type (S i)
      end
  end.

Definition dispatchEvent (fuel : nat) (type : string) : M target bool :=
  ls ← gets listeners;
  match ls !! type with
  | None => mret true
  | Some _ => for_each fuel type 0;; s ← gets rest; mret (negb (defaultPrevented s))
  end.

End Target.
Arguments target : clear implicits.
End EventTarget.

Module Capture.

(** Elements are numbers.  A timer is what it expects. *)
Record capture := Capture_ {
  captureRecursion : bool;
  captureElem : option nat;
  captureIndex : nat;
  proxy_made : bool;               (* the element "noVNC_mouse_capture_elem" *)
  proxy_shown : bool;
  observed : option nat;
  window_listening : bool;
  timers : list nat;
  dispatched : list (nat * string) }.
#[export] Instance eta_capture : Eta capture := fun c =>
  Capture_ (captureRecursion c) (captureElem c) (captureIndex c) (proxy_made c) (proxy_shown c) (observed c)
    (window_listening c) (timers c) (dispatched c).

Definition initial : capture := Capture_ false None 0 false false None false [] [].

Definition releaseCapture : M capture unit :=
  c ← gets id;
  match captureElem c with
  | None => skip
  | Some _ => modify (fun c => c <| timers := timers c ++ [captureIndex c] |> <| observed := None |>
                                 <| proxy_shown := false |> <| window_listening := false |>)
  end.

(** What the timer of [releaseCapture] does. *)
Definition release_timeout (expected : nat) : M capture unit :=
  c ← gets id;
  when (bool_decide (captureIndex c = expected)) (modify (fun c => c <| captureElem := None |>)).

(** The emulation, where the browser has no [setCapture] of its own. *)
Definition setCapture (elem : nat) : M capture unit :=
  releaseCapture;;
  modify (fun c => c <| proxy_made := true |>);;
  modify (fun c => c <| captureElem := Some elem |> <| captureIndex := S (captureIndex c) |>);;
  modify (fun c => c <| observed := Some elem |>);;
  modify (fun c => c <| proxy_shown := true |>);;
  modify (fun c => c <| window_listening := true |>).

(** [_captureElem.dispatchEvent(newEv)]; the event bubbles up to the window, where the
    proxy sees it. *)
Definition dispatch (bubble : M capture unit) (type : string) : M capture unit :=
  c ← gets id;
  match captureElem c with
  | Some e => modify (fun c => c <| dispatched := dispatched c ++ [(e, type)] |>);; bubble
  | None => throw TypeError
  end.

(** The proxy sees its own event at most once; does the redirected event stop the
    original? *)
Fixpoint captureProxy_fuel (n : nat) (prevented : bool) (type : string) : M capture bool :=
  c ← gets id;
  if captureRecursion c then mret false
  else
    match n with
    | O => mret false
    | S n =>
        modify (fun c => c <| captureRecursion := true |>);;
        dispatch (captureProxy_fuel n prevented type;; skip) type;;
        modify (fun c => c <| captureRecursion := false |>);;
        when (bool_decide (type = "mouseup"%string)) releaseCapture;;
        mret prevented
    end.
Definition captureProxy (prevented : bool) (type : string) : M capture bool := captureProxy_fuel 2 prevented type.

(** The events the window and the element of the proxy hear. *)
Inductive input :=
  | ISet (elem : nat)
  | IRelease
  | ITimer
  | IWindow (up : bool) (prevented : bool)
  | IProxy (type : string) (prevented : bool).

Definition handle (i : input) : M capture bool :=
  c ← gets id;
  match i with
  | ISet elem => setCapture elem;; mret false
  | IRelease => releaseCapture;; mret false
  | ITimer =>
      match timers c with
      | n :: l => modify (fun c => c <| timers := l |>);; release_timeout n;; mret false
      | [] => mret false
      end
  | IWindow up p => if window_listening c then captureProxy p (if up then "mouseup" else "mousemove") else mret false
  | IProxy type p =>
      if proxy_shown c && bool_decide (type ∈ ["contextmenu"; "mousemove"; "mouseup"]%string)
      then captureProxy p type else mret false
  end.

Definition step (c c' : capture) : Prop := exists i, c' = (handle i c).2.

End Capture.

(** ** Properties of the event target *)

Section TargetProperties.
Import EventTarget.
Context {C St : Type} `{EqDecision C}.
Abbreviation target := (target C St).
Context (call : C -> M target unit) (defaultPrevented : St -> bool).

(** Callbacks that leave the listeners alone. *)
Definition quiet : Prop := forall c t, exists s, call c t = (Ret tt, Target (listeners t) s).

Inductive registration := Add (type : string) (c : C) | Remove (type : string) (c : C).
Definition do_registration (r : registration) : M target unit :=
  match r with Add ty c => addEventListener ty c | Remove ty c => removeEventListener ty c end.

(** Who listens, in order: one who is added again stays where it is. *)
Definition registered_step (type : string) (l : list C) (r : registration) : list C :=
  match r with
  | Add ty c => if decide (ty = type /\ c ∉ l) then l ++ [c] else l
  | Remove ty c => if decide (ty = type) then filter (.≠ c) l else l
  end.
Definition registered (type : string) (rs : list registration) : list C := fold_left (registered_step type) rs [].

Fixpoint call_all (l : list C) : M target unit :=
  match l with [] => skip | c :: l => call c;; call_all l end.

Definition present (s : list (option C)) : list C := omap id s.

Lemma present_app s s' : present (s ++ s') = present s ++ present s'.
Proof. unfold present. apply omap_app. Qed.

Lemma present_in c s : c ∈ present s <-> Some c ∈ s.
Proof. unfold present. rewrite list_elem_of_omap. split; [intros (o & Ho & E); cbn in E; by subst o|]. intros H. by exists (Some c). Qed.

Lemma present_delete c s : present (set_delete c s) = filter (.≠ c) (present s).
Proof.
  induction s as [|[d|] s IH]; [done| |exact IH].
  change (present (Some d :: s)) with (d :: present s). unfold set_delete. cbn [map]. fold (set_delete c s).
  destruct (decide (Some d = Some c)) as [E|E].
  - injection E as ->. rewrite filter_cons_False by (by intros []). exact IH.
  - rewrite filter_cons_True by (by intros ->). change (present (Some d :: set_delete c s)) with (d :: present (set_delete c s)).
    by rewrite IH.
Qed.

Lemma registration_present r t type :
  present (default [] (listeners (do_registration r t).2 !! type))
  = registered_step type (present (default [] (listeners t !! type))) r.
Proof.
  destruct r as [ty c|ty c]; cbn.
  - destruct (decide (ty = type)) as [->|Hn].
    + rewrite lookup_insert_eq. cbn. unfold set_add. case_bool_decide as Hin.
      * rewrite decide_False; [done|]. intros [_ Hc]. apply Hc. by apply present_in.
      * rewrite decide_True; [by rewrite present_app|]. split; [done|]. intros Hc. by apply Hin, present_in.
    + rewrite lookup_insert_ne by done. by rewrite decide_False by naive_solver.
  - destruct (decide (ty = type)) as [->|Hn].
    + destruct (listeners t !! type) as [s|] eqn:E; cbn; [rewrite lookup_insert_eq; apply present_delete|by rewrite E].
    + destruct (listeners t !! ty) as [s|] eqn:E; cbn; [by rewrite lookup_insert_ne|done].
Qed.

Definition registrations (rs : list registration) (t : target) : target := fold_left (fun t r => (do_registration r t).2) rs t.

Lemma registrations_present rs type s0 :
  present (default [] (listeners (registrations rs (Target ∅ s0)) !! type)) = registered type rs.
Proof.
  unfold registered. set (t0 := Target ∅ s0). assert (H0 : present (default [] (listeners t0 !! type)) = [])
    by (cbn; by rewrite lookup_empty). revert H0. generalize ([] : list C). generalize t0.
  induction rs as [|r rs IH]; intros t l Hl; [done|]. cbn [registrations fold_left]. apply IH.
  by rewrite registration_present, Hl.
Qed.

Lemma for_each_run fuel type i t :
  quiet -> let s := default [] (listeners t !! type) in (length s < fuel + i)%nat ->
  for_each call fuel type i t = call_all (present (drop i s)) t.
Proof.
  intros Hq. revert i t. induction fuel as [|fuel IH]; intros i t s Hf.
  { rewrite drop_ge by lia. done. }
  cbn [for_each]. unfold mbind at 1, M_bind at 1, gets. fold s.
  destruct (s !! i) as [o|] eqn:E; [|by rewrite drop_ge by by apply lookup_ge_None]. rewrite (drop_S s o i E).
  destruct o as [c|].
  - change (present (Some c :: drop (S i) s)) with (c :: present (drop (S i) s)). cbn [call_all].
    unfold mbind, M_bind. destruct (Hq c t) as [st ->]. rewrite IH; [done|]. cbn. fold s. lia.
  - change (present (None :: drop (S i) s)) with (present (drop (S i) s)). apply IH. fold s. lia.
Qed.

(** An event reaches who listens: after any registrations and removals, an event is
    given to exactly those callbacks for its type that were added and not removed
    since, each once, in the order in which they were added, as long as they do not
    change the listeners; and to no others. *)
Theorem dispatch_reaches (rs : list registration) (type : string) (s0 : St) (fuel : nat) :
  let t := registrations rs (Target ∅ s0) in
  quiet -> (length (default [] (listeners t !! type)) < fuel)%nat ->
  (dispatchEvent call defaultPrevented fuel type t).2 = (call_all (registered type rs) t).2
  /\ NoDup (registered type rs).
Proof.
  intros t Hq Hf. rewrite <- (registrations_present rs type s0). fold t. split.
  - unfold dispatchEvent. unfold mbind at 1, M_bind at 1, gets at 1. destruct (listeners t !! type) as [s|] eqn:E; [|done].
    change (default [] (Some s)) with s in Hf. unfold mbind, M_bind.
    rewrite for_each_run; [|exact Hq|rewrite E; change (default [] (Some s)) with s; lia]. rewrite E.
    change (drop 0 (default [] (Some s))) with s. change (default [] (Some s)) with s. by destruct (call_all (present s) t) as [[[]|e] t'].
  - unfold t. rewrite registrations_present. clear Hf t. unfold registered. assert (H0 : NoDup ([] : list C)) by constructor. revert H0.
    generalize ([] : list C). induction rs as [|r rs IH]; intros l Hl; [done|]. cbn [fold_left]. apply IH.
    destruct r as [ty c|ty c]; cbn [registered_step]; destruct (decide _) as [Hd|]; try done; [|by apply NoDup_filter].
    apply NoDup_app. split; [done|]. split; [|apply NoDup_singleton]. intros x Hx ->%list_elem_of_singleton. by destruct Hd.
Qed.

End TargetProperties.

(** ** Properties of the capture *)

Section CaptureProperties.
Import Capture.
Implicit Types (c : capture).

(** While the window is listened to, there is an element that has the mouse; an element
    that has it no longer, but is not forgotten yet, has its timer running; and a timer
    never expects more than there was. *)
Record sound c : Prop := {
  so_listening : window_listening c = true -> is_Some (captureElem c);
  so_shown : proxy_shown c = window_listening c;
  so_released : is_Some (captureElem c) -> window_listening c = false -> captureIndex c ∈ timers c;
  so_past : window_listening c = true -> captureIndex c ∉ timers c;
  so_timers : Forall (fun n => n <= captureIndex c)%nat (timers c);
  so_idle : captureRecursion c = false }.

Lemma release_run c :
  sound c -> exists c', releaseCapture c = (Ret tt, c') /\ sound c' /\ window_listening c' = false
    /\ captureIndex c' = captureIndex c /\ captureElem c' = captureElem c /\ dispatched c' = dispatched c
    /\ (is_Some (captureElem c) -> captureIndex c ∈ timers c').
Proof.
  intros [H1 H2 H3 H4 H5 H6]. unfold releaseCapture. unfold mbind, M_bind, gets. cbn [id].
  destruct (captureElem c) as [e|] eqn:E.
  - eexists. split; [reflexivity|]. assert (Hin : captureIndex c ∈ timers c ++ [captureIndex c]) by (apply elem_of_app; right; by left).
    split; [|by split_and!; [| | | |intros _]]. constructor; cbn; try done.
    apply Forall_app. split; [done|]. by apply Forall_singleton.
  - exists c. split; [done|]. assert (Hw : window_listening c = false).
    { destruct (window_listening c); [|done]. destruct (H1 eq_refl) as [? ?]. discriminate. }
    split; [constructor; rewrite ?E; done|]. by split_and!.
Qed.

Lemma proxy_run c prevented type e :
  sound c -> captureElem c = Some e ->
  exists c', captureProxy prevented type c = (Ret prevented, c') /\ sound c'
    /\ dispatched c' = dispatched c ++ [(e, type)] /\ captureElem c' = captureElem c /\ captureIndex c' = captureIndex c
    /\ (if decide (type = "mouseup"%string) then window_listening c' = false /\ captureIndex c ∈ timers c'
        else window_listening c' = window_listening c /\ timers c' = timers c).
Proof.
  intros Hs He. destruct (release_run (c <| dispatched := dispatched c ++ [(e, type)] |>)) as (c' & Er & Hs' & Hw & Hi & Hel & Hd & Hin).
  { destruct Hs. by constructor. }
  assert (Hrec := so_idle _ Hs). destruct c as [rec el ix mk sh ob wl tm dd]. cbn in Hrec, He. subst rec el.
  unfold captureProxy, captureProxy_fuel, dispatch. run_monad. cbn. rewrite bool_decide_decide.
  destruct (decide (type = "mouseup"%string)) as [->|Hty].
  - cbn in Er. rewrite Er. exists c'. split; [reflexivity|]. split; [exact Hs'|]. split; [exact Hd|]. split; [exact Hel|].
    split; [exact Hi|]. split; [exact Hw|]. apply Hin. by eexists.
  - eexists. split; [reflexivity|]. split; [by destruct Hs; constructor|]. done.
Qed.

Lemma sound_initial : sound initial.
Proof. constructor; cbn; try done. Qed.

Lemma timer_run c n l :
  sound c -> timers c = n :: l ->
  exists c', handle ITimer c = (Ret false, c') /\ sound c' /\ timers c' = l /\ window_listening c' = window_listening c
    /\ captureIndex c' = captureIndex c /\ dispatched c' = dispatched c
    /\ (captureElem c' = captureElem c \/ captureElem c' = None /\ window_listening c = false).
Proof.
  intros Hs Ht. unfold handle, release_timeout. run_monad. cbn. rewrite Ht. cbn.
  destruct (bool_decide_reflect (captureIndex c = n)) as [E|E].
  - assert (Hw : window_listening c = false).
    { destruct (window_listening c) eqn:Ew; [|done]. destruct (so_past _ Hs Ew). rewrite Ht, E. by left. }
    eexists. split; [reflexivity|]. split; [|split_and!; [done .. | by right]]. destruct Hs as [H1 H2 H3 H4 H5 H6].
    constructor; cbn; rewrite ?Hw; try done; [by rewrite H2|]. rewrite Ht in H5. by inversion H5.
  - eexists. split; [reflexivity|]. split; [|split_and!; [done .. | by left]]. destruct Hs as [H1 H2 H3 H4 H5 H6].
    rewrite Ht in H3, H4, H5. constructor; cbn; try done; [| |by inversion H5].
    + intros He Hw. specialize (H3 He Hw). apply elem_of_cons in H3 as [?|?]; [by subst|done].
    + intros Hw Hin. apply (H4 Hw). by right.
Qed.

Lemma set_run elem c :
  sound c -> exists c', handle (ISet elem) c = (Ret false, c') /\ sound c' /\ window_listening c' = true
    /\ captureElem c' = Some elem /\ dispatched c' = dispatched c.
Proof.
  intros Hs. destruct (release_run c Hs) as (c1 & E & Hs1 & Hw1 & Hi1 & He1 & Hd1 & _).
  unfold handle, setCapture. run_monad. cbn. rewrite E. cbn. eexists. split; [reflexivity|].
  split; [|by split_and!]. destruct Hs1 as [H1 H2 H3 H4 H5 H6]. constructor; cbn; try done.
  - intros _ Hin. rewrite Forall_forall in H5. specialize (H5 _ Hin). lia.
  - eapply Forall_impl; [exact H5|]. cbn. lia.
Qed.

Lemma handle_sound i c : sound c -> sound (handle i c).2.
Proof.
  intros Hs. destruct i as [elem| | |up p|type p].
  - destruct (set_run elem c Hs) as (c' & -> & H & _). exact H.
  - destruct (release_run c Hs) as (c' & E & H & _). unfold handle. rewrite bind_run, gets_run. cbn [id]. rewrite bind_run, E. exact H.
  - destruct (timers c) as [|n l] eqn:Et; [unfold handle; rewrite bind_run, gets_run; cbn [id]; by rewrite Et|].
    destruct (timer_run c n l Hs Et) as (c' & -> & H & _). exact H.
  - unfold handle. rewrite bind_run, gets_run. cbn [id]. destruct (window_listening c) eqn:Ew; [|done].
    destruct (so_listening _ Hs Ew) as [e He]. destruct (proxy_run c p (if up then "mouseup" else "mousemove") e Hs He) as (c' & -> & H & _). exact H.
  - unfold handle. rewrite bind_run, gets_run. cbn [id]. destruct (proxy_shown c && _) eqn:Eb; [|done]. apply andb_true_iff in Eb as [Ew _].
    rewrite (so_shown _ Hs) in Ew. destruct (so_listening _ Hs Ew) as [e He].
    destruct (proxy_run c p type e Hs He) as (c' & -> & H & _). exact H.
Qed.

(** What may happen while the mouse is held: it moves, and old timers go off. *)
Definition holding (i : input) : Prop :=
  match i with
  | ITimer | IWindow false _ => True
  | IProxy type _ => type = "contextmenu"%string \/ type = "mousemove"%string
  | _ => False
  end.

(** The release of the button: over the page, where the proxy covers everything, hears
    it and stops it, or outside, where the window hears it. *)
Definition releases (i : input) : Prop :=
  match i with
  | IWindow true _ => True
  | IProxy type _ => type = "mouseup"%string
  | _ => False
  end.

(** What the element is given of it. *)
Definition given (elem : nat) (i : input) : list (nat * string) :=
  match i with
  | IWindow up _ => [(elem, if up then "mouseup" else "mousemove")]
  | IProxy type _ => [(elem, type)]
  | _ => []
  end%string.

Definition holds (elem : nat) c : Prop := sound c /\ window_listening c = true /\ captureElem c = Some elem.

Lemma holding_step elem i c :
  holding i -> holds elem c ->
  let c' := (handle i c).2 in holds elem c' /\ dispatched c' = dispatched c ++ given elem i.
Proof.
  intros Hi (Hs & Hw & He) c'. unfold c'. pose proof (handle_sound i c Hs) as Hs'.
  assert (Hproxy : forall p type, type <> "mouseup"%string -> holds elem (captureProxy p type c).2
    /\ dispatched (captureProxy p type c).2 = dispatched c ++ [(elem, type)]).
  { intros p type Hty. destruct (proxy_run c p type elem Hs He) as (c2 & -> & H2 & Hd & He2 & _ & H). rewrite decide_False in H by done.
    destruct H as [Hw2 _]. split; [|exact Hd]. split; [exact H2|]. cbn. by rewrite Hw2, He2. }
  destruct i as [| | |[] p|type p]; try done.
  - destruct (timers c) as [|n l] eqn:Et.
    + unfold handle. rewrite bind_run, gets_run. cbn [id]. rewrite Et. cbn [given]. rewrite app_nil_r. by split.
    + destruct (timer_run c n l Hs Et) as (c2 & E & _ & _ & Hw2 & _ & Hd & Hel). rewrite E in *. cbn [snd] in *.
      rewrite app_nil_r. split; [|exact Hd]. split; [done|]. rewrite Hw2. split; [done|].
      destruct Hel as [->|[_ ?]]; [done|congruence].
  - unfold handle. rewrite bind_run, gets_run. cbn [id]. rewrite Hw. by apply Hproxy.
  - unfold handle. rewrite bind_run, gets_run. cbn [id]. rewrite (so_shown _ Hs), Hw. cbn [andb].
    rewrite bool_decide_true by (cbn in Hi; set_solver). apply Hproxy. destruct Hi as [->| ->]; discriminate.
Qed.

Definition run (l : list input) c : capture := fold_left (fun c i => (handle i c).2) l c.

Lemma run_sound l c : sound c -> sound (run l c).
Proof. revert c. induction l as [|i l IH]; intros c Hc; [done|]. apply IH. by apply handle_sound. Qed.

Lemma run_holds elem l c :
  Forall holding l -> holds elem c ->
  holds elem (run l c) /\ dispatched (run l c) = dispatched c ++ concat (map (given elem) l).
Proof.
  intros Hl. revert c. induction Hl as [|i l Hi _ IH]; intros c Hc; [by rewrite app_nil_r|].
  destruct (holding_step elem i c Hi Hc) as [Hc' Hd]. destruct (IH _ Hc') as [H1 H2]. split; [exact H1|].
  change (run (i :: l) c) with (run l (handle i c).2). by rewrite H2, Hd, <- app_assoc.
Qed.

(** All timers go off. *)
Lemma timers_end c :
  sound c -> window_listening c = false -> captureElem c = None \/ captureIndex c ∈ timers c ->
  captureElem (run (replicate (length (timers c)) ITimer) c) = None.
Proof.
  remember (timers c) as l eqn:El. revert c El. induction l as [|n l IH]; intros c El Hs Hw Hc.
  { destruct Hc as [Hc|Hc]; [exact Hc|by apply elem_of_nil in Hc]. }
  destruct (timer_run c n l Hs (eq_sym El)) as (c' & E & Hs' & Ht & Hw' & Hi & _ & _). cbn [length replicate].
  change (run (ITimer :: ?k) c) with (run k (handle ITimer c).2). rewrite E. cbn [snd].
  apply IH; [done|done|congruence|]. destruct (decide (captureIndex c = n)) as [En|En].
  - left. revert E. unfold handle, release_timeout. run_monad. cbn. rewrite <- El. cbn.
    rewrite bool_decide_true by done. cbn. by intros [= <-].
  - destruct Hc as [Hc|Hc].
    + left. revert E. unfold handle, release_timeout. run_monad. cbn. rewrite <- El. cbn.
      rewrite bool_decide_false by done. cbn. by intros [= <-].
    + right. apply elem_of_cons in Hc as [?|Hc]; [congruence|]. by rewrite Hi.
Qed.

(** Held, a release is heard wherever it is. *)
Lemma release_heard i c :
  releases i -> window_listening c = true -> proxy_shown c = window_listening c ->
  exists prevented, handle i c = captureProxy prevented "mouseup" c.
Proof.
  intros Hi Hw Hp. unfold handle. rewrite bind_run, gets_run. cbn [id].
  destruct i as [| | |[] p|type p]; try done; cbn in Hi.
  - rewrite Hw. by exists p.
  - subst type. rewrite Hp, Hw. cbn [andb]. rewrite bool_decide_true by set_solver. by exists p.
Qed.

(** [C40] Holding the mouse: from any reachable state, an element that captures the mouse
    is given every motion there is, over the page (by the proxy) and outside (by the
    window), and keeps the capture through it and through all timers of captures
    before its own; it is given the release of the button too, be it over the page
    or outside; and with that the capture ends: neither the window nor the proxy is
    listened to any more, and when the timers have gone off no element has the
    mouse. *)
Theorem capture_holds (elem : nat) (l1 l2 : list input) (up : input) :
  Forall holding l2 -> releases up ->
  let c1 := (handle (ISet elem) (run l1 initial)).2 in
  let c2 := run l2 c1 in
  let c3 := (handle up c2).2 in
  captureElem c2 = Some elem
  /\ dispatched c3 = dispatched (run l1 initial) ++ concat (map (given elem) l2) ++ [(elem, "mouseup"%string)]
  /\ window_listening c3 = false /\ proxy_shown c3 = false
  /\ captureElem (run (replicate (length (timers c3)) ITimer) c3) = None.
Proof.
  intros Hl Hup c1 c2 c3. destruct (set_run elem (run l1 initial) (run_sound _ _ sound_initial)) as (c1' & E1 & Hs1 & Hw1 & He1 & Hd1).
  assert (H1 : holds elem c1) by (unfold c1; rewrite E1; by split).
  destruct (run_holds elem l2 c1 Hl H1) as [(Hs2 & Hw2 & He2) Hd2]. fold c2 in Hs2, Hw2, He2, Hd2.
  assert (Hc1 : dispatched c1 = dispatched (run l1 initial)) by (unfold c1; by rewrite E1).
  split; [exact He2|]. destruct (release_heard up c2 Hup Hw2 (so_shown _ Hs2)) as [prevented E3]. unfold c3. rewrite E3.
  destruct (proxy_run c2 prevented "mouseup" elem Hs2 He2) as (c4 & -> & Hs4 & Hd4 & _ & Hi4 & H4). cbn [snd].
  rewrite decide_True in H4 by done. destruct H4 as [Hw4 Hin].
  split; [by rewrite Hd4, Hd2, Hc1, <- app_assoc|]. split; [exact Hw4|].
  split; [by rewrite (so_shown _ Hs4)|]. apply timers_end; [done|done|]. right. by rewrite Hi4.
Qed.

End CaptureProperties.

(** ** Examples *)

Section Examples.
Import EventTarget Capture.

(** A press on element 1 right after one on element 2 was released. *)
Lemma capture_holds_witness :
  let l1 := [ISet 2; IProxy "mouseup" false] in
  captureElem (run [IProxy "mousemove" true; ITimer; IWindow false true] (handle (ISet 1) (run l1 initial)).2) = Some 1%nat.
Proof.
  intros l1. apply (capture_holds 1 l1 _ (IProxy "mouseup" true)); [|reflexivity]. constructor; [by right|]. repeat constructor.
Defined.

(** Two callbacks, of which one is added twice and one removed and added again; each
    call is logged. *)
Definition log_call (c : nat) : M (target nat (list nat)) unit :=
  modify (fun t => Target (listeners t) (rest t ++ [c])).
Definition three : list registration :=
  [Add "bell" 1%nat; Add "bell" 2%nat; Add "bell" 1%nat; Add "clipboard" 3%nat; Remove "bell" 1%nat; Add "bell" 1%nat].

Lemma dispatch_reaches_witness :
  rest (dispatchEvent log_call (fun _ => false) 4 "bell" (registrations three (Target ∅ []))).2 = [2%nat; 1%nat].
Proof.
  rewrite (proj1 (dispatch_reaches log_call (fun _ => false) three "bell" [] 4
    ltac:(intros c t; by eexists) ltac:(vm_compute; lia))).
  vm_compute. reflexivity.
Defined.

End Examples.
