(* ===== verification/Lz4.v ===== *)
(** * The LZ4 block decoder of the web client
    (src/RemoteDesktop/WebClient/lz4dec.js)

    The decoder [decompressBlock] with its three ways of copying a match, the
    helpers [makeBuffer] and [sliceArray], and [decompress], which the client
    calls on every LZ4 region.  A Uint8ClampedArray is the list of its bytes; reads off its
    ends give [undefined], writes there are ignored.  The reference is the LZ4
    block format: a list of sequences, their byte encoding and their expansion. *)

From S2P Require Import Prelude.

(** ** Typed array primitives of ECMA-262 *)

(** A relative index argument of [fill], [copyWithin] and [slice]. *)
Definition rel_index (len : Z) (x : num) : Z :=
  let k := default 0 x in
  if k <? 0 then Z.max (len + k) 0 else Z.min k len.

Definition ta_fill (l : list Z) (v : Z) (start fin : num) : list Z :=
  let s := Z.to_nat (rel_index (zlen l) start) in
  let e := Z.to_nat (rel_index (zlen l) fin) in
  if decide (s < e)%nat then take s l ++ replicate (e - s) v ++ drop e l else l.

Definition ta_copyWithin (l : list Z) (target start fin : num) : list Z :=
  let to := rel_index (zlen l) target in
  let from := rel_index (zlen l) start in
  let final := rel_index (zlen l) fin in
  let count := Z.to_nat (Z.min (final - from) (zlen l - to)) in
  let to := Z.to_nat to in
  take to l ++ take count (drop (Z.to_nat from) l) ++ drop (to + count) l.

Definition ta_slice (l : list Z) (start fin : num) : list Z :=
  let s := Z.to_nat (rel_index (zlen l) start) in
  let e := Z.to_nat (rel_index (zlen l) fin) in
  take (e - s) (drop s l).

(** Read and write at an index that may be NaN. *)
Definition nget (l : list Z) (i : num) : num := i ≫= aget l.
Definition nset (l : list Z) (i : num) (v : Z) : list Z :=
  match i with Some i => aset l i v | None => l end.

Arguments nget : simpl never.
Arguments nset : simpl never.

Definition ninc (x : num) : num := nadd x (Some 1).

Module LZ4.
Import Prelude.
Local Open Scope js_scope.

Definition minMatch : Z := 4.

(** [new Uint8ClampedArray(size)]; a negative size throws in the [try] and
    again in the [new Array(size)] of the handler. *)
Definition makeBuffer (size : Z) : outcome (list Z) :=
  if size <? 0 then Throw RangeError else Ret (replicate (Z.to_nat size) 0).

(** The polyfill's copy loop [for (i = start, n = 0; i < end;)]. *)
Fixpoint slice_copy (k : nat) (array arraySlice : list Z) (i n : Z) : list Z :=
  match k with
  | O => arraySlice
  | S k => slice_copy k array
             (aset arraySlice n (toUint8Clamp (default 0 (aget array i)))) (i + 1) (n + 1)
  end.

(** [native]: Uint8ClampedArray.prototype.slice exists.  [typeof array.buffer]
    is a string, so the outer test always holds. *)
Definition sliceArray (native : bool) (array : list Z) (start : Z) (fin : num)
    : outcome (list Z) :=
  if native then Ret (ta_slice array (Some start) fin)
  else
    let len := zlen array in
    let start := start |. 0 in
    let start := if start <? 0 then Z.max (len + start) 0 else Z.min start len in
    let fin := nint fin in
    let fin := if fin <? 0 then Z.max (len + fin) 0 else Z.min fin len in
    if fin <? start then Throw RangeError  (* new Uint8ClampedArray(fin - start) *)
    else Ret (slice_copy (Z.to_nat (fin - start)) array
                (replicate (Z.to_nat (fin - start)) 0) start 0).

(** [while (true) { count += src[sIndex]; if (src[sIndex++] !== 0xff) break; }],
    on what [src] holds from [sIndex] on. *)
Fixpoint extend_length (rest : list Z) (count : num) (sIndex : Z) : num * Z :=
  match rest with
  | [] => (None, sIndex + 1)
  | b :: rest =>
      let count := nadd count (Some b) in
      if b =? 255 then extend_length rest count (sIndex + 1) else (count, sIndex + 1)
  end.

(** A nibble of the token, extended when it is 15. *)
Definition parse_length (src : list Z) (nibble : Z) (sIndex : Z) : num * Z :=
  if nibble =? 15 then extend_length (drop (Z.to_nat sIndex) src) (Some nibble) sIndex
  else (Some nibble, sIndex).

(** [for (n = sIndex + literalCount; sIndex < n;) dst[dIndex++] = src[sIndex++]] *)
Fixpoint copy_literals (k : nat) (src dst : list Z) (sIndex : Z) (dIndex : num)
    : list Z * Z * num :=
  match k with
  | O => (dst, sIndex, dIndex)
  | S k => copy_literals k src
             (nset dst dIndex (toUint8Clamp (default 0 (aget src sIndex))))
             (sIndex + 1) (ninc dIndex)
  end.

(** [for (...; i < n;) dst[dIndex++] = dst[i++] | 0] *)
Fixpoint copy_match (k : nat) (dst : list Z) (i dIndex : num) : list Z * num :=
  match k with
  | O => (dst, dIndex)
  | S k => copy_match k (nset dst dIndex (toUint8Clamp (nint (nget dst i))))
             (ninc i) (ninc dIndex)
  end.

(** The match copy of one sequence: [hasCopyWithin] chooses the fast paths. *)
Definition copy_any (hasCopyWithin : bool) (dst : list Z) (dIndex : num)
    (mOffset : Z) (mLength : num) : list Z * num :=
  let back := nadd dIndex (Some (- mOffset)) in
  if hasCopyWithin && (mOffset =? 1) then
    (ta_fill dst (toUint8Clamp (nint (nget dst (nadd dIndex (Some (-1))))))
       dIndex (nadd dIndex mLength), nadd dIndex mLength)
  else if hasCopyWithin && nlt mLength (Some mOffset) && nlt (Some 31) mLength then
    (ta_copyWithin dst dIndex back (nadd back mLength), nadd dIndex mLength)
  else
    copy_match (match nadd back mLength with
                | Some _ => Z.to_nat (default 0 mLength)
                | None => O
                end) dst back dIndex.

(** [var literalCount = (token >> 4); if (literalCount > 0) { ... }] *)
Definition read_literals (src dst : list Z) (token sIndex : Z) (dIndex : num)
    : list Z * Z * num :=
  let literalCount := token >>. 4 in
  if 0 <? literalCount then
    let '(literalCount, sIndex) := parse_length src literalCount sIndex in
    copy_literals (Z.to_nat (default 0 literalCount)) src dst sIndex dIndex
  else (dst, sIndex, dIndex).

(** The main loop; [None] when the fuel runs out. *)
Fixpoint decompress_loop (fuel : nat) (hasCopyWithin : bool) (src dst : list Z)
    (sIndex sEnd : Z) (dIndex : num) : option (list Z * num) :=
  match fuel with
  | O => None
  | S fuel =>
    if sIndex <? sEnd then
      let token := nint (aget src sIndex) in
      let sIndex := sIndex + 1 in
      let '(dst, sIndex, dIndex) := read_literals src dst token sIndex dIndex in
      if sEnd <=? sIndex then Some (dst, dIndex)
      else
        let mLength := token &. 0xf in
        let mOffset := nint (aget src sIndex) |. (nint (aget src (sIndex + 1)) <<. 8) in
        let sIndex := sIndex + 2 in
        let '(mLength, sIndex) := parse_length src mLength sIndex in
        let mLength := nadd mLength (Some minMatch) in
        let '(dst, dIndex) := copy_any hasCopyWithin dst dIndex mOffset mLength in
        decompress_loop fuel hasCopyWithin src dst sIndex sEnd dIndex
    else Some (dst, dIndex)
  end.

(** Every round of the loop advances [sIndex], so [sLength + 1] rounds suffice. *)
Definition decompressBlock (hasCopyWithin : bool) (src dst : list Z)
    (sIndex sLength : Z) (dIndex : Z) : option (list Z * num) :=
  let sEnd := sIndex + sLength in
  decompress_loop (S (Z.to_nat (sEnd - sIndex))) hasCopyWithin src dst sIndex sEnd
    (Some dIndex).

Definition decompress (native hasCopyWithin : bool) (src : list Z) (maxSize : Z)
    : option (outcome (list Z)) :=
  match makeBuffer maxSize with
  | Throw e => Some (Throw e)
  | Ret dst =>
      '(dst, size) ← decompressBlock hasCopyWithin src dst 0 maxSize 0;
      Some (if decide (size = Some maxSize) then Ret dst
            else sliceArray native dst 0 size)
  end.

End LZ4.

(** ** The LZ4 block format *)

Module Lz4Format.

(** A sequence: literals, then a match of [mlen] bytes [off] bytes back. *)
Record seq := Seq { lits : list Z; off : Z; mlen : Z }.
(** A block: sequences, then the last literals, which have no match. *)
Record block := Block { seqs : list seq; final : list Z }.

(** The bytes after a nibble of 15. *)
Definition ext_bytes (n : Z) : list Z :=
  if n <? 15 then []
  else replicate (Z.to_nat ((n - 15) / 255)) 255 ++ [(n - 15) mod 255].

Definition enc_literals (low : Z) (l : list Z) : list Z :=
  (Z.min (zlen l) 15 * 16 + low) :: ext_bytes (zlen l) ++ l.

Definition enc_seq (s : seq) : list Z :=
  enc_literals (Z.min (mlen s - 4) 15) (lits s)
  ++ [off s mod 256; off s / 256] ++ ext_bytes (mlen s - 4).

Definition enc_seqs (l : list seq) : list Z := concat (map enc_seq l).
Definition encode (b : block) : list Z := enc_seqs (seqs b) ++ enc_literals 0 (final b).

(** [k] bytes, one at a time, each from [o] bytes back. *)
Fixpoint expand_match (k : nat) (out : list Z) (o : nat) : list Z :=
  match k with
  | O => out
  | S k => expand_match k (out ++ [default 0 (out !! (length out - o)%nat)]) o
  end.

Definition expand_seq (out : list Z) (s : seq) : list Z :=
  expand_match (Z.to_nat (mlen s)) (out ++ lits s) (Z.to_nat (off s)).

Definition expand (b : block) : list Z := foldl expand_seq [] (seqs b) ++ final b.

Definition seq_ok (out : list Z) (s : seq) : Prop :=
  bytes (lits s) /\ 4 <= mlen s /\ 1 <= off s < 65536
  /\ off s <= zlen (out ++ lits s).

Fixpoint seqs_ok (out : list Z) (l : list seq) : Prop :=
  match l with
  | [] => True
  | s :: l => seq_ok out s /\ seqs_ok (expand_seq out s) l
  end.

Definition block_ok (b : block) : Prop := seqs_ok [] (seqs b) /\ bytes (final b).

#[export] Instance seq_ok_dec out s : Decision (seq_ok out s).
Proof. unfold seq_ok. apply _. Defined.
#[export] Instance seqs_ok_dec out l : Decision (seqs_ok out l).
Proof. revert out. induction l; simpl; intros; apply _. Defined.
#[export] Instance block_ok_dec b : Decision (block_ok b).
Proof. unfold block_ok. apply _. Defined.

End Lz4Format.

(** ** Lemmas: the token, the offset and the lengths *)

Section Lengths.
Import Lz4Format LZ4.

Lemma js_token_hi hi lo :
  0 <= hi < 16 -> 0 <= lo < 16 -> js_shr (hi * 16 + lo) 4 = hi.
Proof.
  intros. unfold js_shr. rewrite toInt32_small by lia.
  change (4 mod 32) with 4. rewrite Z.shiftr_div_pow2 by lia. zlia.
Qed.

Lemma js_token_lo hi lo :
  0 <= hi < 16 -> 0 <= lo < 16 -> js_and (hi * 16 + lo) 15 = lo.
Proof.
  intros. unfold js_and. rewrite toInt32_small, (toInt32_small 15) by lia.
  change 15 with (Z.ones 4). rewrite Z.land_ones by lia. zlia.
Qed.

Lemma js_offset o :
  0 <= o < 65536 -> js_or (o mod 256) (js_shl (o / 256) 8) = o.
Proof.
  intros. assert (0 <= o / 256 < 256) by zlia. assert (0 <= o mod 256 < 256) by zlia.
  unfold js_or, js_shl. change (8 mod 32) with 8.
  rewrite (toInt32_small (o mod 256)), (toInt32_small (o / 256)) by lia.
  rewrite Z.shiftl_mul_pow2 by lia. change (2 ^ 8) with 256.
  rewrite 2!(toInt32_small (o / 256 * 256)) by lia.
  rewrite <- Z.lxor_lor, <- Z.add_nocarry_lxor.
  1: zlia.
  all: apply Z.bits_inj'; intros i Hi; rewrite Z.land_spec, Z.bits_0;
    change 256 with (2 ^ 8); destruct (Z.lt_ge_cases i 8);
    [rewrite Z.mul_pow2_bits_low by lia | rewrite Z.mod_pow2_bits_high by lia];
    rewrite ?andb_false_r; done.
Qed.

(** Reading a length back from its extension bytes. *)
Lemma extend_length_ext n pre post s k :
  0 <= n ->
  extend_length (replicate k 255 ++ [n mod 255] ++ post) (Some pre) s
    = (Some (pre + 255 * Z.of_nat k + n mod 255), s + Z.of_nat k + 1).
Proof.
  intros Hn. revert pre s. induction k as [|k IH]; intros; cbn -[Z.modulo Z.mul Z.of_nat].
  - rewrite (proj2 (Z.eqb_neq _ _)) by zlia. f_equal; [f_equal|]; lia.
  - rewrite IH. f_equal; [f_equal|]; lia.
Qed.

Lemma parse_length_enc pre n post :
  0 <= n ->
  parse_length (pre ++ ext_bytes n ++ post) (Z.min n 15) (zlen pre)
    = (Some n, zlen pre + zlen (ext_bytes n)).
Proof.
  intros Hn. unfold parse_length, ext_bytes. destruct (Z.ltb_spec n 15).
  - rewrite (proj2 (Z.eqb_neq _ _)) by lia. f_equal; [f_equal; lia|]. unfold zlen; simpl; lia.
  - rewrite (proj2 (Z.eqb_eq (Z.min n 15) 15)) by lia.
    unfold zlen at 1 2. rewrite Nat2Z.id, drop_app_length.
    rewrite <- app_assoc, extend_length_ext by lia.
    rewrite zlen_app. unfold zlen. rewrite length_replicate. simpl.
    assert (0 <= (n - 15) / 255) by zlia. f_equal; [f_equal|]; zlia.
Qed.

End Lengths.

(** ** Lemmas: the three ways of copying *)

Section Copies.
Import Lz4Format LZ4.
Implicit Types (out rest src l : list Z).

Lemma nset_mid out x rest v : nset (out ++ x :: rest) (Some (zlen out)) v = out ++ v :: rest.
Proof. apply aset_mid. Qed.

Lemma copy_literals_spec l pre post out rest :
  bytes l -> (length l <= length rest)%nat ->
  copy_literals (length l) (pre ++ l ++ post) (out ++ rest) (zlen pre) (Some (zlen out))
    = (out ++ l ++ drop (length l) rest, zlen pre + zlen l, Some (zlen out + zlen l)).
Proof.
  revert pre out rest. induction l as [|x l IH]; intros pre out rest Hb Hr; simpl.
  - unfold zlen; simpl. rewrite drop_0. repeat f_equal; lia.
  - destruct rest as [|y rest]; simpl in Hr; [lia|]. inversion_clear Hb as [|? ? Hx Hl].
    rewrite aget_mid. simpl. rewrite toUint8Clamp_byte by done.
    rewrite (nset_mid out y rest x).
    rewrite <- (zlen_snoc pre x), <- (zlen_snoc out x).
    replace (pre ++ x :: l ++ post) with ((pre ++ [x]) ++ l ++ post) by by rewrite <- app_assoc.
    replace (out ++ x :: rest) with ((out ++ [x]) ++ rest) by by rewrite <- app_assoc.
    rewrite IH by (done || lia). rewrite <- !app_assoc, !zlen_snoc, zlen_cons. simpl.
    f_equal; [f_equal|f_equal]; lia.
Qed.

Lemma expand_match_length k out o : length (expand_match k out o) = (length out + k)%nat.
Proof. revert out. induction k; intros; simpl; [lia|]. rewrite IHk, length_app. simpl. lia. Qed.

Lemma expand_match_snoc k out o :
  expand_match (S k) out o
    = expand_match k out o ++ [default 0 (expand_match k out o !! (length out + k - o)%nat)].
Proof.
  revert out. induction k as [|k IH]; intros.
  - simpl. by rewrite Nat.add_0_r.
  - change (expand_match (S (S k)) out o) with
      (expand_match (S k) (out ++ [default 0 (out !! (length out - o)%nat)]) o).
    rewrite IH, length_app. simpl length. replace (length out + 1 + k - o)%nat
      with (length out + S k - o)%nat by lia. done.
Qed.

Lemma default_byte out i : bytes out -> is_byte (default 0 (out !! i)).
Proof.
  intros H. destruct (out !! i) eqn:E; simpl; [|unfold is_byte; lia].
  by eapply (Forall_lookup_1 is_byte).
Qed.

Lemma expand_match_bytes k out o : bytes out -> bytes (expand_match k out o).
Proof.
  revert out. induction k; intros; simpl; [done|]. apply IHk.
  apply Forall_app; split; [done|]. repeat constructor; apply default_byte; done.
Qed.

Lemma nget_back out rest (o : nat) :
  (1 <= o <= length out)%nat ->
  nget (out ++ rest) (Some (zlen out - Z.of_nat o)) = out !! (length out - o)%nat.
Proof.
  intros. unfold nget, zlen. simpl.
  replace (Z.of_nat (length out) - Z.of_nat o) with (Z.of_nat (length out - o)) by lia.
  rewrite aget_nat. apply lookup_app_l. lia.
Qed.

Lemma clamp_int_byte (x : num) :
  is_byte (default 0 x) -> toUint8Clamp (nint x) = default 0 x.
Proof. intros. unfold nint. rewrite toInt32_byte, toUint8Clamp_byte; done. Qed.

Lemma copy_match_spec k out rest o :
  bytes out -> (1 <= o <= length out)%nat -> (k <= length rest)%nat ->
  copy_match k (out ++ rest) (Some (zlen out - Z.of_nat o)) (Some (zlen out))
    = (expand_match k out o ++ drop k rest, Some (zlen out + Z.of_nat k)).
Proof.
  revert out rest. induction k as [|k IH]; intros out rest Hb Ho Hr.
  - simpl. rewrite drop_0. do 2 f_equal. lia.
  - destruct rest as [|y rest]; simpl in Hr; [lia|]. simpl.
    rewrite nget_back, clamp_int_byte, nset_mid by (done || by apply default_byte).
    set (x := default 0 (out !! (length out - o)%nat)).
    replace (out ++ x :: rest) with ((out ++ [x]) ++ rest) by by rewrite <- app_assoc.
    replace (zlen out - Z.of_nat o + 1) with (zlen (out ++ [x]) - Z.of_nat o)
      by (rewrite zlen_snoc; lia).
    rewrite <- zlen_snoc with (x := x). rewrite IH.
    + rewrite zlen_snoc. do 2 f_equal. lia.
    + apply Forall_app; split; [done|]. repeat constructor; apply default_byte; done.
    + rewrite length_app. simpl. lia.
    + lia.
Qed.

(** A match one byte back repeats the last byte. *)
Lemma expand_match_repeat k out :
  out <> [] ->
  expand_match k out 1 = out ++ replicate k (default 0 (out !! (length out - 1)%nat)).
Proof.
  intros Hne. induction k as [|k IH]; [by rewrite app_nil_r|].
  rewrite expand_match_snoc, IH, <- app_assoc. f_equal.
  rewrite replicate_S_end. do 2 f_equal.
  destruct k as [|k].
  - rewrite app_nil_r. do 2 f_equal. lia.
  - rewrite lookup_app_r by lia. rewrite lookup_replicate_2 by lia. done.
Qed.

(** A match at least as far back as it is long copies old bytes only. *)
Lemma expand_match_disjoint k out o :
  (k <= o <= length out)%nat ->
  expand_match k out o = out ++ take k (drop (length out - o) out).
Proof.
  intros H. induction k as [|k IH]; [by rewrite app_nil_r|].
  rewrite expand_match_snoc, IH, <- app_assoc by lia. f_equal.
  assert (is_Some (out !! (length out - o + k)%nat)) as [x Hx] by (apply lookup_lt_is_Some; lia).
  rewrite (take_S_r _ _ x) by by rewrite lookup_drop. do 2 f_equal.
  rewrite lookup_app_l by lia. replace (length out + k - o)%nat with (length out - o + k)%nat by lia.
  by rewrite Hx.
Qed.

Lemma rel_index_in len i : 0 <= i <= len -> rel_index len (Some i) = i.
Proof. intros. unfold rel_index. simpl. rewrite (proj2 (Z.ltb_ge _ _)); lia. Qed.

Lemma ta_fill_spec out rest v k :
  (0 < k <= length rest)%nat ->
  ta_fill (out ++ rest) v (Some (zlen out)) (Some (zlen out + Z.of_nat k))
    = out ++ replicate k v ++ drop k rest.
Proof.
  intros H. unfold ta_fill.
  rewrite !rel_index_in by (rewrite ?zlen_app; unfold zlen; lia).
  unfold zlen. rewrite decide_True by lia.
  rewrite <- Nat2Z.inj_add, !Nat2Z.id, take_app_length.
  rewrite <- drop_drop, drop_app_length. do 3 f_equal. lia.
Qed.

Lemma ta_copyWithin_spec out rest o k :
  (k <= o <= length out)%nat -> (k <= length rest)%nat ->
  ta_copyWithin (out ++ rest) (Some (zlen out)) (Some (zlen out - Z.of_nat o))
    (Some (zlen out - Z.of_nat o + Z.of_nat k))
    = out ++ take k (drop (length out - o) out) ++ drop k rest.
Proof.
  intros H Hr. unfold ta_copyWithin.
  rewrite !rel_index_in by (rewrite ?zlen_app; unfold zlen; lia).
  unfold zlen. rewrite length_app, Nat2Z.id, take_app_length.
  replace (Z.to_nat (Z.min _ _)) with k by lia. f_equal. f_equal.
  - replace (Z.to_nat _) with (length out - o)%nat by lia.
    rewrite drop_app_le by lia. rewrite take_app_le; [done|]. rewrite length_drop. lia.
  - by rewrite <- drop_drop, drop_app_length.
Qed.

(** All three copies of [copy_any] are the byte-by-byte copy of the format. *)
Lemma copy_any_spec cw out rest o m :
  bytes out -> 1 <= o <= zlen out -> 4 <= m <= zlen rest ->
  copy_any cw (out ++ rest) (Some (zlen out)) o (Some m)
    = (expand_match (Z.to_nat m) out (Z.to_nat o) ++ drop (Z.to_nat m) rest,
       Some (zlen out + m)).
Proof.
  intros Hb Ho Hm. unfold copy_any. simpl. unfold zlen in Ho, Hm.
  assert (Hm' : m = Z.of_nat (Z.to_nat m)) by lia.
  destruct (cw && (o =? 1)) eqn:E1; [|destruct (cw && _ && _) eqn:E2].
  - apply andb_prop in E1 as [_ E1]. apply Z.eqb_eq in E1 as ->.
    change (zlen out + -1) with (zlen out - Z.of_nat 1).
    rewrite (nget_back out rest 1), clamp_int_byte by (lia || by apply default_byte).
    assert (out <> []) by (intros ->; simpl in Ho; lia).
    rewrite Hm', ta_fill_spec by lia. rewrite Nat2Z.id.
    change (Z.to_nat 1) with 1%nat.
    rewrite expand_match_repeat by done. by rewrite <- app_assoc.
  - rewrite !andb_true_iff, !Z.ltb_lt in E2. destruct E2 as [[_ E2] E3].
    replace (zlen out + - o) with (zlen out - Z.of_nat (Z.to_nat o)) by lia.
    rewrite Hm' at 1 2. rewrite ta_copyWithin_spec by lia.
    rewrite expand_match_disjoint by lia. by rewrite <- app_assoc, <- Hm'.
  - replace (zlen out + - o) with (zlen out - Z.of_nat (Z.to_nat o)) by lia.
    rewrite copy_match_spec by (done || lia). by rewrite Z2Nat.id by lia.
Qed.

End Copies.

(** ** The main loop on an encoded block *)

Section Loop.
Import Lz4Format LZ4.
Implicit Types (out rest src l pre post dst : list Z).

Lemma enc_literals_head low l :
  exists t tl, enc_literals low l = t :: tl /\ t = Z.min (zlen l) 15 * 16 + low.
Proof. unfold enc_literals. eauto. Qed.

Lemma read_literals_enc low l pre post out rest :
  0 <= low < 16 -> bytes l -> (length l <= length rest)%nat ->
  let src := pre ++ enc_literals low l ++ post in
  let token := nint (aget src (zlen pre)) in
  js_and token 15 = low /\
  read_literals src (out ++ rest) token (zlen pre + 1) (Some (zlen out))
    = (out ++ l ++ drop (length l) rest, zlen pre + zlen (enc_literals low l),
       Some (zlen out + zlen l)).
Proof.
  intros Hlow Hb Hr. unfold enc_literals. simpl. rewrite aget_mid. unfold nint. simpl.
  pose proof (zlen_nonneg l). rewrite toInt32_small by lia.
  rewrite js_token_lo by lia. split; [done|]. unfold read_literals.
  rewrite js_token_hi by lia. set (t := _ * 16 + low).
  replace (pre ++ t :: (ext_bytes (zlen l) ++ l) ++ post)
    with ((pre ++ [t]) ++ ext_bytes (zlen l) ++ (l ++ post)) by (by rewrite <- !app_assoc).
  rewrite <- (zlen_snoc pre t). destruct (Z.ltb_spec 0 (Z.min (zlen l) 15)).
  - rewrite parse_length_enc by done. cbn -[Z.add].
    replace (Z.to_nat (zlen l)) with (length l) by (unfold zlen; lia).
    rewrite <- zlen_app, app_assoc, copy_literals_spec by done.
    rewrite !zlen_app, !zlen_cons, ?zlen_app. unfold zlen. simpl. f_equal. f_equal. lia.
  - destruct l; [|rewrite zlen_cons in *; pose proof (zlen_nonneg l); lia].
    simpl. rewrite drop_0, Z.add_0_r, zlen_snoc. done.
Qed.

Lemma loop_unfold f cw src dst s e d :
  s < e ->
  decompress_loop (S f) cw src dst s e d
    = let '(dst, s', d) := read_literals src dst (nint (aget src s)) (s + 1) d in
      if e <=? s' then Some (dst, d) else
      let '(m, s'') := parse_length src (js_and (nint (aget src s)) 15) (s' + 2) in
      let '(dst, d) := copy_any cw dst d
        (js_or (nint (aget src s')) (js_shl (nint (aget src (s' + 1))) 8))
        (nadd m (Some minMatch)) in
      decompress_loop f cw src dst s'' e d.
Proof. intros H. simpl. by rewrite (proj2 (Z.ltb_lt _ _)). Qed.

Lemma loop_seq f cw pre post out rest e s :
  bytes out -> seq_ok out s -> zlen (lits s) + mlen s <= zlen rest ->
  zlen pre + zlen (enc_seq s) < e ->
  decompress_loop (S f) cw (pre ++ enc_seq s ++ post) (out ++ rest) (zlen pre) e
    (Some (zlen out))
  = decompress_loop f cw ((pre ++ enc_seq s) ++ post)
      (expand_seq out s ++ drop (length (lits s) + Z.to_nat (mlen s)) rest)
      (zlen (pre ++ enc_seq s)) e (Some (zlen (expand_seq out s))).
Proof.
  intros Hb (Hl & Hm & Ho & Hoff) Hr He. pose proof (zlen_nonneg (enc_seq s)).
  rewrite loop_unfold by lia. rewrite <- app_assoc. unfold enc_seq in He |- *.
  set (low := Z.min (mlen s - 4) 15) in *.
  rewrite <- !app_assoc.
  set (tl := [off s mod 256; off s / 256] ++ _).
  destruct (read_literals_enc low (lits s) pre tl out rest) as [Hlow Hread];
    [lia|done|unfold zlen in *; lia|].
  cbv zeta in Hlow, Hread. rewrite Hread, Hlow. clear Hread.
  set (pre' := pre ++ enc_literals low (lits s)).
  replace (pre ++ enc_literals low (lits s) ++ tl) with (pre' ++ tl)
    by (unfold pre'; by rewrite <- app_assoc).
  rewrite <- zlen_app. fold pre'.
  rewrite !zlen_app in He. rewrite (proj2 (Z.leb_gt _ _))
    by (unfold pre'; rewrite zlen_app; pose proof (zlen_nonneg (ext_bytes (mlen s - 4)));
        unfold zlen in *; simpl in *; lia).
  unfold tl. simpl app.
  rewrite aget_mid, <- (zlen_snoc pre' (off s mod 256)).
  rewrite (cons_middle (off s mod 256)), app_assoc, aget_mid.
  unfold nint. simpl default. rewrite !toInt32_small by zlia. rewrite js_offset by lia.
  set (pre'' := pre' ++ [off s mod 256; off s / 256]).
  replace (zlen pre' + 2) with (zlen pre'') by (unfold pre''; by rewrite zlen_app).
  replace ((pre' ++ [off s mod 256]) ++ off s / 256 :: ext_bytes (mlen s - 4) ++ post)
    with (pre'' ++ ext_bytes (mlen s - 4) ++ post)
    by (unfold pre''; by rewrite <- !app_assoc).
  unfold low. rewrite parse_length_enc by lia. simpl nadd. unfold minMatch.
  replace (mlen s - 4 + 4) with (mlen s) by lia.
  rewrite app_assoc, <- (zlen_app out).
  rewrite copy_any_spec.
  - unfold expand_seq. rewrite drop_drop. unfold pre'', pre'.
    rewrite !zlen_app, <- !app_assoc. f_equal.
    + unfold enc_literals, low. simpl. rewrite !zlen_cons, !zlen_app, !zlen_cons. unfold zlen; simpl; lia.
    + unfold zlen. rewrite expand_match_length, length_app. f_equal. lia.
  - by apply Forall_app.
  - lia.
  - unfold zlen in *. rewrite length_drop. lia.
Qed.

Lemma copy_match_off k dst i d :
  zlen dst <= d -> copy_match k dst i (Some d) = (dst, Some (d + Z.of_nat k)).
Proof.
  revert i d. induction k as [|k IH]; intros; simpl; [do 2 f_equal; lia|].
  unfold nset at 1. rewrite aset_ge by done. simpl. rewrite IH by lia. do 2 f_equal. lia.
Qed.

(** Past the end of the input, every round reads zeros, moves [dIndex] on by
    four and writes off the end of the output. *)
Lemma copy_any_off cw dst d :
  zlen dst <= d -> copy_any cw dst (Some d) 0 (Some 4) = (dst, Some (d + 4)).
Proof.
  intros. unfold copy_any. replace (cw && (0 =? 1)) with false by by destruct cw.
  replace (cw && nlt (Some 4) (Some 0) && _) with false by by destruct cw.
  by rewrite copy_match_off.
Qed.

Lemma loop_off f cw src dst s e d :
  zlen src <= s -> zlen dst <= d -> (Z.to_nat (e - s) < f)%nat ->
  exists d', decompress_loop f cw src dst s e (Some d) = Some (dst, Some d') /\ d <= d'.
Proof.
  revert s d. induction f as [|f IH]; intros s d Hs Hd Hf; [lia|].
  destruct (Z.ltb_spec s e) as [Hlt|Hge].
  - rewrite loop_unfold by done. rewrite !aget_ge by done.
    unfold read_literals. change (js_shr (nint None) 4) with 0. simpl.
    destruct (Z.leb_spec e (s + 1)); [eauto with lia|].
    rewrite !aget_ge by (unfold zlen in *; lia).
    change (js_and (nint None) 15) with 0. unfold parse_length. simpl.
    change (js_or (nint None) (js_shl (nint None) 8)) with 0.
    rewrite copy_any_off by done.
    destruct (IH (s + 1 + 2) (d + 4)) as (d' & E & ?); [lia..|]. exists d'. split; [done|lia].
  - simpl. rewrite (proj2 (Z.ltb_ge _ _)) by done. eauto with lia.
Qed.

Lemma loop_final f cw pre out rest l e :
  bytes l -> length rest = length l -> zlen pre < e -> (Z.to_nat (e - zlen pre) < f)%nat ->
  exists d, decompress_loop f cw (pre ++ enc_literals 0 l) (out ++ rest) (zlen pre) e
              (Some (zlen out)) = Some (out ++ l, Some d)
    /\ zlen (out ++ l) <= d
    /\ (e <= zlen (pre ++ enc_literals 0 l) -> d = zlen (out ++ l)).
Proof.
  intros Hb Hrest He Hf. destruct f as [|f]; [lia|].
  rewrite loop_unfold by done.
  destruct (read_literals_enc 0 l pre [] out rest) as [Hlow Hread]; [lia|done|lia|].
  cbv zeta in Hlow, Hread. rewrite app_nil_r in Hlow, Hread. rewrite Hread, Hlow. clear Hread.
  rewrite drop_ge, app_nil_r, <- !zlen_app by lia.
  set (src := pre ++ _). destruct (Z.leb_spec e (zlen src)) as [|Hlt]; [eauto with lia|].
  rewrite !aget_ge by (unfold zlen in *; lia).
  unfold parse_length. simpl. change (js_or (nint None) (js_shl (nint None) 8)) with 0.
  rewrite copy_any_off by done.
  assert (zlen pre < zlen src).
  { unfold src, enc_literals. rewrite zlen_app, zlen_cons.
    pose proof (zlen_nonneg (ext_bytes (zlen l) ++ l)). lia. }
  destruct (loop_off f cw src (out ++ l) (zlen src + 2) e (zlen (out ++ l) + 4))
    as (d & -> & ?); [lia..|]. exists d. repeat split; lia.
Qed.

Lemma expand_seq_bytes out s : bytes out -> seq_ok out s -> bytes (expand_seq out s).
Proof. intros Hb (Hl & _). apply expand_match_bytes. by apply Forall_app. Qed.

Lemma expand_seq_length out s :
  0 <= mlen s -> zlen (expand_seq out s) = zlen out + zlen (lits s) + mlen s.
Proof. intros. unfold expand_seq, zlen. rewrite expand_match_length, length_app. lia. Qed.

Lemma expand_seqs_ge out (l : list seq) :
  seqs_ok out l -> zlen out <= zlen (foldl expand_seq out l).
Proof.
  revert out. induction l as [|s l IH]; intros out; [done|].
  intros [(? & ? & ?) Hok]; simpl.
  etransitivity; [|by apply IH]. rewrite expand_seq_length by lia.
  pose proof (zlen_nonneg (lits s)). lia.
Qed.

Lemma expand_seqs_bytes out (l : list seq) :
  bytes out -> seqs_ok out l -> bytes (foldl expand_seq out l).
Proof.
  revert out. induction l as [|s l IH]; intros out Hb; [done|].
  intros [Hs Hl]. cbn [foldl]. apply IH; [by apply expand_seq_bytes|done].
Qed.

Lemma expand_bytes b : block_ok b -> bytes (expand b).
Proof. intros [Hs Hf]. apply Forall_app. split; [by apply expand_seqs_bytes|done]. Qed.

Lemma enc_seq_pos s : 0 < zlen (enc_seq s).
Proof.
  unfold enc_seq, enc_literals. simpl. rewrite zlen_cons. pose proof
    (zlen_nonneg ((ext_bytes (zlen (lits s)) ++ lits s) ++
      off s mod 256 :: off s / 256 :: ext_bytes (mlen s - 4))). lia.
Qed.

Lemma enc_seqs_cons s (l : list seq) : enc_seqs (s :: l) = enc_seq s ++ enc_seqs l.
Proof. done. Qed.

(** A block, from any point of its sequences on. *)
Lemma loop_block cw (l : list seq) fin pre out rest e f :
  bytes out -> bytes fin -> seqs_ok out l ->
  zlen out + zlen rest = zlen (foldl expand_seq out l) + zlen fin ->
  zlen pre + zlen (enc_seqs l) < e -> (Z.to_nat (e - zlen pre) < f)%nat ->
  let src := pre ++ enc_seqs l ++ enc_literals 0 fin in
  let res := foldl expand_seq out l ++ fin in
  exists d, decompress_loop f cw src (out ++ rest) (zlen pre) e (Some (zlen out))
            = Some (res, Some d)
    /\ zlen res <= d /\ (e <= zlen src -> d = zlen res).
Proof.
  revert pre out rest f. induction l as [|s l IH]; intros pre out rest f Hb Hfb Hok Hlen He Hf.
  - simpl in *. change (zlen (enc_seqs [])) with 0 in He. apply loop_final; [done|unfold zlen in Hlen; lia|lia|done].
  - destruct Hok as [Hs Hok]. cbn [foldl] in *. destruct f as [|f]; [lia|].
    pose proof (enc_seq_pos s). pose proof (zlen_nonneg (enc_seqs l)).
    rewrite enc_seqs_cons, zlen_app in He. rewrite enc_seqs_cons.
    pose proof (expand_seqs_ge _ _ Hok) as Hge. pose proof Hs as (_ & ? & _).
    rewrite expand_seq_length in Hge by lia. pose proof (zlen_nonneg fin).
    rewrite <- app_assoc, loop_seq; [|done|done|lia|lia].
    rewrite (app_assoc pre (enc_seq s)). apply IH.
    + by apply expand_seq_bytes.
    + done.
    + done.
    + rewrite expand_seq_length by lia. rewrite <- Hlen. unfold zlen in *.
      rewrite length_drop. lia.
    + rewrite zlen_app. lia.
    + rewrite zlen_app. lia.
Qed.

End Loop.

(** ** Lemmas: termination on any input *)

Section Total.
Import LZ4.

Lemma extend_length_mono rest c s : s < (extend_length rest c s).2.
Proof.
  revert c s. induction rest as [|b rest IH]; intros; simpl; [lia|].
  destruct (b =? 255); simpl; [|lia]. specialize (IH (nadd c (Some b)) (s + 1)). lia.
Qed.

Lemma parse_length_mono src n s : s <= (parse_length src n s).2.
Proof.
  unfold parse_length. destruct (n =? 15); simpl; [|lia].
  pose proof (extend_length_mono (drop (Z.to_nat s) src) (Some n) s). lia.
Qed.

Lemma copy_literals_mono k src dst s d :
  s <= (copy_literals k src dst s d).1.2
  /\ length (copy_literals k src dst s d).1.1 = length dst.
Proof.
  revert dst s d. induction k as [|k IH]; intros; simpl; [lia|].
  destruct (IH (nset dst d (toUint8Clamp (default 0 (aget src s)))) (s + 1) (ninc d)) as [? ->].
  split; [lia|]. unfold nset. destruct d; [apply length_aset|done].
Qed.

Lemma read_literals_mono src dst t s d :
  s <= (read_literals src dst t s d).1.2
  /\ length (read_literals src dst t s d).1.1 = length dst.
Proof.
  unfold read_literals. destruct (0 <? _); [|simpl; lia].
  pose proof (parse_length_mono src (js_shr t 4) s). destruct (parse_length _ _ _) as [c s'].
  simpl in *. destruct (copy_literals_mono (Z.to_nat (default 0 c)) src dst s' d). lia.
Qed.

Lemma copy_match_length k dst i d : length (copy_match k dst i d).1 = length dst.
Proof.
  revert dst i d. induction k as [|k IH]; intros; simpl; [done|]. rewrite IH.
  unfold nset. destruct d; [apply length_aset|done].
Qed.

Lemma rel_index_range {A} (l : list A) x : 0 <= rel_index (zlen l) x <= zlen l.
Proof.
  unfold rel_index, zlen. destruct (Z.ltb_spec (default 0 x) 0); lia.
Qed.

Lemma copy_any_length cw dst d o m : length (copy_any cw dst d o m).1 = length dst.
Proof.
  unfold copy_any. destruct (cw && (o =? 1)); [|destruct (cw && _ && _)]; simpl.
  - unfold ta_fill. pose proof (rel_index_range dst d).
    pose proof (rel_index_range dst (nadd d m)). unfold zlen in *. case_decide; [|done].
    rewrite !length_app, length_take, length_replicate, length_drop. lia.
  - unfold ta_copyWithin. pose proof (rel_index_range dst d).
    pose proof (rel_index_range dst (nadd d (Some (- o)))).
    pose proof (rel_index_range dst (nadd (nadd d (Some (- o))) m)). unfold zlen in *.
    rewrite !length_app, !length_take, !length_drop. lia.
  - apply copy_match_length.
Qed.

Lemma loop_total f cw src dst s e d :
  (Z.to_nat (e - s) < f)%nat ->
  exists dst' d', decompress_loop f cw src dst s e d = Some (dst', d')
    /\ length dst' = length dst.
Proof.
  revert dst s d. induction f as [|f IH]; intros dst s d Hf; [lia|].
  destruct (Z.ltb_spec s e) as [Hlt|Hge].
  2:{ simpl. rewrite (proj2 (Z.ltb_ge _ _)) by done. eauto. }
  rewrite loop_unfold by done.
  destruct (read_literals_mono src dst (nint (aget src s)) (s + 1) d) as [Hs Hlen].
  destruct (read_literals _ _ _ _ _) as [[dst1 s1] d1]. simpl in Hs, Hlen.
  destruct (e <=? s1); [eauto|].
  pose proof (parse_length_mono src (js_and (nint (aget src s)) 15) (s1 + 2)).
  destruct (parse_length _ _ _) as [m s2]. simpl in *.
  pose proof (copy_any_length cw dst1 d1
    (js_or (nint (aget src s1)) (js_shl (nint (aget src (s1 + 1))) 8))
    (nadd m (Some minMatch))) as Hc.
  destruct (copy_any _ _ _ _ _) as [dst2 d2]. simpl in Hc.
  destruct (IH dst2 s2 d2) as (dst' & d' & -> & ?); [lia|]. eauto with congruence.
Qed.

(** The polyfill's loop, past the [n] bytes it has already copied. *)
Lemma slice_copy_spec k (array done_ todo : list Z) i :
  bytes array -> (i + k <= length array)%nat -> length todo = k ->
  slice_copy k array (done_ ++ todo) (Z.of_nat i) (zlen done_)
    = done_ ++ take k (drop i array).
Proof.
  revert done_ todo i. induction k as [|k IH]; intros dn todo i Hb Hk Ht.
  - destruct todo; [|done]. by rewrite !app_nil_r.
  - destruct todo as [|y todo]; [done|]. simpl. rewrite aget_nat.
    destruct (lookup_lt_is_Some_2 array i) as [x Hx]; [lia|]. rewrite Hx. simpl.
    rewrite toUint8Clamp_byte by by eapply (Forall_lookup_1 is_byte).
    pose proof (nset_mid dn y todo x) as Hm. unfold nset in Hm. rewrite Hm.
    rewrite (cons_middle x), app_assoc, <- (zlen_snoc dn x).
    replace (Z.of_nat i + 1) with (Z.of_nat (S i)) by lia.
    rewrite IH by (done || (simpl in Ht; lia)). rewrite <- app_assoc. f_equal.
    rewrite (drop_S _ _ _ Hx). done.
Qed.

End Total.

(** ** Lemmas: the whole of [decompress] *)

Section Decompress.
Import Lz4Format LZ4.

Lemma decompress_block cw b :
  block_ok b -> zlen (enc_seqs (seqs b)) < zlen (expand b) ->
  decompress true cw (encode b) (zlen (expand b)) = Some (Ret (expand b)).
Proof.
  intros [Hs Hf] Hlen. unfold decompress, makeBuffer.
  pose proof (zlen_nonneg (expand b)). rewrite (proj2 (Z.ltb_ge _ _)) by done.
  unfold decompressBlock. set (e := 0 + zlen (expand b)).
  set (dst := replicate _ _).
  assert (Hdst : length dst = length (expand b)).
  { unfold dst, zlen. rewrite length_replicate. lia. }
  destruct (loop_block cw (seqs b) (final b) [] [] dst e (S (Z.to_nat (e - 0))))
    as (d & E & Hd & _); try done.
  - unfold zlen. simpl. rewrite Hdst. unfold expand. rewrite length_app. lia.
  - change (zlen []) with 0. unfold e. lia.
  - cbn [app] in E. change (zlen []) with 0 in E. unfold encode. rewrite E.
    fold (expand b) in Hd |- *. simpl. case_decide as Heq; [done|].
    unfold sliceArray, ta_slice. rewrite (rel_index_in _ 0) by lia.
    unfold rel_index. simpl. rewrite (proj2 (Z.ltb_ge d 0)) by lia.
    rewrite Z.min_r by done. rewrite drop_0, take_ge; [done|]. unfold zlen. lia.
Qed.

End Decompress.

(** ** Properties *)

Section Properties.
Import Lz4Format LZ4.

(** [C8] The block decoder is right: given a well-formed LZ4 block and its
    length, it writes exactly the block's expansion over the output, and
    returns its length, whichever of the copying paths the browser has. *)
Theorem decompressBlock_encode cw b dst :
  block_ok b -> length dst = length (expand b) ->
  decompressBlock cw (encode b) dst 0 (zlen (encode b)) 0
    = Some (expand b, Some (zlen (expand b))).
Proof.
  intros [Hs Hf] Hlen. unfold decompressBlock, encode, expand in *.
  assert (0 < zlen (enc_literals 0 (final b))).
  { unfold enc_literals. rewrite zlen_cons.
    pose proof (zlen_nonneg (ext_bytes (zlen (final b)) ++ final b)). lia. }
  set (e := 0 + _).
  assert (He : e = zlen (enc_seqs (seqs b)) + zlen (enc_literals 0 (final b)))
    by (unfold e; by rewrite zlen_app).
  destruct (loop_block cw (seqs b) (final b) [] [] dst e (S (Z.to_nat (e - 0))))
    as (d & E & _ & Hd); try done.
  - unfold zlen. simpl. rewrite Hlen, length_app. lia.
  - change (zlen []) with 0. lia.
  - change (zlen []) with 0. lia.
  - cbn [app] in E. change (zlen []) with 0 in E. rewrite E. do 2 f_equal. f_equal.
    apply Hd. rewrite app_nil_l, zlen_app. lia.
Qed.

(** [decompress] gives back the expansion of a block whose sequences
    take fewer bytes than the decompressed image: it scans on past the end of
    the input, and what it reads there changes nothing. *)
Theorem decompress_encode cw b :
  block_ok b -> zlen (enc_seqs (seqs b)) < zlen (expand b) ->
  decompress true cw (encode b) (zlen (expand b)) = Some (Ret (expand b)).
Proof. apply decompress_block. Qed.

(** It is given the size of the image as the length of the input, so on
    incompressible data it stops early: a well-formed block decompresses to
    an image that is five bytes short. *)
Theorem decompress_truncates :
  exists b, block_ok b /\ zlen (expand b) = 1300 /\ zlen (encode b) = 1306
    /\ decompress true true (encode b) (zlen (expand b)) = Some (Ret (take 1295 (expand b))).
Proof.
  exists (Block [Seq (replicate 1291 7) 1 4] [1; 2; 3; 4; 5]).
  split; [by apply (bool_decide_unpack _); vm_compute|].
  split; [by vm_compute|]. split; [by vm_compute|].
  by apply (bool_decide_unpack _); vm_compute.
Qed.

(** [C29] The decoder returns on every input, well formed or not, and never
    changes the size of the output array. *)
Theorem decompressBlock_total cw src dst sIndex sLength dIndex :
  exists dst' d, decompressBlock cw src dst sIndex sLength dIndex = Some (dst', d)
    /\ length dst' = length dst.
Proof. apply loop_total. lia. Qed.

(** Where Uint8ClampedArray has no [slice], the polyfill returns what
    [slice] would. *)
Theorem sliceArray_polyfill array size :
  bytes array -> zlen array < 2 ^ 31 -> - 2 ^ 31 <= size < 2 ^ 31 ->
  sliceArray false array 0 (Some size) = sliceArray true array 0 (Some size).
Proof.
  intros Hb Hlen Hsz. unfold sliceArray, ta_slice. pose proof (zlen_nonneg array).
  change (js_or 0 0) with 0. rewrite (rel_index_in _ 0) by lia.
  unfold nint. simpl default. rewrite toInt32_small by done.
  change (0 <? 0) with false. cbv iota. rewrite (Z.min_l 0) by lia.
  fold (rel_index (zlen array) (Some size)).
  pose proof (rel_index_range array (Some size)) as Hr.
  change (if size <? 0 then _ else _) with (rel_index (zlen array) (Some size)).
  set (e := rel_index _ _) in *. rewrite (proj2 (Z.ltb_ge e 0)) by lia.
  rewrite Z.sub_0_r, Nat.sub_0_r, drop_0. f_equal.
  rewrite <- (drop_0 array) at 2.
  apply (slice_copy_spec (Z.to_nat e) array [] _ 0); [done|unfold zlen in *; lia|].
  apply length_replicate.
Qed.

(** *** The properties at concrete inputs *)

(** Literals, an overlapping match, a long run and the final literals. *)
Definition sample : block :=
  Block [Seq [10; 20; 30] 2 7; Seq (replicate 20 9) 1 40] [1; 2; 3; 4; 5].

Lemma sample_ok : block_ok sample.
Proof. apply (bool_decide_unpack _). vm_compute. exact I. Qed.

Lemma decompressBlock_encode_witness :
  decompressBlock true (encode sample) (replicate 75 0) 0 (zlen (encode sample)) 0
    = Some (expand sample, Some 75).
Proof. apply (decompressBlock_encode true sample (replicate 75 0)); [apply sample_ok|reflexivity]. Defined.

Lemma decompress_encode_witness :
  decompress true false (encode sample) 75 = Some (Ret (expand sample)).
Proof. apply (decompress_encode false sample); [apply sample_ok|reflexivity]. Defined.

Lemma sliceArray_polyfill_witness :
  sliceArray false [1; 2; 3; 4] 0 (Some 3) = sliceArray true [1; 2; 3; 4] 0 (Some 3).
Proof.
  apply (sliceArray_polyfill [1; 2; 3; 4] 3); [|done|lia].
  repeat constructor; unfold is_byte; lia.
Defined.

End Properties.
