(* ===== verification/WebClient.v ===== *)
(** * The web client of the remote desktop application
    (src/RemoteDesktop/WebClient/lilitun-remote-client.js)

    [start_client] opens one WebSocket and keeps everything in the closure of
    its handlers; that closure is the record [client], each handler is a
    method in [M client], and what a handler does to the outside world (bytes
    sent, timers started, pictures drawn, the error callback) is appended to
    [c_out].  A timer's callback reads [request] when it fires, so it is an event of
    its own; so is the loading of a JPEG picture, which is drawn only then. *)

From S2P Require Import Prelude Lz4.

Module WebClient.
Local Open Scope js_scope.

Definition CLIENT_ID : list Z := codes "Remote client application 1.0   ".

Inductive Request :=
  | REQ_ERROR | REQ_SCREEN_INFO | REQ_SCREEN_UPDATE | REQ_KEYBOARD | REQ_POINTER
  | REQ_USER_CONNECTION | REQ_USER_PASSWORD | REQ_APPSERVER_HOST | REQ_SESSION_ID
  | REQ_HOSTNAME | REQ_AUTHORIZATION | REQ_STOP | REQ_SIGNATURE.

Definition request_code (r : Request) : Z :=
  match r with
  | REQ_ERROR => 0 | REQ_SCREEN_INFO => 1 | REQ_SCREEN_UPDATE => 2
  | REQ_KEYBOARD => 3 | REQ_POINTER => 4 | REQ_USER_CONNECTION => 5
  | REQ_USER_PASSWORD => 6 | REQ_APPSERVER_HOST => 7 | REQ_SESSION_ID => 8
  | REQ_HOSTNAME => 9 | REQ_AUTHORIZATION => 10 | REQ_STOP => 11
  | REQ_SIGNATURE => 128
  end.

Definition PIX_RAW_RGBA := 0.
Definition PIX_RAW_BGRA := 1.
Definition PIX_JPEG_RGBA := 2.
Definition PIX_JPEG_BGRA := 3.
Definition PIX_LZ4_RGBA := 4.
Definition PIX_LZ4_BGRA := 5.

Inductive State := ReadUint32 | ReadData | ReadAck | ReadRegionHeader | ReadRegionData.

#[export] Instance Request_eq_dec : EqDecision Request.
Proof. solve_decision. Defined.
#[export] Instance State_eq_dec : EqDecision State.
Proof. solve_decision. Defined.

Local Open Scope string_scope.
Definition Keys : list (string * Z) :=
  [("Escape", 0xff1b); ("F1", 0xffbe); ("F2", 0xffbf);
   ("F3", 0xffc0); ("F4", 0xffc1); ("F5", 0xffc2);
   ("F6", 0xffc3); ("F7", 0xffc4); ("F8", 0xffc5);
   ("F9", 0xffc6); ("F10", 0xffc7); ("F11", 0xffc8);
   ("F12", 0xffc9); ("PrintScreen", 0xff61); ("Delete", 0xffff);
   ("Backquote", 0x060); ("Digit1", 0x031); ("Digit2", 0x032);
   ("Digit3", 0x033); ("Digit4", 0x034); ("Digit5", 0x035);
   ("Digit6", 0x036); ("Digit7", 0x037); ("Digit8", 0x038);
   ("Digit9", 0x039); ("Digit0", 0x030); ("Minus", 0x02d);
   ("Equal", 0x03d); ("Backspace", 0xff08); ("Tab", 0xff09);
   ("KeyQ", 0x071); ("KeyW", 0x077); ("KeyE", 0x065);
   ("KeyR", 0x072); ("KeyT", 0x074); ("KeyY", 0x079);
   ("KeyU", 0x075); ("KeyI", 0x069); ("KeyO", 0x06f);
   ("KeyP", 0x070); ("BracketLeft", 0x05b); ("BracketRight", 0x05d);
   ("CapsLock", 0xffe5); ("KeyA", 0x061); ("KeyS", 0x073);
   ("KeyD", 0x064); ("KeyF", 0x066); ("KeyG", 0x067);
   ("KeyH", 0x068); ("KeyJ", 0x06a); ("KeyK", 0x06b);
   ("KeyL", 0x06c); ("Semicolon", 0x03b); ("Quote", 0x027);
   ("Backslash", 0x05c); ("Enter", 0xff0d); ("ShiftLeft", 0xffe1);
   ("IntlBackslash", 0x03c); ("KeyZ", 0x07a); ("KeyX", 0x078);
   ("KeyC", 0x063); ("KeyV", 0x076); ("KeyB", 0x062);
   ("KeyN", 0x06e); ("KeyM", 0x06d); ("Comma", 0x02c);
   ("Period", 0x02e); ("Slash", 0x02f); ("ShiftRight", 0xffe2);
   ("ControlLeft", 0xffe3); ("MetaLeft", 0xffe7); ("AltLeft", 0xffe9);
   ("Space", 0x020); ("AltRight", 0xffea); ("ControlRight", 0xffe4);
   ("ArrowLeft", 0xff51); ("ArrowUp", 0xff52); ("ArrowRight", 0xff53);
   ("ArrowDown", 0xff54); ("Home", 0xff50); ("End", 0xff57);
   ("PageUp", 0xff55); ("PageDown", 0xff56); ("ScrollLock", 0xff14);
   ("Insert", 0xff63)].
Local Close Scope string_scope.

(** ** Wire encoding *)

Definition htonl (n : Z) : list Z :=
  [ toUint8 ((n &. 0xFF000000) >>>. 24);
    toUint8 ((n &. 0x00FF0000) >>>. 16);
    toUint8 ((n &. 0x0000FF00) >>>. 8);
    toUint8 ((n &. 0x000000FF) >>>. 0) ].

(** The argument of [ntohl]: an array, or (in one call) a single number. *)
Inductive jsarg := JArray (l : list num) | JNumber (n : num).

(** [n[i]]: [undefined] off an array and on a number; on [undefined] it throws. *)
Definition jsindex (n : jsarg) (i : nat) : outcome num :=
  match n with
  | JArray l => Ret (mjoin (l !! i))
  | JNumber (Some _) => Ret None
  | JNumber None => Throw TypeError
  end.

Definition ntohl (n : jsarg) : outcome Z :=
  n0 ← jsindex n 0; n1 ← jsindex n 1; n2 ← jsindex n 2; n3 ← jsindex n 3;
  Ret ((nint n0 <<. 24) |. (nint n1 <<. 16) |. (nint n2 <<. 8) |. nint n3).

(** [new Uint8Array(event.data)] as an argument of [ntohl]. *)
Definition JBytes (data : list Z) : jsarg := JArray (map Some data).

(** [ntohl([tmp[i], tmp[i+1], tmp[i+2], tmp[i+3]])] *)
Definition ntohl_at (tmp : list Z) (i : Z) : outcome Z :=
  ntohl (JArray [aget tmp i; aget tmp (i + 1); aget tmp (i + 2); aget tmp (i + 3)]).

Definition string_to_bytes (str : list Z) : list Z := map toUint8 str.
Definition bytes_to_string (buf : list Z) : list Z := buf.

(** ** Input events *)

Inductive input_event :=
  | mouse_event (buttons : Z) (x y : double) (wheel : Z)
  | keyboard_event (down key : Z).

Definition mouse_bytes (buttons : Z) (x y : double) (wheel : Z) : list Z :=
  htonl (request_code REQ_POINTER) ++ htonl buttons ++ htonl (dbl_trunc x)
  ++ htonl (dbl_trunc y) ++ htonl wheel.

Definition keyboard_bytes (down key : Z) : list Z :=
  htonl (request_code REQ_KEYBOARD) ++ htonl down ++ htonl key.

(** ** The state of a client *)

Record ScreenInfo := { si_width : Z; si_height : Z; si_depth : Z; si_pixelformat : Z }.

Record RegionHeader := {
  rh_x : Z; rh_y : Z; rh_width : Z; rh_height : Z; rh_depth : Z; rh_size : Z }.

(** A JPEG picture and the place its [onload] draws it at. *)
Record image := Image { im_data : list Z; im_x : Z; im_y : Z; im_w : Z; im_h : Z }.

Inductive output :=
  | OSend (b : list Z)                         (* socket.send *)
  | OTimeout (ms : Z)                          (* setTimeout(() => send_request(socket, request), ms) *)
  | OError (code : Z) (msg : string)           (* onerror *)
  | OCanvasSize (w h : Z)
  | OTitle (s : list Z)
  | OJpeg (i : image)                          (* ctx.drawImage, in image.onload *)
  | OPutImage (data : list Z) (w h x y : Z).   (* ctx.putImageData *)

Record client := Client {
  c_request : Request;
  c_state : State;
  c_data_len : Z;
  c_regions : Z;
  c_screen : ScreenInfo;
  c_region : RegionHeader;
  c_host : list Z;
  c_events : list input_event;
  c_buttons : Z;
  c_mouse_x : double;
  c_mouse_y : double;
  c_wheel : Z;
  c_listening : bool;       (* the input listeners are installed *)
  c_win_w : Z;
  c_win_h : Z;
  c_images : list image;    (* the images that are still loading *)
  c_out : list output }.

#[export] Instance eta_client : Eta client := fun c =>
  Client (c_request c) (c_state c) (c_data_len c) (c_regions c) (c_screen c)
    (c_region c) (c_host c) (c_events c) (c_buttons c) (c_mouse_x c) (c_mouse_y c)
    (c_wheel c) (c_listening c) (c_win_w c) (c_win_h c) (c_images c)
    (c_out c).

(** The closure when [new WebSocket] has returned. *)
Definition start_client (win_w win_h : Z) : client := {|
  c_request := REQ_ERROR; c_state := ReadUint32; c_data_len := 0; c_regions := 0;
  c_screen := {| si_width := 0; si_height := 0; si_depth := 0; si_pixelformat := 0 |};
  c_region := {| rh_x := 0; rh_y := 0; rh_width := 0; rh_height := 0; rh_depth := 0;
                 rh_size := 0 |};
  c_host := codes "Unknown"; c_events := []; c_buttons := 0;
  c_mouse_x := dbl_of_Z 0; c_mouse_y := dbl_of_Z 0; c_wheel := 0;
  c_listening := false; c_win_w := win_w; c_win_h := win_h; c_images := [];
  c_out := [] |}.

Section Handlers.
(** The [password] and the two browser features [lz4.decompress] looks for. *)
Context (password : list Z) (native hasCopyWithin : bool).

Definition emit (o : output) : M client unit := modify (fun c => c <| c_out := c_out c ++ [o] |>).
Definition socket_send (b : list Z) : M client unit := emit (OSend b).
Definition goto (r : Request) (st : State) : M client unit :=
  modify (fun c => c <| c_request := r |> <| c_state := st |>).

Definition send_string (s : list Z) : M client unit :=
  socket_send (htonl (zlen s));; socket_send (string_to_bytes s).

Definition send_password (password : list Z) : M client unit :=
  socket_send (htonl (request_code REQ_AUTHORIZATION) ++ htonl (zlen password));;
  socket_send (string_to_bytes password).

Definition send_request (r : Request) : M client unit := socket_send (htonl (request_code r)).

Definition send_mouse_event buttons x y wheel : M client unit :=
  socket_send (mouse_bytes buttons x y wheel).
Definition send_keyboard_event down key : M client unit := socket_send (keyboard_bytes down key).

Definition send_input_event (e : input_event) : M client unit :=
  match e with
  | mouse_event buttons x y wheel => send_mouse_event buttons x y wheel
  | keyboard_event down key => send_keyboard_event down key
  end.

(** [while (input_events.length > 0) send_input_event(socket, input_events.shift())] *)
Fixpoint send_input_events (l : list input_event) : M client unit :=
  match l with
  | [] => skip
  | e :: l => modify (fun c => c <| c_events := l |>);; send_input_event e;;
              send_input_events l
  end.

(** The end of an update: flush the input and ask for the next one in 50 ms. *)
Definition finish_update : M client unit :=
  evs ← gets c_events; send_input_events evs;;
  goto REQ_SCREEN_UPDATE ReadAck;; emit (OTimeout 50).

(** *** User input *)

Definition push_event (e : input_event) : M client unit :=
  modify (fun c => c <| c_events := c_events c ++ [e] |>).

Definition push_mouse (buttons : Z) : M client unit :=
  c ← gets id; push_event (mouse_event buttons (c_mouse_x c) (c_mouse_y c) (c_wheel c)).

Definition set_mouse (clientX clientY : double) : M client unit := modify (fun c =>
  c <| c_mouse_x := dbl_mul clientX
         (dbl_div (dbl_of_Z (si_width (c_screen c))) (dbl_of_Z (c_win_w c))) |>
    <| c_mouse_y := dbl_mul clientY
         (dbl_div (dbl_of_Z (si_height (c_screen c))) (dbl_of_Z (c_win_h c))) |>).

Definition mouse_move (clientX clientY : double) : M client unit :=
  set_mouse clientX clientY;; b ← gets c_buttons; push_mouse b.

Definition mouse_down (clientX clientY : double) (button : Z) : M client unit :=
  set_mouse clientX clientY;;
  modify (fun c => c <| c_buttons := c_buttons c |. (1 <<. button) |>);;
  b ← gets c_buttons; push_mouse b.

Definition mouse_up (clientX clientY : double) (button : Z) : M client unit :=
  set_mouse clientX clientY;;
  modify (fun c => c <| c_buttons := c_buttons c &. js_not (1 <<. button) |>);;
  b ← gets c_buttons; push_mouse b.

Definition mouse_onwheel (deltaY : Z) : M client unit :=
  b ← gets c_buttons;
  push_mouse (b |. (if deltaY <? 0 then 1 <<. 3 else if 0 <? deltaY then 1 <<. 4 else 0));;
  push_mouse b.

Definition key_table : gmap string Z := list_to_map Keys.

Definition keyboard_down (code : string) : M client unit :=
  match key_table !! code with
  | Some key => when (negb (key =? 0)) (push_event (keyboard_event 1 key))
  | None => skip
  end.

Definition keyboard_up (code : string) : M client unit :=
  match key_table !! code with
  | Some key => when (negb (key =? 0)) (push_event (keyboard_event 0 key))
  | None => skip
  end.

Definition start_input_devices : M client unit := modify (fun c => c <| c_listening := true |>).
Definition stop_input_devices : M client unit := modify (fun c => c <| c_listening := false |>).

(** *** Pictures *)

(** [new ImageData(data, w, h)], whose dimensions are unsigned long. *)
Definition new_ImageData (data : list Z) (w h : Z) : outcome unit :=
  let w := toUint32 w in let h := toUint32 h in
  if (zlen data =? 0) || negb (zlen data mod 4 =? 0) || (w =? 0)
     || negb (zlen data =? 4 * w * h)
  then Throw InvalidState else Ret tt.

(** The loop over a decompressed picture: BGRA to opaque RGBA, in place. *)
Fixpoint swap_loop (k : nat) (i : Z) (img_data : list Z) : list Z :=
  match k with
  | O => img_data
  | S k =>
      let swap := aget img_data (i + 0) in
      let put i v l := aset l i (toUint8Clamp (default 0 v)) in
      let img_data := put (i + 0) (aget img_data (i + 2)) img_data in
      let img_data := put (i + 2) swap img_data in
      let img_data := put (i + 3) (Some 0xff) img_data in
      swap_loop k (i + 4) img_data
  end.

(** The loop over a raw picture, from [tmp] into [img_data]. *)
Fixpoint raw_loop (k : nat) (i : Z) (tmp img_data : list Z) : list Z :=
  match k with
  | O => img_data
  | S k =>
      let put i v l := aset l i (toUint8Clamp (default 0 v)) in
      let img_data := put (i + 0) (aget tmp (i + 2)) img_data in
      let img_data := put (i + 1) (aget tmp (i + 1)) img_data in
      let img_data := put (i + 2) (aget tmp (i + 0)) img_data in
      let img_data := put (i + 3) (Some 0xff) img_data in
      raw_loop k (i + 4) tmp img_data
  end.

(** [putImageData(new ImageData(img_data, w, h), x, y)] *)
Definition put_image (img_data : list Z) (r : RegionHeader) : M client unit :=
  lift (new_ImageData img_data (rh_width r) (rh_height r));;
  emit (OPutImage img_data (rh_width r) (rh_height r) (rh_x r) (rh_y r)).

(** [image.src = ...; image.onload = ...]: the image starts to load. *)
Definition load_image (i : image) : M client unit :=
  modify (fun c => c <| c_images := c_images c ++ [i] |>).

(** [image.onload] of the [k]th of the images that are loading. *)
Definition image_onload (k : nat) : M client unit :=
  l ← gets c_images;
  match l !! k with
  | Some i => modify (fun c => c <| c_images := delete k l |>);; emit (OJpeg i)
  | None => skip
  end.

Definition draw_region (data : list Z) : M client unit :=
  r ← gets c_region;
  let d := rh_depth r in
  let n := rh_width r * rh_height r * 4 in
  if (d =? PIX_JPEG_RGBA) || (d =? PIX_JPEG_BGRA) then
    load_image {| im_data := data; im_x := rh_x r; im_y := rh_y r; im_w := rh_width r;
                  im_h := rh_height r |}
  else if (d =? PIX_LZ4_RGBA) || (d =? PIX_LZ4_BGRA) then
    img_data ← lift (default (Throw (Error "unreachable"))
                       (LZ4.decompress native hasCopyWithin data n));
    put_image (swap_loop (Z.to_nat (n / 4)) 0 img_data) r
  else if (d =? PIX_RAW_RGBA) || (d =? PIX_RAW_BGRA) then
    img_data ← lift (if n <? 0 then Throw RangeError else Ret (replicate (Z.to_nat n) 0));
    put_image (raw_loop (Z.to_nat (n / 4)) 0 data img_data) r
  else skip.

(** *** Messages: [socket.onmessage], a branch per [request] *)

Definition on_signature (data : list Z) : M client unit :=
  st ← gets c_state;
  match st with
  | ReadUint32 =>
      n ← lift (ntohl (JBytes data));
      modify (fun c => c <| c_data_len := n |> <| c_state := ReadData |>)
  | ReadData =>
      n ← gets c_data_len;
      if zlen data =? n then goto REQ_AUTHORIZATION ReadAck;; send_password password
      else skip
  | _ => skip
  end.

Definition on_authorization (data : list Z) : M client unit :=
  st ← gets c_state;
  match st with
  | ReadAck =>
      status ← lift (ntohl (JBytes data));
      when (negb (status =? 0)) (emit (OError 1 "Bad password"));;
      goto REQ_SCREEN_INFO ReadAck;; send_request REQ_SCREEN_INFO
  | _ => skip
  end.

Definition on_screen_info (data : list Z) : M client unit :=
  st ← gets c_state;
  match st with
  | ReadAck =>
      lift (ntohl_at data 0);;
      w ← lift (ntohl_at data 4); h ← lift (ntohl_at data 8);
      d ← lift (ntohl_at data 12); p ← lift (ntohl_at data 16);
      modify (fun c => c <| c_screen := {| si_width := w; si_height := h; si_depth := d;
                                           si_pixelformat := p |} |>);;
      emit (OCanvasSize w h);;
      goto REQ_HOSTNAME ReadAck;; send_request REQ_HOSTNAME
  | _ => skip
  end.

Definition on_hostname (data : list Z) : M client unit :=
  st ← gets c_state;
  match st with
  | ReadAck =>
      lift (ntohl_at data 0);;
      (* ntohl(tmp[4], tmp[5], tmp[6], tmp[7]): the array brackets are missing *)
      n ← lift (ntohl (JNumber (aget data 4)));
      modify (fun c => c <| c_data_len := n |> <| c_state := ReadData |>)
  | ReadData =>
      modify (fun c => c <| c_host := bytes_to_string data |>);;
      emit (OTitle (bytes_to_string data));;
      start_input_devices;;
      goto REQ_SCREEN_UPDATE ReadAck;; send_request REQ_SCREEN_UPDATE
  | _ => skip
  end.

Definition on_screen_update (data : list Z) : M client unit :=
  st ← gets c_state;
  match st with
  | ReadAck =>
      lift (ntohl_at data 0);;
      n ← lift (ntohl_at data 4);
      modify (fun c => c <| c_regions := n |> <| c_state := ReadRegionHeader |>);;
      when (n =? 0) finish_update
  | ReadRegionHeader =>
      modify (fun c => c <| c_regions := c_regions c - 1 |>);;
      x ← lift (ntohl_at data 0); y ← lift (ntohl_at data 4);
      w ← lift (ntohl_at data 8); h ← lift (ntohl_at data 12);
      d ← lift (ntohl_at data 16); size ← lift (ntohl_at data 20);
      modify (fun c => c <| c_region := {| rh_x := x; rh_y := y; rh_width := w;
                              rh_height := h; rh_depth := d; rh_size := size |} |>);;
      n ← gets c_regions;
      if 0 <? size then modify (fun c => c <| c_state := ReadRegionData |>)
      else when (n =? 0) finish_update
  | ReadRegionData =>
      draw_region data;;
      n ← gets c_regions;
      if 0 <? n then modify (fun c => c <| c_state := ReadRegionHeader |>)
      else finish_update
  | _ => skip
  end.

Definition onmessage (data : list Z) : M client unit :=
  r ← gets c_request;
  match r with
  | REQ_SIGNATURE => on_signature data
  | REQ_AUTHORIZATION => on_authorization data
  | REQ_SCREEN_INFO => on_screen_info data
  | REQ_HOSTNAME => on_hostname data
  | REQ_SCREEN_UPDATE => on_screen_update data
  | _ => skip
  end.

Definition onopen : M client unit :=
  goto REQ_SIGNATURE ReadUint32;; send_string CLIENT_ID.

Definition onclose (wasClean : bool) : M client unit :=
  stop_input_devices;;
  if wasClean then emit (OError 0 "Disconnected") else emit (OError 2 "Connection error").

(** *** The event loop *)

Inductive event :=
  | EOpen | EMessage (data : list Z) | ETimer | EClose (wasClean : bool)
  | ELoad (k : nat)                            (* an image has loaded *)
  | EMouseMove (x y : double) | EMouseDown (x y : double) (button : Z)
  | EMouseUp (x y : double) (button : Z) | EWheel (deltaY : Z)
  | EKeyDown (code : string) | EKeyUp (code : string).

(** An input handler runs when its listener is installed. *)
Definition listening (m : M client unit) : M client unit :=
  b ← gets c_listening; when b m.

Definition handle (e : event) : M client unit :=
  match e with
  | EOpen => onopen
  | EMessage data => onmessage data
  | ETimer => r ← gets c_request; send_request r
  | EClose clean => onclose clean
  | ELoad k => image_onload k
  | EMouseMove x y => listening (mouse_move x y)
  | EMouseDown x y b => listening (mouse_down x y b)
  | EMouseUp x y b => listening (mouse_up x y b)
  | EWheel d => listening (mouse_onwheel d)
  | EKeyDown k => listening (keyboard_down k)
  | EKeyUp k => listening (keyboard_up k)
  end.

(** An exception ends its handler; the page goes on with the next event. *)
Definition run_event (c : client) (e : event) : client := (handle e c).2.
Definition run (c : client) (l : list event) : client := foldl run_event c l.

End Handlers.
End WebClient.

(** ** What a server sends, and what it should look like *)

Module WebServer.
Import WebClient.

(** A message of 32-bit words. *)
Definition words (l : list Z) : list Z := concat (map htonl l).

(** A picture of a region: [Empty] has no data message. *)
Inductive picture :=
  | Empty (depth : Z)
  | Jpeg (bgra : bool) (data : list Z)
  | Lz4 (bgra : bool) (b : Lz4Format.block)
  | Raw (bgra : bool) (data : list Z).

Record region := Region { rx : Z; ry : Z; rw : Z; rh : Z; pic : picture }.

Definition pic_data (p : picture) : list Z :=
  match p with
  | Empty _ => [] | Jpeg _ d => d | Lz4 _ b => Lz4Format.encode b | Raw _ d => d
  end.

Definition pic_depth (p : picture) : Z :=
  match p with
  | Empty d => d
  | Jpeg b _ => if b then PIX_JPEG_BGRA else PIX_JPEG_RGBA
  | Lz4 b _ => if b then PIX_LZ4_BGRA else PIX_LZ4_RGBA
  | Raw b _ => if b then PIX_RAW_BGRA else PIX_RAW_RGBA
  end.

(** The four-byte pixels of a picture, blue first, made opaque, red first. *)
Fixpoint rgba (l : list Z) : list Z :=
  match l with
  | b :: g :: r :: _ :: l => r :: g :: b :: 255 :: rgba l
  | _ => []
  end.

Definition header (r : region) : RegionHeader := {|
  rh_x := rx r; rh_y := ry r; rh_width := rw r; rh_height := rh r;
  rh_depth := pic_depth (pic r); rh_size := zlen (pic_data (pic r)) |}.

(** What the client is to draw as soon as it has a region's data. *)
Definition drawn (r : region) : list output :=
  match pic r with
  | Empty _ | Jpeg _ _ => []
  | Lz4 _ b => [OPutImage (rgba (Lz4Format.expand b)) (rw r) (rh r) (rx r) (ry r)]
  | Raw _ d => [OPutImage (rgba d) (rw r) (rh r) (rx r) (ry r)]
  end.

(** The image that a region starts to load. *)
Definition image_of (r : region) : list image :=
  match pic r with
  | Jpeg _ d => [{| im_data := d; im_x := rx r; im_y := ry r; im_w := rw r; im_h := rh r |}]
  | _ => []
  end.

Definition word (n : Z) : Prop := - 2 ^ 31 <= n < 2 ^ 31.

Definition picture_ok (size : Z) (p : picture) : Prop :=
  match p with
  | Empty d => word d
  | Jpeg _ d => 0 < zlen d < 2 ^ 31
  | Lz4 _ b => Lz4Format.block_ok b /\ zlen (Lz4Format.expand b) = size
      /\ zlen (Lz4Format.enc_seqs (Lz4Format.seqs b)) < size
      /\ zlen (Lz4Format.encode b) < 2 ^ 31
  | Raw _ d => bytes d /\ zlen d = size
  end.

Definition region_ok (r : region) : Prop :=
  word (rx r) /\ word (ry r) /\ 0 < rw r < 2 ^ 31 /\ 0 < rh r < 2 ^ 31
  /\ rw r * rh r * 4 < 2 ^ 31 /\ picture_ok (rw r * rh r * 4) (pic r).

Definition region_messages (r : region) : list event :=
  let h := header r in
  EMessage (words [rh_x h; rh_y h; rh_width h; rh_height h; rh_depth h; rh_size h])
  :: match pic r with Empty _ => [] | p => [EMessage (pic_data p)] end.

(** One screen update: the number of regions, then each region. *)
Definition update_messages (rep : Z) (rs : list region) : list event :=
  EMessage (words [rep; zlen rs]) :: concat (map region_messages rs).

(** The conversation up to the first update request. *)
Definition handshake (sig : list Z) (rep : Z) (screen : ScreenInfo) (rep' len : Z)
    (host : list Z) : list event :=
  [ EOpen; EMessage (words [zlen sig]); EMessage sig; EMessage (words [0]);
    EMessage (words [rep; si_width screen; si_height screen; si_depth screen;
                     si_pixelformat screen]);
    EMessage (words [rep'; len]); EMessage host ].

Definition screen_ok (s : ScreenInfo) : Prop :=
  word (si_width s) /\ word (si_height s) /\ word (si_depth s) /\ word (si_pixelformat s).

(** The packet of an input event. *)
Definition input_packet (e : input_event) : list Z :=
  match e with
  | mouse_event b x y w => mouse_bytes b x y w
  | keyboard_event d k => keyboard_bytes d k
  end.

Definition is_input (e : event) : bool :=
  match e with
  | EMouseMove _ _ | EMouseDown _ _ _ | EMouseUp _ _ _ | EWheel _ | EKeyDown _ | EKeyUp _ => true
  | _ => false
  end.

Definition is_timer (o : output) : bool :=
  match o with OTimeout _ => true | _ => false end.

Definition is_load (e : event) : bool := match e with ELoad _ => true | _ => false end.
Definition is_jpeg (o : output) : bool := match o with OJpeg _ => true | _ => false end.
Definition jpeg_of (o : output) : option image := match o with OJpeg i => Some i | _ => None end.

(** The images drawn, in order, and what is done besides. *)
Definition jpegs (l : list output) : list image := omap jpeg_of l.
Definition besides (l : list output) : list output := filter (fun o => is_jpeg o = false) l.

(** The protocol states the client moves through. *)
Definition protocol_state (r : Request) (st : State) : bool :=
  match r, st with
  | REQ_ERROR, ReadUint32 | REQ_SIGNATURE, (ReadUint32 | ReadData)
  | REQ_AUTHORIZATION, ReadAck | REQ_SCREEN_INFO, ReadAck
  | REQ_HOSTNAME, (ReadAck | ReadData)
  | REQ_SCREEN_UPDATE, (ReadAck | ReadRegionHeader | ReadRegionData) => true
  | _, _ => false
  end.

End WebServer.

(** ** Lemmas: the wire encoding *)

Section Wire.
Import WebClient WebServer.

Lemma htonl_be n : htonl n = be_bytes n.
Proof.
  unfold htonl, be_bytes.
  change 0xFF000000 with (255 * 2 ^ 24). change 0x00FF0000 with (255 * 2 ^ 16).
  change 0x0000FF00 with (255 * 2 ^ 8). change 0xFF with (255 * 2 ^ 0).
  rewrite !js_byte by lia. by rewrite Z.pow_0_r, Z.div_1_r.
Qed.

Lemma ntohl_bytes b0 b1 b2 b3 :
  is_byte b0 -> is_byte b1 -> is_byte b2 -> is_byte b3 ->
  ntohl (JArray [Some b0; Some b1; Some b2; Some b3]) = Ret (toInt32 (be32 b0 b1 b2 b3)).
Proof.
  intros. unfold ntohl, jsindex, nint. simpl. f_equal.
  rewrite !(toInt32_byte b0), !(toInt32_byte b1), !(toInt32_byte b2), !(toInt32_byte b3) by done.
  by apply js_or_be.
Qed.

Lemma ntohl_be n :
  ntohl (JArray (map Some (be_bytes n))) = Ret (toInt32 n).
Proof.
  unfold be_bytes. simpl. rewrite ntohl_bytes by (unfold is_byte; zlia).
  by rewrite be32_be_bytes, toInt32_mod32.
Qed.

(** A message built of [htonl] words is read back word by word. *)
Lemma ntohl_at_word pre n post :
  ntohl_at (pre ++ htonl n ++ post) (zlen pre) = Ret (toInt32 n).
Proof.
  unfold ntohl_at. rewrite <- ntohl_be, htonl_be. f_equal. f_equal.
  unfold be_bytes, zlen. simpl.
  replace (Z.of_nat (length pre) + 1) with (Z.of_nat (length pre + 1)) by lia.
  replace (Z.of_nat (length pre) + 2) with (Z.of_nat (length pre + 2)) by lia.
  replace (Z.of_nat (length pre) + 3) with (Z.of_nat (length pre + 3)) by lia.
  rewrite !aget_nat, list_lookup_middle by done.
  rewrite !lookup_app_r by lia.
  replace (length pre + 1 - length pre)%nat with 1%nat by lia.
  replace (length pre + 2 - length pre)%nat with 2%nat by lia.
  replace (length pre + 3 - length pre)%nat with 3%nat by lia. done.
Qed.

(** A message of words, and its word number [i]. *)
Lemma ntohl_at_words l (i : nat) n :
  l !! i = Some n -> ntohl_at (words l) (4 * Z.of_nat i) = Ret (toInt32 n).
Proof.
  intros H. rewrite <- (take_drop_middle l i n H). unfold words.
  rewrite map_app, concat_app. cbn [map concat].
  assert (Hl : zlen (concat (map htonl (take i l))) = 4 * Z.of_nat i).
  { apply lookup_lt_Some in H. assert (Ht : length (take i l) = i) by (rewrite length_take; lia).
    rewrite <- Ht at 2. generalize (take i l). intros k. clear.
    induction k as [|x k IH]; [done|]. cbn [map concat]. rewrite zlen_app, IH.
    unfold zlen. simpl. lia. }
  rewrite <- Hl.  apply ntohl_at_word.
Qed.

End Wire.

(** ** Lemmas: pictures *)

Section Pictures.
Import WebClient WebServer.

Lemma aget_at {A} (pre : list A) x post i : i = zlen pre -> aget (pre ++ x :: post) i = Some x.
Proof. intros ->. apply aget_mid. Qed.

Lemma aset_at {A} (pre : list A) x post i v :
  i = zlen pre -> aset (pre ++ x :: post) i v = pre ++ v :: post.
Proof. intros ->. apply aset_mid. Qed.

(** Reading and writing within four elements that follow a prefix. *)
Lemma aget_quad {A} (pre : list A) a b c d post :
  let l := pre ++ a :: b :: c :: d :: post in
  aget l (zlen pre + 0) = Some a /\ aget l (zlen pre + 1) = Some b
  /\ aget l (zlen pre + 2) = Some c /\ aget l (zlen pre + 3) = Some d.
Proof.
  intros l. unfold l. repeat split.
  - apply aget_at. lia.
  - rewrite (cons_middle a), app_assoc. apply aget_at. rewrite zlen_app. done.
  - change (a :: b :: c :: d :: post) with ([a; b] ++ c :: d :: post).
    rewrite app_assoc. apply aget_at. rewrite zlen_app. done.
  - change (a :: b :: c :: d :: post) with ([a; b; c] ++ d :: post).
    rewrite app_assoc. apply aget_at. rewrite zlen_app. done.
Qed.

Lemma aset_quad {A} (pre : list A) a b c d post v :
  let l := pre ++ a :: b :: c :: d :: post in
  aset l (zlen pre + 0) v = pre ++ v :: b :: c :: d :: post
  /\ aset l (zlen pre + 1) v = pre ++ a :: v :: c :: d :: post
  /\ aset l (zlen pre + 2) v = pre ++ a :: b :: v :: d :: post
  /\ aset l (zlen pre + 3) v = pre ++ a :: b :: c :: v :: post.
Proof.
  intros l. unfold l. repeat split.
  - apply aset_at. lia.
  - rewrite (cons_middle a), app_assoc, aset_at by (rewrite zlen_app; done).
    by rewrite <- app_assoc.
  - change (a :: b :: c :: d :: post) with ([a; b] ++ c :: d :: post).
    rewrite app_assoc, aset_at by (rewrite zlen_app; done). by rewrite <- app_assoc.
  - change (a :: b :: c :: d :: post) with ([a; b; c] ++ d :: post).
    rewrite app_assoc, aset_at by (rewrite zlen_app; done). by rewrite <- app_assoc.
Qed.

Ltac quad := match goal with
  | |- context [aget (?p ++ ?a :: ?b :: ?c :: ?d :: ?q) (zlen ?p + _)] =>
      destruct (aget_quad p a b c d q) as (-> & -> & -> & ->) || 
      (let H0 := fresh in let H1 := fresh in let H2 := fresh in let H3 := fresh in
       destruct (aget_quad p a b c d q) as (H0 & H1 & H2 & H3);
       rewrite ?H0, ?H1, ?H2, ?H3; clear H0 H1 H2 H3)
  | |- context [aset (?p ++ ?a :: ?b :: ?c :: ?d :: ?q) (zlen ?p + _) ?v] =>
      let H0 := fresh in let H1 := fresh in let H2 := fresh in let H3 := fresh in
      destruct (aset_quad p a b c d q v) as (H0 & H1 & H2 & H3);
      rewrite ?H0, ?H1, ?H2, ?H3; clear H0 H1 H2 H3
  end.

Lemma swap_loop_rgba k pre l :
  bytes l -> length l = (4 * k)%nat -> swap_loop k (zlen pre) (pre ++ l) = pre ++ rgba l.
Proof.
  revert pre l. induction k as [|k IH]; intros pre l Hb Hl.
  - by destruct l.
  - destruct l as [|b [|g [|r [|a l]]]]; try (simpl in Hl; lia).
    assert (length l = (4 * k)%nat) by (simpl in Hl; lia).
    inversion_clear Hb as [|?? Hb0 Hb1]. inversion_clear Hb1 as [|?? Hg Hb2].
    inversion_clear Hb2 as [|?? Hr Hb3]. inversion_clear Hb3 as [|?? Ha Hb4].
    cbn [swap_loop rgba]. repeat quad. cbn [default from_option id].
    autorewrite with js. change (toUint8Clamp 255) with 255.
    change (pre ++ r :: g :: b :: 255 :: l) with (pre ++ [r; g; b; 255] ++ l).
    rewrite app_assoc. replace (zlen pre + 4) with (zlen (pre ++ [r; g; b; 255]))
      by (rewrite zlen_app; done).
    rewrite IH by done. by rewrite <- app_assoc.
Qed.

Lemma raw_loop_rgba k pre pre' l rest :
  bytes l -> length l = (4 * k)%nat -> length rest = (4 * k)%nat -> zlen pre = zlen pre' ->
  raw_loop k (zlen pre) (pre ++ l) (pre' ++ rest) = pre' ++ rgba l.
Proof.
  revert pre pre' l rest. induction k as [|k IH]; intros pre pre' l rest Hb Hl Hr Hp.
  - by destruct l, rest.
  - destruct l as [|b [|g [|r [|a l]]]]; try (simpl in Hl; lia).
    destruct rest as [|b' [|g' [|r' [|a' rest]]]]; try (simpl in Hr; lia).
    assert (length l = (4 * k)%nat) by (simpl in Hl; lia).
    assert (length rest = (4 * k)%nat) by (simpl in Hr; lia).
    inversion_clear Hb as [|?? Hb0 Hb1]. inversion_clear Hb1 as [|?? Hg Hb2].
    inversion_clear Hb2 as [|?? Hr' Hb3]. inversion_clear Hb3 as [|?? Ha Hb4].
    cbn [raw_loop rgba]. repeat quad. cbn [default from_option id]. rewrite Hp. repeat quad.
    autorewrite with js. change (toUint8Clamp 255) with 255.
    change (pre' ++ r :: g :: b :: 255 :: rest) with (pre' ++ [r; g; b; 255] ++ rest).
    change (pre ++ b :: g :: r :: a :: l) with (pre ++ [b; g; r; a] ++ l).
    rewrite !app_assoc. replace (zlen pre' + 4) with (zlen (pre ++ [b; g; r; a]))
      by (rewrite zlen_app, <- Hp; done).
    rewrite IH by (done || (rewrite !zlen_app, Hp; done)). by rewrite <- app_assoc.
Qed.

Lemma rgba_length k l : length l = (4 * k)%nat -> length (rgba l) = (4 * k)%nat.
Proof.
  revert l. induction k as [|k IH]; intros l Hl; [by destruct l|].
  destruct l as [|b [|g [|r [|a l]]]]; try (simpl in Hl; lia).
  simpl in *. rewrite IH by lia. lia.
Qed.

Lemma new_ImageData_ok l w h :
  0 < w < 2 ^ 31 -> 0 < h < 2 ^ 31 -> zlen l = w * h * 4 -> new_ImageData l w h = Ret tt.
Proof.
  intros Hw Hh Hl. unfold new_ImageData, toUint32. rewrite (Z.mod_small w), (Z.mod_small h) by lia.
  rewrite Hl, Z.mod_mul by lia. rewrite (proj2 (Z.eqb_neq (w * h * 4) 0)) by nia.
  rewrite (proj2 (Z.eqb_neq w 0)) by lia. replace (4 * w * h) with (w * h * 4) by lia.
  by rewrite !Z.eqb_refl.
Qed.

End Pictures.

(** ** Lemmas: one event at a time *)

#[local] Arguments WebServer.words : simpl never.
#[local] Arguments WebClient.htonl : simpl never.
#[local] Arguments WebClient.ntohl : simpl never.
#[local] Arguments WebClient.ntohl_at : simpl never.
#[local] Arguments WebClient.JBytes : simpl never.
#[local] Arguments WebClient.mouse_bytes : simpl never.
#[local] Arguments WebClient.keyboard_bytes : simpl never.
#[local] Arguments Z.mul : simpl never.

Ltac run_client :=
  cbv [WebClient.emit WebClient.goto WebClient.socket_send WebClient.send_string
       WebClient.send_password WebClient.send_request WebClient.push_event
       WebClient.start_input_devices WebClient.stop_input_devices WebClient.put_image];
  run_monad; cbn.

(** Split on the outcome, state or test that a handler looks at next. *)
Ltac results :=
  match goal with
  | |- context [match ?m with Ret _ => _ | Throw _ => _ end] => destruct m; cbn
  | |- context [match ?m with WebClient.ReadUint32 => _ | _ => _ end] => destruct m; cbn
  | |- context [if ?b then _ else _] => destruct b; cbn
  end.

Ltac on_message := unfold WebClient.run_event; cbn [WebClient.handle]; unfold WebClient.onmessage.

Section Handlers.
Import WebClient WebServer.

Context (password : list Z) (native cw : bool).
Abbreviation run_event := (run_event password true cw).
Abbreviation run := (run password true cw).
Implicit Type c : client.

Lemma words_single n : words [n] = htonl n.
Proof. unfold words. cbn [map concat]. apply app_nil_r. Qed.

Lemma ntohl_word n : ntohl (JBytes (words [n])) = Ret (toInt32 n).
Proof. unfold JBytes. rewrite words_single, htonl_be. apply ntohl_be. Qed.

Lemma ntohl_at_word_i l (i : nat) j n :
  j = 4 * Z.of_nat i -> l !! i = Some n -> ntohl_at (words l) j = Ret (toInt32 n).
Proof. intros ->. apply ntohl_at_words. Qed.

(** The queue of input events is sent in order, and left empty. *)
Lemma send_input_events_spec l c :
  c_events c = l ->
  send_input_events l c
    = (Ret tt, c <| c_events := [] |>
                 <| c_out := c_out c ++ map (fun e => OSend (input_packet e)) l |>).
Proof.
  revert c. induction l as [|e l IH]; intros c He.
  - simpl. rewrite app_nil_r. destruct c; simpl in *; subst. done.
  - simpl. run_monad. destruct e; cbn; run_monad; cbn; rewrite IH by done;
      destruct c; cbn; by rewrite <- app_assoc.
Qed.

(** What the end of an update leaves. *)
Definition updated (c : client) (o : list output) : client :=
  c <| c_request := REQ_SCREEN_UPDATE |> <| c_state := ReadAck |> <| c_events := [] |>
    <| c_out := c_out c ++ o ++ map (fun e => OSend (input_packet e)) (c_events c)
                ++ [OTimeout 50] |>.

Lemma finish_update_spec c : finish_update c = (Ret tt, updated c []).
Proof.
  unfold finish_update. run_monad. rewrite send_input_events_spec by done.
  unfold updated. destruct c. run_client. by rewrite <- app_assoc.
Qed.


(** The five kinds of message of an update, on a client that awaits each. *)
Lemma update_start c rep n :
  c_request c = REQ_SCREEN_UPDATE -> c_state c = ReadAck -> 0 < n < 2 ^ 31 ->
  run_event c (EMessage (words [rep; n]))
    = c <| c_regions := n |> <| c_state := ReadRegionHeader |>.
Proof.
  intros Hr Hs Hn. unfold run_event. cbn [handle]. unfold onmessage, on_screen_update.
  destruct c; cbn in Hr, Hs; subst. run_client.
  rewrite (ntohl_at_word_i _ 0 0 rep), (ntohl_at_word_i _ 1 4 n), (toInt32_small n) by (done || lia).
  by rewrite (proj2 (Z.eqb_neq n 0)) by lia.
Qed.

Lemma update_none c rep :
  c_request c = REQ_SCREEN_UPDATE -> c_state c = ReadAck ->
  run_event c (EMessage (words [rep; 0])) = updated (c <| c_regions := 0 |>) [].
Proof.
  intros Hr Hs. unfold run_event. cbn [handle]. unfold onmessage, on_screen_update.
  destruct c; cbn in Hr, Hs; subst. run_client.
  rewrite (ntohl_at_word_i _ 0 0 rep), (ntohl_at_word_i _ 1 4 0) by done.
  cbn. by rewrite finish_update_spec.
Qed.

Lemma word_toInt32 n : word n -> toInt32 n = n.
Proof. apply toInt32_small. Qed.

Lemma region_words r :
  region_ok r -> let h := header r in
  Forall word [rh_x h; rh_y h; rh_width h; rh_height h; rh_depth h; rh_size h].
Proof.
  intros (? & ? & ? & ? & ? & Hp). unfold header, word in *. cbn.
  assert (word (pic_depth (pic r)) /\ word (zlen (pic_data (pic r)))) as [??].
  { destruct (pic r) as [d|b d|b bl|b d]; cbn in *; unfold word, zlen in *;
      try destruct b; cbn [length]; cbv [PIX_JPEG_BGRA PIX_JPEG_RGBA PIX_LZ4_BGRA PIX_LZ4_RGBA
        PIX_RAW_BGRA PIX_RAW_RGBA]; try lia. }
  repeat constructor; unfold word in *; lia.
Qed.

Lemma update_header c h :
  c_request c = REQ_SCREEN_UPDATE -> c_state c = ReadRegionHeader ->
  Forall word [rh_x h; rh_y h; rh_width h; rh_height h; rh_depth h; rh_size h] ->
  run_event c (EMessage (words [rh_x h; rh_y h; rh_width h; rh_height h; rh_depth h; rh_size h]))
    = let c' := c <| c_regions := c_regions c - 1 |> <| c_region := h |> in
      if 0 <? rh_size h then c' <| c_state := ReadRegionData |>
      else if c_regions c' =? 0 then updated c' [] else c'.
Proof.
  intros Hr Hs Hw. rewrite !Forall_cons in Hw. destruct Hw as (Hx & Hy & Hww & Hh & Hd & Hsz & _).
  unfold run_event. cbn [handle]. unfold onmessage, on_screen_update.
  destruct c; cbn in Hr, Hs; subst. run_client.
  rewrite (ntohl_at_word_i _ 0 0 (rh_x h)), (ntohl_at_word_i _ 1 4 (rh_y h)),
    (ntohl_at_word_i _ 2 8 (rh_width h)), (ntohl_at_word_i _ 3 12 (rh_height h)),
    (ntohl_at_word_i _ 4 16 (rh_depth h)), (ntohl_at_word_i _ 5 20 (rh_size h)) by done.
  rewrite !word_toInt32 by done. destruct h as [x y w ht d sz]. cbn.
  destruct (0 <? sz); cbn; [done|]. destruct (_ =? 0); cbn; [|done]. by rewrite finish_update_spec.
Qed.

Lemma div4 n k : n = k * 4 -> n / 4 = k.
Proof. intros ->. apply Z.div_mul. lia. Qed.

Lemma draw_region_spec c r :
  c_region c = header r -> region_ok r -> pic_data (pic r) <> [] ->
  draw_region true cw (pic_data (pic r)) c
    = (Ret tt, c <| c_images := c_images c ++ image_of r |> <| c_out := c_out c ++ drawn r |>).
Proof.
  intros Hc (? & ? & Hw & Hh & Hsz & Hp) Hne. unfold draw_region.
  destruct c; cbn in Hc; subst. run_client.
  assert (Hn : rw r * rh r * 4 / 4 = rw r * rh r) by (apply div4; lia).
  assert (0 < rw r * rh r) by nia.
  unfold drawn, image_of, header. cbn. destruct (pic r) as [d|b d|b bl|b d]; cbn in *;
    rewrite ?app_nil_r.
  - done.
  - by destruct b.
  - destruct Hp as (Hok & Hl & Henc & _). rewrite <- Hl in Henc.
    replace (LZ4.decompress _ _ _ _) with (Some (Ret (Lz4Format.expand bl)))
      by (rewrite <- Hl; by rewrite decompress_block).
    assert (Hb : bytes (Lz4Format.expand bl)) by by apply expand_bytes.
    assert (Hlen : length (Lz4Format.expand bl) = (4 * Z.to_nat (rw r * rh r))%nat)
      by (unfold zlen in Hl; lia).
    pose proof (swap_loop_rgba _ [] _ Hb Hlen) as Hd. cbn [app] in Hd. change (zlen []) with 0 in Hd.
    destruct b; cbn; rewrite Hn, Hd; rewrite new_ImageData_ok; try done;
      unfold zlen; rewrite (rgba_length _ _ Hlen); lia.
  - destruct Hp as (Hb & Hl). rewrite (proj2 (Z.ltb_ge _ 0)) by lia.
    assert (Hlen : length d = (4 * Z.to_nat (rw r * rh r))%nat) by (unfold zlen in Hl; lia).
    assert (Hd : raw_loop (Z.to_nat (rw r * rh r)) 0 d
        (replicate (Z.to_nat (rw r * rh r * 4)) 0) = rgba d).
    { apply (raw_loop_rgba _ [] []); try done. rewrite length_replicate. lia. }
    destruct b; cbn; rewrite Hn, Hd; rewrite new_ImageData_ok; try done;
      unfold zlen; rewrite (rgba_length _ _ Hlen); lia.
Qed.

Lemma update_data c r :
  c_request c = REQ_SCREEN_UPDATE -> c_state c = ReadRegionData -> c_region c = header r ->
  region_ok r -> pic_data (pic r) <> [] ->
  run_event c (EMessage (pic_data (pic r)))
    = if 0 <? c_regions c
      then c <| c_images := c_images c ++ image_of r |> <| c_out := c_out c ++ drawn r |>
             <| c_state := ReadRegionHeader |>
      else updated (c <| c_images := c_images c ++ image_of r |>) (drawn r).
Proof.
  intros Hr Hs Hh Hok Hne. unfold run_event. cbn [handle]. unfold onmessage, on_screen_update.
  pose proof (draw_region_spec c r Hh Hok Hne) as Hd.
  destruct c; cbn in Hr, Hs, Hh; subst. run_client. rewrite Hd. cbn.
  destruct (0 <? _); [done|]. rewrite finish_update_spec. unfold updated. cbn.
  by rewrite <- app_assoc.
Qed.

(** A region's messages, with [n] regions still to come. *)
Lemma update_region c r :
  c_request c = REQ_SCREEN_UPDATE -> c_state c = ReadRegionHeader -> 0 < c_regions c ->
  region_ok r ->
  run c (region_messages r)
    = let c' := c <| c_regions := c_regions c - 1 |> <| c_region := header r |>
                  <| c_images := c_images c ++ image_of r |> in
      if c_regions c =? 1 then updated c' (drawn r)
      else c' <| c_out := c_out c ++ drawn r |>.
Proof.
  intros Hr Hs Hn Hok. unfold run, region_messages. cbn [foldl].
  rewrite update_header by (done || by apply region_words). cbn [rh_size header].
  destruct (decide (pic_data (pic r) = [])) as [He|He].
  - assert (exists d, pic r = Empty d) as [d Hd].
    { destruct Hok as (? & ? & ? & ? & ? & Hp). destruct (pic r) as [d|b d|b bl|b d].
      - by exists d.
      - cbn in *. subst. unfold zlen in Hp; cbn in Hp; lia.
      - cbn in *. apply (f_equal length) in He. unfold Lz4Format.encode, Lz4Format.enc_literals in He.
        rewrite length_app in He. cbn in He. lia.
      - cbn in *. subst. unfold zlen in Hp; cbn in Hp. nia. }
    unfold drawn, image_of. rewrite Hd, app_nil_r. destruct c; cbn in *; subst.
    destruct (Z.eqb_spec c_regions0 1) as [->|]; cbn; [done|].
    rewrite (proj2 (Z.eqb_neq (c_regions0 - 1) 0)) by lia. cbn. by rewrite app_nil_r.
  - assert (0 < zlen (pic_data (pic r))) as Hz by (unfold zlen; destruct (pic_data (pic r)); [done|cbn; lia]).
    rewrite (proj2 (Z.ltb_lt 0 _)) by done.
    assert (match pic r with Empty _ => [] | p => [EMessage (pic_data p)] end
            = [EMessage (pic_data (pic r))]) as -> by by destruct (pic r).
    cbn [foldl]. rewrite update_data by (done || by destruct c).
    destruct c; cbn in *; subst. destruct (Z.eqb_spec c_regions0 1) as [->|]; [done|].
    by rewrite (proj2 (Z.ltb_lt 0 (c_regions0 - 1))) by lia.
Qed.

Lemma update_regions rs c :
  c_request c = REQ_SCREEN_UPDATE -> c_state c = ReadRegionHeader -> c_regions c = zlen rs ->
  rs <> [] -> Forall region_ok rs ->
  exists h, run c (concat (map region_messages rs))
    = updated (c <| c_regions := 0 |> <| c_region := h |>
                 <| c_images := c_images c ++ concat (map image_of rs) |>)
        (concat (map drawn rs)).
Proof.
  revert c. induction rs as [|r rs IH]; intros c Hr Hs Hn Hne Hok; [done|].
  rewrite Forall_cons in Hok. destruct Hok as [Hok Hoks]. rewrite zlen_cons in Hn.
  pose proof (zlen_nonneg rs). cbn [map concat]. unfold run. rewrite foldl_app.
  fold (run c (region_messages r)). rewrite update_region by (done || lia).
  cbv zeta.
  destruct (Z.eqb_spec (c_regions c) 1) as [H1|H1].
  - assert (rs = []) as -> by (destruct rs; [done|rewrite zlen_cons in *; unfold zlen in *; lia]).
    exists (header r). rewrite H1. cbn [map concat foldl]. by rewrite !app_nil_r.
  - assert (rs <> []) by (intros ->; rewrite zlen_nil in Hn; lia).
    match goal with |- context [foldl _ ?c1 _] => destruct (IH c1) as [h Hh] end.
    + by destruct c.
    + by destruct c.
    + destruct c; cbn in *. lia.
    + done.
    + done.
    + exists h. unfold run in Hh. rewrite Hh. unfold updated. destruct c; cbn.
      by rewrite <- !app_assoc.
Qed.

(** All the messages of an update. *)
Lemma update_messages_spec rep rs c :
  c_request c = REQ_SCREEN_UPDATE -> c_state c = ReadAck ->
  Forall region_ok rs -> zlen rs < 2 ^ 31 ->
  exists h n, run c (update_messages rep rs)
    = updated (c <| c_regions := n |> <| c_region := h |>
                 <| c_images := c_images c ++ concat (map image_of rs) |>)
        (concat (map drawn rs)).
Proof.
  intros Hr Hs Hok Hlen. unfold run, update_messages. cbn [foldl].
  pose proof (zlen_nonneg rs).
  destruct (decide (rs = [])) as [->|Hne].
  - rewrite zlen_nil, update_none by done. exists (c_region c), 0. destruct c; cbn.
    by rewrite app_nil_r.
  - assert (0 < zlen rs) by (destruct rs; [done|rewrite zlen_cons; pose proof (zlen_nonneg rs); lia]).
    rewrite update_start by (done || lia).
    match goal with |- context [foldl _ ?c1 _] =>
      destruct (update_regions rs c1) as [h Hh] end; [by destruct c..|done|done|].
    unfold run in Hh. rewrite Hh. exists h, 0. by destruct c.
Qed.

End Handlers.

(** ** Lemmas: the loading of an image among other events

    Nothing but [image_onload] looks at the images that are loading or draws
    one: every other handler does the same whatever they are, and at most adds
    to them. *)

Section Images.
Import WebClient WebServer.
Context (password : list Z) (native cw : bool).
Abbreviation run_event := (run_event password native cw).
Abbreviation run := (run password native cw).

Definition with_io (imgs : list image) (out : list output) (c : client) : client :=
  c <| c_images := imgs |> <| c_out := out |>.

Definition frames {A} (m : M client A) : Prop :=
  forall c, exists x c' i o, besides o = o /\ jpegs o = [] /\
    forall imgs out, m (with_io imgs out c) = (x, with_io (imgs ++ i) (out ++ o) c').

Lemma besides_app l l' : besides (l ++ l') = besides l ++ besides l'.
Proof. apply filter_app. Qed.

Lemma jpegs_app l l' : jpegs (l ++ l') = jpegs l ++ jpegs l'.
Proof. apply omap_app. Qed.

Lemma frames_state {A} (m : M client A) (x : outcome A) (f : client -> client) :
  (forall c imgs out, m (with_io imgs out c) = (x, with_io imgs out (f c))) -> frames m.
Proof.
  intros H c. exists x, (f c), [], []. split_and!; [done..|]. intros. by rewrite H, !app_nil_r.
Qed.

Lemma frames_ret {A} (x : A) : frames (mret x).
Proof. by apply frames_state with (Ret x) id. Qed.

Lemma frames_lift {A} (x : outcome A) : frames (lift x).
Proof. by apply frames_state with x id. Qed.

Lemma frames_modify f :
  (forall imgs out c, f (with_io imgs out c) = with_io imgs out (f c)) -> frames (modify f).
Proof. intros H. apply frames_state with (Ret tt) f. intros. unfold modify. by rewrite H. Qed.

Lemma frames_bind {A B} (m : M client A) (k : A -> M client B) :
  frames m -> (forall x, frames (k x)) -> frames (m ≫= k).
Proof.
  intros Hm Hk c. destruct (Hm c) as ([x|e] & c1 & i & o & Hb & Hj & H).
  - destruct (Hk x c1) as (y & c2 & i' & o' & Hb' & Hj' & H'). exists y, c2, (i ++ i'), (o ++ o').
    rewrite besides_app, jpegs_app, Hb, Hj, Hb', Hj'. split_and!; [done..|]. intros.
    unfold mbind, M_bind. by rewrite H, H', !app_assoc.
  - exists (Throw e), c1, i, o. split_and!; [done..|]. intros. unfold mbind, M_bind. by rewrite H.
Qed.

Lemma frames_gets {A B} (f : client -> A) (k : A -> M client B) :
  (forall imgs out c, f (with_io imgs out c) = f c) -> (forall x, frames (k x)) ->
  frames (gets f ≫= k).
Proof.
  intros Hf Hk c. destruct (Hk (f c) c) as (y & c2 & i & o & Hb & Hj & H).
  exists y, c2, i, o. split_and!; [done..|]. intros. unfold mbind, M_bind, gets. by rewrite Hf.
Qed.

Lemma frames_emit o : is_jpeg o = false -> frames (emit o).
Proof.
  intros Ho c. exists (Ret tt), c, [], [o]. split_and!; [..|intros; by rewrite app_nil_r].
  all: by destruct o.
Qed.

Lemma frames_load_image i : frames (load_image i).
Proof.
  intros c. exists (Ret tt), c, [i], []. split_and!; [done..|]. intros. by rewrite app_nil_r.
Qed.

Lemma frames_push_mouse b : frames (push_mouse b).
Proof. by apply frames_state with (Ret tt) (fun c => (push_mouse b c).2). Qed.

Ltac head_of t := lazymatch t with ?f _ => head_of f | _ => t end.

Ltac frames := repeat lazymatch goal with
  | |- frames (gets _ ≫= _) => apply frames_gets; [done|intros]
  | |- frames (_ ≫= _) => apply frames_bind; [|intros]
  | |- frames (modify _) => apply frames_modify; intros; done
  | |- frames (lift _) => apply frames_lift
  | |- frames (mret _) => apply frames_ret
  | |- frames skip => apply frames_ret
  | |- frames (emit _) => by apply frames_emit
  | |- frames (load_image _) => apply frames_load_image
  | |- frames (push_mouse _) => apply frames_push_mouse
  | H : forall l, frames (send_input_events l) |- frames (send_input_events _) => apply H
  | H : frames ?m |- frames ?m => exact H
  | |- frames (match _ with _ => _ end) => case_match
  | |- frames ?m => let h := head_of m in progress unfold h
  end.

Lemma frames_send_input_events l : frames (send_input_events l).
Proof. induction l as [|[] l IH]; cbn [send_input_events send_input_event]; frames. Qed.

Lemma frames_handle e : is_load e = false -> frames (handle password native cw e).
Proof.
  pose proof frames_send_input_events. intros E.
  destruct e; try discriminate E; cbn [handle]; frames.
Qed.

(** A client and the one that has had the same events but no image loaded. *)
Definition ahead (n : nat) (c0 c : client) : Prop :=
  exists imgs out, c = with_io imgs out c0 /\ besides out = besides (c_out c0)
    /\ jpegs out ++ imgs ≡ₚ jpegs (c_out c0) ++ c_images c0
    /\ (length (jpegs out) <= length (jpegs (c_out c0)) + n)%nat.

Lemma ahead_refl c : ahead 0 c c.
Proof. exists (c_images c), (c_out c). split_and!; [by destruct c|done|done|lia]. Qed.

Lemma no_jpeg_drawn rs evs :
  let l := concat (map drawn rs) ++ map (fun e => OSend (input_packet e)) evs ++ [OTimeout 50] in
  besides l = l /\ jpegs l = [].
Proof.
  assert (H : Forall (fun o => is_jpeg o = false)
    (concat (map drawn rs) ++ map (fun e => OSend (input_packet e)) evs ++ [OTimeout 50])).
  { rewrite !Forall_app. split_and!; [| |by repeat constructor].
    - apply Forall_concat, Forall_fmap, Forall_true. intros [? ? ? ? []]; by repeat constructor.
    - apply Forall_fmap, Forall_true. done. }
  cbv zeta. revert H. generalize (concat (map drawn rs) ++ map (fun e => OSend (input_packet e)) evs
    ++ [OTimeout 50]). intros l H. unfold besides.
  induction H as [|o l Ho _ [IH1 IH2]]; [done|]. rewrite filter_cons_True, IH1 by done.
  split; [done|]. by destruct o.
Qed.

Lemma ahead_load n c0 c k : ahead n c0 c -> ahead (S n) c0 (run_event c (ELoad k)).
Proof.
  intros (imgs & out & -> & Hb & Hj & Hn). unfold WebClient.run_event. cbn [handle].
  unfold image_onload, emit. run_monad. cbn [c_images with_io]. destruct (imgs !! k) as [i|] eqn:Ek.
  - exists (delete k imgs), (out ++ [OJpeg i]). cbn. rewrite Ek.
    rewrite besides_app, jpegs_app. cbn [jpegs omap list_omap jpeg_of].
    split_and!; [done|by rewrite app_nil_r| |rewrite length_app; cbn; lia].
    rewrite <- app_assoc, <- Hj. cbn [app]. by rewrite <- (delete_Permutation imgs k i).
  - exists imgs, out. cbn. rewrite Ek. split_and!; [done..|lia].
Qed.

Lemma ahead_event n c0 c e :
  is_load e = false -> ahead n c0 c -> ahead n (run_event c0 e) (run_event c e).
Proof.
  intros E (imgs & out & -> & Hb & Hj & Hn). unfold WebClient.run_event.
  destruct (frames_handle e E c0) as (x & c1 & i & o & Ho & Hoj & H).
  rewrite (H imgs out). pose proof (H (c_images c0) (c_out c0)) as H0.
  replace (with_io (c_images c0) (c_out c0) c0) with c0 in H0 by by destruct c0.
  rewrite H0. cbn [snd]. exists (imgs ++ i), (out ++ o). cbn.
  rewrite !besides_app, !jpegs_app, Hb, Hoj, !app_nil_r. split_and!; [done|done| |done].
  by rewrite !app_assoc, Hj.
Qed.

Lemma ahead_run evs n c0 c :
  ahead n c0 c ->
  ahead (n + length (filter (fun e => is_load e = true) evs))
    (run c0 (filter (fun e => is_load e = false) evs)) (run c evs).
Proof.
  revert n c0 c. induction evs as [|e evs IH]; intros n c0 c H.
  - cbn. by rewrite Nat.add_0_r.
  - unfold WebClient.run. rewrite !filter_cons. destruct (is_load e) eqn:E.
    + rewrite decide_True, decide_False by done. cbn [length foldl]. rewrite Nat.add_succ_r.
      apply (IH (S n)). destruct e; try discriminate E. by apply ahead_load.
    + rewrite decide_False, decide_True by done. apply IH. by apply ahead_event.
Qed.

End Images.

(** The messages of the opening conversation. *)

Section Conversation.
Import WebClient WebServer.
Context (password : list Z) (native cw : bool).
Abbreviation run_event := (run_event password native cw).
Implicit Type c : client.

Lemma signature_length c n :
  c_request c = REQ_SIGNATURE -> c_state c = ReadUint32 -> word n ->
  run_event c (EMessage (words [n])) = c <| c_data_len := n |> <| c_state := ReadData |>.
Proof.
  intros Hr Hs Hn. on_message. destruct c; cbn in Hr, Hs; subst. unfold on_signature.
  run_client. rewrite ntohl_word, word_toInt32 by done. done.
Qed.

Lemma signature_data c sig :
  c_request c = REQ_SIGNATURE -> c_state c = ReadData -> c_data_len c = zlen sig ->
  run_event c (EMessage sig)
    = c <| c_request := REQ_AUTHORIZATION |> <| c_state := ReadAck |>
        <| c_out := c_out c ++ [OSend (htonl 10 ++ htonl (zlen password));
                                OSend (map toUint8 password)] |>.
Proof.
  intros Hr Hs Hn. on_message. destruct c; cbn in Hr, Hs, Hn; subst. unfold on_signature.
  run_client. rewrite Z.eqb_refl. run_client. by rewrite <- app_assoc.
Qed.

Lemma authorization_status c status :
  c_request c = REQ_AUTHORIZATION -> c_state c = ReadAck -> word status ->
  run_event c (EMessage (words [status]))
    = c <| c_request := REQ_SCREEN_INFO |>
        <| c_out := c_out c ++ (if status =? 0 then [] else [OError 1 "Bad password"])
                      ++ [OSend (htonl 1)] |>.
Proof.
  intros Hr Hs Hn. on_message. destruct c; cbn in Hr, Hs; subst. unfold on_authorization.
  run_client. rewrite ntohl_word, word_toInt32 by done. cbn.
  destruct (status =? 0); cbn; by rewrite <- ?app_assoc.
Qed.

Lemma screen_info c rep screen :
  c_request c = REQ_SCREEN_INFO -> c_state c = ReadAck -> screen_ok screen ->
  run_event c (EMessage (words [rep; si_width screen; si_height screen; si_depth screen;
                                si_pixelformat screen]))
    = c <| c_request := REQ_HOSTNAME |> <| c_screen := screen |>
        <| c_out := c_out c ++ [OCanvasSize (si_width screen) (si_height screen);
                                OSend (htonl 9)] |>.
Proof.
  intros Hr Hs (Hw & Hh & Hd & Hp). on_message. destruct c; cbn in Hr, Hs; subst.
  unfold on_screen_info. run_client.
  rewrite (ntohl_at_word_i _ 0 0 rep), (ntohl_at_word_i _ 1 4 (si_width screen)),
    (ntohl_at_word_i _ 2 8 (si_height screen)), (ntohl_at_word_i _ 3 12 (si_depth screen)),
    (ntohl_at_word_i _ 4 16 (si_pixelformat screen)), !word_toInt32 by done.
  destruct screen. cbn. by rewrite <- app_assoc.
Qed.

(** Whatever length the server announces, the client stores 0. *)
Lemma hostname_length c rep len :
  c_request c = REQ_HOSTNAME -> c_state c = ReadAck ->
  run_event c (EMessage (words [rep; len])) = c <| c_data_len := 0 |> <| c_state := ReadData |>.
Proof.
  intros Hr Hs. on_message. destruct c; cbn in Hr, Hs; subst. unfold on_hostname.
  run_client. rewrite (ntohl_at_word_i _ 0 0 rep) by done. reflexivity.
Qed.

Lemma hostname_data c host :
  c_request c = REQ_HOSTNAME -> c_state c = ReadData ->
  run_event c (EMessage host)
    = c <| c_request := REQ_SCREEN_UPDATE |> <| c_state := ReadAck |> <| c_host := host |>
        <| c_listening := true |> <| c_out := c_out c ++ [OTitle host; OSend (htonl 2)] |>.
Proof.
  intros Hr Hs. on_message. destruct c; cbn in Hr, Hs; subst. unfold on_hostname.
  run_client. by rewrite <- app_assoc.
Qed.

(** Drawing only ever adds to what the client has done. *)
Lemma draw_region_out data c :
  exists r i o, draw_region native cw data c
      = (r, c <| c_images := c_images c ++ i |> <| c_out := c_out c ++ o |>)
    /\ Forall (fun x => is_timer x = false) o.
Proof.
  destruct c. unfold draw_region. run_client.
  repeat case_match; cbn; simplify_eq; cbn;
    first [ eexists _, [], []; rewrite !app_nil_r; split; [reflexivity|done]
          | eexists _, [_], []; rewrite app_nil_r; split; [reflexivity|done]
          | eexists _, [], [_]; rewrite app_nil_r; split; [reflexivity|by repeat constructor] ].
Qed.

(** What each kind of event does to the queue of input events. *)

Definition queue_kept (c c' : client) : Prop :=
  c_events c' = c_events c /\
  exists o, c_out c' = c_out c ++ o /\ Forall (fun x => is_timer x = false) o.

Definition queue_sent (c c' : client) : Prop :=
  c_events c' = [] /\ c_request c' = REQ_SCREEN_UPDATE /\ c_state c' = ReadAck /\
  exists o, c_out c' = c_out c ++ o ++ map (fun e => OSend (input_packet e)) (c_events c)
                       ++ [OTimeout 50]
    /\ Forall (fun x => is_timer x = false) o.

Definition queue_step (c c' : client) : Prop := queue_kept c c' \/ queue_sent c c'.

Lemma queue_kept_out c c' o :
  c_events c' = c_events c -> c_out c' = c_out c ++ o -> Forall (fun x => is_timer x = false) o ->
  queue_kept c c'.
Proof. unfold queue_kept. eauto. Qed.

Lemma queue_kept_same c c' : c_events c' = c_events c -> c_out c' = c_out c -> queue_kept c c'.
Proof. intros ? Ho. apply queue_kept_out with []; [done|by rewrite app_nil_r|done]. Qed.

Lemma updated_sent c c' o :
  c_events c' = c_events c -> c_out c' = c_out c -> Forall (fun x => is_timer x = false) o ->
  queue_sent c (updated c' o).
Proof. intros He Ho Hf. repeat split. exists o. unfold updated. cbn. by rewrite He, Ho. Qed.

Lemma input_event_spec c e :
  is_input e = true ->
  let c' := run_event c e in
  exists new, c_events c' = c_events c ++ new /\ (c_listening c = false -> new = [])
    /\ c_out c' = c_out c /\ c_request c' = c_request c /\ c_state c' = c_state c
    /\ c_regions c' = c_regions c /\ c_region c' = c_region c.
Proof.
  intros He. unfold run_event. destruct c as [? ? ? ? ? ? ? ? ? ? ? ? [] ? ? ?].
  2:{ exists []. rewrite app_nil_r. destruct e; try discriminate He; repeat split. }
  destruct e; try discriminate He; cbv [handle listening mouse_move mouse_down mouse_up
    mouse_onwheel keyboard_down keyboard_up set_mouse push_mouse]; run_client;
    repeat case_match; cbn;
    first [ eexists; rewrite <- ?app_assoc; repeat split; discriminate
          | exists []; rewrite app_nil_r; repeat split ].
Qed.

Ltac kept := left; first
  [ by apply queue_kept_same
  | eapply queue_kept_out; [done|cbn; rewrite <- ?app_assoc; reflexivity|by repeat constructor] ].

Lemma screen_update_queue c data :
  queue_step c (on_screen_update native cw data c).2.
Proof.
  unfold on_screen_update. run_monad. destruct (c_state c); try kept.
  - destruct (ntohl_at data 0); [|kept]. destruct (ntohl_at data 4) as [n|]; [|kept].
    destruct (n =? 0); [|kept]. right. rewrite finish_update_spec. by apply updated_sent.
  - repeat (case_match; simplify_eq; try (by kept)).
    all: right; rewrite finish_update_spec in *; simplify_eq; by apply updated_sent.
  - destruct (draw_region_out data c) as (r & i & o & -> & Ho). destruct r as [[]|]; cbn.
    2: left; by eapply queue_kept_out.
    destruct (0 <? _); cbn; [left; by eapply queue_kept_out|].
    rewrite finish_update_spec. right. repeat split. exists o. split; [|done]. cbn.
    by rewrite <- app_assoc.
Qed.

Lemma message_queue c data :
  queue_step c (run_event c (EMessage data)).
Proof.
  on_message. run_monad. destruct (c_request c).
  all: try (left; by apply queue_kept_same).
  2: apply screen_update_queue.
  all: cbv [on_signature on_authorization on_screen_info on_hostname]; run_client;
    repeat results; kept.
Qed.

Lemma event_queue c e : is_input e = false -> queue_step c (run_event c e).
Proof.
  intros E. destruct e as [|data| |[]|k| | | | | |]; try discriminate E; [|apply message_queue| | | |].
  all: unfold run_event; cbn [handle]; cbv [onopen onclose image_onload]; run_client;
    repeat (case_match; cbn); kept.
Qed.

Lemma message_protocol c data :
  protocol_state (c_request c) (c_state c) = true ->
  protocol_state (c_request (run_event c (EMessage data)))
                 (c_state (run_event c (EMessage data))) = true.
Proof.
  on_message. run_monad. intros H. destruct (c_request c) eqn:Er; cbn; try by rewrite Er.
  1,3-5: cbv [on_signature on_authorization on_screen_info on_hostname]; destruct c; cbn in *;
    subst; run_client; repeat results; done.
  unfold on_screen_update. run_monad. destruct (c_state c) eqn:Es; try discriminate H.
  - destruct (ntohl_at data 0); cbn; [|by rewrite Er, Es]. destruct (ntohl_at data 4) as [n|]; cbn.
    2: by rewrite Er, Es.
    destruct (n =? 0); [by rewrite finish_update_spec|]. cbn. by rewrite Er.
  - destruct c; cbn in *; subst.
    repeat (case_match; cbn in *; simplify_eq; try done).
    all: rewrite finish_update_spec in *; simplify_eq; done.
  - destruct (draw_region_out data c) as (r & i & o & -> & Ho). destruct r as [[]|]; cbn.
    2: by rewrite Er, Es.
    destruct (0 <? _); cbn; [by rewrite Er|]. by rewrite finish_update_spec.
Qed.

Lemma event_protocol c e :
  protocol_state (c_request c) (c_state c) = true ->
  protocol_state (c_request (run_event c e)) (c_state (run_event c e)) = true.
Proof.
  intros H. destruct (is_input e) eqn:E.
  - destruct (input_event_spec c e E) as (? & _ & _ & _ & -> & -> & _). done.
  - destruct e as [| | |[]|k| | | | | |]; try discriminate E;
      [done|by apply message_protocol|done..|].
    unfold run_event. cbn [handle]. unfold image_onload. run_client. by case_match.
Qed.

End Conversation.

(** ** Properties *)

Section Properties.
Import WebClient WebServer.
Context (password : list Z) (native cw : bool).

(** [C21] The opening conversation, with a server that accepts the password:
    from a fresh page the client ends awaiting the first screen update, with
    the screen's parameters stored, the input listeners installed and exactly
    the expected packets sent, in order. *)
Theorem handshake_connects sig rep screen rep' len host win_w win_h :
  zlen sig < 2 ^ 31 -> screen_ok screen ->
  let c := run password native cw (start_client win_w win_h)
             (handshake sig rep screen rep' len host) in
  c_request c = REQ_SCREEN_UPDATE /\ c_state c = ReadAck /\ c_screen c = screen
  /\ c_host c = host /\ c_listening c = true
  /\ c_out c = [ OSend (htonl 32); OSend CLIENT_ID;
                 OSend (htonl 10 ++ htonl (zlen password)); OSend (map toUint8 password);
                 OSend (htonl 1); OCanvasSize (si_width screen) (si_height screen);
                 OSend (htonl 9); OTitle host; OSend (htonl 2) ].
Proof.
  intros Hsig Hscr. unfold run, handshake. cbn [foldl]. pose proof (zlen_nonneg sig).
  set (c1 := run_event _ _ _ (start_client win_w win_h) EOpen).
  assert (E1 : c1 = (start_client win_w win_h) <| c_request := REQ_SIGNATURE |>
    <| c_out := [OSend (htonl 32); OSend CLIENT_ID] |>) by reflexivity.
  rewrite E1. clear c1 E1.
  rewrite (signature_length _ _ _ _ (zlen sig)) by (done || (unfold word; lia)).
  rewrite (signature_data _ _ _ _ sig) by done.
  rewrite (authorization_status _ _ _ _ 0) by (done || (unfold word; lia)).
  rewrite screen_info by done.
  rewrite hostname_length by done.
  rewrite hostname_data by done.
  repeat split.
Qed.

(** [C7] A screen update of well-formed regions (an LZ4 block shorter than its
    picture: [decompress_truncates]), whatever the mix of formats, in a browser whose
    typed arrays have [slice], and whatever images finish loading meanwhile: every raw and LZ4 region is drawn when its data
    comes, in order, with its own pixels turned from BGRA to opaque RGBA, then
    the queued input is sent in order, then one 50 ms timer is started for the
    next request.  A JPEG region only starts to load: it is drawn, as it is and
    at its place, when its image has loaded, which may be after later regions,
    after the update, or never; what has been drawn and what is still loading
    are together the images that were given. *)
Theorem update_cycle rep rs evs c :
  c_request c = REQ_SCREEN_UPDATE -> c_state c = ReadAck ->
  Forall region_ok rs -> zlen rs < 2 ^ 31 ->
  filter (fun e => is_load e = false) evs = update_messages rep rs ->
  let c' := run password true cw c evs in
  c_request c' = REQ_SCREEN_UPDATE /\ c_state c' = ReadAck /\ c_events c' = []
  /\ besides (c_out c') = besides (c_out c) ++ concat (map drawn rs)
       ++ map (fun e => OSend (input_packet e)) (c_events c) ++ [OTimeout 50]
  /\ jpegs (c_out c') ++ c_images c'
       ≡ₚ jpegs (c_out c) ++ c_images c ++ concat (map image_of rs)
  /\ (length (jpegs (c_out c'))
        <= length (jpegs (c_out c)) + length (filter (fun e => is_load e = true) evs))%nat.
Proof.
  intros Hr Hs Hok Hlen Hevs. cbv zeta. pose proof (ahead_run password true cw evs 0 c c) as H.
  rewrite Hevs in H. destruct (update_messages_spec password cw rep rs c Hr Hs Hok Hlen) as (h & n & Hu).
  rewrite Hu in H. destruct H as (imgs & out & -> & Hb & Hj & Hn); [by apply ahead_refl|].
  destruct (no_jpeg_drawn rs (c_events c)) as [Hd1 Hd2]. cbn in *.
  rewrite besides_app, Hd1 in Hb. rewrite jpegs_app, Hd2, app_nil_r in Hj, Hn. auto 10.
Qed.

(** The queue of input events, at any event in any state: user input only
    appends to it and touches nothing of the protocol; everything else either
    leaves it alone and starts no timer, or sends all of it in order, starts the
    timer, and leaves it empty.  No input is lost, duplicated or reordered. *)
Theorem input_queue c e :
  let c' := run_event password native cw c e in
  if is_input e then
    exists new, c_events c' = c_events c ++ new /\ (c_listening c = false -> new = [])
      /\ c_out c' = c_out c /\ c_request c' = c_request c /\ c_state c' = c_state c
      /\ c_regions c' = c_regions c /\ c_region c' = c_region c
  else
    (c_events c' = c_events c /\
     exists o, c_out c' = c_out c ++ o /\ Forall (fun x => is_timer x = false) o)
    \/ (c_events c' = [] /\ c_request c' = REQ_SCREEN_UPDATE /\ c_state c' = ReadAck /\
        exists o, c_out c' = c_out c ++ o ++ map (fun e => OSend (input_packet e)) (c_events c)
                             ++ [OTimeout 50]
          /\ Forall (fun x => is_timer x = false) o).
Proof.
  destruct (is_input e) eqn:E.
  - apply input_event_spec, E.
  - by apply event_queue.
Qed.

(** [C13] In every state the client can reach, by any events in any order, its
    request and its reading state form one of ten pairs: no message is ever
    taken by a branch that is not waiting for it. *)
Theorem protocol_invariant win_w win_h evs :
  let c := run password native cw (start_client win_w win_h) evs in
  protocol_state (c_request c) (c_state c) = true.
Proof.
  unfold run. generalize (eq_refl : protocol_state (c_request (start_client win_w win_h))
    (c_state (start_client win_w win_h)) = true).
  generalize (start_client win_w win_h). induction evs as [|e evs IH]; intros c Hc; [done|].
  apply IH. by apply event_protocol.
Qed.

(** A rejected password does not stop the conversation: the error callback
    runs, and the client goes on to ask for the screen's parameters exactly as
    after an accepted one. *)
Theorem bad_password_goes_on c status :
  c_request c = REQ_AUTHORIZATION -> c_state c = ReadAck -> word status -> status <> 0 ->
  let c0 := run_event password native cw c (EMessage (words [0])) in
  let c1 := run_event password native cw c (EMessage (words [status])) in
  c_out c1 = c_out c ++ [OError 1 "Bad password"; OSend (htonl 1)]
  /\ c1 = c0 <| c_out := c_out c1 |> /\ c_request c1 = REQ_SCREEN_INFO /\ c_state c1 = ReadAck.
Proof.
  intros Hr Hs Hw Hne. cbv zeta. rewrite !authorization_status by (done || (unfold word; lia)).
  rewrite (proj2 (Z.eqb_neq status 0)) by done. destruct c; cbn in *; subst. done.
Qed.

End Properties.

(** *** The properties at concrete inputs *)

Section Witnesses.
Import WebClient WebServer.

Definition sample_screen : ScreenInfo :=
  {| si_width := 1280; si_height := 720; si_depth := 32; si_pixelformat := 1 |}.

Lemma handshake_connects_witness :
  c_state (run (codes "secret") true true (start_client 800 600)
             (handshake (replicate 32 7) 1 sample_screen 9 4 (codes "host"))) = ReadAck.
Proof.
  apply (handshake_connects (codes "secret") true true (replicate 32 7) 1 sample_screen 9 4
           (codes "host") 800 600); [reflexivity|repeat split; cbn; lia].
Defined.

(** Two red pixels in the first region, a JPEG and an empty region after it. *)
Definition sample_update : list region :=
  [ Region 4 8 2 1 (WebServer.Raw true [0; 0; 255; 0; 0; 0; 255; 0]);
    Region 0 0 1 2 (WebServer.Lz4 false (Lz4Format.Block [] [1; 2; 3; 4; 5; 6; 7; 8]));
    Region 0 0 16 16 (Jpeg false [255; 216]); Region 0 0 1 1 (Empty 0) ].

Definition sample_client : client :=
  (start_client 800 600) <| c_request := REQ_SCREEN_UPDATE |> <| c_state := ReadAck |>
    <| c_events := [keyboard_event 1 65] |>.

(** The JPEG loads only after the regions that follow it and the end of the update. *)
Definition sample_events : list event := update_messages 2 sample_update ++ [ELoad 0].

Lemma update_cycle_witness :
  besides (c_out (run [] true true sample_client sample_events))
    = [ OPutImage [255; 0; 0; 255; 255; 0; 0; 255] 2 1 4 8;
        OPutImage [3; 2; 1; 255; 7; 6; 5; 255] 1 2 0 0;
        OSend (keyboard_bytes 1 65); OTimeout 50 ].
Proof.
  refine (proj1 (proj2 (proj2 (proj2
    (update_cycle [] true 2 sample_update sample_events sample_client _ _ _ _ _))))).
  - reflexivity.
  - reflexivity.
  - repeat constructor; unfold word; cbn; try (unfold is_byte; lia).
  - reflexivity.
  - reflexivity.
Defined.

(** A JPEG region ends up over a later region of its own update. *)
Example late_jpeg :
  let rs := [ Region 0 0 1 1 (Jpeg false [255; 216]);
              Region 0 0 1 1 (WebServer.Raw true [1; 2; 3; 4]) ] in
  c_out (run [] true true ((start_client 800 600) <| c_request := REQ_SCREEN_UPDATE |>
                             <| c_state := ReadAck |>) (update_messages 2 rs ++ [ELoad 0]))
  = [ OPutImage [3; 2; 1; 255] 1 1 0 0; OTimeout 50;
      OJpeg {| im_data := [255; 216]; im_x := 0; im_y := 0; im_w := 1; im_h := 1 |} ].
Proof. reflexivity. Qed.

Lemma input_queue_witness :
  let c := sample_client <| c_listening := true |> in
  c_out (run_event [] true true c (EKeyDown "KeyA")) = c_out c.
Proof.
  destruct (input_queue [] true true (sample_client <| c_listening := true |>) (EKeyDown "KeyA"))
    as (new & _ & _ & H & _). exact H.
Defined.

Lemma bad_password_goes_on_witness :
  let c := sample_client <| c_request := REQ_AUTHORIZATION |> in
  c_out (run_event [] true true c (EMessage (words [1]))) = [OError 1 "Bad password"; OSend (htonl 1)].
Proof.
  refine (proj1 (bad_password_goes_on [] true true
    (sample_client <| c_request := REQ_AUTHORIZATION |>) 1 eq_refl eq_refl _ _));
    unfold word; lia.
Defined.

End Witnesses.
