(* ===== verification/Websock.v ===== *)
(** * The buffered WebSocket of noVNC
    (src/ControlServer/web/www/novnc/core/websock.js)

    A [Websock] keeps its receive queue in one typed array, and hands out views
    of that array: the arrays live in a heap, [sk_heap], and a [view] names its
    array, so that what a later message does to a view can be told.  Each
    method is a method in [M sock]; the [message] callback belongs to the
    object that holds the socket, hence [recv_message] runs in that object. *)

From S2P Require Import Prelude.

Module Websock.
Local Open Scope js_scope.

Definition MAX_RQ_GROW_SIZE : Z := 40 * 1024 * 1024.

Inductive ready_state := CONNECTING | OPEN | CLOSING | CLOSED.

#[export] Instance ready_state_eq_dec : EqDecision ready_state.
Proof. solve_decision. Defined.

(** [new Uint8Array(buffer, off, len)] *)
Record view := View { v_buf : nat; v_off : Z; v_len : Z }.

Abbreviation heap := (gmap nat (list Z)).

(** The bytes a view shows now. *)
Definition view_bytes (h : heap) (v : view) : list Z :=
  slice (default [] (h !! v_buf v)) (v_off v) (v_len v).

Record sock := Sock {
  sk_websocket : option ready_state;
  sk_rQi : Z;
  sk_rQlen : Z;
  sk_rQbufferSize : Z;
  sk_rQmax : Z;
  sk_rQ : nat;                  (* the array of the receive queue *)
  sk_sQbufferSize : Z;
  sk_sQlen : Z;
  sk_sQ : list Z;
  sk_heap : heap;
  sk_receiving : bool;          (* the socket's onmessage is _recv_message *)
  sk_sent : list (list Z) }.    (* what [_websocket.send] was given *)

#[export] Instance eta_sock : Eta sock := fun s =>
  Sock (sk_websocket s) (sk_rQi s) (sk_rQlen s) (sk_rQbufferSize s) (sk_rQmax s) (sk_rQ s)
    (sk_sQbufferSize s) (sk_sQlen s) (sk_sQ s) (sk_heap s) (sk_receiving s) (sk_sent s).

(** [new Websock()], for a receive buffer of [size] bytes (4 MiB in the code). *)
Definition constructor (size : Z) : sock := {|
  sk_websocket := None; sk_rQi := 0; sk_rQlen := 0; sk_rQbufferSize := size;
  sk_rQmax := size / 8; sk_rQ := 0; sk_sQbufferSize := 1024 * 10; sk_sQlen := 0;
  sk_sQ := []; sk_heap := ∅; sk_receiving := false; sk_sent := [] |}.

(** ** Receive queue *)

Definition rQ_buf (s : sock) : list Z := default [] (sk_heap s !! sk_rQ s).
Definition rQlen (s : sock) : Z := sk_rQlen s - sk_rQi s.

Definition rQpeek8 : M sock num := gets (fun s => aget (rQ_buf s) (sk_rQi s)).
Definition rQskipBytes (n : Z) : M sock unit := modify (fun s => s <| sk_rQi := sk_rQi s + n |>).

(** [for (byte = bytes - 1; byte >= 0; byte--) res += rQ[rQi++] << (byte * 8)] *)
Fixpoint rQshift_loop (k : nat) (res : Z) : M sock Z :=
  match k with
  | O => mret res
  | S byte =>
      b ← rQpeek8; rQskipBytes 1;;
      rQshift_loop byte (res + (nint b <<. (Z.of_nat byte * 8)))
  end.
Definition rQshift (n : nat) : M sock Z := rQshift_loop n 0.
Definition rQshift8 : M sock Z := rQshift 1.
Definition rQshift16 : M sock Z := rQshift 2.
Definition rQshift32 : M sock Z := rQshift 4.

(** [new Uint8Array(this._rQ.buffer, off, len)] *)
Definition rQview (off len : Z) : M sock view :=
  s ← gets id;
  if (off <? 0) || (len <? 0) || (zlen (rQ_buf s) <? off + len) then throw RangeError
  else mret {| v_buf := sk_rQ s; v_off := off; v_len := len |}.

Definition rQshiftBytes (len : option Z) : M sock view :=
  n ← gets (fun s => default (rQlen s) len);
  rQskipBytes n;;
  i ← gets sk_rQi; rQview (i - n) n.

(** The bytes of [rQshiftBytes] at the time of the call. *)
Definition rQtake (len : Z) : M sock (list Z) :=
  v ← rQshiftBytes (Some len); gets (fun s => view_bytes (sk_heap s) v).

Fixpoint rQshiftStr_loop (fuel : nat) (i len : Z) (str : list Z) : M sock (list Z) :=
  match fuel with
  | O => mret str
  | S fuel =>
      if i <? len then
        part ← rQtake (Z.min 4096 (len - i));
        rQshiftStr_loop fuel (i + 4096) len (str ++ part)
      else mret str
  end.
Definition rQshiftStr (len : option Z) : M sock (list Z) :=
  n ← gets (fun s => default (rQlen s) len);
  rQshiftStr_loop (Z.to_nat (n / 4096) + 2) 0 n [].

(** [target.set(...)]: the new contents of [target]. *)
Definition rQshiftTo (target : list Z) (len : option Z) : M sock (list Z) :=
  n ← gets (fun s => default (rQlen s) len);
  i ← gets sk_rQi; v ← rQview i n;
  if zlen target <? n then throw RangeError
  else
    rQskipBytes n;; gets (fun s => splice target 0 (view_bytes (sk_heap s) v)).

Definition rQslice (start : Z) (fin : option Z) : M sock view :=
  s ← gets id; rQview (sk_rQi s + start) (default (rQlen s) fin - start).

(** [goback] is absent or 0 when there is nothing to put back. *)
Definition rQwait (n goback : Z) : M sock bool :=
  s ← gets id;
  if rQlen s <? n then
    (if goback =? 0 then skip
     else if sk_rQi s <? goback then throw (Error "rQwait cannot backup")
     else rQskipBytes (- goback));;
    mret true
  else mret false.

(** ** Send queue *)

Definition encode_message (s : sock) : list Z := slice (sk_sQ s) 0 (sk_sQlen s).

Definition flush : M sock unit :=
  s ← gets id;
  if 0 <? sk_sQlen s then
    match sk_websocket s with
    | None => throw TypeError
    | Some OPEN =>
        if zlen (sk_sQ s) <? sk_sQlen s then throw RangeError
        else modify (fun s => s <| sk_sent := sk_sent s ++ [encode_message s] |>
                                <| sk_sQlen := 0 |>)
    | Some _ => skip
    end
  else skip.

Definition send (arr : list Z) : M sock unit :=
  s ← gets id;
  if zlen (sk_sQ s) <? sk_sQlen s + zlen arr then throw RangeError
  else
    modify (fun s => s <| sk_sQ := splice (sk_sQ s) (sk_sQlen s) (map toUint8 arr) |>
                       <| sk_sQlen := sk_sQlen s + zlen arr |>);;
    flush.

Definition send_string (str : list Z) : M sock unit := send str.

(** [buff[i] = v] for consecutive [i], as the message builders write. *)
Fixpoint buff_write (buff : list Z) (i : Z) (l : list Z) : list Z :=
  match l with
  | [] => buff
  | v :: l => buff_write (aset buff i (toUint8 v)) (i + 1) l
  end.

Definition sQ_write (l : list Z) : M sock unit := modify (fun s =>
  s <| sk_sQ := buff_write (sk_sQ s) (sk_sQlen s) l |> <| sk_sQlen := sk_sQlen s + zlen l |>).

(** ** Opening and closing *)

Definition alloc (h : heap) (buf : list Z) : nat * heap :=
  let b := fresh (dom h) in (b, <[b := buf]> h).

Definition allocate_buffers : M sock unit := modify (fun s =>
  let '(b, h) := alloc (sk_heap s) (replicate (Z.to_nat (sk_rQbufferSize s)) 0) in
  s <| sk_rQ := b |> <| sk_heap := h |>
    <| sk_sQ := replicate (Z.to_nat (sk_sQbufferSize s)) 0 |>).

Definition init : M sock unit :=
  allocate_buffers;; modify (fun s => s <| sk_rQi := 0 |> <| sk_websocket := None |>).

(** [new WebSocket] may refuse the URI; the socket it returns is connecting. *)
Definition open (accepted : bool) : M sock unit :=
  init;;
  if accepted then
    modify (fun s => s <| sk_websocket := Some CONNECTING |> <| sk_receiving := true |>)
  else throw (Error "SyntaxError").

Definition close : M sock unit := modify (fun s =>
  match sk_websocket s with
  | None => s
  | Some st =>
      s <| sk_websocket := Some (match st with OPEN | CONNECTING => CLOSING | st => st end) |>
        <| sk_receiving := false |>
  end).

(** ** Messages *)

(** The first half of [_expand_compact_rQ]: the new size; is a new array needed? *)
Definition resize_rQ (min_fit : option Z) : M sock bool :=
  s ← gets id;
  let grow := match min_fit with Some n => negb (n =? 0) | None => false end in
  let resizeNeeded := grow || (sk_rQbufferSize s <? 2 * rQlen s) in
  when resizeNeeded (modify (fun s =>
    s <| sk_rQbufferSize :=
           if grow then (rQlen s + default 0 min_fit) * 8 else sk_rQbufferSize s * 2 |>));;
  s ← gets id;
  when (MAX_RQ_GROW_SIZE <? sk_rQbufferSize s)
    (modify (fun s => s <| sk_rQbufferSize := MAX_RQ_GROW_SIZE |>);;
     if nlt (Some (MAX_RQ_GROW_SIZE - rQlen s)) min_fit
     then throw (Error "Receive Queue buffer exceeded") else skip);;
  mret resizeNeeded.

Definition realloc_rQ (resizeNeeded : bool) : M sock unit :=
  when resizeNeeded (modify (fun s =>
    let '(b, h) := alloc (sk_heap s) (replicate (Z.to_nat (sk_rQbufferSize s)) 0) in
    s <| sk_rQmax := sk_rQbufferSize s / 8 |> <| sk_rQ := b |> <| sk_heap := h |>)).

(** The second half: what is in the array from [_rQi] on moves to the front. *)
Definition repack_rQ (resizeNeeded : bool) : M sock unit :=
  s ← gets id;
  let old := rQ_buf s in
  realloc_rQ resizeNeeded;;
  s ← gets id;
  if (sk_rQi s <? 0) || (zlen old <? sk_rQi s) then throw RangeError
  else
    let rest := drop (Z.to_nat (sk_rQi s)) old in
    if zlen (rQ_buf s) <? zlen rest then throw RangeError
    else modify (fun s =>
      s <| sk_heap := <[sk_rQ s := splice (rQ_buf s) 0 rest]> (sk_heap s) |>
        <| sk_rQlen := sk_rQlen s - sk_rQi s |> <| sk_rQi := 0 |>).

Definition expand_compact_rQ (min_fit : option Z) : M sock unit :=
  resizeNeeded ← resize_rQ min_fit; repack_rQ resizeNeeded.

(** [this._rQ.set(u8, this._rQlen)] *)
Definition rQ_set (u8 : list Z) : M sock unit :=
  s ← gets id;
  if zlen (rQ_buf s) <? sk_rQlen s + zlen u8 then throw RangeError
  else modify (fun s =>
    s <| sk_heap := <[sk_rQ s := splice (rQ_buf s) (sk_rQlen s) u8]> (sk_heap s) |>).

Definition decode_message (u8 : list Z) : M sock unit :=
  s ← gets id;
  when (sk_rQbufferSize s - sk_rQlen s <? zlen u8) (expand_compact_rQ (Some (zlen u8)));;
  rQ_set u8;;
  modify (fun s => s <| sk_rQlen := sk_rQlen s + zlen u8 |>).

(** After the [message] callback: drop what was read. *)
Definition compact : M sock unit :=
  s ← gets id;
  if sk_rQlen s =? sk_rQi s then modify (fun s => s <| sk_rQlen := 0 |> <| sk_rQi := 0 |>)
  else when (sk_rQmax s <? sk_rQlen s) (expand_compact_rQ None).

Definition recv_message {S} (proj : S -> sock) `{!Setter proj} (on_message : M S unit)
    (u8 : list Z) : M S unit :=
  zoom proj (decode_message u8);;
  n ← gets (fun s => rQlen (proj s));
  if 0 <? n then on_message;; zoom proj compact else skip.

End Websock.

(** ** The specification: an unbounded queue of bytes *)

Module ByteQueue.
Import Websock.

(** The bytes received and not yet read. *)
Definition unread (s : sock) : list Z := slice (rQ_buf s) (sk_rQi s) (rQlen s).

Record wf (s : sock) : Prop := {
  wf_buf : sk_heap s !! sk_rQ s = Some (rQ_buf s);
  wf_size : zlen (rQ_buf s) = sk_rQbufferSize s;
  wf_max : 0 < sk_rQbufferSize s <= MAX_RQ_GROW_SIZE;
  wf_order : 0 <= sk_rQi s <= sk_rQlen s /\ sk_rQlen s <= sk_rQbufferSize s;
  wf_bytes : bytes (rQ_buf s) }.

(** The operations of a reader, and what each does to a queue of bytes: its
    result, or [None] when the queue is too short for it. *)
Inductive op :=
  | Recv (data : list Z)        (* a message arrives *)
  | Compact                     (* the end of a message callback *)
  | Shift8 | Shift16 | Shift32
  | Skip (n : Z)
  | Bytes (n : Z)
  | Str (n : Z)
  | Wait (n : Z).

Inductive res := RUnit | RNum (n : Z) | RBytes (l : list Z) | RWait (b : bool).

Definition shift_spec (n : nat) (l : list Z) : option Z :=
  match n, l with
  | 1%nat, b :: _ => Some b
  | 2%nat, b1 :: b0 :: _ => Some (b1 * 256 + b0)
  | 4%nat, b3 :: b2 :: b1 :: b0 :: _ => Some (toInt32 (be32 b3 b2 b1 b0))
  | _, _ => None
  end.

Definition spec_step (q : list Z) (o : op) : option (res * list Z) :=
  let bounded n (r : res) :=
    if (0 <=? n) && (n <=? zlen q) then Some (r, drop (Z.to_nat n) q) else None in
  match o with
  | Recv data =>
      if zlen q + zlen data <=? MAX_RQ_GROW_SIZE then Some (RUnit, q ++ data) else None
  | Compact => Some (RUnit, q)
  | Shift8 => n ← shift_spec 1 q; Some (RNum n, drop 1 q)
  | Shift16 => n ← shift_spec 2 q; Some (RNum n, drop 2 q)
  | Shift32 => n ← shift_spec 4 q; Some (RNum n, drop 4 q)
  | Skip n => bounded n RUnit
  | Bytes n | Str n => bounded n (RBytes (slice q 0 n))
  | Wait n => Some (RWait (zlen q <? n), q)
  end.

Fixpoint spec_run (q : list Z) (l : list op) : option (list res * list Z) :=
  match l with
  | [] => Some ([], q)
  | o :: l =>
      '(r, q) ← spec_step q o; '(rs, q) ← spec_run q l; Some (r :: rs, q)
  end.

(** The same operations on a socket. *)
Definition impl_step (o : op) : M sock res :=
  match o with
  | Recv data => decode_message data;; mret RUnit
  | Compact => compact;; mret RUnit
  | Shift8 => n ← rQshift8; mret (RNum n)
  | Shift16 => n ← rQshift16; mret (RNum n)
  | Shift32 => n ← rQshift32; mret (RNum n)
  | Skip n => rQskipBytes n;; mret RUnit
  | Bytes n => l ← rQtake n; mret (RBytes l)
  | Str n => l ← rQshiftStr (Some n); mret (RBytes l)
  | Wait n => b ← rQwait n 0; mret (RWait b)
  end.

Fixpoint impl_run (l : list op) : M sock (list res) :=
  match l with
  | [] => mret []
  | o :: l => r ← impl_step o; rs ← impl_run l; mret (r :: rs)
  end.

Definition op_bytes (o : op) : Prop := match o with Recv data => bytes data | _ => True end.

End ByteQueue.

(** ** Lemmas: reading *)

Section Reading.
Import Websock ByteQueue.
Implicit Type s : sock.

Lemma zlen_unread s : wf s -> zlen (unread s) = rQlen s.
Proof.
  intros [_ Hs _ Ho _]. unfold unread, rQlen. apply zlen_slice; lia.
Qed.

Lemma unread_bytes s : wf s -> bytes (unread s).
Proof. intros [_ _ _ _ Hb]. by apply bytes_slice. Qed.

(** Reading on by [n] bytes. *)
Definition advance (n : Z) s : sock := s <| sk_rQi := sk_rQi s + n |>.

Lemma rQ_buf_advance n s : rQ_buf (advance n s) = rQ_buf s.
Proof. by destruct s. Qed.

Lemma wf_advance n s : wf s -> 0 <= n <= rQlen s -> wf (advance n s).
Proof.
  intros [H1 H2 H3 H4 H5] Hn. unfold rQlen in Hn. destruct s; split; cbn in *; try done. lia.
Qed.

Lemma unread_advance n s :
  wf s -> 0 <= n <= rQlen s -> unread (advance n s) = drop (Z.to_nat n) (unread s).
Proof.
  intros [H1 H2 H3 H4 H5] Hn. unfold unread, rQlen in *. rewrite rQ_buf_advance.
  destruct s; cbn in *. unfold slice. rewrite skipn_firstn_comm, drop_drop.
  f_equal; [lia|]. f_equal. lia.
Qed.

(** The next byte, and those after it. *)
Lemma unread_cons s b q :
  wf s -> unread s = b :: q ->
  aget (rQ_buf s) (sk_rQi s) = Some b /\ is_byte b
  /\ wf (advance 1 s) /\ unread (advance 1 s) = q.
Proof.
  intros Hwf Hq. pose proof (zlen_unread s Hwf) as Hl. rewrite Hq, zlen_cons in Hl.
  pose proof (zlen_nonneg q). pose proof (unread_bytes s Hwf) as Hb. rewrite Hq in Hb.
  inversion_clear Hb. split; [|split; [done|split; [apply wf_advance; [done|lia]|]]].
  - pose proof Hwf as [_ _ _ Ho _]. rewrite <- (Z.add_0_r (sk_rQi s)).
    rewrite <- (aget_slice _ _ (rQlen s)) by lia. fold (unread s). by rewrite Hq.
  - rewrite unread_advance by (done || lia). by rewrite Hq.
Qed.

Lemma rQshift_step k res s b q :
  wf s -> unread s = b :: q ->
  rQshift_loop (S k) res s = rQshift_loop k (res + js_shl b (Z.of_nat k * 8)) (advance 1 s).
Proof.
  intros Hwf Hq. destruct (unread_cons s b q Hwf Hq) as (Hg & Hb & _ & _).
  cbn [rQshift_loop]. unfold rQpeek8, rQskipBytes. run_monad. rewrite Hg. unfold nint. cbn [default from_option id].
  by rewrite toInt32_byte.
Qed.

Lemma rQshift_one s b q :
  wf s -> unread s = b :: q -> rQshift 1 s = (Ret b, advance 1 s).
Proof.
  intros Hwf Hq. unfold rQshift. rewrite (rQshift_step 0 0 s b q) by done.
  destruct (unread_cons s b q Hwf Hq) as (_ & Hb & _ & _). unfold is_byte in Hb.
  change (Z.of_nat 0 * 8) with 0. rewrite js_shl_byte, toInt32_small by (done || lia). cbn.
  run_monad. do 2 f_equal. lia.
Qed.

Lemma advance_advance n k s : advance n (advance k s) = advance (k + n) s.
Proof. destruct s. unfold advance. cbn. f_equal. lia. Qed.

Lemma rQshift_two s b1 b0 q :
  wf s -> unread s = b1 :: b0 :: q -> rQshift 2 s = (Ret (b1 * 256 + b0), advance 2 s).
Proof.
  intros Hwf Hq. unfold rQshift. rewrite (rQshift_step 1 _ s b1 (b0 :: q)) by done.
  destruct (unread_cons s _ _ Hwf Hq) as (_ & Hb & Hwf1 & Hq1).
  rewrite (rQshift_step 0 _ _ b0 q) by done. destruct (unread_cons _ _ _ Hwf1 Hq1) as (_ & Hb0 & _ & _).
  unfold is_byte in *. change (Z.of_nat 1 * 8) with 8. change (Z.of_nat 0 * 8) with 0.
  rewrite !js_shl_byte, !toInt32_small by (done || lia).
  rewrite advance_advance. cbn. run_monad. do 2 f_equal. lia.
Qed.

Lemma toInt32_high b x : is_byte b -> 0 <= x < 2 ^ 24 -> toInt32 (b * 2 ^ 24) + x = toInt32 (b * 2 ^ 24 + x).
Proof.
  unfold is_byte, toInt32. intros. rewrite !Z.mod_small by lia.
  destruct (Z.ltb_spec (b * 2 ^ 24) (2 ^ 31)), (Z.ltb_spec (b * 2 ^ 24 + x) (2 ^ 31)); lia.
Qed.

Lemma rQshift_four s b3 b2 b1 b0 q :
  wf s -> unread s = b3 :: b2 :: b1 :: b0 :: q ->
  rQshift 4 s = (Ret (toInt32 (be32 b3 b2 b1 b0)), advance 4 s).
Proof.
  intros Hwf Hq. unfold rQshift. rewrite (rQshift_step 3 _ s _ _ Hwf Hq).
  destruct (unread_cons s _ _ Hwf Hq) as (_ & Hb3 & Hwf1 & Hq1).
  rewrite (rQshift_step 2 _ _ _ _ Hwf1 Hq1).
  destruct (unread_cons _ _ _ Hwf1 Hq1) as (_ & Hb2 & Hwf2 & Hq2).
  rewrite (rQshift_step 1 _ _ _ _ Hwf2 Hq2).
  destruct (unread_cons _ _ _ Hwf2 Hq2) as (_ & Hb1 & Hwf3 & Hq3).
  rewrite (rQshift_step 0 _ _ _ _ Hwf3 Hq3).
  destruct (unread_cons _ _ _ Hwf3 Hq3) as (_ & Hb0 & _ & _).
  change (Z.of_nat 3 * 8) with 24. change (Z.of_nat 2 * 8) with 16.
  change (Z.of_nat 1 * 8) with 8. change (Z.of_nat 0 * 8) with 0.
  rewrite !js_shl_byte by (done || lia). rewrite !advance_advance. cbn [rQshift_loop]. run_monad.
  change (1 + 1 + 1 + 1) with 4. do 2 f_equal. unfold is_byte in Hb2, Hb1, Hb0.
  rewrite (toInt32_small (b2 * 2 ^ 16)), (toInt32_small (b1 * 2 ^ 8)), (toInt32_small (b0 * 2 ^ 0)) by lia.
  unfold be32. rewrite <- !Z.add_assoc, <- toInt32_high by (done || lia). lia.
Qed.

Lemma rQview_in off len s :
  0 <= off -> 0 <= len -> off + len <= zlen (rQ_buf s) ->
  rQview off len s = (Ret (View (sk_rQ s) off len), s).
Proof.
  intros. unfold rQview. run_monad. cbn.
  by rewrite (proj2 (Z.ltb_ge off 0)), (proj2 (Z.ltb_ge len 0)), (proj2 (Z.ltb_ge _ (off + len))) by lia.
Qed.

Lemma rQshiftBytes_in n s :
  wf s -> 0 <= n <= rQlen s ->
  rQshiftBytes (Some n) s = (Ret (View (sk_rQ s) (sk_rQi s) n), advance n s).
Proof.
  intros Hwf Hn. unfold rQshiftBytes, rQskipBytes. run_monad. cbn [default from_option id].
  destruct Hwf as [_ Hs _ Ho _]. unfold rQlen in Hn. fold (advance n s).
  rewrite rQview_in; rewrite ?rQ_buf_advance; destruct s; cbn in *; try lia.
  do 3 f_equal. lia.
Qed.

Lemma rQtake_in n s :
  wf s -> 0 <= n <= rQlen s -> rQtake n s = (Ret (slice (unread s) 0 n), advance n s).
Proof.
  intros Hwf Hn. unfold rQtake. run_monad. rewrite rQshiftBytes_in by done.
  do 2 f_equal. unfold view_bytes, unread. cbn [v_buf v_off v_len].
  replace (sk_heap (advance n s)) with (sk_heap s) by by destruct s.
  pose proof Hwf as [_ _ _ Ho _]. rewrite slice_slice by (unfold rQlen in *; lia).
  fold (rQ_buf s). f_equal. lia.
Qed.

(** A string is read in steps of 4096 bytes; their number does not matter. *)
Lemma rQshiftStr_loop_in fuel i len str s :
  wf s -> 0 <= i -> len - i <= 4096 * Z.of_nat fuel -> 0 <= len - i <= rQlen s \/ len <= i ->
  rQshiftStr_loop fuel i len str s
    = (Ret (str ++ slice (unread s) 0 (len - i)), advance (Z.max 0 (len - i)) s).
Proof.
  revert i str s. induction fuel as [|fuel IH]; intros i str s Hwf Hi Hf Hr.
  - cbn. run_monad. unfold slice. replace (Z.to_nat (len - i)) with 0%nat by lia.
    rewrite take_0, app_nil_r, Z.max_l by lia. unfold advance. destruct s; cbn. do 3 f_equal. lia.
  - cbn [rQshiftStr_loop]. destruct (Z.ltb_spec i len).
    2:{ run_monad. unfold slice. replace (Z.to_nat (len - i)) with 0%nat by lia.
        rewrite take_0, app_nil_r, Z.max_l by lia. unfold advance. destruct s; cbn. do 3 f_equal. lia. }
    destruct Hr as [Hr|]; [|lia]. run_monad. rewrite rQtake_in by (done || lia).
    set (n := Z.min 4096 (len - i)). assert (Hn : 0 <= n <= rQlen s) by lia.
    assert (Hlen : rQlen (advance n s) = rQlen s - n) by (destruct s; unfold rQlen; cbn; lia).
    rewrite IH by (by apply wf_advance || lia).
    rewrite advance_advance, <- app_assoc. f_equal; [|f_equal; lia]. do 2 f_equal.
    rewrite unread_advance by done. destruct (Z.le_gt_cases (len - i) 4096).
    + replace n with (len - i) by lia. unfold slice at 2.
      replace (Z.to_nat (len - (i + 4096))) with 0%nat by lia. by rewrite app_nil_r.
    + replace (len - i) with (n + (len - (i + 4096))) by lia.
      rewrite slice_app by lia. unfold slice. by rewrite drop_0.
Qed.

Lemma rQshiftStr_in n s :
  wf s -> 0 <= n <= rQlen s ->
  rQshiftStr (Some n) s = (Ret (slice (unread s) 0 n), advance n s).
Proof.
  intros Hwf Hn. unfold rQshiftStr. run_monad. cbn [default from_option id].
  rewrite rQshiftStr_loop_in by (done || zlia). rewrite Z.sub_0_r, Z.max_r by lia. done.
Qed.

End Reading.

(** ** Lemmas: receiving *)

Section Receiving.
Import Websock ByteQueue.
#[local] Arguments rQ_buf : simpl never.
Implicit Type s : sock.

(** Whatever happens to the arrays, what matters of a socket. *)
Lemma wf_unread s buf i len :
  sk_heap s !! sk_rQ s = Some buf -> sk_rQi s = i -> sk_rQlen s = len ->
  rQ_buf s = buf /\ unread s = slice buf i (len - i).
Proof. intros H <- <-. unfold unread, rQ_buf, rQlen. by rewrite H. Qed.

(** Moving what is unread to the front of an array that can hold it. *)
Lemma slice_front (old fresh_ : list Z) i len :
  0 <= i <= len -> len <= zlen old -> zlen old - i <= zlen fresh_ ->
  slice (splice fresh_ 0 (drop (Z.to_nat i) old)) 0 (len - i) = slice old i (len - i).
Proof.
  intros. assert (zlen (drop (Z.to_nat i) old) = zlen old - i)
    by (unfold zlen in *; rewrite length_drop; lia).
  rewrite slice_splice_at by (pose proof (zlen_nonneg fresh_); lia).
  unfold slice. by rewrite drop_0.
Qed.

Definition new_size (s : sock) (min_fit : option Z) : Z :=
  Z.min MAX_RQ_GROW_SIZE
    (match min_fit with
     | Some n => (rQlen s + n) * 8
     | None => if sk_rQbufferSize s <? 2 * rQlen s then sk_rQbufferSize s * 2 else sk_rQbufferSize s
     end).

Lemma zlen_replicate {A} n (x : A) : 0 <= n -> zlen (replicate (Z.to_nat n) x) = n.
Proof. intros. unfold zlen. rewrite length_replicate. lia. Qed.

Lemma bytes_replicate k : bytes (replicate k 0).
Proof. apply Forall_replicate. unfold is_byte. lia. Qed.

Definition fits (s : sock) (min_fit : option Z) : Prop :=
  match min_fit with
  | Some n => sk_rQbufferSize s - sk_rQlen s < n /\ 0 < n /\ rQlen s + n <= MAX_RQ_GROW_SIZE
  | None => True
  end.

Lemma resize_spec s min_fit :
  wf s -> fits s min_fit ->
  let size := new_size s min_fit in
  exists r, resize_rQ min_fit s = (Ret r, s <| sk_rQbufferSize := size |>)
    /\ 0 < size <= MAX_RQ_GROW_SIZE /\ sk_rQbufferSize s - sk_rQi s <= size
    /\ (r = false -> size = sk_rQbufferSize s).
Proof.
  intros [_ _ Hm Ho _] Hfit. unfold new_size, resize_rQ, fits, rQlen in *. run_monad.
  destruct s as [ws i len size mx q sbs sl sq h rc sent]; cbn in *.
  destruct min_fit as [n|].
  - rewrite (proj2 (Z.eqb_neq n 0)) by lia. cbn.
    destruct (Z.ltb_spec MAX_RQ_GROW_SIZE ((len - i + n) * 8)); cbn.
    + rewrite (proj2 (Z.ltb_ge (MAX_RQ_GROW_SIZE - (len - i)) n)) by lia. cbn.
      rewrite Z.min_l by lia. eexists. split; [reflexivity|]. lia.
    + rewrite Z.min_r by lia. eexists. split; [reflexivity|]. lia.
  - cbn. destruct (Z.ltb_spec size (2 * (len - i))); cbn.
    + destruct (Z.ltb_spec MAX_RQ_GROW_SIZE (size * 2)); cbn.
      * rewrite Z.min_l by lia. eexists. split; [reflexivity|]. lia.
      * rewrite Z.min_r by lia. eexists. split; [reflexivity|]. lia.
    + rewrite (proj2 (Z.ltb_ge MAX_RQ_GROW_SIZE size)) by lia. cbn. rewrite Z.min_r by lia.
      eexists. split; [reflexivity|]. lia.
Qed.

Lemma realloc_spec r ws i len size mx q sbs sl sq h rc sent buf :
  h !! q = Some buf -> bytes buf -> 0 < size -> (r = false -> zlen buf = size) ->
  exists q' h' mx' nw,
    realloc_rQ r (Sock ws i len size mx q sbs sl sq h rc sent)
      = (Ret tt, Sock ws i len size mx' q' sbs sl sq h' rc sent)
    /\ h' !! q' = Some nw /\ zlen nw = size /\ bytes nw.
Proof.
  intros Hb Hby Hsz Hr. destruct r.
  - eexists _, _, _, (replicate (Z.to_nat size) 0). split; [reflexivity|].
    split; [apply lookup_insert_eq|]. split; [apply zlen_replicate; lia|apply bytes_replicate].
  - exists q, h, mx, buf. by rewrite Hr.
Qed.

(** [repack_rQ] on an array of length [old], for a buffer size already set. *)
Lemma repack_spec r s buf :
  sk_heap s !! sk_rQ s = Some buf -> bytes buf ->
  0 <= sk_rQi s <= sk_rQlen s -> sk_rQlen s <= zlen buf ->
  0 < sk_rQbufferSize s <= MAX_RQ_GROW_SIZE -> zlen buf - sk_rQi s <= sk_rQbufferSize s ->
  (r = false -> zlen buf = sk_rQbufferSize s) ->
  exists s', repack_rQ r s = (Ret tt, s') /\ wf s' /\ unread s' = slice buf (sk_rQi s) (rQlen s)
    /\ sk_rQi s' = 0 /\ sk_rQbufferSize s' = sk_rQbufferSize s.
Proof.
  intros Hb Hby Hi Hlen Hsz Hfit Hr. unfold repack_rQ. run_monad. unfold rQlen.
  destruct s as [ws i len size mx q sbs sl sq h rc sent]; cbn in *.
  assert (H0 : rQ_buf (Sock ws i len size mx q sbs sl sq h rc sent) = buf)
    by (unfold rQ_buf; cbn; by rewrite Hb).
  rewrite H0.
  destruct (realloc_spec r ws i len size mx q sbs sl sq h rc sent buf)
    as (q' & h' & mx' & nw & E & Hq & Hz & Hnb); [done|done|lia|done|].
  rewrite E. cbn. rewrite (proj2 (Z.ltb_ge i 0)), (proj2 (Z.ltb_ge _ i)) by lia. cbn.
  assert (H1 : rQ_buf (Sock ws i len size mx' q' sbs sl sq h' rc sent) = nw)
    by (unfold rQ_buf; cbn; by rewrite Hq).
  rewrite H1.
  assert (Hdz : zlen (drop (Z.to_nat i) buf) = zlen buf - i) by (unfold zlen in *; rewrite length_drop; lia).
  rewrite (proj2 (Z.ltb_ge _ _)) by lia. cbn. rewrite H1.
  eexists. split; [reflexivity|].
  assert (Hbuf : forall s', sk_heap s' = <[q':=splice nw 0 (drop (Z.to_nat i) buf)]> h' -> sk_rQ s' = q' ->
    rQ_buf s' = splice nw 0 (drop (Z.to_nat i) buf)).
  { intros s' H2 H3. unfold rQ_buf. by rewrite H2, H3, lookup_insert_eq. }
  split; [|split; [|done]].
  - split; rewrite ?Hbuf by done.
    + apply lookup_insert_eq.
    + by rewrite zlen_splice by lia.
    + done.
    + cbn. lia.
    + apply bytes_splice; [done|by apply Forall_drop].
  - unfold unread, rQlen. rewrite Hbuf by done. cbn. rewrite Z.sub_0_r. apply slice_front; lia.
Qed.

(** Compaction, with or without a new array: nothing unread is lost, and
    [min_fit] more bytes fit.  It gives up only beyond 40 MiB. *)
Lemma expand_compact_spec s min_fit :
  wf s -> fits s min_fit ->
  exists s', expand_compact_rQ min_fit s = (Ret tt, s')
    /\ wf s' /\ unread s' = unread s /\ sk_rQi s' = 0 /\ sk_rQbufferSize s' = new_size s min_fit.
Proof.
  intros Hwf Hfit. destruct (resize_spec s min_fit Hwf Hfit) as (r & E & Hsz & Hold & Hr).
  unfold expand_compact_rQ. run_monad. rewrite E.
  pose proof Hwf as [Hb Hs Hm Ho Hby].
  destruct (repack_spec r (s <| sk_rQbufferSize := new_size s min_fit |>) (rQ_buf s))
    as (s' & -> & Hwf' & Hu & Hi & Hz); destruct s; cbn in *; try done; try lia.
  - intros ->. rewrite Hs. symmetry. by apply Hr.
  - eauto 10.
Qed.

(** Beyond 40 MiB of unread bytes the message is refused. *)
Lemma resize_refuses s n :
  wf s -> sk_rQbufferSize s - sk_rQlen s < n -> MAX_RQ_GROW_SIZE < rQlen s + n ->
  resize_rQ (Some n) s
    = (Throw (Error "Receive Queue buffer exceeded"), s <| sk_rQbufferSize := MAX_RQ_GROW_SIZE |>).
Proof.
  intros [_ _ Hm Ho _] Hn Hbig. unfold resize_rQ, rQlen in *. run_monad.
  destruct s as [ws i len size mx q sbs sl sq h rc sent]; cbn in *.
  rewrite (proj2 (Z.eqb_neq n 0)) by lia. cbn.
  rewrite (proj2 (Z.ltb_lt MAX_RQ_GROW_SIZE _)) by lia. cbn.
  by rewrite (proj2 (Z.ltb_lt (MAX_RQ_GROW_SIZE - (len - i)) n)) by lia.
Qed.

(** A message written behind the unread bytes of a queue it fits in. *)
Lemma append_spec s u8 :
  wf s -> bytes u8 -> sk_rQlen s + zlen u8 <= sk_rQbufferSize s ->
  exists s', rQ_set u8 s = (Ret tt, s')
    /\ forall s'', s'' = s' <| sk_rQlen := sk_rQlen s' + zlen u8 |> ->
       wf s'' /\ unread s'' = unread s ++ u8 /\ sk_rQbufferSize s'' = sk_rQbufferSize s.
Proof.
  intros [Hb Hs Hm Ho Hby] Hu Hfit. unfold rQ_set. run_monad. cbn [id].
  rewrite (proj2 (Z.ltb_ge _ _)) by lia.
  eexists. split; [reflexivity|]. intros s'' Es''. pose proof (zlen_nonneg u8).
  assert (Hbuf : rQ_buf s'' = splice (rQ_buf s) (sk_rQlen s) u8).
  { rewrite Es''. unfold rQ_buf at 1. destruct s; cbn. by rewrite lookup_insert_eq. }
  assert (Hfields : sk_rQi s'' = sk_rQi s /\ sk_rQlen s'' = sk_rQlen s + zlen u8
    /\ sk_rQbufferSize s'' = sk_rQbufferSize s)
    by (rewrite Es''; by destruct s).
  destruct Hfields as (Hi & Hl & Hz). split; [|split; [|done]].
  - split; rewrite ?Hbuf, ?Hi, ?Hl, ?Hz; try done.
    + rewrite Es''. destruct s. apply lookup_insert_eq.
    + rewrite zlen_splice by lia. done.
    + lia.
    + by apply bytes_splice.
  - unfold unread, rQlen. rewrite Hbuf, Hi, Hl.
    replace (sk_rQlen s + zlen u8 - sk_rQi s) with ((sk_rQlen s - sk_rQi s) + zlen u8) by lia.
    rewrite slice_app by lia. f_equal.
    + apply slice_splice_before; lia.
    + rewrite slice_splice_at by lia. replace (_ - _) with 0 by lia. apply slice_all.
Qed.

Lemma decode_message_spec s u8 :
  wf s -> bytes u8 -> zlen (unread s) + zlen u8 <= MAX_RQ_GROW_SIZE ->
  exists s', decode_message u8 s = (Ret tt, s') /\ wf s' /\ unread s' = unread s ++ u8.
Proof.
  intros Hwf Hu Hmax. rewrite zlen_unread in Hmax by done. pose proof Hwf as [_ _ Hm Ho _].
  pose proof (zlen_nonneg u8). unfold decode_message. run_monad. cbn [id].
  destruct (Z.ltb_spec (sk_rQbufferSize s - sk_rQlen s) (zlen u8)).
  - destruct (expand_compact_spec s (Some (zlen u8)) Hwf) as (s1 & -> & Hwf1 & Hu1 & Hi1 & Hz1).
    { unfold fits. lia. }
    cbn. destruct (append_spec s1 u8) as (s2 & E & H2); [done|done| |].
    { rewrite Hz1. unfold new_size. pose proof (zlen_unread s1 Hwf1) as Hl.
      rewrite Hu1, zlen_unread in Hl by done. unfold rQlen in *. lia. }
    rewrite E. destruct (H2 _ eq_refl) as (? & Hu2 & _). rewrite Hu1 in Hu2. eauto.
  - cbn. destruct (append_spec s u8) as (s2 & E & H2); [done|done|lia|].
    rewrite E. destruct (H2 _ eq_refl) as (? & ? & _). eauto.
Qed.

Lemma compact_spec s :
  wf s -> exists s', compact s = (Ret tt, s') /\ wf s' /\ unread s' = unread s.
Proof.
  intros Hwf. pose proof Hwf as [Hb Hs Hm Ho Hby]. unfold compact. run_monad. cbn [id].
  destruct (Z.eqb_spec (sk_rQlen s) (sk_rQi s)) as [He|].
  - eexists. split; [reflexivity|]. assert (Hbuf : rQ_buf (s <| sk_rQlen := 0 |> <| sk_rQi := 0 |>) = rQ_buf s)
      by by destruct s.
    split.
    + split; rewrite ?Hbuf; destruct s; cbn in *; try done; try lia.
    + unfold unread, rQlen. rewrite Hbuf. destruct s; cbn in *. subst. by rewrite !Z.sub_diag, !slice_nil.
  - destruct (Z.ltb_spec (sk_rQmax s) (sk_rQlen s)); [|eauto].
    destruct (expand_compact_spec s None Hwf I) as (s' & -> & Hwf' & Hu & _). eauto.
Qed.

End Receiving.

(** ** Lemmas: the queue refines the specification *)

Section Refinement.
Import Websock ByteQueue.
#[local] Arguments rQshift : simpl never.
#[local] Arguments rQshift8 : simpl never.
#[local] Arguments rQshift16 : simpl never.
#[local] Arguments rQshift32 : simpl never.
Implicit Type s : sock.

Lemma shift_spec_inv n l x :
  shift_spec n l = Some x -> (n = 1 \/ n = 2 \/ n = 4)%nat /\ Z.of_nat n <= zlen l.
Proof.
  destruct n as [|[|[|[|[|n]]]]], l as [|a [|b [|c [|d l]]]]; try discriminate;
    intros _; (split; [auto|]); unfold zlen; cbn; lia.
Qed.

Lemma shift_refines n s x :
  wf s -> shift_spec n (unread s) = Some x ->
  rQshift n s = (Ret x, advance (Z.of_nat n) s) /\ Z.of_nat n <= rQlen s.
Proof.
  intros Hwf H. pose proof (shift_spec_inv _ _ _ H) as [Hn Hl]. rewrite zlen_unread in Hl by done.
  split; [|done]. destruct Hn as [->|[->| ->]].
  - destruct (unread s) as [|a l] eqn:Hq; [discriminate H|]. injection H as <-.
    by apply (rQshift_one s a l).
  - destruct (unread s) as [|a [|b l]] eqn:Hq; [discriminate H..|]. injection H as <-.
    by apply (rQshift_two s a b l).
  - destruct (unread s) as [|a [|b [|c [|d l]]]] eqn:Hq; [discriminate H..|]. injection H as <-.
    by apply (rQshift_four s a b c d l).
Qed.

(** One operation in step with the specification. *)
Lemma step_refines s o r q :
  wf s -> op_bytes o -> spec_step (unread s) o = Some (r, q) ->
  exists s', impl_step o s = (Ret r, s') /\ wf s' /\ unread s' = q.
Proof.
  intros Hwf Hop H.
  assert (Hadv : forall n, 0 <= n <= rQlen s ->
    wf (advance n s) /\ unread (advance n s) = drop (Z.to_nat n) (unread s))
    by (intros; split; [by apply wf_advance|by apply unread_advance]).
  destruct o; cbn [spec_step impl_step] in *; run_monad.
  - destruct (Z.leb_spec (zlen (unread s) + zlen data) MAX_RQ_GROW_SIZE); simplify_eq.
    destruct (decode_message_spec s data) as (s' & -> & ?); eauto.
  - simplify_eq. destruct (compact_spec s Hwf) as (s' & -> & ?). eauto.
  - destruct (shift_spec 1 (unread s)) as [x|] eqn:E; cbn in H; [injection H as <- <-|done].
    destruct (shift_refines 1 s x Hwf E) as [Es ?]. unfold rQshift8. rewrite Es.
    eexists; split; [done|]. by apply (Hadv 1).
  - destruct (shift_spec 2 (unread s)) as [x|] eqn:E; cbn in H; [injection H as <- <-|done].
    destruct (shift_refines 2 s x Hwf E) as [Es ?]. unfold rQshift16. rewrite Es.
    eexists; split; [done|]. by apply (Hadv 2).
  - destruct (shift_spec 4 (unread s)) as [x|] eqn:E; cbn in H; [injection H as <- <-|done].
    destruct (shift_refines 4 s x Hwf E) as [Es ?]. unfold rQshift32. rewrite Es.
    eexists; split; [done|]. by apply (Hadv 4).
  - destruct (Z.leb_spec 0 n), (Z.leb_spec n (zlen (unread s))); cbn in H; try done.
    injection H as <- <-.
    rewrite zlen_unread in * by done. eexists; split; [reflexivity|]. by apply Hadv.
  - destruct (Z.leb_spec 0 n), (Z.leb_spec n (zlen (unread s))); cbn in H; try done.
    injection H as <- <-.
    rewrite zlen_unread in * by done. rewrite rQtake_in by done. eexists; split; [done|]. by apply Hadv.
  - destruct (Z.leb_spec 0 n), (Z.leb_spec n (zlen (unread s))); cbn in H; try done.
    injection H as <- <-.
    rewrite zlen_unread in * by done. rewrite rQshiftStr_in by done. eexists; split; [done|]. by apply Hadv.
  - simplify_eq. rewrite zlen_unread by done. unfold rQwait. run_monad. cbn [id].
    destruct (rQlen s <? n); eauto.
Qed.

End Refinement.

(** ** Properties *)

Section Properties.
Import Websock ByteQueue.
Implicit Type s : sock.

(** [C3] The receive queue is a queue of bytes: on any sequence of messages,
    compactions and reads that the specification allows (no read past what has
    arrived, no more than 40 MiB unread), the socket gives the results of the
    specification, through every growth, shrinkage and compaction of its
    array, and ends holding the same unread bytes. *)
Theorem queue_refines l s rs q :
  wf s -> Forall op_bytes l -> spec_run (unread s) l = Some (rs, q) ->
  exists s', impl_run l s = (Ret rs, s') /\ wf s' /\ unread s' = q.
Proof.
  revert s rs. induction l as [|o l IH]; intros s rs Hwf Hl H; cbn in H.
  - simplify_eq. exists s. done.
  - inversion_clear Hl. destruct (spec_step (unread s) o) as [[r q1]|] eqn:E; simplify_eq/=.
    destruct (spec_run q1 l) as [[rs1 q2]|] eqn:E2; simplify_eq/=.
    destruct (step_refines s o r q1) as (s1 & E1 & Hwf1 & <-); [done..|].
    destruct (IH s1 rs1) as (s2 & E3 & ?); [done..|].
    cbn. run_monad. rewrite E1, E3. eauto.
Qed.

(** [C24] A new message never costs an unread byte: it is appended whole, or,
    when the unread bytes and the message exceed 40 MiB together, refused with
    an error, and the queue still reads as before.  This is of a well-formed
    queue, as it is until a message has been refused; for what comes after a
    refusal see [refusal_corrupts]. *)
Theorem decode_message_lossless s u8 :
  wf s -> bytes u8 ->
  let '(r, s') := decode_message u8 s in
  if zlen (unread s) + zlen u8 <=? MAX_RQ_GROW_SIZE
  then r = Ret tt /\ wf s' /\ unread s' = unread s ++ u8
  else r = Throw (Error "Receive Queue buffer exceeded") /\ unread s' = unread s.
Proof.
  intros Hwf Hu. destruct (Z.leb_spec (zlen (unread s) + zlen u8) MAX_RQ_GROW_SIZE) as [H|H].
  - destruct (decode_message_spec s u8) as (s' & -> & ?); eauto.
  - rewrite zlen_unread in H by done. pose proof Hwf as [_ _ Hm Ho _]. unfold rQlen in H.
    unfold decode_message, expand_compact_rQ. run_monad. cbn [id].
    rewrite (proj2 (Z.ltb_lt _ (zlen u8))) by lia.
    rewrite resize_refuses; [|done|lia|unfold rQlen; lia]. split; [done|]. by destruct s.
Qed.

(** After such a refusal the socket believes in an array of 40 MiB that it
    does not have: a later message that the specification accepts is refused
    with a RangeError as soon as it reaches past the real array. *)
Theorem refusal_corrupts s u8 later :
  wf s -> bytes u8 -> MAX_RQ_GROW_SIZE < zlen (unread s) + zlen u8 ->
  sk_rQbufferSize s < sk_rQlen s + zlen later -> sk_rQlen s + zlen later <= MAX_RQ_GROW_SIZE ->
  let s' := (decode_message u8 s).2 in
  sk_rQbufferSize s' = MAX_RQ_GROW_SIZE /\ zlen (rQ_buf s') = sk_rQbufferSize s
  /\ spec_step (unread s') (Recv later) <> None
  /\ decode_message later s' = (Throw RangeError, s').
Proof.
  intros Hwf Hu H Hreal Hmax. rewrite zlen_unread in H by done.
  pose proof Hwf as [_ Hs Hm Ho _]. unfold decode_message at 1, expand_compact_rQ. run_monad. cbn [id].
  unfold rQlen in H. rewrite (proj2 (Z.ltb_lt _ (zlen u8))) by lia.
  rewrite resize_refuses; [|done|lia|unfold rQlen; lia]. cbn [snd].
  set (s' := s <| sk_rQbufferSize := MAX_RQ_GROW_SIZE |>).
  assert (Hbuf : rQ_buf s' = rQ_buf s) by by destruct s.
  assert (Hl : sk_rQlen s' = sk_rQlen s) by by destruct s.
  assert (Hq : unread s' = unread s) by by destruct s.
  split; [by destruct s|]. split; [by rewrite Hbuf|]. split.
  - rewrite Hq. cbn [spec_step]. rewrite zlen_unread by done. unfold rQlen.
    by rewrite (proj2 (Z.leb_le _ MAX_RQ_GROW_SIZE)) by lia.
  - unfold decode_message, rQ_set. run_monad. cbn [id].
    replace (sk_rQbufferSize s') with MAX_RQ_GROW_SIZE by by destruct s.
    rewrite Hl. rewrite (proj2 (Z.ltb_ge _ (zlen later))) by lia. rewrite Hbuf, Hl.
    by rewrite (proj2 (Z.ltb_lt (zlen (rQ_buf s)) _)) by lia.
Qed.

(** The bytes given to the network, followed by those still queued, are
    the bytes sent so far: [send] appends its argument, converted to bytes,
    sends everything at once when the connection is open, keeps it when it is
    not, and is refused, without effect, when the 10 KiB queue cannot hold it. *)
Theorem send_stream s arr st :
  0 <= sk_sQlen s <= zlen (sk_sQ s) -> sk_websocket s = Some st ->
  let '(r, s') := send arr s in
  if zlen (sk_sQ s) <? sk_sQlen s + zlen arr then r = Throw RangeError /\ s' = s
  else r = Ret tt /\ 0 <= sk_sQlen s' <= zlen (sk_sQ s') /\ zlen (sk_sQ s') = zlen (sk_sQ s)
    /\ concat (sk_sent s') ++ encode_message s'
       = concat (sk_sent s) ++ encode_message s ++ map toUint8 arr
    /\ (if decide (st = OPEN) then sk_sQlen s' = 0 else sk_sent s' = sk_sent s).
Proof.
  intros Hl Hw. pose proof (zlen_nonneg arr) as Ha. unfold send, flush, encode_message.
  destruct s as [ws i len size mx q sbs sl sq h rc sent]; cbn in *. subst ws. run_monad. cbn.
  destruct (Z.ltb_spec (zlen sq) (sl + zlen arr)); [done|]. cbn.
  assert (Hz : zlen (map toUint8 arr) = zlen arr) by (unfold zlen; by rewrite length_map).
  assert (Hs : slice (splice sq sl (map toUint8 arr)) 0 (sl + zlen arr)
    = slice sq 0 sl ++ map toUint8 arr).
  { rewrite slice_app by lia. rewrite slice_splice_before by lia. f_equal.
    rewrite slice_splice_at by lia. rewrite Z.add_0_l, Z.sub_diag, <- Hz. apply slice_all. }
  destruct (Z.ltb_spec 0 (sl + zlen arr)); cbn.
  - rewrite (proj2 (Z.ltb_ge (zlen (splice sq sl (map toUint8 arr))) _))
      by (rewrite zlen_splice by lia; lia).
    destruct st; cbn; rewrite ?zlen_splice, ?Hs by lia; repeat split; try done; try lia.
    rewrite concat_app, <- !app_assoc. cbn. by rewrite !app_nil_r.
  - assert (arr = []) as -> by (destruct arr; [done|rewrite zlen_cons in *; pose proof (zlen_nonneg arr); lia]).
    replace sl with 0 in * by (unfold zlen in *; cbn in *; lia).
    rewrite ?zlen_splice by (cbn; lia). repeat split; cbn; try lia; try done.
    by destruct (decide _).
Qed.

(** *** The properties at concrete inputs *)

(** A socket with an array of 16 bytes, five of them unread at its end. *)
Definition sample : sock := {|
  sk_websocket := Some OPEN; sk_rQi := 10; sk_rQlen := 15; sk_rQbufferSize := 16; sk_rQmax := 2;
  sk_rQ := 0; sk_sQbufferSize := 4; sk_sQlen := 0; sk_sQ := [0; 0; 0; 0];
  sk_heap := {[0%nat := replicate 10 0 ++ [1; 255; 255; 255; 2; 0]]};
  sk_receiving := true; sk_sent := [] |}.

Lemma sock_sample_wf : wf sample.
Proof.
  split; try done; cbn; try lia. repeat constructor; unfold is_byte; lia.
Qed.

(** Two messages that do not fit where they arrive, and reads across them. *)
Lemma queue_refines_witness :
  exists s', impl_run [Recv [7; 8; 9]; Shift8; Compact; Shift32; Recv (replicate 40 5); Wait 100;
                       Skip 3; Shift16; Str 2; Bytes 1] sample
    = (Ret [RUnit; RNum 1; RUnit; RNum (-254); RUnit; RWait true; RUnit; RNum 1285;
            RBytes [5; 5]; RBytes [5]], s') /\ wf s' /\ unread s' = replicate 35 5.
Proof.
  apply (queue_refines _ sample); [apply sock_sample_wf| |reflexivity].
  repeat constructor; unfold is_byte; lia.
Defined.

Lemma decode_message_lossless_witness :
  unread (decode_message [3; 4; 5] sample).2 = [1; 255; 255; 255; 2; 3; 4; 5].
Proof.
  pose proof (decode_message_lossless sample [3; 4; 5] sock_sample_wf ltac:(repeat constructor; unfold is_byte; lia)) as H.
  destruct (decode_message [3; 4; 5] sample) as [r s']. exact (proj2 (proj2 H)).
Defined.

Lemma refusal_corrupts_witness :
  let big := replicate (Z.to_nat MAX_RQ_GROW_SIZE) 0 in
  let s' := (decode_message big sample).2 in
  decode_message [1; 2] s' = (Throw RangeError, s').
Proof.
  apply (refusal_corrupts sample (replicate (Z.to_nat MAX_RQ_GROW_SIZE) 0) [1; 2]).
  - apply sock_sample_wf.
  - apply bytes_replicate.
  - rewrite zlen_replicate by (unfold MAX_RQ_GROW_SIZE; lia).
    change (zlen (unread sample)) with 5. lia.
  - reflexivity.
  - discriminate.
Defined.

Lemma send_stream_witness :
  let '(r, s') := send [1; 2; 300] sample in
  r = Ret tt /\ concat (sk_sent s') ++ encode_message s' = [1; 2; 44].
Proof.
  assert (H1 : 0 <= sk_sQlen sample <= zlen (sk_sQ sample)) by (cbn; unfold zlen; cbn; lia).
  destruct (send_stream sample [1; 2; 300] OPEN H1 eq_refl) as (Hr & _ & _ & Hs & _).
  exact (conj Hr Hs).
Defined.

End Properties.
