(* ===== verification/Messages.v ===== *)
(** * The messages a VNC client sends
    (RFB.messages of src/ControlServer/web/www/novnc/core/rfb.js)

    Each message builder writes its bytes behind the send queue of a [Websock]
    and flushes it; [RfbFormat] is the layout of the same messages in the RFB
    protocol. *)

From S2P Require Import Prelude Websock.

Module Messages.
Import Websock.
Local Open Scope js_scope.

(** Write the bytes, move [_sQlen] and flush. *)
Definition push (l : list Z) : M sock unit := sQ_write l;; flush.

Definition b2z (b : bool) : Z := if b then 1 else 0.

Definition keyEvent (keysym down : Z) : M sock unit := push
  [4; down; 0; 0; keysym >>. 24; keysym >>. 16; keysym >>. 8; keysym].

Definition getRFBkeycode (keycode : Z) : Z :=
  let upperByte := keycode >>. 8 in
  let lowerByte := keycode &. 0x00ff in
  if (upperByte =? 0xe0) && (lowerByte <? 0x7f) then lowerByte |. 0x80 else keycode.

Definition QEMUExtendedKeyEvent (keysym : Z) (down : bool) (keycode : Z) : M sock unit :=
  let RFBkeycode := getRFBkeycode keycode in
  push [255; 0; b2z down >>. 8; b2z down;
        keysym >>. 24; keysym >>. 16; keysym >>. 8; keysym;
        RFBkeycode >>. 24; RFBkeycode >>. 16; RFBkeycode >>. 8; RFBkeycode].

Definition pointerEvent (x y mask : Z) : M sock unit := push
  [5; mask; x >>. 8; x; y >>. 8; y].

(** [_screen_id] and [_screen_flags] start as numbers and become views of the
    receive queue; a view of four bytes is NaN in arithmetic. *)
Inductive screen_field := SNumber (n : Z) | SView (v : view).
Definition field_int (f : screen_field) : Z :=
  match f with SNumber n => n | SView _ => 0 end.

Definition setDesktopSize (width height : Z) (id flags : screen_field) : M sock unit :=
  let id := field_int id in let flags := field_int flags in
  push [251; 0; width >>. 8; width; height >>. 8; height; 1; 0;
        id >>. 24; id >>. 16; id >>. 8; id; 0; 0; 0; 0;
        width >>. 8; width; height >>. 8; height;
        flags >>. 24; flags >>. 16; flags >>. 8; flags].

Definition clientFence (flags : Z) (payload : list Z) : M sock unit := push
  ([248; 0; 0; 0; flags >>. 24; flags >>. 16; flags >>. 8; flags; zlen payload] ++ payload).

Definition enableContinuousUpdates (enable : bool) (x y width height : Z) : M sock unit := push
  [150; b2z enable; x >>. 8; x; y >>. 8; y; width >>. 8; width; height >>. 8; height].

Definition pixelFormat (depth : Z) (true_color : bool) : M sock unit :=
  let bpp := if 16 <? depth then 32 else if 8 <? depth then 16 else 8 in
  let bits := depth / 3 in
  push [0; 0; 0; 0; bpp; depth; 0; b2z true_color;
        0; (1 <<. bits) - 1; 0; (1 <<. bits) - 1; 0; (1 <<. bits) - 1;
        bits * 2; bits * 1; bits * 0; 0; 0; 0].

Definition clientEncodings (encodings : list Z) : M sock unit := push
  ([2; 0; zlen encodings >>. 8; zlen encodings]
   ++ concat (map (fun enc => [enc >>. 24; enc >>. 16; enc >>. 8; enc]) encodings)).

Definition fbUpdateRequest (incremental : bool) (x y w h : Z) : M sock unit := push
  [3; b2z incremental; (x >>. 8) &. 0xFF; x &. 0xFF; (y >>. 8) &. 0xFF; y &. 0xFF;
   (w >>. 8) &. 0xFF; w &. 0xFF; (h >>. 8) &. 0xFF; h &. 0xFF].

Definition xvpOp (ver op : Z) : M sock unit := push [250; 0; ver; op].

(** The text goes out in pieces that fit the send queue; [None] when [fuel]
    rounds do not finish it. *)
Fixpoint cut_loop (fuel : nat) (text : list Z) (textOffset remaining : Z) (s : sock)
    : option (outcome unit * sock) :=
  match fuel with
  | O => None
  | S fuel =>
      if 0 <? remaining then
        let flushSize := Z.min remaining (sk_sQbufferSize s - sk_sQlen s) in
        let piece := map (fun i => default 0 (aget text (textOffset + Z.of_nat i)))
                         (seq 0 (Z.to_nat flushSize)) in
        let s := s <| sk_sQ := buff_write (sk_sQ s) (sk_sQlen s) piece |>
                   <| sk_sQlen := sk_sQlen s + flushSize |> in
        match flush s with
        | (Ret _, s) => cut_loop fuel text (textOffset + flushSize) (remaining - flushSize) s
        | (Throw e, s) => Some (Throw e, s)
        end
      else Some (Ret tt, s)
  end.

Definition clientCutText (fuel : nat) (text : list Z) (s : sock) : option (outcome unit * sock) :=
  let length := zlen text in
  match sQ_write [6; 0; 0; 0; length >>. 24; length >>. 16; length >>. 8; length] s with
  | (Ret _, s) => cut_loop fuel text 0 length s
  | (Throw e, s) => Some (Throw e, s)
  end.

End Messages.

(** ** The messages as the protocol lays them out *)

Module RfbFormat.

Definition u8 (n : Z) : list Z := [n mod 256].
Definition u16 (n : Z) : list Z := [n / 256 mod 256; n mod 256].
Definition u32 (n : Z) : list Z := be_bytes n.

Inductive message :=
  | KeyEvent (down keysym : Z)
  | QemuKeyEvent (down keysym keycode : Z)
  | PointerEvent (mask x y : Z)
  | SetDesktopSize (width height id flags : Z)
  | ClientFence (flags : Z) (payload : list Z)
  | EnableContinuousUpdates (enable x y width height : Z)
  | SetPixelFormat (bpp depth true_color max red green blue : Z)
  | SetEncodings (l : list Z)
  | UpdateRequest (incremental x y w h : Z)
  | Xvp (ver op : Z)
  | CutText (text : list Z).

Definition layout (m : message) : list Z :=
  match m with
  | KeyEvent down keysym => u8 4 ++ u8 down ++ u16 0 ++ u32 keysym
  | QemuKeyEvent down keysym keycode => u8 255 ++ u8 0 ++ u16 down ++ u32 keysym ++ u32 keycode
  | PointerEvent mask x y => u8 5 ++ u8 mask ++ u16 x ++ u16 y
  | SetDesktopSize w h id flags =>
      u8 251 ++ u8 0 ++ u16 w ++ u16 h ++ u8 1 ++ u8 0
      ++ u32 id ++ u16 0 ++ u16 0 ++ u16 w ++ u16 h ++ u32 flags
  | ClientFence flags payload =>
      u8 248 ++ u8 0 ++ u16 0 ++ u32 flags ++ u8 (zlen payload) ++ map toUint8 payload
  | EnableContinuousUpdates e x y w h => u8 150 ++ u8 e ++ u16 x ++ u16 y ++ u16 w ++ u16 h
  | SetPixelFormat bpp depth tc max r g b =>
      u8 0 ++ u8 0 ++ u16 0 ++ u8 bpp ++ u8 depth ++ u8 0 ++ u8 tc
      ++ u16 max ++ u16 max ++ u16 max ++ u8 r ++ u8 g ++ u8 b ++ u8 0 ++ u16 0
  | SetEncodings l => u8 2 ++ u8 0 ++ u16 (zlen l) ++ concat (map u32 l)
  | UpdateRequest i x y w h => u8 3 ++ u8 i ++ u16 x ++ u16 y ++ u16 w ++ u16 h
  | Xvp ver op => u8 250 ++ u8 0 ++ u8 ver ++ u8 op
  | CutText text => u8 6 ++ u8 0 ++ u16 0 ++ u32 (zlen text) ++ map toUint8 text
  end.

End RfbFormat.

(** ** Lemmas *)

Section Lemmas.
Import Websock Messages RfbFormat.
Implicit Type s : sock.

Lemma buff_write_mid pre old post l :
  length old = length l -> buff_write (pre ++ old ++ post) (zlen pre) l = pre ++ map toUint8 l ++ post.
Proof.
  revert pre old. induction l as [|v l IH]; intros pre old Hl; destruct old as [|o old]; try done.
  cbn [buff_write map app]. rewrite aset_mid, <- (zlen_snoc pre (toUint8 v)), (cons_middle (toUint8 v)).
  rewrite app_assoc, IH by (cbn in Hl; lia). by rewrite <- app_assoc.
Qed.

Lemma buff_write_splice buff i l :
  0 <= i -> i + zlen l <= zlen buff -> buff_write buff i l = splice buff i (map toUint8 l).
Proof.
  intros Hi Hl. unfold splice, zlen in *. rewrite length_map.
  pose proof (buff_write_mid (take (Z.to_nat i) buff) (take (length l) (drop (Z.to_nat i) buff))
    (drop (length l) (drop (Z.to_nat i) buff)) l) as H.
  replace (zlen (take (Z.to_nat i) buff)) with i in H by (unfold zlen; rewrite length_take; lia).
  rewrite !take_drop, drop_drop in H. apply H. rewrite length_take, length_drop. lia.
Qed.

(** The bytes of an integer, as the builders cut it. *)
Lemma toUint8_shr n k : 0 <= k < 32 -> toUint8 (js_shr n k) = toInt32 n / 2 ^ k mod 256.
Proof.
  intros. unfold toUint8, js_shr. rewrite (Z.mod_small k) by lia. by rewrite Z.shiftr_div_pow2 by lia.
Qed.

Lemma toInt32_byte_at n k :
  0 <= k <= 24 -> toInt32 n / 2 ^ k mod 256 = n / 2 ^ k mod 256.
Proof.
  intros. rewrite <- !Z.shiftr_div_pow2 by lia. change 256 with (2 ^ 8).
  apply Z.bits_inj'. intros i Hi. destruct (Z.lt_ge_cases i 8).
  - rewrite !Z.mod_pow2_bits_low, !Z.shiftr_spec, toInt32_testbit by lia. by rewrite Z.min_l by lia.
  - by rewrite !Z.mod_pow2_bits_high by lia.
Qed.

Lemma shr_byte n k : 0 <= k <= 24 -> toUint8 (js_shr n k) = n / 2 ^ k mod 256.
Proof. intros. rewrite toUint8_shr by lia. apply toInt32_byte_at; lia. Qed.

Lemma shr_u32 n : map toUint8 [js_shr n 24; js_shr n 16; js_shr n 8; n] = u32 n.
Proof. cbn [map]. by rewrite !shr_byte by lia. Qed.

Lemma shr_u16 n : map toUint8 [js_shr n 8; n] = u16 n.
Proof. cbn [map]. by rewrite !shr_byte by lia. Qed.

Lemma toUint8_mask n : toUint8 (js_and n 255) = n mod 256.
Proof.
  unfold toUint8, js_and. rewrite (toInt32_small 255) by lia. change 255 with (Z.ones 8).
  rewrite Z.land_ones by lia. change (2 ^ 8) with 256. rewrite Z.mod_mod by lia.
  pose proof (toInt32_byte_at n 0 ltac:(lia)) as H. by rewrite Z.pow_0_r, !Z.div_1_r in H.
Qed.

Lemma toUint8_shr_mask n : toUint8 (js_and (js_shr n 8) 255) = n / 256 mod 256.
Proof. rewrite toUint8_mask. apply (shr_byte n 8). lia. Qed.

(** A message on an idle open connection goes out alone. *)
Definition idle (s : sock) : Prop :=
  sk_websocket s = Some OPEN /\ sk_sQlen s = 0 /\ zlen (sk_sQ s) = sk_sQbufferSize s.

Lemma push_idle s l :
  idle s -> 0 < zlen l <= sk_sQbufferSize s ->
  exists s', push l s = (Ret tt, s') /\ idle s' /\ sk_sQbufferSize s' = sk_sQbufferSize s
    /\ sk_sent s' = sk_sent s ++ [map toUint8 l].
Proof.
  intros (Hw & Hq & Hz) Hl. unfold push, sQ_write, flush, encode_message, idle. run_monad.
  destruct s as [ws i len size mx q sbs sl sq h rc sent]; cbn in *. subst.
  rewrite buff_write_splice by lia.
  assert (Hm : zlen (map toUint8 l) = zlen l) by (unfold zlen; by rewrite length_map).
  rewrite Z.add_0_l.
  rewrite (proj2 (Z.ltb_lt 0 (zlen l))) by lia.
  rewrite (proj2 (Z.ltb_ge _ (zlen l))) by (rewrite zlen_splice by lia; lia). cbn.
  eexists. split; [reflexivity|]. cbn. rewrite zlen_splice by lia. repeat split; try done.
  do 2 f_equal. rewrite slice_splice_at by (pose proof (zlen_nonneg sq); lia).
  rewrite Z.sub_0_r, <- Hm. by rewrite slice_all.
Qed.

End Lemmas.

(** ** Properties *)

Section Properties.
Import Websock Messages RfbFormat.
Implicit Type s : sock.

(** The message a builder is to send, and the builder. *)
Definition builds (m : M sock unit) (msg : message) : Prop := forall s,
  idle s -> zlen (layout msg) <= sk_sQbufferSize s ->
  exists s', m s = (Ret tt, s') /\ idle s' /\ sk_sent s' = sk_sent s ++ [layout msg].

Lemma push_builds l msg : map toUint8 l = layout msg -> l <> [] -> builds (push l) msg.
Proof.
  intros Hl Hne s Hs Hfit. assert (Hz : zlen l = zlen (layout msg))
    by (rewrite <- Hl; unfold zlen; by rewrite length_map).
  assert (0 < zlen l) by (destruct l; [done|rewrite zlen_cons; pose proof (zlen_nonneg l); lia]).
  destruct (push_idle s l Hs ltac:(lia)) as (s' & E & Hi & _ & Ho). rewrite Hl in Ho. eauto.
Qed.

Ltac fields := cbn [layout map app];
  rewrite ?shr_byte by lia; rewrite ?toUint8_shr_mask; rewrite ?toUint8_mask.

(** [C14] On an open, idle connection each of the ten builders of a single packet
    (all but [clientCutText], and [pixelFormat] at the depths in use) sends one packet,
    laid out field by field as the protocol defines the message, big endian and
    reduced to the width of each field. *)
Theorem messages_layout :
  (forall keysym down, builds (keyEvent keysym down) (KeyEvent down keysym))
  /\ (forall keysym down code, builds (QEMUExtendedKeyEvent keysym down code)
        (QemuKeyEvent (b2z down) keysym (getRFBkeycode code)))
  /\ (forall x y mask, builds (pointerEvent x y mask) (PointerEvent mask x y))
  /\ (forall w h id flags, builds (setDesktopSize w h id flags)
        (SetDesktopSize w h (field_int id) (field_int flags)))
  /\ (forall flags payload, builds (clientFence flags payload) (ClientFence flags payload))
  /\ (forall e x y w h, builds (enableContinuousUpdates e x y w h)
        (EnableContinuousUpdates (b2z e) x y w h))
  /\ builds (pixelFormat 24 true) (SetPixelFormat 32 24 1 255 16 8 0)
  /\ builds (pixelFormat 8 true) (SetPixelFormat 8 8 1 3 4 2 0)
  /\ (forall l, builds (clientEncodings l) (SetEncodings l))
  /\ (forall i x y w h, builds (fbUpdateRequest i x y w h) (UpdateRequest (b2z i) x y w h))
  /\ (forall ver op, builds (xvpOp ver op) (Xvp ver op)).
Proof.
  repeat split; intros; apply push_builds; try discriminate.
  all: try (fields; reflexivity).
  rewrite map_app, concat_map, map_map, (map_ext _ u32 shr_u32). by fields.
Qed.

(** The text of a paste, in pieces: what is left of it when [off] bytes are gone. *)
Lemma cut_piece (text : list Z) off n :
  0 <= off -> 0 <= n -> off + n <= zlen text ->
  map (fun i => default 0 (aget text (off + Z.of_nat i))) (seq 0 (Z.to_nat n)) = slice text off n.
Proof.
  intros Ho Hn Hl. unfold slice, zlen in *. apply list_eq. intros i.
  destruct (Nat.lt_ge_cases i (Z.to_nat n)).
  - rewrite list_lookup_fmap, lookup_seq_lt by lia. cbn. rewrite lookup_take_lt, lookup_drop by lia.
    replace (off + Z.of_nat i) with (Z.of_nat (Z.to_nat off + i)) by lia. rewrite aget_nat.
    destruct (lookup_lt_is_Some_2 text (Z.to_nat off + i)) as [x ->]; [lia|done].
  - rewrite !lookup_ge_None_2 by (rewrite ?length_take, ?length_map, ?length_seq; lia). done.
Qed.

(** One round on an open connection: a piece goes out, the queue is empty. *)
Lemma cut_round s text off rem :
  sk_websocket s = Some OPEN -> 0 <= sk_sQlen s < sk_sQbufferSize s ->
  zlen (sk_sQ s) = sk_sQbufferSize s -> 0 <= off -> 0 < rem -> off + rem = zlen text ->
  exists n s', 0 < n <= rem
    /\ (forall f, cut_loop (S f) text off rem s = cut_loop f text (off + n) (rem - n) s')
    /\ idle s' /\ sk_sQbufferSize s' = sk_sQbufferSize s
    /\ concat (sk_sent s') = concat (sk_sent s) ++ slice (sk_sQ s) 0 (sk_sQlen s)
                              ++ map toUint8 (slice text off n).
Proof.
  intros Hw Hq Hz Ho Hr Ht. destruct s as [ws i len size mx q sbs sl sq h rc sent]; cbn in *. subst.
  set (n := Z.min rem (zlen sq - sl)). exists n. assert (Hn : 0 < n <= rem) by lia.
  assert (Hlen : zlen (map toUint8 (slice text off n)) = n).
  { unfold zlen. rewrite length_map. fold (zlen (slice text off n)). apply zlen_slice; lia. }
  eexists. split; [done|]. split.
  - intros f. cbn [cut_loop]. rewrite (proj2 (Z.ltb_lt 0 rem)) by lia. cbn. fold n.
    rewrite cut_piece by lia. rewrite buff_write_splice by (rewrite ?zlen_slice; lia).
    unfold flush. run_monad. cbn. rewrite (proj2 (Z.ltb_lt 0 (sl + n))) by lia.
    rewrite (proj2 (Z.ltb_ge _ (sl + n))) by (rewrite zlen_splice; lia). reflexivity.
  - cbn. unfold idle. cbn. rewrite zlen_splice by lia. repeat split; try done.
    rewrite concat_app. cbn. rewrite app_nil_r. f_equal. unfold encode_message. cbn.
    rewrite slice_app by lia. rewrite slice_splice_before by lia. f_equal.
    rewrite slice_splice_at by lia. rewrite Z.add_0_l, Z.sub_diag.
    pose proof (slice_all (map toUint8 (slice text off n))) as Ha. by rewrite Hlen in Ha.
Qed.

Lemma cut_loop_open f s text off rem :
  idle s -> 0 < sk_sQbufferSize s -> 0 <= off -> 0 <= rem -> off + rem = zlen text ->
  rem < Z.of_nat f ->
  exists s', cut_loop f text off rem s = Some (Ret tt, s') /\ idle s'
    /\ concat (sk_sent s') = concat (sk_sent s) ++ map toUint8 (slice text off rem).
Proof.
  revert s off rem. induction f as [|f IH]; intros s off rem Hi Hs Ho Hr Ht Hf; [lia|].
  pose proof Hi as (Hw & Hq & Hz).
  destruct (Z.ltb_spec 0 rem).
  - destruct (cut_round s text off rem) as (n & s' & Hn & E & Hi' & Hs' & Hsent); try done; try lia.
    rewrite E. destruct (IH s' (off + n) (rem - n)) as (s'' & -> & Hi'' & Hsent''); try done; try lia.
    exists s''. repeat split; try apply Hi''. rewrite Hsent'', Hsent, Hq, slice_nil. cbn.
    rewrite <- app_assoc, <- map_app, <- slice_app by lia. do 3 f_equal. lia.
  - exists s. cbn [cut_loop]. rewrite (proj2 (Z.ltb_ge 0 rem)) by lia.
    replace rem with 0 by lia. rewrite slice_nil, app_nil_r. done.
Qed.

(** [C33] A paste of any length goes out whole on an open connection: the header
    with the length, then every byte of the text in order, in pieces that fit
    the send queue; the loop makes at most one round per byte. *)
Theorem clientCutText_open s text :
  idle s -> 8 < sk_sQbufferSize s -> zlen text < 2 ^ 31 ->
  exists s', clientCutText (S (length text)) text s = Some (Ret tt, s')
    /\ sk_websocket s' = Some OPEN
    /\ concat (sk_sent s') ++ encode_message s' = concat (sk_sent s) ++ layout (CutText text).
Proof.
  intros Hi Hs Hl. pose proof Hi as (Hw & Hq & Hz). unfold clientCutText, sQ_write. run_monad.
  set (hd := [6; 0; 0; 0; js_shr (zlen text) 24; js_shr (zlen text) 16; js_shr (zlen text) 8; zlen text]).
  assert (Hh : map toUint8 hd = u8 6 ++ u8 0 ++ u16 0 ++ u32 (zlen text)) by (unfold hd; fields; reflexivity).
  assert (Hhd : zlen (map toUint8 hd) = 8) by done.
  rewrite buff_write_splice by (rewrite ?Hq, ?Hz; change (zlen hd) with 8; lia).
  set (s1 := s <| sk_sQ := _ |> <| sk_sQlen := _ |>).
  assert (H1 : sk_websocket s1 = Some OPEN /\ sk_sQlen s1 = 8 /\ sk_sQbufferSize s1 = sk_sQbufferSize s
    /\ zlen (sk_sQ s1) = sk_sQbufferSize s /\ sk_sent s1 = sk_sent s
    /\ slice (sk_sQ s1) 0 8 = map toUint8 hd).
  { unfold s1. destruct s; cbn -[hd splice slice] in *. subst. rewrite zlen_splice by lia.
    repeat split. }
  destruct H1 as (Hw1 & Hq1 & Hs1 & Hz1 & Hse1 & Hb1). cbn [layout].
  change (slice (sk_sQ s1) 0 8 = map toUint8 hd) in Hb1.
  destruct (decide (text = [])) as [->|Hne].
  - exists s1. cbn [cut_loop length]. change (0 <? zlen []) with false. split; [done|]. split; [done|].
    unfold encode_message. rewrite Hse1, Hq1, Hb1. done.
  - assert (0 < zlen text) by (destruct text; [done|rewrite zlen_cons; pose proof (zlen_nonneg text); lia]).
    destruct (cut_round s1 text 0 (zlen text)) as (n & s2 & Hn & E & Hi2 & Hs2 & Hsent); try done; try lia.
    rewrite E. destruct (cut_loop_open (length text) s2 text n (zlen text - n))
      as (s3 & E3 & Hi3 & Hsent3); try done; try lia.
    { unfold zlen in *. lia. }
    rewrite Z.add_0_l, E3. exists s3. split; [done|]. destruct Hi3 as (Hw3 & Hq3 & _). split; [done|].
    unfold encode_message. rewrite Hq3, slice_nil, app_nil_r, Hsent3, Hsent, Hse1, Hq1, Hb1, Hh.
    rewrite <- !app_assoc. do 5 f_equal. rewrite <- map_app. f_equal.
    transitivity (slice text 0 (n + (zlen text - n))); [symmetry; apply slice_app; lia|].
    replace (n + _) with (zlen text) by lia. apply slice_all.
Qed.

(** While the connection is not open (closing, say) a paste longer than the
    free part of the send queue never finishes: no number of rounds ends the loop. *)
Theorem clientCutText_hangs s text st fuel :
  sk_websocket s = Some st -> st <> OPEN -> 0 <= sk_sQlen s ->
  sk_sQlen s + 8 <= sk_sQbufferSize s < sk_sQlen s + 8 + zlen text ->
  clientCutText fuel text s = None.
Proof.
  intros Hw Hst Hq Hs. unfold clientCutText, sQ_write. run_monad.
  set (s1 := s <| sk_sQ := _ |> <| sk_sQlen := _ |>).
  assert (H1 : sk_websocket s1 = Some st
    /\ 0 <= sk_sQlen s1 <= sk_sQbufferSize s1 /\ sk_sQbufferSize s1 - sk_sQlen s1 < zlen text).
  { unfold s1. destruct s; cbn in *. change (zlen (6 :: _)) with 8. split_and!; [done|lia..]. }
  clearbody s1. clear s Hw Hq Hs. destruct H1 as (Hw & Hq & Hr).
  generalize 0 as off. revert Hr. generalize (zlen text) as rem. revert s1 Hw Hq.
  induction fuel as [|f IH]; intros s Hw Hq rem Hr off; [done|].
  cbn [cut_loop]. rewrite (proj2 (Z.ltb_lt 0 rem)) by lia.
  set (s' := s <| sk_sQ := _ |> <| sk_sQlen := _ |>).
  assert (Hs' : sk_websocket s' = Some st /\ sk_sQbufferSize s' = sk_sQbufferSize s
    /\ sk_sQlen s' = sk_sQbufferSize s).
  { unfold s'. destruct s; cbn in *. split_and!; [done|done|lia]. }
  destruct Hs' as (Hw' & Hs' & Hq'). unfold flush. run_monad. cbn [id]. rewrite Hw'.
  destruct (0 <? sk_sQlen s'); [destruct st; try done|]; apply IH; try done; lia.
Qed.

(** *** The properties at concrete inputs *)

Definition sample (st : ready_state) (size : Z) : sock := {|
  sk_websocket := Some st; sk_rQi := 0; sk_rQlen := 0; sk_rQbufferSize := 16; sk_rQmax := 2;
  sk_rQ := 0; sk_sQbufferSize := size; sk_sQlen := 0; sk_sQ := replicate (Z.to_nat size) 0;
  sk_heap := ∅; sk_receiving := true; sk_sent := [] |}.

Lemma clientCutText_open_witness :
  exists s', clientCutText 5 [104; 101; 108; 0x2603] (sample OPEN 10) = Some (Ret tt, s')
    /\ sk_websocket s' = Some OPEN
    /\ concat (sk_sent s') ++ encode_message s' = [6; 0; 0; 0; 0; 0; 0; 4; 104; 101; 108; 3].
Proof.
  apply (clientCutText_open (sample OPEN 10) [104; 101; 108; 0x2603]).
  - repeat split.
  - reflexivity.
  - reflexivity.
Defined.

Lemma clientCutText_hangs_witness :
  clientCutText 1000 (replicate 20 97) (sample CLOSING 16) = None.
Proof.
  apply (clientCutText_hangs (sample CLOSING 16) (replicate 20 97) CLOSING); try done; cbn; lia.
Defined.

End Properties.
