(* ===== verification/Display.v ===== *)
(** * The display of noVNC
    (src/ControlServer/web/www/novnc/core/display.js)

    The record [display] holds the fields of a [Display]; what it does to its
    two canvases is logged: [d_draw] for the hidden one, where everything is
    drawn, with a mark for each flip, and [d_flips] for what the flips copy to the
    visible one.  Images decode asynchronously, so
    their state ([im_state]) belongs to the browser and changes by events of its
    own.  Pictures and colours may be views of the receive queue, read in the
    heap [h] of the moment. *)

From S2P Require Import Prelude Websock.

Module Display.
Import Websock.
Local Open Scope js_scope.

(** ** Data *)

(** A colour: an Array of its own, a view of the receive queue, or [undefined]. *)
Inductive color := CVal (l : list num) | CView (v : view) | CUndefined.

(** The source of a picture: a view, or an array of its own, at its start. *)
Inductive src := FromView (v : view) | Own (l : list Z).

Inductive pixels := Bgrx | Rgb | Rgbx.

(** The entries of the render queue. *)
Inductive action :=
  | AFlip
  | ACopy (old_x old_y x y w h : Z)
  | AFill (x y w h : Z) (c : color)
  | ABlit (k : pixels) (data : list Z) (x y w h : Z)
  | AImg (img : nat) (x y : Z).

Inductive img_state := Loading | Loaded (w h : Z) | Broken.
Record img := Img { im_mime : string; im_data : list Z; im_state : img_state; im_listening : bool }.

#[export] Instance eta_img : Eta img := fun i =>
  Img (im_mime i) (im_data i) (im_state i) (im_listening i).

(** 'rgb(r,g,b)'; a style that is not a colour is ignored by the canvas. *)
Definition style : Type := num * num * num.

(** Calls on the context of the hidden canvas. *)
Inductive draw :=
  | DFill (x y w h : Z) (s : option style)
  | DCopy (old_x old_y x y w h : Z)
  | DPut (data : list Z) (w h x y : Z)
  | DImage (img : nat) (x y : Z)
  | DClear (w h : Z)
  | DResize (w h : Z) (saved : bool)
  | DFlip.                                     (* a flip: the visible canvas is brought up to date *)

Record rect := Rect { r_x : Z; r_y : Z; r_w : Z; r_h : Z }.
Record bounds := Bounds { b_left : Z; b_top : Z; b_right : Z; b_bottom : Z }.
Record tile := Tile { t_width : Z; t_height : Z; t_data : list Z }.

(** [drawImage] of the hidden canvas on the visible one. *)
Record flip_op := Flip { f_x : Z; f_y : Z; f_w : Z; f_h : Z; f_vx : Z; f_vy : Z }.

Record display := Disp {
  d_renderQ : list action;
  d_flushing : bool;
  d_fb_width : Z;
  d_fb_height : Z;
  d_prevDrawStyle : option style;
  d_fillStyle : option style;        (* of the context; None is the initial black *)
  d_tile : tile;
  d_tile_x : Z;
  d_tile_y : Z;
  d_viewportLoc : rect;
  d_backbuffer : Z * Z;
  d_target : Z * Z;
  d_damageBounds : bounds;
  d_scale : double;
  d_style : double * double;         (* the visible size, in CSS pixels *)
  d_clipViewport : bool;
  d_images : gmap nat img;
  d_draw : list draw;
  d_flips : list flip_op;
  d_onflush : Z }.                   (* how often [onflush] was called *)

#[export] Instance eta_display : Eta display := fun d =>
  Disp (d_renderQ d) (d_flushing d) (d_fb_width d) (d_fb_height d) (d_prevDrawStyle d)
    (d_fillStyle d) (d_tile d) (d_tile_x d) (d_tile_y d) (d_viewportLoc d) (d_backbuffer d)
    (d_target d) (d_damageBounds d) (d_scale d) (d_style d) (d_clipViewport d) (d_images d)
    (d_draw d) (d_flips d) (d_onflush d).

(** ** Drawing primitives *)

Section Display.
(** [supportsImageMetadata] of the browser, and the receive queue's arrays. *)
Context (supportsImageMetadata : bool) (h : heap).

Definition log_draw (o : draw) : M display unit := modify (fun d => d <| d_draw := d_draw d ++ [o] |>).

Definition color_at (c : color) (i : nat) : num :=
  match c with
  | CVal l => mjoin (l !! i)
  | CView v => view_bytes h v !! i
  | CUndefined => None
  end.

(** [color[2]] throws on [undefined]. *)
Definition check_color (c : color) : outcome unit :=
  match c with CUndefined => Throw TypeError | _ => Ret tt end.

(** [arr[j]], [arr.buffer] and [arr.byteOffset]. *)
Definition arr_get (a : src) (j : Z) : num :=
  match a with FromView v => aget (view_bytes h v) j | Own l => aget l j end.
Definition arr_buffer (a : src) : list Z :=
  match a with FromView v => default [] (h !! v_buf v) | Own l => l end.
Definition arr_byteOffset (a : src) : Z := match a with FromView v => v_off v | Own _ => 0 end.

(** [new Uint8Array(arr.buffer, off, len)], copied. *)
Definition buffer_part (a : src) (off len : Z) : outcome (list Z) :=
  if (off <? 0) || (len <? 0) || (zlen (arr_buffer a) <? off + len) then Throw RangeError
  else Ret (slice (arr_buffer a) off len).

(** A cell of a clamped array: a byte of the source, or 0. *)
Definition cell (x : num) : Z := toUint8Clamp (default 0 x).

Definition createImageData (width height : Z) : outcome unit :=
  if (width =? 0) || (height =? 0) then Throw InvalidState else Ret tt.

Definition putImageData (data : list Z) (w hh x y : Z) : M display unit := log_draw (DPut data w hh x y).

(** Track what parts of the visible canvas that need updating *)
Definition damage (x y w hh : Z) : M display unit := modify (fun d =>
  let b := d_damageBounds d in
  d <| d_damageBounds := {|
         b_left := if x <? b_left b then x else b_left b;
         b_top := if y <? b_top b then y else b_top b;
         b_right := if b_right b <? x + w then x + w else b_right b;
         b_bottom := if b_bottom b <? y + hh then y + hh else b_bottom b |} |>).

Definition setFillColor (c : color) : M display unit :=
  let newStyle := (color_at c 2, color_at c 1, color_at c 0) in
  lift (check_color c);;
  modify (fun d =>
    if decide (Some newStyle = d_prevDrawStyle d) then d
    else d <| d_fillStyle := match newStyle with
                             | (Some _, Some _, Some _) => Some newStyle
                             | _ => d_fillStyle d
                             end |>
           <| d_prevDrawStyle := Some newStyle |>).

(** The loops of the three picture formats: [n] pixels of [arr] from [offset]. *)
Definition rgb_pixels (a : src) (offset : Z) (n : nat) : list Z :=
  concat (map (fun p => let j := offset + 3 * Z.of_nat p in
    [cell (arr_get a j); cell (arr_get a (j + 1)); cell (arr_get a (j + 2)); 255]) (seq 0 n)).

Definition bgrx_pixels (a : src) (offset : Z) (n : nat) : list Z :=
  concat (map (fun p => let j := offset + 4 * Z.of_nat p in
    [cell (arr_get a (j + 2)); cell (arr_get a (j + 1)); cell (arr_get a j); 255]) (seq 0 n)).

Definition rgbImageData (x y width height : Z) (a : src) (offset : Z) : M display unit :=
  lift (createImageData width height);;
  putImageData (rgb_pixels a offset (Z.to_nat (width * height))) width height x y;;
  damage x y width height.

Definition bgrxImageData (x y width height : Z) (a : src) (offset : Z) : M display unit :=
  lift (createImageData width height);;
  putImageData (bgrx_pixels a offset (Z.to_nat (width * height))) width height x y;;
  damage x y width height.

(** The offset is ignored here: the array starts at its view. *)
Definition rgbxImageData (x y width height : Z) (a : src) : M display unit :=
  (if supportsImageMetadata then
     data ← lift (buffer_part a (arr_byteOffset a) (width * height * 4));
     (if (width * height =? 0) then throw InvalidState else skip);;
     putImageData data width height x y
   else
     lift (createImageData width height);;
     data ← lift (buffer_part a (arr_byteOffset a) (width * height * 4));
     putImageData data width height x y);;
  damage x y width height.

(** ** The render queue *)

(** [flip(true)]: show the damaged part of the viewport. *)
Definition flip_now : M display unit := modify (fun d =>
  let b := d_damageBounds d in let vp := d_viewportLoc d in
  let x := b_left b in let y := b_top b in
  let w := b_right b - x in let hh := b_bottom b - y in
  let vx := x - r_x vp in let vy := y - r_y vp in
  let '(w, x, vx) := if vx <? 0 then (w + vx, x - vx, 0) else (w, x, vx) in
  let '(hh, y, vy) := if vy <? 0 then (hh + vy, y - vy, 0) else (hh, y, vy) in
  let w := if r_w vp <? vx + w then r_w vp - vx else w in
  let hh := if r_h vp <? vy + hh then r_h vp - vy else hh in
  d <| d_flips := if (0 <? w) && (0 <? hh) then d_flips d ++ [Flip x y w hh vx vy] else d_flips d |>
    <| d_damageBounds := Bounds 65535 65535 0 0 |> <| d_draw := d_draw d ++ [DFlip] |>).

Definition fill_now (x y width height : Z) (c : color) : M display unit :=
  setFillColor c;;
  s ← gets d_fillStyle; log_draw (DFill x y width height s);; damage x y width height.

Definition copy_now (old_x old_y x y w hh : Z) : M display unit :=
  log_draw (DCopy old_x old_y x y w hh);; damage x y w hh.

Definition blit_now (k : pixels) (x y width height : Z) (a : src) (offset : Z) : M display unit :=
  match k with
  | Bgrx => bgrxImageData x y width height a offset
  | Rgb => rgbImageData x y width height a offset
  | Rgbx => rgbxImageData x y width height a
  end.

Definition drawImage (i : nat) (x y : Z) : M display unit :=
  d ← gets id;
  match im_state <$> d_images d !! i with
  | Some (Loaded w hh) => log_draw (DImage i x y);; damage x y w hh
  | _ => throw InvalidState
  end.

(** One entry of the queue: was it ready? *)
Definition run_action (a : action) : M display bool :=
  match a with
  | AFlip => flip_now;; mret true
  | ACopy ox oy x y w hh => copy_now ox oy x y w hh;; mret true
  | AFill x y w hh c => fill_now x y w hh c;; mret true
  | ABlit k data x y w hh => blit_now k x y w hh (Own data) 0;; mret true
  | AImg i x y =>
      d ← gets id;
      match im_state <$> d_images d !! i with
      | Some Loading | None =>
          modify (fun d => d <| d_images := alter (fun im => im <| im_listening := true |>) i
                                              (d_images d) |>);;
          mret false
      | _ => drawImage i x y;; mret true
      end
  end.

Definition shift_renderQ : M display unit := modify (fun d => d <| d_renderQ := tail (d_renderQ d) |>).

(** The loop of [_scan_renderQ]; the queue only shrinks in it. *)
Fixpoint scan_loop (q : list action) : M display unit :=
  match q with
  | [] => skip
  | a :: q => ready ← run_action a; if (ready : bool) then shift_renderQ;; scan_loop q else skip
  end.

(** [onflush] is the owner's: its calls are counted. *)
Definition scan_renderQ : M display unit :=
  q ← gets d_renderQ; scan_loop q;;
  modify (fun d =>
    match d_renderQ d with
    | [] => if d_flushing d then d <| d_flushing := false |> <| d_onflush := d_onflush d + 1 |> else d
    | _ => d
    end).

Definition renderQ_push (a : action) : M display unit :=
  modify (fun d => d <| d_renderQ := d_renderQ d ++ [a] |>);;
  n ← gets (fun d => length (d_renderQ d));
  when (n =? 1)%nat scan_renderQ.

Definition queued : M display bool := gets (fun d => negb (bool_decide (d_renderQ d = []))).

(** ** Public methods *)

Definition flip : M display unit := q ← queued; if (q : bool) then renderQ_push AFlip else flip_now.

Definition fillRect (x y width height : Z) (c : color) : M display unit :=
  q ← queued;
  if (q : bool) then renderQ_push (AFill x y width height c) else fill_now x y width height c.

Definition copyImage (old_x old_y new_x new_y w hh : Z) : M display unit :=
  q ← queued;
  if (q : bool) then renderQ_push (ACopy old_x old_y new_x new_y w hh)
  else copy_now old_x old_y new_x new_y w hh.

(** [blitImage], [blitRgbImage] and [blitRgbxImage]; a queued picture is copied
    from the start of the array's buffer. *)
Definition blit (k : pixels) (x y width height : Z) (a : src) (offset : Z) : M display unit :=
  q ← queued;
  if (q : bool) then
    let len := width * height * (match k with Rgb => 3 | _ => 4 end) in
    data ← lift (buffer_part a 0 len);
    renderQ_push (ABlit k data x y width height)
  else blit_now k x y width height a offset.

Definition blitImage := blit Bgrx.
Definition blitRgbImage := blit Rgb.
Definition blitRgbxImage := blit Rgbx.

Definition imageRect (x y : Z) (mime : string) (arr : list Z) : M display unit :=
  i ← gets (fun d => fresh (dom (d_images d)));
  modify (fun d => d <| d_images := <[i := Img mime arr Loading false]> (d_images d) |>);;
  renderQ_push (AImg i x y).

(** The image event of the browser: its state, then its 'load' listener. *)
Definition image_event (i : nat) (st : img_state) : M display unit :=
  d ← gets id;
  match d_images d !! i with
  | None => skip
  | Some im =>
      modify (fun d => d <| d_images := <[i := im <| im_state := st |>]> (d_images d) |>);;
      match st with
      | Loaded _ _ =>
          when (im_listening im)
            (modify (fun d => d <| d_images := alter (fun im => im <| im_listening := false |>) i
                                                 (d_images d) |>);;
             scan_renderQ)
      | _ => skip
      end
  end.

Definition pending : M display bool := queued.

Definition flush : M display unit :=
  q ← queued;
  if (q : bool) then modify (fun d => d <| d_flushing := true |>)
  else modify (fun d => d <| d_onflush := d_onflush d + 1 |>).

(** *** Tiles *)

Definition startTile (x y width height : Z) (c : color) : M display unit :=
  modify (fun d => d <| d_tile_x := x |> <| d_tile_y := y |>);;
  (if (width =? 16) && (height =? 16) then skip else lift (createImageData width height));;
  lift (check_color c);;
  let px := [cell (color_at c 2); cell (color_at c 1); cell (color_at c 0); 255] in
  modify (fun d => d <| d_tile := Tile width height
                          (concat (replicate (Z.to_nat (width * height)) px)) |>).

(** The two loops of [subTile], over the cells of the tile. *)
Fixpoint sub_row (k : nat) (p : Z) (px : list Z) (data : list Z) : list Z :=
  match k with
  | O => data
  | S k =>
      let put j l := aset l (4 * p + j) (nth (Z.to_nat j) px 0) in
      sub_row k (p + 1) px (put 3 (put 2 (put 1 (put 0 data))))
  end.

Fixpoint sub_rows (k : nat) (x j w width : Z) (px data : list Z) : list Z :=
  match k with
  | O => data
  | S k => sub_rows k x (j + 1) w width px (sub_row (Z.to_nat w) (x + j * width) px data)
  end.

Definition subTile (x y w hh : Z) (c : color) : M display unit :=
  let px := [cell (color_at c 2); cell (color_at c 1); cell (color_at c 0); 255] in
  lift (check_color c);;
  modify (fun d =>
    let t := d_tile d in
    d <| d_tile := Tile (t_width t) (t_height t)
                     (sub_rows (Z.to_nat hh) x y w (t_width t) px (t_data t)) |>).

Definition finishTile : M display unit :=
  d ← gets id;
  let t := d_tile d in
  putImageData (t_data t) (t_width t) (t_height t) (d_tile_x d) (d_tile_y d);;
  damage (d_tile_x d) (d_tile_y d) (t_width t) (t_height t).

(** *** The viewport *)

Definition rescale (factor : double) : M display unit := modify (fun d =>
  let vp := d_viewportLoc d in
  d <| d_scale := factor |>
    <| d_style := (dbl_mul factor (dbl_of_Z (r_w vp)), dbl_mul factor (dbl_of_Z (r_h vp))) |>).

(** The change along one axis: position, extent, wish and limit. *)
Definition clamp_x (x w deltaX limit : Z) : Z :=
  let vx2 := x + w - 1 in
  let deltaX := if (deltaX <? 0) && (x + deltaX <? 0) then - x else deltaX in
  if limit <=? vx2 + deltaX then deltaX - (vx2 + deltaX - limit + 1) else deltaX.

Definition clamp_y (y hh deltaY limit : Z) : Z :=
  let vy2 := y + hh - 1 in
  let deltaY := if y + deltaY <? 0 then - y else deltaY in
  if limit <=? vy2 + deltaY then deltaY - (vy2 + deltaY - limit + 1) else deltaY.

(** The arguments are floored by the caller. *)
Definition viewportChangePos (deltaX deltaY : Z) : M display unit :=
  d ← gets id;
  let vp := d_viewportLoc d in
  let deltaX := if d_clipViewport d then deltaX else - r_w vp in
  let deltaY := if d_clipViewport d then deltaY else - r_h vp in
  let deltaX := clamp_x (r_x vp) (r_w vp) deltaX (d_fb_width d) in
  let deltaY := clamp_y (r_y vp) (r_h vp) deltaY (d_fb_height d) in
  if (deltaX =? 0) && (deltaY =? 0) then skip
  else
    let vp := Rect (r_x vp + deltaX) (r_y vp + deltaY) (r_w vp) (r_h vp) in
    modify (fun d => d <| d_viewportLoc := vp |>);;
    damage (r_x vp) (r_y vp) (r_w vp) (r_h vp);;
    flip.

Definition viewportChangeSize (width height : Z) : M display unit :=
  d ← gets id;
  let width := if d_clipViewport d then width else d_fb_width d in
  let height := if d_clipViewport d then height else d_fb_height d in
  let width := if d_fb_width d <? width then d_fb_width d else width in
  let height := if d_fb_height d <? height then d_fb_height d else height in
  let vp := d_viewportLoc d in
  if negb (r_w vp =? width) || negb (r_h vp =? height) then
    modify (fun d => d <| d_viewportLoc := Rect (r_x vp) (r_y vp) width height |>
                       <| d_target := (width, height) |>);;
    viewportChangePos 0 0;;
    vp ← gets d_viewportLoc;
    damage (r_x vp) (r_y vp) (r_w vp) (r_h vp);;
    flip;;
    s ← gets d_scale; rescale s
  else skip.

Definition set_clipViewport (viewport : bool) : M display unit :=
  modify (fun d => d <| d_clipViewport := viewport |>);;
  vp ← gets d_viewportLoc;
  viewportChangeSize (r_w vp) (r_h vp);; viewportChangePos 0 0.

(** Changing the size of a canvas clears it and resets its context. *)
Definition resize (width height : Z) : M display unit :=
  modify (fun d => d <| d_prevDrawStyle := None |> <| d_fb_width := width |>
                     <| d_fb_height := height |>);;
  d ← gets id;
  let '(bw, bh) := d_backbuffer d in
  when (negb (bw =? width) || negb (bh =? height))
    (let saved := (0 <? bw) && (0 <? bh) in
     modify (fun d => d <| d_backbuffer := (width, height) |> <| d_fillStyle := None |>);;
     log_draw (DResize width height saved));;
  vp ← gets d_viewportLoc;
  viewportChangeSize (r_w vp) (r_h vp);; viewportChangePos 0 0.

Definition clear : M display unit :=
  resize 240 20;;
  d ← gets id; log_draw (DClear (d_fb_width d) (d_fb_height d));; flip.

Definition absX (x : double) : M display double := gets (fun d =>
  if dbl_is0 (d_scale d) then dbl_of_Z 0
  else dbl_add (dbl_div x (d_scale d)) (dbl_of_Z (r_x (d_viewportLoc d)))).

Definition absY (y : double) : M display double := gets (fun d =>
  if dbl_is0 (d_scale d) then dbl_of_Z 0
  else dbl_add (dbl_div y (d_scale d)) (dbl_of_Z (r_y (d_viewportLoc d)))).

Definition autoscale (containerWidth containerHeight : double) : M display unit :=
  vp ← gets d_viewportLoc;
  rescale
    (if dbl_is0 containerWidth || dbl_is0 containerHeight then dbl_of_Z 0
     else
       let target := dbl_div containerWidth containerHeight in
       let fb := dbl_div (dbl_of_Z (r_w vp)) (dbl_of_Z (r_h vp)) in
       if dbl_le target fb then dbl_div containerWidth (dbl_of_Z (r_w vp))
       else dbl_div containerHeight (dbl_of_Z (r_h vp))).

End Display.

(** [new Display(target)], up to its call of [clear]: the scale is not set yet. *)
Definition blank (tw th bw bh : Z) : display := {|
  d_renderQ := []; d_flushing := false; d_fb_width := 0; d_fb_height := 0;
  d_prevDrawStyle := None; d_fillStyle := None; d_tile := Tile 16 16 []; d_tile_x := 0;
  d_tile_y := 0; d_viewportLoc := Rect 0 0 tw th; d_backbuffer := (bw, bh);
  d_target := (tw, th); d_damageBounds := Bounds 0 0 bw bh; d_scale := SpecFloat.S754_nan;
  d_style := (dbl_of_Z tw, dbl_of_Z th); d_clipViewport := false; d_images := ∅;
  d_draw := []; d_flips := []; d_onflush := 0 |}.

Definition constructor (tw th bw bh : Z) : display :=
  (clear false ∅ (blank tw th bw bh)).2 <| d_scale := dbl_of_Z 1 |> <| d_clipViewport := false |>.

End Display.

(** ** The specification of in-order rendering *)

Module Rendering.
Import Websock Display.

(** What the owner asks for, and the loading of an image. *)
Inductive cmd :=
  | CFlip
  | CCopy (old_x old_y x y w h : Z)
  | CFill (x y w h : Z) (b g r : Z)
  | CBlit (k : pixels) (x y w h : Z) (data : list Z)
  | CImage (x y : Z) (mime : string) (data : list Z)
  | CLoad (i : nat) (w h : Z).

Definition pixel_size (k : pixels) : Z := match k with Rgb => 3 | _ => 4 end.

Definition cmd_ok (c : cmd) : Prop :=
  match c with
  | CBlit k x y w h data => 0 < w /\ 0 < h /\ zlen data = w * h * pixel_size k /\ bytes data
  | _ => True
  end.

Definition exec (c : cmd) : M display unit :=
  match c with
  | CFlip => flip true ∅
  | CCopy ox oy x y w h => copyImage true ∅ ox oy x y w h
  | CFill x y w h b g r => fillRect true ∅ x y w h (CVal [Some b; Some g; Some r])
  | CBlit k x y w h data => blit true ∅ k x y w h (Own data) 0
  | CImage x y mime data => imageRect true ∅ x y mime data
  | CLoad i w h => image_event true ∅ i (Loaded w h)
  end.

Fixpoint exec_all (l : list cmd) : M display unit :=
  match l with [] => skip | c :: l => exec c;; exec_all l end.

(** The pixels a picture shows: four bytes for each of its own. *)
Definition shown (k : pixels) (data : list Z) (n : nat) : list Z :=
  match k with
  | Bgrx => bgrx_pixels ∅ (Own data) 0 n
  | Rgb => rgb_pixels ∅ (Own data) 0 n
  | Rgbx => data
  end.

(** What an action draws, whenever it is carried out. *)
Definition drawing (a : action) : list draw :=
  match a with
  | AFlip => [DFlip]
  | ACopy ox oy x y w h => [DCopy ox oy x y w h]
  | AFill x y w h c => [DFill x y w h (Some (color_at ∅ c 2, color_at ∅ c 1, color_at ∅ c 0))]
  | ABlit k data x y w h => [DPut (shown k data (Z.to_nat (w * h))) w h x y]
  | AImg i x y => [DImage i x y]
  end.

(** The action a command asks for; a new image takes the next free name. *)
Definition asked (d : display) (c : cmd) : list action :=
  match c with
  | CFlip => [AFlip]
  | CCopy ox oy x y w h => [ACopy ox oy x y w h]
  | CFill x y w h b g r => [AFill x y w h (CVal [Some b; Some g; Some r])]
  | CBlit k x y w h data => [ABlit k data x y w h]
  | CImage x y _ _ => [AImg (fresh (dom (d_images d))) x y]
  | CLoad _ _ _ => []
  end.

(** The drawings and flips that a run of commands asks for, in order. *)
Fixpoint asked_all (d : display) (l : list cmd) : list draw :=
  match l with
  | [] => []
  | c :: l => concat (map drawing (asked d c)) ++ asked_all (exec c d).2 l
  end.

(** What is drawn, and what the queue still has to draw. *)
Definition all_drawn (d : display) : list draw := d_draw d ++ concat (map drawing (d_renderQ d)).

Definition action_ok (d : display) (a : action) : Prop :=
  match a with
  | AFill _ _ _ _ c => exists b g r, c = CVal [Some b; Some g; Some r]
  | ABlit k data _ _ w h => 0 < w /\ 0 < h /\ zlen data = w * h * pixel_size k /\ bytes data
  | AImg i _ _ => exists im, d_images d !! i = Some im /\ im_state im <> Broken
  | _ => True
  end.

(** The image a queue waits for, if it waits. *)
Definition waits (d : display) : Prop :=
  match d_renderQ d with
  | [] => d_flushing d = false
  | AImg i _ _ :: _ =>
      exists im, d_images d !! i = Some im /\ im_state im = Loading /\ im_listening im = true
  | _ => False
  end.

Record wf (d : display) : Prop := {
  wf_waits : waits d;
  wf_style : d_prevDrawStyle d = None \/ d_prevDrawStyle d = d_fillStyle d;
  wf_actions : Forall (action_ok d) (d_renderQ d) }.

End Rendering.

(** ** Lemmas: the render queue *)

Section Queue.
Import Websock Display Rendering.
Implicit Type d : display.
Abbreviation run_action := (run_action true ∅).
Abbreviation scan_loop := (scan_loop true ∅).

(** A drawing step changes neither the queue nor the images. *)
Record step_ok (d d' : display) (o : list draw) : Prop := {
  so_queue : d_renderQ d' = d_renderQ d;
  so_images : d_images d' = d_images d;
  so_flushing : d_flushing d' = d_flushing d;
  so_onflush : d_onflush d' = d_onflush d;
  so_style : d_prevDrawStyle d' = None \/ d_prevDrawStyle d' = d_fillStyle d';
  so_draw : d_draw d' = d_draw d ++ o }.

Lemma damage_spec x y w h d : exists d', damage x y w h d = (Ret tt, d')
  /\ (forall o d0, step_ok d0 d o -> step_ok d0 d' o).
Proof.
  eexists. split; [reflexivity|]. intros o d0 [? ? ? ? ? ?]. destruct d; split; done.
Qed.

Definition coherent d : Prop := d_prevDrawStyle d = None \/ d_prevDrawStyle d = d_fillStyle d.

Lemma fill_now_spec x y w h b g r d :
  coherent d -> exists d', fill_now ∅ x y w h (CVal [Some b; Some g; Some r]) d = (Ret tt, d')
    /\ step_ok d d' [DFill x y w h (Some (Some r, Some g, Some b))].
Proof.
  intros Hc. unfold fill_now, setFillColor, log_draw, damage, coherent in *. run_monad. cbn.
  destruct d; cbn in *. destruct (decide _) as [E|E]; cbn; eexists; (split; [reflexivity|]).
  - destruct Hc as [Hc|Hc]; rewrite Hc in E; [discriminate E|]. split; cbn; try done.
    + by right.
    + by rewrite <- E.
  - split; cbn; try done. by right.
Qed.

Lemma copy_now_spec ox oy x y w h d :
  coherent d -> exists d', copy_now ox oy x y w h d = (Ret tt, d')
    /\ step_ok d d' [DCopy ox oy x y w h].
Proof. intros Hc. eexists; split; [reflexivity|]. by destruct d; split. Qed.

Lemma flip_now_spec d :
  coherent d -> exists d', flip_now d = (Ret tt, d') /\ step_ok d d' [DFlip].
Proof.
  intros Hc. eexists; split; [reflexivity|]. destruct d; cbn in *. by repeat case_match; split.
Qed.

Lemma createImageData_pos w h : 0 < w -> 0 < h -> createImageData w h = Ret tt.
Proof.
  intros. unfold createImageData. by rewrite (proj2 (Z.eqb_neq w 0)), (proj2 (Z.eqb_neq h 0)) by lia.
Qed.

Lemma blit_now_spec k x y w h data d :
  coherent d -> 0 < w -> 0 < h -> zlen data = w * h * pixel_size k ->
  exists d', blit_now true ∅ k x y w h (Own data) 0 d = (Ret tt, d')
    /\ step_ok d d' [DPut (shown k data (Z.to_nat (w * h))) w h x y].
Proof.
  intros Hc Hw Hh Hl. destruct k; cbn [blit_now pixel_size shown] in *.
  - unfold bgrxImageData, putImageData, log_draw. run_monad. rewrite createImageData_pos by done.
    eexists; split; [reflexivity|]. by destruct d; split.
  - unfold rgbImageData, putImageData, log_draw. run_monad. rewrite createImageData_pos by done.
    eexists; split; [reflexivity|]. by destruct d; split.
  - unfold rgbxImageData, putImageData, log_draw, buffer_part. run_monad. cbn.
    rewrite (proj2 (Z.ltb_ge (w * h * 4) 0)), (proj2 (Z.ltb_ge _ (w * h * 4))) by nia.
    rewrite (proj2 (Z.eqb_neq (w * h) 0)) by nia. rewrite <- Hl, slice_all.
    eexists; split; [reflexivity|]. by destruct d; split.
Qed.

Lemma step_ok_refl d : coherent d -> step_ok d d [].
Proof. intros. split; try done. by rewrite app_nil_r. Qed.

(** An action that does not wait is carried out. *)
Lemma run_action_ready a d :
  coherent d -> action_ok d a ->
  (forall i x y im, a = AImg i x y -> d_images d !! i = Some im -> im_state im <> Loading) ->
  exists d', run_action a d = (Ret true, d') /\ step_ok d d' (drawing a).
Proof.
  intros Hc Hok Hready. destruct a; cbn [Display.run_action drawing] in *; run_monad.
  - destruct (flip_now_spec d Hc) as (d' & -> & ?). eauto.
  - destruct (copy_now_spec old_x old_y x y w h d Hc) as (d' & -> & ?). eauto.
  - destruct Hok as (b & g & r & ->). destruct (fill_now_spec x y w h b g r d Hc) as (d' & -> & ?).
    eauto.
  - destruct Hok as (? & ? & ? & _). destruct (blit_now_spec k x y w h data d Hc) as (d' & -> & ?); eauto.
  - destruct Hok as (im & Him & Hb). specialize (Hready _ _ _ im eq_refl Him). cbn. rewrite Him. cbn.
    destruct (im_state im) as [|w h|] eqn:Es; try done.
    unfold drawImage. run_monad. cbn. rewrite Him. cbn. rewrite Es.
    eexists; split; [reflexivity|]. by destruct d; split.
Qed.

Lemma waiting_or_ready d a :
  action_ok d a ->
  (exists i x y im, a = AImg i x y /\ d_images d !! i = Some im /\ im_state im = Loading)
  \/ (forall i x y im, a = AImg i x y -> d_images d !! i = Some im -> im_state im <> Loading).
Proof.
  destruct a as [| | | |i x y]; intros Ha; try by right.
  destruct Ha as (im & Him & _). destruct (im_state im) eqn:E.
  - left. by exists i, x, y, im.
  - right. intros ? ? ? ? [= <- <- <-] ?. congruence.
  - right. intros ? ? ? ? [= <- <- <-] ?. congruence.
Qed.

Lemma action_ok_images d d' a : d_images d' = d_images d -> action_ok d a -> action_ok d' a.
Proof. intros E. destruct a; cbn; by rewrite ?E. Qed.

(** What an image awaits does not matter to the actions. *)
Lemma action_ok_listening d d' a i :
  d_images d' = alter (fun im => im <| im_listening := true |>) i (d_images d) ->
  action_ok d a -> action_ok d' a.
Proof.
  intros E. destruct a as [| | | |j x y]; cbn; try done. rewrite E. intros (im & Him & Hb).
  destruct (decide (i = j)) as [->|].
  - exists (im <| im_listening := true |>). rewrite lookup_alter_eq, Him. by destruct im.
  - exists im. by rewrite lookup_alter_ne.
Qed.

(** A queue that waits: its head is an image, listened to. *)
Definition head_waits d : Prop :=
  match d_renderQ d with
  | [] => True
  | AImg i _ _ :: _ =>
      exists im, d_images d !! i = Some im /\ im_state im = Loading /\ im_listening im = true
  | _ => False
  end.

(** Going through the queue: some of it is drawn, in order; the rest waits. *)
Record scanned (d d' : display) : Prop := {
  sc_style : coherent d';
  sc_actions : Forall (action_ok d') (d_renderQ d');
  sc_drawn : all_drawn d' = all_drawn d;
  sc_flushing : d_flushing d' = d_flushing d;
  sc_onflush : d_onflush d' = d_onflush d;
  sc_images : dom (d_images d') = dom (d_images d);
  sc_waits : head_waits d' }.

Lemma scan_loop_spec q d :
  coherent d -> d_renderQ d = q -> Forall (action_ok d) q ->
  exists d', scan_loop q d = (Ret tt, d') /\ scanned d d'.
Proof.
  revert d. induction q as [|a q IH]; intros d Hc Hq Hok.
  - exists d. split; [done|]. split; try done; [by rewrite Hq; constructor|].
    unfold head_waits. by rewrite Hq.
  - pose proof Hok as Hok'. inversion_clear Hok as [|? ? Ha Hoks]. cbn [Display.scan_loop]. run_monad.
    destruct (waiting_or_ready d a Ha) as [(i & x & y & im & -> & Him & Hl)|Hr].
    + cbn [Display.run_action]. run_monad. cbn. rewrite Him. cbn. rewrite Hl.
      pose (d' := d <| d_images := alter (fun im => im <| im_listening := true |>) i (d_images d) |>).
      exists d'. split; [reflexivity|].
      assert (Hi' : d_images d' = alter (fun im => im <| im_listening := true |>) i (d_images d))
        by by destruct d.
      assert (Hq' : d_renderQ d' = AImg i x y :: q) by by destruct d.
      split; try by destruct d.
      * rewrite Hq'. eapply Forall_impl; [exact Hok'|]. intros. by eapply action_ok_listening.
      * rewrite Hi'. apply dom_alter_L.
      * unfold head_waits. rewrite Hq', Hi', lookup_alter_eq, Him. cbn. eexists; split; [done|].
        by destruct im.
    + destruct (run_action_ready a d Hc Ha Hr) as (d1 & -> & [Sq Si Sf So Ss Sd]).
      pose (d2 := d1 <| d_renderQ := tail (d_renderQ d1) |>).
      assert (H2 : d_renderQ d2 = q) by (unfold d2; destruct d1; cbn in *; by rewrite Sq, Hq).
      assert (Hi2 : d_images d2 = d_images d) by (unfold d2; by destruct d1).
      destruct (IH d2) as (d' & E & [? ? Hd ? ? ? ?]).
      * unfold d2. by destruct d1.
      * done.
      * eapply Forall_impl; [exact Hoks|]. intros. by eapply action_ok_images.
      * unfold shift_renderQ. run_monad. fold d2. rewrite E. exists d'. split; [done|].
        split; try done.
        -- rewrite Hd. unfold all_drawn. rewrite H2, Hq. unfold d2. destruct d1; cbn in *.
           by rewrite Sd, <- app_assoc.
        -- etransitivity; [eassumption|]. unfold d2. by destruct d1.
        -- etransitivity; [eassumption|]. unfold d2. by destruct d1.
        -- by rewrite <- Hi2.
Qed.

(** [onflush] is called when a flush was asked for and the queue is empty. *)
Definition flush_step d d' : Prop :=
  let drained := bool_decide (d_renderQ d' = []) in
  d_onflush d' = d_onflush d + (if d_flushing d && drained then 1 else 0)
  /\ d_flushing d' = d_flushing d && negb drained.

Lemma scan_renderQ_spec d :
  coherent d -> Forall (action_ok d) (d_renderQ d) ->
  exists d', scan_renderQ true ∅ d = (Ret tt, d') /\ wf d' /\ all_drawn d' = all_drawn d
    /\ dom (d_images d') = dom (d_images d) /\ flush_step d d'.
Proof.
  intros Hc Hok. unfold scan_renderQ, flush_step. run_monad.
  destruct (scan_loop_spec (d_renderQ d) d Hc eq_refl Hok) as (d1 & -> & [? ? ? Hf Hn ? Hw]).
  destruct (d_renderQ d1) as [|a q] eqn:Hq.
  - destruct (d_flushing d1) eqn:Ef.
    + eexists. split; [reflexivity|]. rewrite <- Hf. unfold all_drawn, coherent in *.
      destruct d1; cbn in *; subst. repeat split; try done.
    + eexists. split; [reflexivity|]. rewrite <- Hf. repeat split; try done; unfold waits; rewrite ?Hq, ?Ef; try done.
      cbn. lia.
  - eexists. split; [reflexivity|]. repeat split; try done.
    + unfold waits. unfold head_waits in Hw. by rewrite Hq in *.
    + by rewrite Hq.
    + rewrite Hq. rewrite andb_false_r. lia.
    + by rewrite Hq, Hf, andb_true_r.
Qed.

Lemma flush_step_same d d' :
  waits d -> d_renderQ d' = d_renderQ d -> d_flushing d' = d_flushing d ->
  d_onflush d' = d_onflush d -> flush_step d d'.
Proof.
  intros Hw Hq Hf Hn. unfold flush_step, waits in *. rewrite Hq, Hf, Hn.
  destruct (d_renderQ d); [rewrite Hw; cbn; split; [lia|done]|].
  cbn. rewrite andb_false_r, andb_true_r. split; [lia|done].
Qed.

Lemma flush_step_busy d d' :
  d_renderQ d' <> [] -> d_flushing d' = d_flushing d -> d_onflush d' = d_onflush d -> flush_step d d'.
Proof.
  intros Hq Hf Hn. unfold flush_step. rewrite Hf, Hn, bool_decide_eq_false_2 by done.
  cbn. rewrite andb_false_r, andb_true_r. split; [lia|done].
Qed.

(** Images may be added and may load: no action suffers. *)
Lemma action_ok_mono d d' a :
  (forall i im, d_images d !! i = Some im -> im_state im <> Broken ->
    exists im', d_images d' !! i = Some im' /\ im_state im' <> Broken) ->
  action_ok d a -> action_ok d' a.
Proof. intros H. destruct a; cbn; try done. intros (im & Him & Hb). eauto. Qed.

Lemma all_drawn_push d d' a :
  d_renderQ d' = d_renderQ d ++ [a] -> d_draw d' = d_draw d ->
  all_drawn d' = all_drawn d ++ drawing a.
Proof.
  intros Hq Hd. unfold all_drawn. rewrite Hq, Hd, map_app, concat_app, <- app_assoc. cbn.
  by rewrite app_nil_r.
Qed.

(** Pushing an action: it runs at once if it can, and keeps its place if not. *)
Lemma renderQ_push_spec a d :
  wf d -> action_ok d a ->
  exists d', renderQ_push true ∅ a d = (Ret tt, d') /\ wf d'
    /\ all_drawn d' = all_drawn d ++ drawing a /\ flush_step d d'.
Proof.
  intros [Hw Hst Hact] Ha. unfold renderQ_push. run_monad.
  pose (d1 := d <| d_renderQ := d_renderQ d ++ [a] |>).
  change (d <| d_renderQ := d_renderQ d ++ [a] |>) with d1.
  assert (Hq1 : d_renderQ d1 = d_renderQ d ++ [a]) by by destruct d.
  assert (Hi1 : d_images d1 = d_images d) by by destruct d.
  assert (Hact1 : Forall (action_ok d1) (d_renderQ d1)).
  { rewrite Hq1. apply Forall_app; split; [|constructor; [|constructor]].
    - eapply Forall_impl; [exact Hact|]. intros. by apply (action_ok_images d).
    - by apply (action_ok_images d). }
  assert (Hd1 : all_drawn d1 = all_drawn d ++ drawing a) by (apply all_drawn_push; by destruct d).
  destruct (d_renderQ d) as [|b q] eqn:Hq.
  - rewrite Hq1. cbn [length app Nat.eqb].
    destruct (scan_renderQ_spec d1) as (d' & E & Hwf & Hd & _ & Hn); [by destruct d|done|].
    rewrite E. exists d'. split; [done|]. split; [done|]. split; [congruence|]. done.
  - rewrite Hq1, length_app. replace ((length (b :: q) + length [a] =? 1)%nat) with false
      by (symmetry; apply Nat.eqb_neq; cbn; lia).
    exists d1. split; [done|]. split; [|split; [done|]].
    2:{ apply (flush_step_busy d d1); [rewrite Hq1; by destruct q|by destruct d|by destruct d]. }
    split; [|by destruct d|done]. unfold waits in *. rewrite Hq1, Hi1. rewrite Hq in Hw. done.
Qed.

(** An operation that either runs at once or is queued. *)
Lemma now_or_queued (now : M display unit) a d :
  wf d -> action_ok d a ->
  (exists d', now d = (Ret tt, d') /\ step_ok d d' (drawing a)) ->
  exists d', (q ← queued; if (q : bool) then renderQ_push true ∅ a else now) d = (Ret tt, d')
    /\ wf d' /\ all_drawn d' = all_drawn d ++ drawing a /\ flush_step d d'.
Proof.
  intros Hwf Ha (d1 & E & [Sq Si Sf So Ss Sd]). unfold queued. run_monad.
  destruct (bool_decide_reflect (d_renderQ d = [])) as [Hq|Hq]; cbn.
  - rewrite E. exists d1. split; [done|]. destruct Hwf as [Hw _ _]. split; [split|split].
    + unfold waits in *. rewrite Sq, Hq in *. by rewrite Sf.
    + done.
    + rewrite Sq, Hq. constructor.
    + unfold all_drawn. rewrite Sd, Sq, Hq. cbn. by rewrite !app_nil_r.
    + by apply flush_step_same.
  - by apply renderQ_push_spec.
Qed.

Lemma imageRect_spec x y mime data d :
  wf d -> exists d', imageRect true ∅ x y mime data d = (Ret tt, d') /\ wf d'
    /\ all_drawn d' = all_drawn d ++ [DImage (fresh (dom (d_images d))) x y] /\ flush_step d d'.
Proof.
  intros [Hw Hst Hact]. unfold imageRect. run_monad. set (i := fresh (dom (d_images d))).
  assert (Hi : d_images d !! i = None) by apply not_elem_of_dom, is_fresh.
  pose (d1 := d <| d_images := <[i := Img mime data Loading false]> (d_images d) |>).
  change (d <| d_images := _ |>) with d1.
  assert (Hi1 : d_images d1 = <[i := Img mime data Loading false]> (d_images d)) by by destruct d.
  assert (Hne : forall j im, d_images d !! j = Some im -> d_images d1 !! j = Some im).
  { intros j im Hj. rewrite Hi1, lookup_insert_ne; [done|]. intros ->. congruence. }
  destruct (renderQ_push_spec (AImg i x y) d1) as (d' & E & Hwf & Hd & Hn).
  - split; [| by destruct d |].
    + unfold waits in *. replace (d_renderQ d1) with (d_renderQ d) by by destruct d.
      replace (d_flushing d1) with (d_flushing d) by by destruct d.
      destruct (d_renderQ d) as [|[| | | |j ? ?] ?]; try done.
      destruct Hw as (im & Hj & ?). exists im. auto.
    + replace (d_renderQ d1) with (d_renderQ d) by by destruct d.
      eapply Forall_impl; [exact Hact|]. intros. eapply action_ok_mono; [|done]. eauto.
  - eexists. rewrite Hi1, lookup_insert_eq. done.
  - rewrite E. exists d'. split; [done|]. split; [done|].
    replace (all_drawn d1) with (all_drawn d) in Hd by by destruct d. done.
Qed.

Lemma image_load_spec i w h d :
  wf d -> exists d', image_event true ∅ i (Loaded w h) d = (Ret tt, d') /\ wf d'
    /\ all_drawn d' = all_drawn d /\ flush_step d d'.
Proof.
  intros [Hw Hst Hact]. unfold image_event. run_monad. cbn [id].
  destruct (d_images d !! i) as [im|] eqn:Hi.
  2:{ exists d. split; [done|]. split; [done|]. split; [done|]. by apply flush_step_same. }
  pose (d1 := d <| d_images := <[i := im <| im_state := Loaded w h |>]> (d_images d) |>).
  change (d <| d_images := _ |>) with d1.
  assert (Hi1 : d_images d1 = <[i := im <| im_state := Loaded w h |>]> (d_images d)) by by destruct d.
  assert (Hst1 : coherent d1 /\ d_renderQ d1 = d_renderQ d /\ d_flushing d1 = d_flushing d
    /\ d_onflush d1 = d_onflush d /\ all_drawn d1 = all_drawn d) by (by destruct d).
  destruct Hst1 as (Hc1 & Hq1 & Hf1 & Hn1 & Hd1).
  assert (Hact1 : Forall (action_ok d1) (d_renderQ d1)).
  { rewrite Hq1. eapply Forall_impl; [exact Hact|]. intros a. apply action_ok_mono.
    intros j jm Hj Hb. rewrite Hi1. destruct (decide (i = j)) as [->|].
    - rewrite lookup_insert_eq. eexists; split; [done|]. by destruct im.
    - rewrite lookup_insert_ne by done. eauto. }
  destruct (im_listening im) eqn:El.
  - pose (d2 := d1 <| d_images := alter (fun im => im <| im_listening := false |>) i (d_images d1) |>).
    change (d1 <| d_images := _ |>) with d2.
    destruct (scan_renderQ_spec d2) as (d' & -> & Hwf & Hd & _ & Hn).
    + done.
    + eapply Forall_impl; [exact Hact1|]. intros a. apply action_ok_mono. intros j jm Hj Hb.
      change (d_images d2) with (alter (fun im => im <| im_listening := false |>) i (d_images d1)).
      destruct (decide (i = j)) as [->|].
      * rewrite lookup_alter_eq, Hj. eexists; split; [done|]. by destruct jm.
      * rewrite lookup_alter_ne by done. eauto.
    + exists d'. split; [done|]. split; [done|]. split; [rewrite Hd; exact Hd1|].
      destruct Hn as [Hn Hf]. unfold flush_step. rewrite <- Hn1, <- Hf1. by split.
  - exists d1. split; [done|]. split; [split; [|done|done]|split; [done|]].
    + unfold waits in *. rewrite Hq1, Hf1. destruct (d_renderQ d) as [|[| | | |j ? ?] ?]; try done.
      destruct Hw as (jm & Hj & Hl & ?). exists jm. rewrite Hi1, lookup_insert_ne; [done|].
      intros ->. congruence.
    + by apply flush_step_same.
Qed.

(** One command. *)
Lemma exec_spec c d :
  wf d -> cmd_ok c ->
  exists d', exec c d = (Ret tt, d') /\ wf d'
    /\ all_drawn d' = all_drawn d ++ concat (map drawing (asked d c)) /\ flush_step d d'.
Proof.
  intros Hwf Hok. pose proof Hwf as [_ Hc _].
  assert (Hone : forall a m, (exists d', m d = (Ret tt, d') /\ wf d'
      /\ all_drawn d' = all_drawn d ++ drawing a /\ flush_step d d') ->
    exists d', m d = (Ret tt, d') /\ wf d' /\ all_drawn d' = all_drawn d ++ concat (map drawing [a])
      /\ flush_step d d').
  { intros a m (d' & ? & ? & ? & ?). exists d'. cbn [map concat]. by rewrite app_nil_r. }
  destruct c; cbn [exec asked].
  - apply Hone. apply now_or_queued; [done|done|]. by apply flip_now_spec.
  - apply Hone. apply now_or_queued; [done|done|]. by apply copy_now_spec.
  - apply Hone. apply now_or_queued; [done|by eexists _, _, _|]. by apply fill_now_spec.
  - apply Hone. destruct Hok as (Hw & Hh & Hl & Hb).
    assert (E : blit true ∅ k x y w h (Own data) 0 d
      = (q ← queued; if (q : bool) then renderQ_push true ∅ (ABlit k data x y w h)
         else blit_now true ∅ k x y w h (Own data) 0) d).
    { unfold blit, queued, buffer_part. run_monad. destruct (negb _); [|done]. cbn.
      assert (Hp : match k with Rgb => 3 | _ => 4 end = pixel_size k) by by destruct k.
      rewrite Hp, <- Hl. rewrite (proj2 (Z.ltb_ge (zlen data) 0)) by (pose proof (zlen_nonneg data); lia).
      rewrite Z.ltb_irrefl. cbn. by rewrite slice_all. }
    rewrite E. apply now_or_queued; [done|done|]. by apply blit_now_spec.
  - apply Hone. by apply imageRect_spec.
  - destruct (image_load_spec i w h d Hwf) as (d' & ? & ? & ? & ?). exists d'.
    cbn [map concat]. by rewrite app_nil_r.
Qed.

End Queue.

(** ** Lemmas: the viewport and the damaged area *)

Section Viewport.
Import Websock Display Rendering.
Implicit Type d : display.

(** What the geometry operations keep of a display. *)
Definition same_geometry d d' : Prop :=
  d_viewportLoc d' = d_viewportLoc d /\ d_fb_width d' = d_fb_width d
  /\ d_fb_height d' = d_fb_height d /\ d_clipViewport d' = d_clipViewport d
  /\ d_target d' = d_target d.

Lemma renderQ_push_busy h a d :
  d_renderQ d <> [] ->
  renderQ_push true h a d = (Ret tt, d <| d_renderQ := d_renderQ d ++ [a] |>).
Proof.
  intros Hq. unfold renderQ_push. run_monad.
  replace (length _ =? 1)%nat with false; [done|]. symmetry. apply Nat.eqb_neq.
  change (length (d_renderQ d ++ [a]) <> 1%nat). rewrite length_app.
  destruct (d_renderQ d); [done|]. cbn. lia.
Qed.

Lemma flip_geometry h d : exists d', flip true h d = (Ret tt, d') /\ same_geometry d d'.
Proof.
  unfold flip, queued. run_monad. destruct (bool_decide_reflect (d_renderQ d = [])) as [Hq|Hq]; cbn.
  - unfold flip_now. run_monad. eexists; split; [reflexivity|]. destruct d; cbn.
    repeat case_match; by repeat split.
  - rewrite renderQ_push_busy by done. eexists; split; [reflexivity|]. by destruct d.
Qed.

Lemma clamp_x_range x w delta limit :
  0 <= x -> 0 <= w <= limit -> 0 <= x + clamp_x x w delta limit <= limit - w.
Proof.
  intros. unfold clamp_x. destruct (Z.ltb_spec delta 0), (Z.ltb_spec (x + delta) 0); cbn;
    match goal with |- context [if ?b then _ else _] => destruct b eqn:E end; lia.
Qed.

Lemma clamp_y_range y w delta limit :
  0 <= y -> 0 <= w <= limit -> 0 <= y + clamp_y y w delta limit <= limit - w.
Proof.
  intros. unfold clamp_y. destruct (Z.ltb_spec (y + delta) 0); cbn;
    match goal with |- context [if ?b then _ else _] => destruct b eqn:E end; lia.
Qed.

(** The viewport lies inside the framebuffer. *)
Definition inside d : Prop :=
  let vp := d_viewportLoc d in
  0 <= r_x vp /\ 0 <= r_w vp /\ r_x vp + r_w vp <= d_fb_width d
  /\ 0 <= r_y vp /\ 0 <= r_h vp /\ r_y vp + r_h vp <= d_fb_height d.

(** It is no larger than it, wherever it is. *)
Definition fits d : Prop :=
  let vp := d_viewportLoc d in
  0 <= r_x vp /\ 0 <= r_w vp <= d_fb_width d /\ 0 <= r_y vp /\ 0 <= r_h vp <= d_fb_height d.

Lemma changePos_spec h dx dy d :
  fits d -> exists d', viewportChangePos true h dx dy d = (Ret tt, d') /\ inside d'
    /\ d_fb_width d' = d_fb_width d /\ d_fb_height d' = d_fb_height d
    /\ d_clipViewport d' = d_clipViewport d /\ d_target d' = d_target d
    /\ r_w (d_viewportLoc d') = r_w (d_viewportLoc d) /\ r_h (d_viewportLoc d') = r_h (d_viewportLoc d)
    /\ (d_clipViewport d = false -> r_w (d_viewportLoc d) = d_fb_width d ->
        r_h (d_viewportLoc d) = d_fb_height d ->
        r_x (d_viewportLoc d') = 0 /\ r_y (d_viewportLoc d') = 0).
Proof.
  intros (Hx & Hw & Hy & Hh). unfold viewportChangePos. run_monad. cbn [id].
  set (vp := d_viewportLoc d) in *.
  set (ex := if d_clipViewport d then dx else _). set (ey := if d_clipViewport d then dy else _).
  pose proof (clamp_x_range (r_x vp) (r_w vp) ex (d_fb_width d) Hx Hw) as Rx.
  pose proof (clamp_y_range (r_y vp) (r_h vp) ey (d_fb_height d) Hy Hh) as Ry.
  set (cx := clamp_x _ _ _ _) in *. set (cy := clamp_y _ _ _ _) in *.
  destruct (Z.eqb_spec cx 0) as [Ex|Ex], (Z.eqb_spec cy 0) as [Ey|Ey]; cbn.
  1: exists d; split; [done|]; unfold inside; fold vp; repeat split; try done; lia.
  all: match goal with |- context [flip true ?hp ?d1] =>
    destruct (flip_geometry hp d1) as (d' & -> & (Gv & Gw & Gh & Gc & Gt)) end;
    exists d'; split; [done|]; unfold inside; rewrite Gv, Gw, Gh, Gc, Gt; cbn;
    repeat split; try done; lia.
Qed.

Lemma changeSize_spec h w hh d :
  0 <= w -> 0 <= hh -> 0 <= r_x (d_viewportLoc d) -> 0 <= r_y (d_viewportLoc d) ->
  0 <= d_fb_width d -> 0 <= d_fb_height d ->
  0 <= r_w (d_viewportLoc d) -> 0 <= r_h (d_viewportLoc d) ->
  exists d', viewportChangeSize true h w hh d = (Ret tt, d') /\ fits d'
    /\ (inside d -> inside d')
    /\ d_fb_width d' = d_fb_width d /\ d_fb_height d' = d_fb_height d
    /\ d_clipViewport d' = d_clipViewport d
    /\ r_w (d_viewportLoc d') = Z.min (d_fb_width d) (if d_clipViewport d then w else d_fb_width d)
    /\ r_h (d_viewportLoc d') = Z.min (d_fb_height d) (if d_clipViewport d then hh else d_fb_height d).
Proof.
  intros Hw Hh Hx Hy Hfw Hfh Hvw Hvh. unfold viewportChangeSize. run_monad. cbn [id].
  set (w1 := if d_clipViewport d then w else _). set (h1 := if d_clipViewport d then hh else _).
  assert (Hw1 : 0 <= w1) by (unfold w1; destruct (d_clipViewport d); lia).
  assert (Hh1 : 0 <= h1) by (unfold h1; destruct (d_clipViewport d); lia).
  replace (if d_fb_width d <? w1 then d_fb_width d else w1) with (Z.min (d_fb_width d) w1)
    by (destruct (Z.ltb_spec (d_fb_width d) w1); lia).
  replace (if d_fb_height d <? h1 then d_fb_height d else h1) with (Z.min (d_fb_height d) h1)
    by (destruct (Z.ltb_spec (d_fb_height d) h1); lia).
  set (w2 := Z.min _ w1). set (h2 := Z.min _ h1).
  destruct (negb (r_w (d_viewportLoc d) =? w2) || negb (r_h (d_viewportLoc d) =? h2)) eqn:E.
  - match goal with |- context [viewportChangePos true h 0 0 ?d1] =>
      destruct (changePos_spec h 0 0 d1) as (d2 & -> & Hin & Fw & Fh & Fc & _ & Vw & Vh & _) end.
    { unfold fits; cbn; lia. }
    cbn in Fw, Fh, Fc, Vw, Vh. cbn.
    match goal with |- context [flip true h ?d1] =>
      destruct (flip_geometry h d1) as (d3 & -> & (Gv & Gw & Gh & Gc & _)) end.
    cbn in Gv, Gw, Gh, Gc. eexists; split; [reflexivity|].
    unfold inside, fits in *. cbn. rewrite Gv, Gw, Gh, Gc, Fw, Fh, Fc, Vw, Vh in *.
    repeat split; try done; lia.
  - apply orb_false_iff in E as [E1 E2]. apply negb_false_iff, Z.eqb_eq in E1, E2.
    unfold w2, h2, w1, h1 in *. exists d. split; [done|]. unfold fits. rewrite E1, E2.
    split_and!; try done; lia.
Qed.

Lemma size_then_pos h w hh dx dy d :
  0 <= w -> 0 <= hh -> 0 <= r_x (d_viewportLoc d) -> 0 <= r_y (d_viewportLoc d) ->
  0 <= d_fb_width d -> 0 <= d_fb_height d ->
  0 <= r_w (d_viewportLoc d) -> 0 <= r_h (d_viewportLoc d) ->
  exists d', (viewportChangeSize true h w hh;; viewportChangePos true h dx dy) d = (Ret tt, d')
    /\ inside d' /\ d_fb_width d' = d_fb_width d /\ d_fb_height d' = d_fb_height d
    /\ (d_clipViewport d = false ->
        d_viewportLoc d' = Rect 0 0 (d_fb_width d) (d_fb_height d)).
Proof.
  intros Hw Hh Hx Hy Hfw Hfh Hvw Hvh. run_monad.
  destruct (changeSize_spec h w hh d) as (d1 & -> & Hf & _ & Fw & Fh & Fc & Vw & Vh); try done.
  destruct (changePos_spec h dx dy d1 Hf) as (d2 & -> & Hin & Gw & Gh & _ & _ & Uw & Uh & Hfull).
  exists d2. split; [done|]. split; [done|]. split; [congruence|]. split; [congruence|].
  intros Hclip. rewrite Fc, Hclip in *. rewrite Z.min_id in Vw, Vh.
  destruct (Hfull eq_refl) as [X Y]; [congruence|congruence|].
  destruct (d_viewportLoc d2); cbn in *. congruence.
Qed.

(** A pixel in a rectangle, and in the damaged area. *)
Definition in_rect (px py : Z) (r : rect) : Prop :=
  r_x r <= px < r_x r + r_w r /\ r_y r <= py < r_y r + r_h r.
Definition damaged (px py : Z) (b : bounds) : Prop :=
  b_left b <= px < b_right b /\ b_top b <= py < b_bottom b.

(** A flip shows a pixel at its place in the viewport. *)
Definition shows (f : flip_op) (px py vx vy : Z) : Prop :=
  f_x f <= px < f_x f + f_w f /\ f_y f <= py < f_y f + f_h f
  /\ vx = f_vx f + (px - f_x f) /\ vy = f_vy f + (py - f_y f).

Lemma flip_now_shows d px py :
  exists d' l, flip_now d = (Ret tt, d') /\ d_flips d' = d_flips d ++ l
    /\ d_damageBounds d' = Bounds 65535 65535 0 0
    /\ (forall vx vy, (exists f, In f l /\ shows f px py vx vy) <->
         damaged px py (d_damageBounds d) /\ in_rect px py (d_viewportLoc d)
         /\ vx = px - r_x (d_viewportLoc d) /\ vy = py - r_y (d_viewportLoc d)).
Proof.
  unfold flip_now. run_monad.
  destruct d as [? ? ? ? ? ? ? ? ? [x y w hh] ? ? [l t r b] ? ? ? ? ? ? ?]; cbn.
  assert (forall (P : Prop) (l : list flip_op) vx vy, l = [] -> ~ P ->
    ((exists f, In f l /\ shows f px py vx vy) <-> P)) as Hempty.
  { intros P l0 vx vy -> HP. split; [by intros (f & [] & _)|done]. }
  assert (forall (P : Prop) f vx vy, (shows f px py vx vy <-> P) ->
    ((exists g, In g [f] /\ shows g px py vx vy) <-> P)) as Hone.
  { intros P f vx vy <-. split; [by intros (g & [->|[]] & ?)|]. intros. exists f. split; [by left|done]. }
  destruct (Z.ltb_spec (l - x) 0), (Z.ltb_spec (t - y) 0); cbn;
    repeat match goal with |- context [?a <? ?b] => destruct (Z.ltb_spec a b); cbn end;
    repeat match goal with H : context [?a <? ?b] |- _ => destruct (Z.ltb_spec a b) end;
    (do 2 eexists; split; [reflexivity|]; split; [reflexivity || (symmetry; apply app_nil_r)|];
     split; [done|]; intros vx vy;
     first [ apply Hone; unfold shows, damaged, in_rect; cbn; lia
           | apply Hempty; [done|unfold damaged, in_rect; cbn; lia] ]).
Qed.

End Viewport.

(** ** Properties *)

Section Properties.
Import Websock Display Rendering.
Implicit Type d : display.

(** [C4] Rendering is in order: whatever the mix of fills, copies, pictures,
    compressed images and flips, and whenever the images happen to load, the
    drawings and flips made so far followed by those the queue still holds are exactly
    those asked for, in the order they were asked for; and the queue only
    ever waits for an image that is loading and listened to.  The pictures and colours
    are given in arrays of their own: of a view of the receive queue, what is drawn
    after it was queued may be something else ([queued_picture_source]). *)
Theorem rendering_in_order l d :
  wf d -> Forall cmd_ok l ->
  exists d', exec_all l d = (Ret tt, d') /\ wf d'
    /\ all_drawn d' = all_drawn d ++ asked_all d l.
Proof.
  revert d. induction l as [|c l IH]; intros d Hwf Hl; cbn [exec_all asked_all].
  - exists d. by rewrite app_nil_r.
  - inversion_clear Hl. destruct (exec_spec c d) as (d1 & E & Hwf1 & Hd1 & _); [done..|].
    run_monad. rewrite E. cbn [snd]. destruct (IH d1) as (d2 & -> & ? & Hd2); [done..|].
    exists d2. rewrite Hd2, Hd1, <- app_assoc. done.
Qed.

(** [C22] The viewport stays inside the framebuffer: a resize of the framebuffer,
    to any size, brings it inside, whatever it was; moving it by any amount,
    resizing it and switching clipping on or off keep it inside; and without
    clipping it is the whole framebuffer. *)
Theorem viewport_inside h d :
  0 <= r_x (d_viewportLoc d) -> 0 <= r_y (d_viewportLoc d) ->
  0 <= r_w (d_viewportLoc d) -> 0 <= r_h (d_viewportLoc d) ->
  (forall w hh, 0 <= w -> 0 <= hh -> exists d', resize true h w hh d = (Ret tt, d') /\ inside d'
    /\ d_fb_width d' = w /\ d_fb_height d' = hh
    /\ (d_clipViewport d = false -> d_viewportLoc d' = Rect 0 0 w hh))
  /\ (inside d ->
     (forall dx dy, exists d', viewportChangePos true h dx dy d = (Ret tt, d') /\ inside d')
     /\ (forall w hh, 0 <= w -> 0 <= hh ->
           exists d', viewportChangeSize true h w hh d = (Ret tt, d') /\ inside d')
     /\ (forall b, exists d', set_clipViewport true h b d = (Ret tt, d') /\ inside d'
           /\ (b = false -> d_viewportLoc d' = Rect 0 0 (d_fb_width d) (d_fb_height d)))).
Proof.
  intros Hx Hy Hvw Hvh. split; [|intros Hin; pose proof Hin as (? & ? & ? & ? & ? & ?); split_and!].
  - intros w hh Hw Hh. unfold resize, log_draw. run_monad.
    destruct (d_backbuffer _) as [bw bh] eqn:Eb. cbn in Eb.
    destruct (negb (bw =? w) || negb (bh =? hh)); cbn.
    all: match goal with |- context [viewportChangeSize true ?hp ?w1 ?h1 ?d1] =>
      destruct (size_then_pos hp w1 h1 0 0 d1) as (d' & E & Hin & Fw & Fh & Hfull); try done;
      exists d'; run_monad; rewrite E; done end.
  - intros dx dy. destruct (changePos_spec h dx dy d) as (d' & -> & ? & _); [|eauto].
    unfold fits. lia.
  - intros w hh Hw Hh. destruct (changeSize_spec h w hh d) as (d' & -> & _ & Hi & _); try done; try lia.
    eauto.
  - intros b. unfold set_clipViewport. run_monad. cbn.
    match goal with |- context [viewportChangeSize true ?hp ?w1 ?h1 ?d1] =>
      destruct (size_then_pos hp w1 h1 0 0 d1) as (d' & E & Hi & _ & _ & Hfull); try done; try (cbn; lia) end.
    run_monad. rewrite E. cbn in Hfull. eauto.
Qed.

(** The areas drawn since the last flip. *)
Fixpoint damages (l : list rect) : M display unit :=
  match l with
  | [] => skip
  | r :: l => damage (r_x r) (r_y r) (r_w r) (r_h r);; damages l
  end.

Lemma damages_cover l d px py :
  let d' := (damages l d).2 in
  (damages l d).1 = Ret tt /\ d_viewportLoc d' = d_viewportLoc d /\ d_flips d' = d_flips d
  /\ (Exists (in_rect px py) l \/ damaged px py (d_damageBounds d) -> damaged px py (d_damageBounds d')).
Proof.
  revert d. induction l as [|r l IH]; intros d.
  - split_and!; try done. intros [H|H]; [inversion H|done].
  - change (damages (r :: l) d) with (damages l (damage (r_x r) (r_y r) (r_w r) (r_h r) d).2).
    destruct (IH (damage (r_x r) (r_y r) (r_w r) (r_h r) d).2) as (E & V & F & Hc). cbv zeta.
    split_and!; [done|by rewrite V; destruct d|by rewrite F; destruct d|]. intros H. apply Hc.
    cbn. destruct d as [? ? ? ? ? ? ? ? ? ? ? ? [le t ri b] ? ? ? ? ? ? ?]. cbn in *.
    assert (in_rect px py r \/ Exists (in_rect px py) l \/ damaged px py (Bounds le t ri b)) as Hd.
    { destruct H as [H|H]; [inversion H; auto|auto]. }
    destruct Hd as [Hd|[Hd|Hd]]; [right|by left|right]; unfold in_rect, damaged in *; cbn in *;
      repeat match goal with |- context [?a <? ?b] => destruct (Z.ltb_spec a b) end; lia.
Qed.

(** [C23] A flip loses nothing that was drawn: every pixel of every area damaged
    since the last flip that lies in the viewport is copied to its place on the
    visible canvas; a flip copies nothing outside the viewport, and nothing is
    left damaged after it. *)
Theorem flip_shows_damage l d px py :
  let d1 := (damages l d).2 in
  exists d' f, flip_now d1 = (Ret tt, d') /\ d_flips d' = d_flips d ++ f
    /\ d_damageBounds d' = Bounds 65535 65535 0 0
    /\ (Exists (in_rect px py) l -> in_rect px py (d_viewportLoc d) ->
        exists o, In o f /\ shows o px py (px - r_x (d_viewportLoc d)) (py - r_y (d_viewportLoc d)))
    /\ (forall vx vy o, In o f -> shows o px py vx vy -> in_rect px py (d_viewportLoc d)
        /\ vx = px - r_x (d_viewportLoc d) /\ vy = py - r_y (d_viewportLoc d)).
Proof.
  destruct (damages_cover l d px py) as (_ & V & F & Hc).
  destruct (flip_now_shows (damages l d).2 px py) as (d' & f & E & Hf & Hb & Hs).
  exists d', f. rewrite F in Hf. rewrite V in Hs. split_and!; try done.
  - intros Hl Hv. apply Hs. split_and!; try done. apply Hc. by left.
  - intros vx vy o Ho Hsh. destruct (Hs vx vy) as [H _]. destruct H as (_ & ? & ? & ?); eauto.
Qed.

(** A requested flush is answered exactly once, by the event that empties
    the queue: no other step of a run calls [onflush], and a flush of an empty
    queue is answered at once. *)
Theorem flush_answered c d :
  wf d -> cmd_ok c ->
  (exists d1, flush d = (Ret tt, d1) /\ wf d1
     /\ (if bool_decide (d_renderQ d = []) then d_onflush d1 = d_onflush d + 1
         else d_flushing d1 = true /\ d_onflush d1 = d_onflush d))
  /\ let d' := (exec c d).2 in
     d_onflush d' = d_onflush d
       + (if d_flushing d && bool_decide (d_renderQ d' = []) then 1 else 0)
     /\ d_flushing d' = d_flushing d && negb (bool_decide (d_renderQ d' = [])).
Proof.
  intros Hwf Hok. split.
  - pose proof Hwf as [Hw Hst Ha]. unfold flush, queued. run_monad.
    destruct (bool_decide_reflect (d_renderQ d = [])) as [Hq|Hq]; cbn; (eexists; split; [reflexivity|]).
    + split; [|done]. split; [|by destruct d|by destruct d]. by destruct d.
    + split; [|done]. split; [|by destruct d|by destruct d]. unfold waits in *. by destruct d, d_renderQ0.
  - destruct (exec_spec c d Hwf Hok) as (d' & -> & _ & _ & Hf). exact Hf.
Qed.

(** Tiles are not queued: whatever the queue still has to draw, a finished
    tile is put on the canvas at once, before everything that was asked for
    earlier and is still waiting. *)
Theorem tiles_jump_queue d :
  exists d', finishTile d = (Ret tt, d') /\ d_renderQ d' = d_renderQ d
    /\ all_drawn d' = d_draw d
         ++ [DPut (t_data (d_tile d)) (t_width (d_tile d)) (t_height (d_tile d)) (d_tile_x d) (d_tile_y d)]
         ++ concat (map drawing (d_renderQ d)).
Proof.
  unfold finishTile, putImageData, log_draw, damage. run_monad. eexists. split; [reflexivity|].
  destruct d; cbn. split; [done|]. unfold all_drawn. cbn. by rewrite <- app_assoc.
Qed.

(** A picture that must wait is copied from the start of the array it lies
    in, not from where it lies: whatever its view and its offset. *)
Theorem queued_picture_source h k x y w hh v off d :
  d_renderQ d <> [] -> 0 <= w -> 0 <= hh ->
  w * hh * pixel_size k <= zlen (default [] (h !! v_buf v)) ->
  exists d', blit true h k x y w hh (FromView v) off d = (Ret tt, d')
    /\ d_renderQ d' = d_renderQ d
         ++ [ABlit k (slice (default [] (h !! v_buf v)) 0 (w * hh * pixel_size k)) x y w hh].
Proof.
  intros Hq Hw Hh Hl. unfold blit, queued, buffer_part. run_monad.
  rewrite bool_decide_eq_false_2 by done. cbn.
  replace (match k with Rgb => 3 | _ => 4 end) with (pixel_size k) by by destruct k.
  assert (0 <= w * hh * pixel_size k) by (destruct k; cbn; nia).
  rewrite (proj2 (Z.ltb_ge _ 0)), (proj2 (Z.ltb_ge _ (w * hh * pixel_size k))) by lia. cbn.
  rewrite renderQ_push_busy by done. eexists; split; [reflexivity|]. by destruct d.
Qed.

(** Commands that concern other images than [i]. *)
Definition not_loading (i : nat) (c : cmd) : Prop :=
  match c with CLoad j _ _ => j <> i | _ => True end.

(** Stuck: the head of the queue is a broken image, the only one listened to. *)
Definition stuck (i : nat) (d : display) : Prop :=
  (exists x y q, d_renderQ d = AImg i x y :: q)
  /\ (exists im, d_images d !! i = Some im /\ im_state im = Broken)
  /\ (forall j im, d_images d !! j = Some im -> im_listening im = true -> j = i).

Lemma stuck_push i a d : stuck i d ->
  stuck i (d <| d_renderQ := d_renderQ d ++ [a] |>).
Proof.
  intros ((x & y & q & Hq) & Hi & Hl). split_and!.
  - exists x, y, (q ++ [a]). destruct d; cbn in *. by rewrite Hq.
  - by destruct d.
  - by destruct d.
Qed.

Lemma exec_stuck i c d :
  stuck i d -> cmd_ok c -> not_loading i c ->
  exists d', exec c d = (Ret tt, d') /\ stuck i d' /\ d_draw d' = d_draw d.
Proof.
  intros Hs Hok Hnl. pose proof Hs as ((x0 & y0 & q & Hq) & (bi & Hbi & Hbs) & Hl).
  assert (Hne : d_renderQ d <> []) by by rewrite Hq.
  assert (Hpush : forall a m, m d = renderQ_push true ∅ a d ->
    exists d', m d = (Ret tt, d') /\ stuck i d' /\ d_draw d' = d_draw d).
  { intros a m E. rewrite E, renderQ_push_busy by done. eexists; split; [reflexivity|].
    split; [by apply stuck_push|by destruct d]. }
  destruct c; cbn [exec].
  1-3: eapply Hpush; unfold flip, copyImage, fillRect, queued; run_monad;
    rewrite bool_decide_eq_false_2 by done; reflexivity.
  - destruct Hok as (Hw & Hh & Hz & _). eapply Hpush. unfold blit, queued, buffer_part. run_monad.
    rewrite bool_decide_eq_false_2 by done. cbn.
    replace (match k with Rgb => 3 | _ => 4 end) with (pixel_size k) by by destruct k.
    rewrite <- Hz, (proj2 (Z.ltb_ge (zlen data) 0)), Z.ltb_irrefl by (pose proof (zlen_nonneg data); lia).
    reflexivity.
  - unfold imageRect. run_monad. set (j := fresh _).
    assert (Hj : d_images d !! j = None) by apply not_elem_of_dom, is_fresh.
    rewrite renderQ_push_busy by by destruct d. eexists; split; [reflexivity|].
    split; [|by destruct d]. apply stuck_push. split_and!.
    + exists x0, y0, q. by destruct d.
    + exists bi. change (<[j := Img mime data Loading false]> (d_images d) !! i = Some bi /\ im_state bi = Broken).
      rewrite lookup_insert_ne; [done|]. intros ->. congruence.
    + intros k im. change (<[j := Img mime data Loading false]> (d_images d) !! k = Some im -> im_listening im = true -> k = i).
      destruct (decide (j = k)) as [->|]; [rewrite lookup_insert_eq; by intros [= <-]|].
      rewrite lookup_insert_ne by done. apply Hl.
  - unfold image_event. run_monad. cbn [id].
    destruct (d_images d !! i0) as [im|] eqn:Him; [|eauto].
    destruct (im_listening im) eqn:El; [cbn in Hnl; by destruct Hnl; eapply Hl|].
    eexists; split; [reflexivity|]. split; [|by destruct d]. split_and!.
    + exists x0, y0, q. by destruct d.
    + exists bi. change (<[i0 := im <| im_state := Loaded w h |>]> (d_images d) !! i = Some bi /\ im_state bi = Broken).
      by rewrite lookup_insert_ne.
    + intros k jm. change (<[i0 := im <| im_state := Loaded w h |>]> (d_images d) !! k = Some jm -> im_listening jm = true -> k = i).
      destruct (decide (i0 = k)) as [->|]; [|rewrite lookup_insert_ne by done; apply Hl].
      rewrite lookup_insert_eq. intros [= <-]. destruct im; cbn in *. congruence.
Qed.

(** An image that fails to decode stops the display for good: once the head
    of the queue is a broken image (no 'load' event will come for it), nothing is
    ever drawn again, whatever is asked for and whatever other images load. *)
Theorem broken_image_blocks i l d :
  stuck i d -> Forall cmd_ok l -> Forall (not_loading i) l ->
  exists d', exec_all l d = (Ret tt, d') /\ d_draw d' = d_draw d /\ d_renderQ d' <> [].
Proof.
  revert d. induction l as [|c l IH]; intros d Hs Hok Hnl; cbn [exec_all].
  - exists d. destruct Hs as ((x & y & q & Hq) & _). by rewrite Hq.
  - inversion_clear Hok. inversion_clear Hnl.
    destruct (exec_stuck i c d) as (d1 & E & Hs1 & Hd1); [done..|]. run_monad. rewrite E.
    destruct (IH d1) as (d2 & -> & Hd2 & ?); [done..|]. exists d2. by rewrite Hd2, Hd1.
Qed.

End Properties.

(** *** The properties at concrete inputs *)

Section Witnesses.
Import Websock Display Rendering.

Definition sample : display :=
  (blank 240 20 240 20) <| d_fb_width := 240 |> <| d_fb_height := 20 |>.

Lemma display_sample_wf : wf sample.
Proof. split; [reflexivity|by left|constructor]. Qed.

Definition sample_cmds : list cmd :=
  [ CFill 0 0 4 4 1 2 3; CImage 0 0 "image/jpeg" [255; 216]; CFill 2 2 1 1 9 8 7;
    CBlit Bgrx 0 0 1 1 [1; 2; 3; 0]; CFlip; CImage 5 5 "image/png" [1]; CCopy 0 0 8 8 2 2;
    CLoad 1 7 7; CLoad 0 4 4 ].

(** Everything is drawn in the end, in order, although the second image was the
    first to load. *)
Lemma rendering_in_order_witness :
  exists d', exec_all sample_cmds sample = (Ret tt, d')
    /\ d_renderQ d' = []
    /\ all_drawn d' = all_drawn sample
         ++ [ DFill 0 0 4 4 (Some (Some 3, Some 2, Some 1)); DImage 0 0 0;
              DFill 2 2 1 1 (Some (Some 7, Some 8, Some 9)); DPut [3; 2; 1; 255] 1 1 0 0; DFlip;
              DImage 1 5 5; DCopy 0 0 8 8 2 2 ].
Proof.
  destruct (rendering_in_order sample_cmds sample display_sample_wf) as (d' & E & _ & Hd).
  { repeat constructor; cbn; unfold is_byte; lia. }
  exists d'. split; [exact E|]. split; [|exact Hd].
  transitivity (d_renderQ (exec_all sample_cmds sample).2); [by rewrite E|]. vm_compute. reflexivity.
Defined.

Lemma viewport_inside_witness :
  exists d', resize true ∅ 100 50 sample = (Ret tt, d') /\ inside d' /\ d_viewportLoc d' = Rect 0 0 100 50.
Proof.
  destruct (viewport_inside ∅ sample) as [H _]; [cbn; lia..|].
  destruct (H 100 50) as (d' & E & Hi & _ & _ & Hv); [lia..|]. exists d'. auto.
Defined.

Lemma flip_shows_damage_witness :
  let d := sample in
  exists d' f, flip_now (damages [Rect 2 3 10 10; Rect 100 5 20 10] d).2 = (Ret tt, d')
    /\ exists o, In o f /\ shows o 110 7 110 7.
Proof.
  destruct (flip_shows_damage [Rect 2 3 10 10; Rect 100 5 20 10] sample 110 7)
    as (d' & f & E & _ & _ & Hs & _).
  exists d', f. split; [exact E|]. apply Hs.
  - right. left. unfold in_rect. cbn. lia.
  - unfold in_rect. cbn. lia.
Defined.

Lemma flush_answered_witness :
  let d := (exec_all [CImage 0 0 "image/jpeg" [255]; CFill 0 0 1 1 0 0 0] sample).2 in
  let d1 := (flush d).2 in
  d_flushing d1 = true /\ d_onflush (exec (CLoad 0 3 3) d1).2 = 1.
Proof.
  destruct (rendering_in_order [CImage 0 0 "image/jpeg" [255]; CFill 0 0 1 1 0 0 0] sample display_sample_wf)
    as (d & E & Hwf & _); [by repeat constructor|]. rewrite E. cbv zeta. cbn [snd].
  destruct (flush_answered CFlip d Hwf I) as [(d1 & E1 & Hwf1 & Hf) _].
  assert (Hd : d = (exec_all [CImage 0 0 "image/jpeg" [255]; CFill 0 0 1 1 0 0 0] sample).2)
    by by rewrite E.
  rewrite E1. cbn [snd]. destruct (flush_answered (CLoad 0 3 3) d1 Hwf1 I) as [_ [Hn _]].
  assert (Hd1 : d1 = (flush d).2) by by rewrite E1.
  split; [subst; vm_compute; reflexivity|]. rewrite Hn. subst. vm_compute. reflexivity.
Defined.

Lemma queued_picture_source_witness :
  let h := {[0%nat := [1; 2; 3; 4; 5; 6; 7; 8]]} in
  let d := (exec (CImage 0 0 "image/png" []) sample).2 in
  exists d', blit true h Bgrx 0 0 1 1 (FromView (View 0 4 4)) 0 d = (Ret tt, d')
    /\ d_renderQ d' = d_renderQ d ++ [ABlit Bgrx [1; 2; 3; 4] 0 0 1 1].
Proof.
  destruct (queued_picture_source {[0%nat := [1; 2; 3; 4; 5; 6; 7; 8]]} Bgrx 0 0 1 1 (View 0 4 4) 0
    (exec (CImage 0 0 "image/png" []) sample).2) as (d' & E & Hq); [vm_compute; done..|].
  exists d'. split; [exact E|]. rewrite Hq. vm_compute. reflexivity.
Defined.

Definition sample_stuck : display :=
  sample <| d_renderQ := [AImg 0 3 3] |>
         <| d_images := {[0%nat := Img "image/png" [1] Broken true]} |>.

Lemma broken_image_blocks_witness :
  exists d', exec_all [CFill 0 0 1 1 0 0 0; CImage 1 1 "image/png" [2]; CLoad 1 4 4] sample_stuck
      = (Ret tt, d') /\ d_draw d' = d_draw sample_stuck /\ d_renderQ d' <> [].
Proof.
  apply (broken_image_blocks 0).
  - split; [by exists 3, 3, []|]. split.
    + exists (Img "image/png" [1] Broken true). split; [|done]. apply lookup_singleton_eq.
    + intros j im H _. change (({[0%nat := Img "image/png" [1] Broken true]} : gmap nat img) !! j = Some im) in H.
      by apply lookup_singleton_Some in H as [<- _].
  - repeat constructor.
  - repeat constructor. cbn. lia.
Defined.

End Witnesses.
