(* ===== verification/Base64.v ===== *)
(** * Base64 (src/ControlServer/web/www/novnc/core/base64.js)

    Strings are lists of code units.  [encode] makes the data URLs of the images of
    Tight rectangles. *)

From S2P Require Import Prelude.

Module Base64.
Local Open Scope js_scope.

Definition toBase64Table : list Z :=
  codes "ABCDEFGHIJKLMNOPQRSTUVWXYZabcdefghijklmnopqrstuvwxyz0123456789+/=".
Definition base64Pad : Z := 61.

(** [result += this.toBase64Table[i]] *)
Definition char (i : Z) : list Z :=
  match aget toBase64Table i with Some c => [c] | None => codes "undefined" end.

(** Three bytes at a time, then the remaining one or two. *)
Fixpoint encode (data : list Z) : list Z :=
  match data with
  | [] => []
  | [a] => char (a >>. 2) ++ char ((a &. 0x03) <<. 4) ++ char 64 ++ char 64
  | [a; b] =>
      char (a >>. 2) ++ char (((a &. 0x03) <<. 4) + (b >>. 4)) ++ char ((b &. 0x0f) <<. 2) ++ char 64
  | a :: b :: c :: data =>
      char (a >>. 2) ++ char (((a &. 0x03) <<. 4) + (b >>. 4))
        ++ char (((b &. 0x0f) <<. 2) + (c >>. 6)) ++ char (c &. 0x3f) ++ encode data
  end.

Definition toBinaryTable : list Z := [
  -1; -1; -1; -1; -1; -1; -1; -1; -1; -1; -1; -1; -1; -1; -1; -1;
  -1; -1; -1; -1; -1; -1; -1; -1; -1; -1; -1; -1; -1; -1; -1; -1;
  -1; -1; -1; -1; -1; -1; -1; -1; -1; -1; -1; 62; -1; -1; -1; 63;
  52; 53; 54; 55; 56; 57; 58; 59; 60; 61; -1; -1; -1;  0; -1; -1;
  -1;  0;  1;  2;  3;  4;  5;  6;  7;  8;  9; 10; 11; 12; 13; 14;
  15; 16; 17; 18; 19; 20; 21; 22; 23; 24; 25; -1; -1; -1; -1; -1;
  -1; 26; 27; 28; 29; 30; 31; 32; 33; 34; 35; 36; 37; 38; 39; 40;
  41; 42; 43; 44; 45; 46; 47; 48; 49; 50; 51; -1; -1; -1; -1; -1 ].

(** The value of a character, [-1] for one to be skipped. *)
Definition value (ch : Z) : Z := default 0 (aget toBinaryTable (ch &. 0x7f)).

(** The loop: the bytes appended to the result, and the bits left over. *)
Fixpoint decode_loop (data : list Z) (leftbits leftdata : Z) : list Z * Z :=
  match data with
  | [] => ([], leftbits)
  | ch :: data =>
      let c := value ch in
      if c =? -1 then decode_loop data leftbits leftdata
      else
        let leftdata := (leftdata <<. 6) |. c in
        let leftbits := leftbits + 6 in
        if 8 <=? leftbits then
          let leftbits := leftbits - 8 in
          let '(result, rest) := decode_loop data leftbits (leftdata &. ((1 <<. leftbits) - 1)) in
          (if ch =? base64Pad then result else ((leftdata >>. leftbits) &. 0xff) :: result, rest)
        else decode_loop data leftbits leftdata
  end.

Fixpoint indexOf (ch : Z) (data : list Z) (i : Z) : Z :=
  match data with
  | [] => -1
  | c :: data => if c =? ch then i else indexOf ch data (i + 1)
  end.

(** [new Array(result_length)] has holes where nothing is appended. *)
Definition decode (data : list Z) (offset : Z) : outcome (list (option Z)) :=
  let data_length := indexOf base64Pad data 0 - offset in
  let data_length := if data_length <? 0 then zlen data - offset else data_length in
  let result_length := (data_length >>. 2) * 3 + 2 * Z.rem data_length 4 / 3 in
  if result_length <? 0 then Throw RangeError
  else
    let '(result, leftbits) := decode_loop (drop (Z.to_nat offset) data) 0 0 in
    if negb (leftbits =? 0) then Throw (Error "Base64-Error")
    else Ret (map Some result ++ replicate (Z.to_nat result_length - length result) None).

End Base64.


(** ** Lemmas: six bits at a time *)

Section Sextets.
Import Base64.
Local Open Scope js_scope.

Lemma byte_parts a : is_byte a ->
  a >>. 2 = a / 4 /\ (a &. 0x03) <<. 4 = a mod 4 * 16 /\ a >>. 4 = a / 16
  /\ (a &. 0x0f) <<. 2 = a mod 16 * 4 /\ a >>. 6 = a / 64 /\ a &. 0x3f = a mod 64.
Proof.
  intros Ha. pose proof (every_byte (fun a => (a >>. 2 =? a / 4) && ((a &. 0x03) <<. 4 =? a mod 4 * 16) && (a >>. 4 =? a / 16)
    && ((a &. 0x0f) <<. 2 =? a mod 16 * 4) && (a >>. 6 =? a / 64) && (a &. 0x3f =? a mod 64)) a ltac:(by vm_compute) Ha) as H.
  rewrite !andb_true_iff, !Z.eqb_eq in H. tauto.
Qed.

(** A character of the alphabet. *)
Definition sextet (i : Z) : Z := default 0 (aget toBase64Table i).

Lemma sextet_char i : 0 <= i < 64 -> char i = [sextet i] /\ value (sextet i) = i /\ sextet i <> base64Pad.
Proof.
  intros Hi. assert (H : forallb (fun n => let i := Z.of_nat n in bool_decide (char i = [sextet i]) && (value (sextet i) =? i)
    && negb (sextet i =? base64Pad)) (seq 0 64) = true) by (vm_compute; reflexivity).
  rewrite forallb_forall in H. specialize (H (Z.to_nat i) ltac:(apply in_seq; lia)). cbv zeta in H.
  rewrite Z2Nat.id, !andb_true_iff, bool_decide_eq_true, Z.eqb_eq, negb_true_iff, Z.eqb_neq in H by lia. tauto.
Qed.

(** Taking in six bits, giving out eight. *)
Lemma take_in d c : 0 <= d < 64 -> 0 <= c < 64 -> (d <<. 6) |. c = d * 64 + c.
Proof.
  intros Hd Hc. unfold js_or, js_shl. rewrite (toInt32_small d), (toInt32_small c) by lia. change (6 mod 32) with 6.
  rewrite Z.shiftl_mul_pow2 by lia. change (2 ^ 6) with 64. rewrite !(toInt32_small (d * 64)) by lia.
  by apply (lor_add d 6 c).
Qed.

Lemma give_out x k : 0 <= x < 4096 -> k ∈ [4; 2; 0] ->
  (x >>. k) &. 0xff = x / 2 ^ k mod 256 /\ x &. ((1 <<. k) - 1) = x mod 2 ^ k.
Proof.
  intros Hx Hk. unfold js_and, js_shr. rewrite (toInt32_small x) by lia.
  assert (Hkk : 0 <= k <= 4 /\ k mod 32 = k /\ toInt32 ((1 <<. k) - 1) = Z.ones k).
  { apply elem_of_cons in Hk as [-> | [-> | [-> | []%not_elem_of_nil]%elem_of_cons]%elem_of_cons]; done. }
  destruct Hkk as (Hk0 & -> & ->). rewrite Z.land_ones by lia. split; [|done].
  rewrite Z.shiftr_div_pow2 by lia. assert (0 <= x / 2 ^ k <= x) by (split; [apply Z.div_pos; lia|apply Z.div_le_upper_bound; nia]).
  rewrite (toInt32_small (x / 2 ^ k)) by lia. change (toInt32 255) with (Z.ones 8). by rewrite Z.land_ones by lia.
Qed.

(** One character of the alphabet, when [leftbits] bits are waiting. *)
Lemma decode_sextet i rest bits d :
  0 <= i < 64 -> 0 <= d < 2 ^ bits -> bits ∈ [6; 4; 2] ->
  decode_loop (sextet i :: rest) bits d =
    let '(result, leftover) := decode_loop rest (bits - 2) ((d * 64 + i) mod 2 ^ (bits - 2)) in
    ((d * 64 + i) / 2 ^ (bits - 2) mod 256 :: result, leftover).
Proof.
  intros Hi Hd Hb. destruct (sextet_char i Hi) as (_ & Hv & Hp). cbn [decode_loop]. rewrite Hv.
  rewrite (proj2 (Z.eqb_neq i (-1))) by lia.
  assert (Hbits : 2 <= bits <= 6 /\ 2 ^ bits <= 64 /\ (bits - 2) ∈ [4; 2; 0]).
  { apply elem_of_cons in Hb as [-> | [-> | [-> | []%not_elem_of_nil]%elem_of_cons]%elem_of_cons]; (split; [lia|split; [done|]]);
      repeat (first [by left | right]). }
  destruct Hbits as (Hb2 & Hb3 & Hb4). rewrite take_in by lia. rewrite (proj2 (Z.leb_le 8 (bits + 6))) by lia.
  replace (bits + 6 - 8) with (bits - 2) by lia.
  destruct (give_out (d * 64 + i) (bits - 2)) as [-> ->]; [lia|done|].
  destruct (decode_loop rest _ _). by rewrite (proj2 (Z.eqb_neq _ _) Hp).
Qed.

Lemma decode_first i rest :
  0 <= i < 64 -> decode_loop (sextet i :: rest) 0 0 = decode_loop rest 6 i.
Proof.
  intros Hi. destruct (sextet_char i Hi) as (_ & Hv & _). cbn [decode_loop]. rewrite Hv.
  rewrite (proj2 (Z.eqb_neq i (-1))), take_in by lia. done.
Qed.

(** The padding gives nothing and forgets the bits that are left, all of them 0. *)
Lemma decode_pad rest bits :
  bits ∈ [4; 2] -> decode_loop (base64Pad :: rest) bits 0 = decode_loop rest (bits - 2) 0.
Proof.
  intros Hb. apply elem_of_cons in Hb as [-> | [-> | []%not_elem_of_nil]%elem_of_cons]; cbn [decode_loop];
    change (value base64Pad) with 0; cbn; change ((0 <<. 6) |. 0) with 0; by destruct (decode_loop rest _ _).
Qed.

End Sextets.

(** ** Properties *)

Section Properties.
Import Base64.

Lemma list_ind3 {A} (P : list A -> Prop) :
  P [] -> (forall a, P [a]) -> (forall a b, P [a; b]) -> (forall a b c l, P l -> P (a :: b :: c :: l)) -> forall l, P l.
Proof.
  intros H0 H1 H2 H3. enough (forall l, P l /\ (forall a, P (a :: l)) /\ (forall a b, P (a :: b :: l))) as H by apply H.
  induction l as [|c l (I0 & I1 & I2)]; [by auto|]. split; [apply I1|]. split; [intros a; apply I2|]. intros a b. by apply H3.
Qed.

Ltac chars := repeat match goal with
  | |- context [char ?i] => rewrite (proj1 (sextet_char i ltac:(zlia))) end.

Lemma encode_cons a b c l :
  is_byte a -> is_byte b -> is_byte c ->
  encode (a :: b :: c :: l) = sextet (a / 4) :: sextet (a mod 4 * 16 + b / 16) :: sextet (b mod 16 * 4 + c / 64)
    :: sextet (c mod 64) :: encode l.
Proof.
  intros Ha Hb Hc. cbn [encode]. destruct (byte_parts a Ha) as (-> & -> & _), (byte_parts b Hb) as (_ & _ & -> & -> & _),
    (byte_parts c Hc) as (_ & _ & _ & _ & -> & ->). unfold is_byte in *. by chars.
Qed.

Lemma encode_two a b :
  is_byte a -> is_byte b ->
  encode [a; b] = [sextet (a / 4); sextet (a mod 4 * 16 + b / 16); sextet (b mod 16 * 4); base64Pad].
Proof.
  intros Ha Hb. cbn [encode]. destruct (byte_parts a Ha) as (-> & -> & _), (byte_parts b Hb) as (_ & _ & -> & -> & _).
  change (char 64) with [base64Pad]. unfold is_byte in *. by chars.
Qed.

Lemma encode_one a : is_byte a -> encode [a] = [sextet (a / 4); sextet (a mod 4 * 16); base64Pad; base64Pad].
Proof.
  intros Ha. cbn [encode]. destruct (byte_parts a Ha) as (-> & -> & _). change (char 64) with [base64Pad].
  unfold is_byte in *. by chars.
Qed.

(** The loop gives the bytes back. *)
Lemma decode_loop_encode data : bytes data -> decode_loop (encode data) 0 0 = (data, 0).
Proof.
  induction data as [|a|a b|a b c l IH] using list_ind3; intros H.
  - done.
  - apply Forall_cons in H as [Ha _]. rewrite encode_one by done. unfold is_byte in Ha.
    rewrite decode_first by zlia. rewrite decode_sextet; [|zlia|change (2 ^ 6) with 64; zlia|by left].
    change (6 - 2) with 4. change (2 ^ 4) with 16. replace ((a / 4 * 64 + a mod 4 * 16) mod 16) with 0 by zlia.
    rewrite decode_pad by by left. rewrite decode_pad by by right; left. cbn [decode_loop]. do 2 f_equal. zlia.
  - rewrite !Forall_cons in H. destruct H as (Ha & Hb & _). rewrite encode_two by done. unfold is_byte in Ha, Hb.
    rewrite decode_first by zlia. rewrite decode_sextet; [|zlia|change (2 ^ 6) with 64; zlia|by left].
    change (6 - 2) with 4. change (2 ^ 4) with 16.
    rewrite decode_sextet; [|zlia|change (2 ^ 4) with 16; zlia|by right; left].
    change (4 - 2) with 2. change (2 ^ 2) with 4.
    replace (((a / 4 * 64 + (a mod 4 * 16 + b / 16)) mod 16 * 64 + b mod 16 * 4) mod 4) with 0 by zlia.
    rewrite decode_pad by by right; left. cbn [decode_loop]. do 2 f_equal; [zlia|f_equal; zlia].
  - rewrite !Forall_cons in H. destruct H as (Ha & Hb & Hc & Hl). rewrite encode_cons by done. unfold is_byte in Ha, Hb, Hc.
    rewrite decode_first by zlia. rewrite decode_sextet; [|zlia|change (2 ^ 6) with 64; zlia|by left].
    change (6 - 2) with 4. change (2 ^ 4) with 16.
    rewrite decode_sextet; [|zlia|change (2 ^ 4) with 16; zlia|by right; left].
    change (4 - 2) with 2. change (2 ^ 2) with 4.
    rewrite decode_sextet; [|zlia|change (2 ^ 2) with 4; zlia|by right; right; left].
    change (2 - 2) with 0. change (2 ^ 0) with 1. rewrite Z.mod_1_r, (IH Hl).
    f_equal. f_equal; [zlia|]. f_equal; [zlia|]. f_equal. zlia.
Qed.

(** Where the padding starts, and how long the text is. *)
Lemma indexOf_sextet i l k : 0 <= i < 64 -> indexOf base64Pad (sextet i :: l) k = indexOf base64Pad l (k + 1).
Proof. intros Hi. cbn [indexOf]. by rewrite (proj2 (Z.eqb_neq _ _) (proj2 (proj2 (sextet_char i Hi)))). Qed.

Ltac seek := repeat (rewrite indexOf_sextet; [|zlia]).

Lemma encode_extent data : bytes data ->
  let m := zlen data in
  zlen (encode data) = 4 * ((m + 2) / 3)
  /\ forall k, indexOf base64Pad (encode data) k = if m mod 3 =? 0 then -1 else k + 4 * (m / 3) + m mod 3 + 1.
Proof.
  cbv zeta. induction data as [|a|a b|a b c l IH] using list_ind3; intros H.
  - done.
  - apply Forall_cons in H as [Ha _]. rewrite encode_one by done. unfold is_byte in Ha. split; [done|].
    intros k. seek. change (zlen [a]) with 1. change (1 mod 3) with 1. change (1 / 3) with 0. cbn. lia.
  - rewrite !Forall_cons in H. destruct H as (Ha & Hb & _). rewrite encode_two by done. unfold is_byte in Ha, Hb.
    split; [done|]. intros k. seek. change (zlen [a; b]) with 2. change (2 mod 3) with 2. change (2 / 3) with 0. cbn. lia.
  - rewrite !Forall_cons in H. destruct H as (Ha & Hb & Hc & Hl). rewrite encode_cons by done. unfold is_byte in Ha, Hb, Hc.
    specialize (IH Hl) as [IHl IHk]. rewrite !zlen_cons, IHl. split; [zlia|]. intros k. seek. rewrite IHk.
    replace (1 + (1 + (1 + zlen l))) with (zlen l + 1 * 3) by lia. rewrite Z.mod_add, Z.div_add by lia.
    destruct (zlen l mod 3 =? 0); lia.
Qed.

(** [C34] Base64 loses nothing: decoding the encoding of any array of fewer than 2^28
    bytes gives exactly these bytes: no error, no byte of padding, and no hole,
    since the length computed from the padding is the length of the data. *)
Theorem decode_encode data :
  bytes data -> zlen data < 2 ^ 28 -> decode (encode data) 0 = Ret (map Some data).
Proof.
  intros H Hs. unfold decode. destruct (encode_extent data H) as [El Ek]. rewrite El, Ek. rewrite Z2Nat.inj_0, drop_0.
  rewrite (decode_loop_encode _ H). set (m := zlen data) in *. assert (Hm : 0 <= m) by apply zlen_nonneg.
  set (L := (if (if m mod 3 =? 0 then -1 else 0 + 4 * (m / 3) + m mod 3 + 1) - 0 <? 0 then 4 * ((m + 2) / 3) - 0
    else (if m mod 3 =? 0 then -1 else 0 + 4 * (m / 3) + m mod 3 + 1) - 0)).
  assert (HL : 0 <= L < 2 ^ 31 /\ L / 4 * 3 + 2 * (L mod 4) / 3 = m).
  { subst L. destruct (Z.eqb_spec (m mod 3) 0).
    - cbn [Z.ltb Z.sub Z.add Z.opp Z.compare]. replace (-1 - 0 <? 0) with true by done. zlia.
    - rewrite (proj2 (Z.ltb_ge _ _)) by zlia. zlia. }
  destruct HL as [HL Hr]. unfold js_shr. rewrite (toInt32_small L), Z.rem_mod_nonneg by lia.
  change (2 mod 32) with 2. rewrite Z.shiftr_div_pow2 by lia. change (2 ^ 2) with 4. rewrite Hr.
  rewrite (proj2 (Z.ltb_ge _ _)) by lia. cbn [Z.eqb negb]. subst m. unfold zlen. by rewrite Nat2Z.id, Nat.sub_diag, app_nil_r.
Qed.

Lemma decode_encode_witness :
  let data := [0; 255; 7; 200] in
  bytes data /\ zlen data < 2 ^ 28 /\ encode data = codes "AP8HyA==" /\ decode (encode data) 0 = Ret (map Some data).
Proof.
  cbv zeta. split; [|split; [|split]]; [by apply (bool_decide_unpack _); vm_compute|done|by vm_compute|].
  apply (decode_encode [0; 255; 7; 200]); [by apply (bool_decide_unpack _); vm_compute|done].
Defined.

(** A character outside the alphabet is skipped, but it still counts in the length of
    the result: two line ends leave an array with a hole behind the bytes. *)
Example decode_line_ends : decode (codes "QUJD" ++ [10; 10]) 0 = Ret [Some 65; Some 66; Some 67; None].
Proof. by vm_compute. Qed.

End Properties.
