(* ===== verification/Decoders.v ===== *)
(** * The rectangle decoders of noVNC
    (src/ControlServer/web/www/novnc/core/decoders/*.js and core/inflator.js)

    A decoder is called again and again with the same rectangle until it answers
    [true]; between the calls it keeps its progress in fields of its own.  The
    record [decoding] holds those fields for every decoder, the socket they read
    and the display they draw on.  The inflater of the vendored pako library is
    a parameter: a state, its reset, and a step from input bytes and room to
    output bytes. *)

From S2P Require Import Prelude Websock Display.

Module Decoders.
Import Websock.
Import Display.
Local Open Scope js_scope.

(** ** State *)

Record hextile := Hextile {
  hx_tiles : Z; hx_tiles_x : Z; hx_tiles_y : Z; hx_total_tiles : Z;
  hx_lastsubencoding : Z; hx_background : color; hx_foreground : color }.

#[export] Instance eta_hextile : Eta hextile := fun x =>
  Hextile (hx_tiles x) (hx_tiles_x x) (hx_tiles_y x) (hx_total_tiles x)
    (hx_lastsubencoding x) (hx_background x) (hx_foreground x).

(** [Inflator]: pako's stream and the size of its output array. *)
Record inflator (ZS : Type) := Inflator { if_strm : ZS; if_chunkSize : Z }.
Arguments Inflator {ZS} _ _.
Arguments if_strm {ZS} _.
Arguments if_chunkSize {ZS} _.

Record tight (ZS : Type) := Tight {
  t_ctl : option Z; t_filter : option Z; t_numColors : Z; t_palette : list Z; t_len : Z;
  t_zlibs : list (inflator ZS); t_scratchBuffer : list Z }.
Arguments Tight {ZS} _ _ _ _ _ _ _.
Arguments t_ctl {ZS} _.
Arguments t_filter {ZS} _.
Arguments t_numColors {ZS} _.
Arguments t_palette {ZS} _.
Arguments t_len {ZS} _.
Arguments t_zlibs {ZS} _.
Arguments t_scratchBuffer {ZS} _.

#[export] Instance eta_tight {ZS} : Eta (tight ZS) := fun x =>
  Tight (t_ctl x) (t_filter x) (t_numColors x) (t_palette x) (t_len x) (t_zlibs x)
    (t_scratchBuffer x).

Record decoding (ZS : Type) := Decoding {
  dc_sock : sock; dc_display : display;
  dc_lines : Z;                        (* RawDecoder *)
  dc_subrects : Z;                     (* RREDecoder *)
  dc_hextile : hextile; dc_tight : tight ZS; dc_tightpng : tight ZS }.
Arguments Decoding {ZS} _ _ _ _ _ _ _.
Arguments dc_sock {ZS} _.
Arguments dc_display {ZS} _.
Arguments dc_lines {ZS} _.
Arguments dc_subrects {ZS} _.
Arguments dc_hextile {ZS} _.
Arguments dc_tight {ZS} _.
Arguments dc_tightpng {ZS} _.

#[export] Instance eta_decoding {ZS} : Eta (decoding ZS) := fun x =>
  Decoding (dc_sock x) (dc_display x) (dc_lines x) (dc_subrects x) (dc_hextile x)
    (dc_tight x) (dc_tightpng x).

Section Decoders.
(** The browser, and pako: [inflateInit], [inflateReset] and [inflate], which
    turns input into at most the given number of output bytes. *)
Context (supportsImageMetadata : bool).
Context (ZS : Type) (inflateInit : ZS) (inflateReset : ZS -> ZS)
  (pako_inflate : ZS -> list Z -> Z -> ZS * list Z).

Abbreviation dec := (decoding ZS).

Definition new_hextile : hextile := Hextile 0 0 0 0 0 CUndefined CUndefined.

(** [new Inflator()] *)
Definition new_inflator : inflator ZS := Inflator inflateInit (1024 * 10 * 10).

Definition new_tight : tight ZS :=
  Tight None None 0 (replicate 1024 0) 0 (replicate 4 new_inflator) [].

Definition on_sock {A} (m : M sock A) : M dec A := zoom dc_sock m.

(** Drawing reads views in the arrays of the moment. *)
Definition on_display {A} (m : bool -> heap -> M display A) : M dec A :=
  h ← gets (fun d => sk_heap (dc_sock d)); zoom dc_display (m supportsImageMetadata h).

(** [rQ], the whole array of the receive queue, and one of its cells. *)
Definition rQ_view : M dec view := gets (fun d =>
  let s := dc_sock d in View (sk_rQ s) 0 (zlen (rQ_buf s))).
Definition rQ_at (i : Z) : M dec num := gets (fun d => aget (rQ_buf (dc_sock d)) i).
Definition rQi : M dec Z := gets (fun d => sk_rQi (dc_sock d)).

(** ** Raw *)

(** The conversion of 8-bit pixels, two bits a colour; the fourth byte is 0. *)
Definition expand8 (data : list Z) (index : Z) (pixels : nat) : list Z :=
  concat (map (fun i =>
    let v := nint (aget data (index + Z.of_nat i)) in
    [ (v >>. 0 &. 0x3) * 255 / 3; (v >>. 2 &. 0x3) * 255 / 3; (v >>. 4 &. 0x3) * 255 / 3; 0 ])
    (seq 0 pixels)).

(** A rectangle of width 0 is refused by [createImageData]; here also in the
    corner where nothing is buffered behind it and its height is NaN. *)
Definition raw_decodeRect (x y width height depth : Z) : M dec bool :=
  modify (fun d => if dc_lines d =? 0 then d <| dc_lines := height |> else d);;
  let pixelSize := if depth =? 8 then 1 else 4 in
  let bytesPerLine := width * pixelSize in
  wait ← on_sock (rQwait bytesPerLine 0);
  if (wait : bool) then mret false
  else
    lines ← gets dc_lines;
    avail ← gets (fun d => rQlen (dc_sock d));
    let cur_y := y + (height - lines) in
    if (bytesPerLine =? 0) && (avail =? 0) then
      (* 0 / 0, so curr_height is NaN: createImageData(0, NaN) throws, but a busy display
         queues the picture, and rQskipBytes(NaN) leaves no read index *)
      q ← gets (fun d => d_renderQ (dc_display d));
      throw (match q with [] => InvalidState | _ => NaNIndex end)
    else
      let curr_height := if bytesPerLine =? 0 then lines else Z.min lines (avail / bytesPerLine) in
      data ← rQ_view;
      index ← rQi;
      buf ← gets (fun d => rQ_buf (dc_sock d));
      (if depth =? 8
       then on_display (fun b h => blitImage b h x cur_y width curr_height
              (Own (expand8 buf index (Z.to_nat (width * curr_height)))) 0)
       else on_display (fun b h => blitImage b h x cur_y width curr_height (FromView data) index));;
      on_sock (rQskipBytes (curr_height * bytesPerLine));;
      modify (fun d => d <| dc_lines := dc_lines d - curr_height |>);;
      left ← gets dc_lines;
      mret (negb (0 <? left)).

(** ** CopyRect *)

Definition copyrect_decodeRect (x y width height : Z) : M dec bool :=
  wait ← on_sock (rQwait 4 0);
  if (wait : bool) then mret false
  else
    deltaX ← on_sock rQshift16; deltaY ← on_sock rQshift16;
    on_display (fun b h => copyImage b h deltaX deltaY x y width height);;
    mret true.

(** ** RRE *)

Fixpoint rre_loop (fuel : nat) (x y : Z) : M dec bool :=
  n ← gets dc_subrects;
  if 0 <? n then
    match fuel with
    | O => mret false
    | S fuel =>
        wait ← on_sock (rQwait (4 + 8) 0);
        if (wait : bool) then mret false
        else
          c ← on_sock (rQshiftBytes (Some 4));
          sx ← on_sock rQshift16; sy ← on_sock rQshift16;
          swidth ← on_sock rQshift16; sheight ← on_sock rQshift16;
          on_display (fun b h => fillRect b h (x + sx) (y + sy) swidth sheight (CView c));;
          modify (fun d => d <| dc_subrects := dc_subrects d - 1 |>);;
          rre_loop fuel x y
    end
  else mret true.

Definition rre_decodeRect (x y width height : Z) : M dec bool :=
  n ← gets dc_subrects;
  wait ← (if n =? 0 then
            wait ← on_sock (rQwait (4 + 4) 0);
            if (wait : bool) then mret true
            else
              subrects ← on_sock rQshift32;
              modify (fun d => d <| dc_subrects := subrects |>);;
              c ← on_sock (rQshiftBytes (Some 4));
              on_display (fun b h => fillRect b h x y width height (CView c));;
              mret false
          else mret false);
  if (wait : bool) then mret false
  else
    n ← gets dc_subrects; rre_loop (Z.to_nat n) x y.

(** ** Hextile *)

Definition set_hextile (f : hextile -> hextile) : M dec unit :=
  modify (fun d => d <| dc_hextile := f (dc_hextile d) |>).

(** [[rQ[i], rQ[i+1], rQ[i+2], rQ[i+3]]] *)
Definition color4 (i : Z) : M dec color :=
  a ← rQ_at i; b ← rQ_at (i + 1); c ← rQ_at (i + 2); d ← rQ_at (i + 3);
  mret (CVal [a; b; c; d]).

(** How many bytes the tile at [rQi] takes; [None] when it is too early to say. *)
Definition tile_bytes (subencoding tw th i : Z) : M dec (option Z) :=
  if negb (subencoding &. 0x01 =? 0) then mret (Some (1 + tw * th * 4))
  else
    let bytes := 1 + (if subencoding &. 0x02 =? 0 then 0 else 4)
                   + (if subencoding &. 0x04 =? 0 then 0 else 4) in
    if subencoding &. 0x08 =? 0 then mret (Some bytes)
    else
      let bytes := bytes + 1 in
      wait ← on_sock (rQwait bytes 0);
      if (wait : bool) then mret None
      else
        subrects ← rQ_at (i + bytes - 1);
        mret (Some (bytes + default 0 subrects * (if subencoding &. 0x10 =? 0 then 2 else 6))).

(** The sub-rectangles of a tile, from [rQi] on; where they end. *)
Fixpoint tile_subrects (k : nat) (coloured : bool) (i : Z) : M dec Z :=
  match k with
  | O => mret i
  | S k =>
      c ← (if coloured then color4 i else gets (fun d => hx_foreground (dc_hextile d)));
      let i := if coloured then i + 4 else i in
      xy ← rQ_at i; wh ← rQ_at (i + 1);
      let sx := nint xy >>. 4 in let sy := nint xy &. 0x0f in
      let sw := (nint wh >>. 4) + 1 in let sh := (nint wh &. 0x0f) + 1 in
      on_display (fun _ h => subTile h sx sy sw sh c);;
      tile_subrects k coloured (i + 2)
  end.

(** One whole tile, whose bytes have all arrived. *)
Definition tile_draw (subencoding tx ty tw th bytes : Z) : M dec unit :=
  i ← rQi;
  let i := i + 1 in
  i ← (if subencoding =? 0 then
         hx ← gets dc_hextile;
         (if negb (hx_lastsubencoding hx &. 0x01 =? 0) then skip
          else on_display (fun b h => fillRect b h tx ty tw th (hx_background hx)));;
         mret i
       else if negb (subencoding &. 0x01 =? 0) then
         rQ ← rQ_view;
         on_display (fun b h => blitImage b h tx ty tw th (FromView rQ) i);;
         mret (i + (bytes - 1))
       else
         i ← (if subencoding &. 0x02 =? 0 then mret i
              else c ← color4 i; set_hextile (fun x => x <| hx_background := c |>);; mret (i + 4));
         i ← (if subencoding &. 0x04 =? 0 then mret i
              else c ← color4 i; set_hextile (fun x => x <| hx_foreground := c |>);; mret (i + 4));
         bg ← gets (fun d => hx_background (dc_hextile d));
         on_display (fun _ h => startTile h tx ty tw th bg);;
         i ← (if subencoding &. 0x08 =? 0 then mret i
              else
                subrects ← rQ_at i;
                tile_subrects (Z.to_nat (default 0 subrects)) (negb (subencoding &. 0x10 =? 0)) (i + 1));
         on_display (fun _ _ => finishTile);;
         mret i);
  on_sock (modify (fun s => s <| sk_rQi := i |>));;
  set_hextile (fun x => x <| hx_lastsubencoding := subencoding |> <| hx_tiles := hx_tiles x - 1 |>).

Fixpoint hextile_loop (fuel : nat) (x y width height : Z) : M dec bool :=
  hx ← gets dc_hextile;
  if 0 <? hx_tiles hx then
    match fuel with
    | O => mret false
    | S fuel =>
        wait ← on_sock (rQwait 1 0);
        if (wait : bool) then mret false
        else
          i ← rQi; sub ← rQ_at i;
          let subencoding := default 0 sub in
          if 30 <? subencoding then throw (Error "Illegal hextile subencoding")
          else
            let curr_tile := hx_total_tiles hx - hx_tiles hx in
            let tx := x + (curr_tile mod hx_tiles_x hx) * 16 in
            let ty := y + (curr_tile / hx_tiles_x hx) * 16 in
            let tw := Z.min 16 ((x + width) - tx) in
            let th := Z.min 16 ((y + height) - ty) in
            bytes ← tile_bytes subencoding tw th i;
            match bytes with
            | None => mret false
            | Some bytes =>
                wait ← on_sock (rQwait bytes 0);
                if (wait : bool) then mret false
                else tile_draw subencoding tx ty tw th bytes;; hextile_loop fuel x y width height
            end
    end
  else mret true.

Definition hextile_decodeRect (x y width height : Z) : M dec bool :=
  set_hextile (fun hx =>
    if hx_tiles hx =? 0 then
      let tiles_x := (width + 15) / 16 in let tiles_y := (height + 15) / 16 in
      hx <| hx_tiles_x := tiles_x |> <| hx_tiles_y := tiles_y |>
         <| hx_total_tiles := tiles_x * tiles_y |> <| hx_tiles := tiles_x * tiles_y |>
    else hx);;
  n ← gets (fun d => hx_tiles (dc_hextile d));
  hextile_loop (Z.to_nat n) x y width height.

(** ** Tight and TightPNG *)

(** [Inflator.inflate] and [reset] *)
Definition inflator_inflate (z : inflator ZS) (data : list Z) (expected : Z)
    : inflator ZS * list Z :=
  let chunkSize := if if_chunkSize z <? expected then expected else if_chunkSize z in
  let '(strm, out) := pako_inflate (if_strm z) data chunkSize in
  (Inflator strm chunkSize, out).
Definition inflator_reset (z : inflator ZS) : inflator ZS :=
  Inflator (inflateReset (if_strm z)) (if_chunkSize z).

Section Tight.
(** The decoder is the Tight one or the TightPNG one, which overrides two methods. *)
Context (self : dec -> tight ZS) `{!Setter self} (png : bool).

Definition set_tight (f : tight ZS -> tight ZS) : M dec unit :=
  modify (fun d => d <| self := f (self d) |>).
Definition get_tight {A} (f : tight ZS -> A) : M dec A := gets (fun d => f (self d)).

(** The start of [_readData]: the length, seven bits a byte. *)
Definition readLength : M dec unit :=
  byte ← on_sock rQshift8;
  set_tight (fun t => t <| t_len := byte &. 0x7f |>);;
  if byte &. 0x80 =? 0 then skip
  else
    byte ← on_sock rQshift8;
    set_tight (fun t => t <| t_len := t_len t |. ((byte &. 0x7f) <<. 7) |>);;
    if byte &. 0x80 =? 0 then skip
    else
      byte ← on_sock rQshift8;
      set_tight (fun t => t <| t_len := t_len t |. (byte <<. 14) |>).

Definition readData : M dec (option view) :=
  len ← get_tight t_len;
  wait ← (if len =? 0 then
            wait ← on_sock (rQwait 3 0);
            if (wait : bool) then mret true else readLength;; mret false
          else mret false);
  if (wait : bool) then mret None
  else
    len ← get_tight t_len;
    wait ← on_sock (rQwait len 0);
    if (wait : bool) then mret None
    else
      data ← on_sock (rQshiftBytes (Some len));
      set_tight (fun t => t <| t_len := 0 |>);;
      mret (Some data).

Definition view_now (v : view) : M dec (list Z) :=
  gets (fun d => view_bytes (sk_heap (dc_sock d)) v).

Definition tight_fillRect (x y width height : Z) : M dec bool :=
  wait ← on_sock (rQwait 3 0);
  if (wait : bool) then mret false
  else
    i ← rQi;
    r ← rQ_at i; g ← rQ_at (i + 1); b ← rQ_at (i + 2);
    on_display (fun bb h => fillRect bb h x y width height (CVal [b; g; r]));;
    on_sock (rQskipBytes 3);;
    mret true.

(** [_jpegRect], and the [_pngRect] of TightPNG. *)
Definition tight_imageRect (mime : string) (x y : Z) : M dec bool :=
  data ← readData;
  match data with
  | None => mret false
  | Some v =>
      arr ← view_now v;
      on_display (fun b h => imageRect b h x y mime arr);;
      mret true
  end.

Definition tight_pngRect (x y : Z) : M dec bool :=
  if png then tight_imageRect "image/png" x y
  else throw (Error "PNG received in standard Tight rect").

(** Small data comes as it is, the rest compressed; [None]: not there yet. *)
Definition tight_data (streamId : Z) (uncompressedSize : Z) : M dec (option src) :=
  if uncompressedSize <? 12 then
    wait ← on_sock (rQwait uncompressedSize 0);
    if (wait : bool) then mret None
    else v ← on_sock (rQshiftBytes (Some uncompressedSize)); mret (Some (FromView v))
  else
    data ← readData;
    match data with
    | None => mret None
    | Some v =>
        arr ← view_now v;
        z ← get_tight (fun t => default new_inflator (t_zlibs t !! Z.to_nat streamId));
        let '(z, out) := inflator_inflate z arr uncompressedSize in
        set_tight (fun t => t <| t_zlibs := <[Z.to_nat streamId := z]> (t_zlibs t) |>);;
        if negb (zlen out =? uncompressedSize) then throw (Error "Incomplete zlib block")
        else mret (Some (Own out))
    end.

Definition copyFilter (streamId x y width height : Z) : M dec bool :=
  data ← tight_data streamId (width * height * 3);
  match data with
  | None => mret false
  | Some a => on_display (fun b h => blitRgbImage b h x y width height a 0);; mret true
  end.

(** An RGBA pixel of the palette: three bytes from [sp], and 255. *)
Definition palette_pixel (palette : list Z) (sp : Z) : list Z :=
  [ default 0 (aget palette sp); default 0 (aget palette (sp + 1));
    default 0 (aget palette (sp + 2)); 255 ].

(** The loops of [_monoRect]: the pixels of a row, from the bits of its bytes. *)
Definition mono_bit (data : Z -> num) (palette : list Z) (p b : Z) : list Z :=
  palette_pixel palette ((nint (data p) >>. b &. 1) * 3).
Definition mono_row (data : Z -> num) (palette : list Z) (width y : Z) : list Z :=
  let w := (width + 7) / 8 in let w1 := width / 8 in
  concat (map (fun x => concat (map (fun k => mono_bit data palette (y * w + Z.of_nat x) (7 - Z.of_nat k))
                                   (seq 0 8))) (seq 0 (Z.to_nat w1)))
  ++ concat (map (fun k => mono_bit data palette (y * w + w1) (7 - Z.of_nat k))
                 (seq 0 (Z.to_nat (width mod 8)))).
Definition mono_pixels (data : Z -> num) (palette : list Z) (width height : Z) : list Z :=
  concat (map (fun y => mono_row data palette width (Z.of_nat y)) (seq 0 (Z.to_nat height))).

(** The loop of [_paletteRect]. *)
Definition palette_pixels (data : Z -> num) (palette : list Z) (n : nat) : list Z :=
  concat (map (fun j => match data (Z.of_nat j) with
                        | Some v => palette_pixel palette (v * 3)
                        | None => [0; 0; 0; 255]
                        end) (seq 0 n)).

(** [_getScratchBuffer], filled from its start. *)
Definition to_scratch (size : Z) (pixels : list Z) : M dec (list Z) :=
  set_tight (fun t =>
    let s := t_scratchBuffer t in
    let s := if zlen s <? size then replicate (Z.to_nat size) 0 else s in
    t <| t_scratchBuffer := splice s 0 pixels |>);;
  get_tight t_scratchBuffer.

Definition paletteFilter (streamId x y width height : Z) : M dec bool :=
  n ← get_tight t_numColors;
  wait ← (if n =? 0 then
            wait ← on_sock (rQwait 1 0);
            if (wait : bool) then mret true
            else
              b ← on_sock rQpeek8;
              let numColors := default 0 b + 1 in
              let paletteSize := numColors * 3 in
              wait ← on_sock (rQwait (1 + paletteSize) 0);
              if (wait : bool) then mret true
              else
                set_tight (fun t => t <| t_numColors := numColors |>);;
                on_sock (rQskipBytes 1);;
                old ← get_tight t_palette;
                new ← on_sock (rQshiftTo old (Some paletteSize));
                set_tight (fun t => t <| t_palette := new |>);;
                mret false
          else mret false);
  if (wait : bool) then mret false
  else
    numColors ← get_tight t_numColors;
    let bpp := if numColors <=? 2 then 1 else 8 in
    let rowSize := (width * bpp + 7) / 8 in
    data ← tight_data streamId (rowSize * height);
    match data with
    | None => mret false
    | Some a =>
        palette ← get_tight t_palette;
        h ← gets (fun d => sk_heap (dc_sock d));
        let px := if numColors =? 2 then mono_pixels (arr_get h a) palette width height
                  else palette_pixels (arr_get h a) palette (Z.to_nat (width * height)) in
        dest ← to_scratch (width * height * 4) px;
        on_display (fun b h => blitRgbxImage b h x y width height (Own dest) 0);;
        set_tight (fun t => t <| t_numColors := 0 |>);;
        mret true
    end.

Definition basicRect (ctl x y width height : Z) : M dec bool :=
  if png then throw (Error "BasicCompression received in TightPNG rect")
  else
    f ← get_tight t_filter;
    wait ← (match f with
            | Some _ => mret false
            | None =>
                if negb (ctl &. 0x4 =? 0) then
                  wait ← on_sock (rQwait 1 0);
                  if (wait : bool) then mret true
                  else
                    b ← on_sock rQshift8;
                    set_tight (fun t => t <| t_filter := Some b |>);; mret false
                else set_tight (fun t => t <| t_filter := Some 0 |>);; mret false
            end);
    if (wait : bool) then mret false
    else
      let streamId := ctl &. 0x3 in
      f ← get_tight t_filter;
      ret ← (match f with
             | Some 0 => copyFilter streamId x y width height
             | Some 1 => paletteFilter streamId x y width height
             | Some 2 => throw (Error "Gradient filter not implemented")
             | _ => throw (Error "Illegal tight filter received")
             end);
      when ret (set_tight (fun t => t <| t_filter := None |>));;
      mret ret.

Definition tight_decodeRect (x y width height : Z) : M dec bool :=
  c ← get_tight t_ctl;
  wait ← (match c with
          | Some _ => mret false
          | None =>
              wait ← on_sock (rQwait 1 0);
              if (wait : bool) then mret true
              else
                ctl ← on_sock rQshift8;
                set_tight (fun t =>
                  t <| t_zlibs := imap (fun i z => if ctl >>. Z.of_nat i &. 1 =? 0 then z
                                                  else inflator_reset z) (t_zlibs t) |>
                    <| t_ctl := Some (ctl >>. 4) |>);;
                mret false
          end);
  if (wait : bool) then mret false
  else
    c ← get_tight t_ctl;
    let ctl := default 0 c in
    ret ← (if ctl =? 0x08 then tight_fillRect x y width height
           else if ctl =? 0x09 then tight_imageRect "image/jpeg" x y
           else if ctl =? 0x0A then tight_pngRect x y
           else if ctl &. 0x80 =? 0 then basicRect ctl x y width height
           else throw (Error "Illegal tight compression received"));
    when ret (set_tight (fun t => t <| t_ctl := None |>));;
    mret ret.

End Tight.

(** ** The decoders of a connection, by encoding *)

Inductive decoder := Raw | CopyRect | RRE | Hextile_ | Tight_ | TightPNG.

Definition decodeRect (e : decoder) (x y width height depth : Z) : M dec bool :=
  match e with
  | Raw => raw_decodeRect x y width height depth
  | CopyRect => copyrect_decodeRect x y width height
  | RRE => rre_decodeRect x y width height
  | Hextile_ => hextile_decodeRect x y width height
  | Tight_ => tight_decodeRect dc_tight false x y width height
  | TightPNG => tight_decodeRect dc_tightpng true x y width height
  end.

Definition new_decoding (s : sock) (d : display) : dec :=
  Decoding s d 0 0 new_hextile new_tight new_tight.

End Decoders.
End Decoders.

(** ** The specification: what a rectangle looks like *)

Module Canvas.
Import Websock Display Decoders.

(** A canvas, by pixel: its red, green, blue and alpha. *)
Definition screen : Type := Z -> Z -> list Z.

Definition inside (x y w h px py : Z) : bool :=
  (x <=? px) && (px <? x + w) && (y <=? py) && (py <? y + h).

Definition style_pixel (s : option style) : list Z :=
  match s with
  | Some (Some r, Some g, Some b) => [r; g; b; 255]
  | _ => [0; 0; 0; 255]
  end.

(** What a call on the context does to the picture; decoded images and changes
    of size are left to [other]. *)
Definition paint (other : draw -> screen -> screen) (o : draw) (scr : screen) : screen :=
  match o with
  | DFill x y w h s => fun px py => if inside x y w h px py then style_pixel s else scr px py
  | DCopy ox oy x y w h => fun px py =>
      if inside x y w h px py then scr (px - x + ox) (py - y + oy) else scr px py
  | DPut data w h x y => fun px py =>
      if inside x y w h px py then slice data (4 * ((py - y) * w + (px - x))) 4 else scr px py
  | DFlip => scr
  | _ => other o scr
  end.

Definition paint_all (other : draw -> screen -> screen) (l : list draw) (scr : screen) : screen :=
  fold_left (fun scr o => paint other o scr) l scr.

(** A client that has received [chunks], one message each, and has called a
    decoder after each until it was done. *)
Fixpoint feed {ZS A} (dr : M (Decoders.decoding ZS) A) (finished : A -> bool) (last : A)
    (chunks : list (list Z)) : M (Decoders.decoding ZS) A :=
  match chunks with
  | [] => mret last
  | c :: chunks =>
      zoom Decoders.dc_sock (decode_message c);;
      a ← dr;
      zoom Decoders.dc_sock compact;;
      if finished a then mret a else feed dr finished a chunks
  end.

(** A sub-rectangle of an RRE rectangle: its colour and place. *)
Record subrect := Subrect { sr_color : list Z; sr_x : Z; sr_y : Z; sr_w : Z; sr_h : Z }.

Definition be16 (n : Z) : list Z := [n / 256; n mod 256].
Definition u16 (n : Z) : Prop := 0 <= n < 65536.

Definition subrect_ok (s : subrect) : Prop :=
  length (sr_color s) = 4%nat /\ bytes (sr_color s)
  /\ u16 (sr_x s) /\ u16 (sr_y s) /\ u16 (sr_w s) /\ u16 (sr_h s).

Definition encode_subrect (s : subrect) : list Z :=
  sr_color s ++ be16 (sr_x s) ++ be16 (sr_y s) ++ be16 (sr_w s) ++ be16 (sr_h s).

(** The RRE encoding of a rectangle. *)
Definition encode_rre (bg : list Z) (subs : list subrect) : list Z :=
  be_bytes (Z.of_nat (length subs)) ++ bg ++ concat (map encode_subrect subs).

(** The colour of a fill, from its blue, green and red bytes. *)
Definition fill_style (c : list Z) : option style := Some (c !! 2%nat, c !! 1%nat, c !! 0%nat).

Definition draw_subrect (x y : Z) (s : subrect) : draw :=
  DFill (x + sr_x s) (y + sr_y s) (sr_w s) (sr_h s) (fill_style (sr_color s)).

(** The length of Tight's compressed data, in one to three bytes. *)
Definition compact_length (n : Z) : list Z :=
  if n <? 128 then [n]
  else if n <? 16384 then [n mod 128 + 128; n / 128]
  else [n mod 128 + 128; n / 128 mod 128 + 128; n / 16384].

End Canvas.

(** ** Lemmas: decoders between messages *)

Section Feeding.
Import Websock ByteQueue Display Decoders Canvas.
Context {ZS : Type}.
Implicit Type st : decoding ZS.

Abbreviation queue st := (unread (dc_sock st)).

(** Another socket under the same decoders. *)
Definition with_sock st (s : sock) : decoding ZS := st <| dc_sock := s |>.

Lemma on_sock_run {A} (m : M sock A) st :
  on_sock ZS m st = let '(o, s) := m (dc_sock st) in (o, with_sock st s).
Proof. done. Qed.

(** If what holds after some bytes carries over each message, then it holds
    after all of them, in whatever messages they come ([ok] says which bytes may): [live] until the decoder
    is finished, which it is exactly when the bytes are complete. *)
Lemma feed_chunks {A} (dr : M (decoding ZS) A) finished (live done_ : list Z -> decoding ZS -> Prop)
    (answer : list Z -> A) (total : Z) (ok : list Z -> Prop) :
  (forall l k, ok (l ++ k) -> ok l) ->
  (forall l, ok l -> zlen l <= total) ->
  (forall got st, live got st -> wf (dc_sock st) /\ zlen got < total) ->
  (forall got st c, live got st -> ok (got ++ c) ->
     forall s, wf s -> unread s = queue st ++ c ->
     exists st', dr (with_sock st s) = (Ret (answer (got ++ c)), st') /\ wf (dc_sock st')
       /\ finished (answer (got ++ c)) = (total <=? zlen (got ++ c))
       /\ (forall s', wf s' -> unread s' = queue st' ->
           if total <=? zlen (got ++ c) then done_ (got ++ c) (with_sock st' s')
           else live (got ++ c) (with_sock st' s'))) ->
  (forall got st, live got st -> zlen (queue st) <= zlen got) ->
  total <= MAX_RQ_GROW_SIZE ->
  forall chunks got st a, live got st -> a = answer got ->
    bytes (concat chunks) -> ok (got ++ concat chunks) ->
    exists st', feed dr finished a chunks st = (Ret (answer (got ++ concat chunks)), st')
      /\ (if total <=? zlen (got ++ concat chunks) then done_ (got ++ concat chunks) st'
          else live (got ++ concat chunks) st').
Proof.
  intros Hpre Htot Hlive Hstep Hq Hmax. induction chunks as [|c chunks IH]; intros got st a Hl -> Hb Hok; pose proof (Htot _ Hok) as Hz; cbn in *.
  - rewrite app_nil_r in *. exists st. split; [done|]. destruct (Hlive _ _ Hl) as [_ ?].
    by rewrite (proj2 (Z.leb_gt _ _)) by lia.
  - apply Forall_app in Hb as [Hbc Hb]. rewrite app_assoc in *.
    destruct (Hlive _ _ Hl) as [Hwf Hlt]. pose proof (Hq _ _ Hl).
    pose proof (Htot _ (Hpre _ _ Hok)).
    destruct (decode_message_spec (dc_sock st) c) as (s & E & Hws & Hus); [done|done| |].
    { rewrite zlen_app in *. lia. }
    destruct (Hstep got st c Hl (Hpre _ _ Hok) s Hws Hus) as (st1 & E1 & Hw1 & Hf & Hn).
    destruct (compact_spec (dc_sock st1) Hw1) as (s2 & E2 & Hw2 & Hu2).
    specialize (Hn s2 Hw2 Hu2).
    assert (Es : zoom dc_sock (decode_message c) st = (Ret tt, with_sock st s))
      by (unfold zoom; by rewrite E).
    assert (Es2 : zoom dc_sock compact st1 = (Ret tt, with_sock st1 s2))
      by (unfold zoom; by rewrite E2).
    unfold mbind, M_bind. rewrite Es, E1, Es2, Hf.
    destruct (Z.leb_spec total (zlen (got ++ c))).
    + assert (concat chunks = []) as ->.
      { rewrite zlen_app in Hz. destruct (concat chunks); [done|].
        rewrite zlen_cons in Hz. pose proof (zlen_nonneg l). lia. }
      rewrite app_nil_r. eexists. split; [done|]. by rewrite (proj2 (Z.leb_le _ _)) by lia.
    + apply IH; done.
Qed.

End Feeding.

(** ** Lemmas: pixels *)

Section Pixels.
Import Websock ByteQueue Display Decoders Canvas.

(** Cells of equal width, one after the other. *)
Lemma slice_cells {A B} (f : A -> list B) (m : nat) l (k : nat) a :
  (forall a, a ∈ l -> length (f a) = m) -> l !! k = Some a ->
  slice (concat (map f l)) (Z.of_nat m * Z.of_nat k) (Z.of_nat m) = f a.
Proof.
  unfold slice. rewrite <- Nat2Z.inj_mul, !Nat2Z.id. revert k. induction l as [|b l IH]; intros k Hm Hk; [done|].
  assert (Hb : length (f b) = m) by (apply Hm; set_solver).
  destruct k as [|k]; cbn in *.
  - simplify_eq. rewrite Nat.mul_0_r, drop_0, take_app_le, take_ge by lia. done.
  - rewrite drop_app_ge by lia. replace (m * S k - length (f b))%nat with (m * k)%nat by lia.
    apply IH; [set_solver|done].
Qed.

Lemma zlen_cells {A B} (f : A -> list B) (m : nat) l :
  (forall a, a ∈ l -> length (f a) = m) ->
  zlen (concat (map f l)) = Z.of_nat m * zlen l.
Proof.
  intros Hm. induction l as [|a l IH]; cbn; [unfold zlen; cbn; lia|].
  rewrite zlen_app, zlen_cons, IH by set_solver. unfold zlen at 1. rewrite Hm by set_solver. lia.
Qed.

Definition byte_at (l : list Z) (i : Z) : Z := default 0 (aget l i).

(** The pixel at column [i] and row [j] of raw data, [w] pixels a row. *)
Definition raw_pixel (data : list Z) (w i j : Z) : list Z :=
  let p := 4 * (j * w + i) in
  [byte_at data (p + 2); byte_at data (p + 1); byte_at data p; 255].

Lemma cell_byte l i : bytes l -> cell (aget l i) = byte_at l i.
Proof.
  intros Hb. unfold cell, byte_at, aget. destruct (i <? 0); [done|].
  destruct (l !! Z.to_nat i) as [b|] eqn:E; [|done]. cbn.
  apply toUint8Clamp_byte. by eapply Forall_lookup_1.
Qed.

Lemma aget_drop {A} (l : list A) n i : 0 <= n -> 0 <= i -> aget (drop (Z.to_nat n) l) i = aget l (n + i).
Proof.
  intros. unfold aget. rewrite !(proj2 (Z.ltb_ge _ _)) by lia. rewrite lookup_drop. f_equal. lia.
Qed.

(** The pixels drawn from the receive queue are those of the unread bytes. *)
Lemma bgrx_unread s n w i j :
  wf s -> 0 <= i < w -> 0 <= j < n -> w * n * 4 <= rQlen s ->
  slice (bgrx_pixels (sk_heap s) (FromView (View (sk_rQ s) 0 (zlen (rQ_buf s)))) (sk_rQi s)
           (Z.to_nat (w * n))) (4 * (j * w + i)) 4
  = raw_pixel (unread s) w i j.
Proof.
  intros Hwf Hi Hj Hn. pose proof (unread_bytes s Hwf) as Hub. pose proof Hwf as [_ Hs _ Ho Hb].
  unfold bgrx_pixels. set (f := fun p : nat => _).
  assert (0 <= j * w + i < w * n) by nia.
  replace (j * w + i) with (Z.of_nat (Z.to_nat (j * w + i))) by lia.
  change 4 with (Z.of_nat 4) at 1 2.
  rewrite (slice_cells f 4 _ _ (Z.to_nat (j * w + i))); [|done|].
  2:{ rewrite lookup_seq. lia. }
  unfold f, arr_get, view_bytes. cbn [v_buf v_off v_len]. fold (rQ_buf s). rewrite slice_all.
  assert (Hc : forall p, 0 <= p < rQlen s -> cell (aget (rQ_buf s) (sk_rQi s + p)) = byte_at (unread s) p).
  { intros p Hp. rewrite cell_byte by done. unfold byte_at, unread. rewrite aget_slice by lia. done. }
  unfold raw_pixel. rewrite Z2Nat.id by lia. rewrite <- !Z.add_assoc.
  rewrite !Hc by lia. done.
Qed.

End Pixels.

(** ** Lemmas: the raw decoder *)

Section RawLemmas.
Import Websock ByteQueue Display Decoders Canvas.
Context (supports : bool) {ZS : Type} (other : draw -> screen -> screen).
Abbreviation raw_decodeRect := (raw_decodeRect supports ZS).

(** A picture drawn at once. *)
Lemma blitImage_idle h x y w n a index d :
  d_renderQ d = [] -> 0 < w -> 0 < n ->
  exists d', blitImage supports h x y w n a index d = (Ret tt, d') /\ d_renderQ d' = []
    /\ d_draw d' = d_draw d ++ [DPut (bgrx_pixels h a index (Z.to_nat (w * n))) w n x y].
Proof.
  intros Hq Hw Hn. unfold blitImage, blit, queued, blit_now, bgrxImageData, putImageData, log_draw.
  run_monad. rewrite Hq. cbn. rewrite createImageData_pos by done.
  eexists. split; [reflexivity|]. by destruct d.
Qed.

Lemma raw_call x y w h s d L sub hx t tp lines :
  wf s -> 0 < w -> d_renderQ d = [] -> lines = (if L =? 0 then h else L) -> 0 < lines ->
  (rQlen s < w * 4 ->
   raw_decodeRect x y w h 32 (Decoding s d L sub hx t tp)
     = (Ret false, Decoding s d lines sub hx t tp)) /\
  (w * 4 <= rQlen s -> forall n, n = Z.min lines (rQlen s / (w * 4)) ->
   exists d', raw_decodeRect x y w h 32 (Decoding s d L sub hx t tp)
     = (Ret (negb (0 <? lines - n)), Decoding (advance (n * (w * 4)) s) d' (lines - n) sub hx t tp)
   /\ d_renderQ d' = []
   /\ d_draw d' = d_draw d ++
        [DPut (bgrx_pixels (sk_heap s) (FromView (View (sk_rQ s) 0 (zlen (rQ_buf s)))) (sk_rQi s)
                 (Z.to_nat (w * n))) w n x (y + (h - lines))]).
Proof.
  intros Hwf Hw Hq Hl Hpos. unfold raw_decodeRect, Decoders.raw_decodeRect, on_sock, on_display, rQwait, rQ_view, rQi, rQskipBytes.
  change (32 =? 8) with false. run_monad. split.
  - intros H. cbn. replace (if L =? 0 then _ else _) with (Decoding s d lines sub hx t tp)
      by (rewrite Hl; by destruct (L =? 0)).
    cbn. by rewrite (proj2 (Z.ltb_lt _ _)) by lia.
  - intros H n Hn. assert (Hwf' := Hwf). destruct Hwf' as [_ _ _ Ho _]. unfold rQlen in H.
    destruct (blitImage_idle (sk_heap s) x (y + (h - lines)) w n
      (FromView (View (sk_rQ s) 0 (zlen (rQ_buf s)))) (sk_rQi s) d) as (d' & E & Hd1 & Hd2); [done..| |].
    { rewrite Hn. unfold rQlen. enough (1 <= (sk_rQlen s - sk_rQi s) / (w * 4)) by lia.
      apply Z.div_le_lower_bound; lia. }
    exists d'. split; [|done]. cbn. replace (if L =? 0 then _ else _) with (Decoding s d lines sub hx t tp)
      by (rewrite Hl; by destruct (L =? 0)).
    cbn. unfold rQlen at 1. rewrite (proj2 (Z.ltb_ge _ _)) by lia. cbn.
    rewrite (proj2 (Z.eqb_neq (w * 4) 0)) by lia. cbn. rewrite <- Hn, E. by destruct s.
Qed.

(** A rectangle of no width with nothing buffered: 0 divided by 0.  An idle
    display refuses the picture; a busy one takes it, and the read index is lost. *)
Lemma raw_no_width x y h depth st :
  rQlen (dc_sock st) = 0 ->
  (raw_decodeRect x y 0 h depth st).1
    = Throw (match d_renderQ (dc_display st) with [] => InvalidState | _ => NaNIndex end).
Proof.
  intros H. unfold raw_decodeRect, Decoders.raw_decodeRect, on_sock, rQwait.
  destruct st as [s d L sub hx t tp]. cbn [dc_sock dc_display] in *. run_monad.
  cbn -[rQlen]. destruct (depth =? 8), (L =? 0); rewrite !Z.mul_0_l; cbn -[rQlen]; rewrite H;
    cbn -[rQlen]; rewrite H; reflexivity.
Qed.

(** The picture after [rows] rows of the rectangle. *)
Definition raw_screen (x y w rows : Z) (data : list Z) (scr : screen) : screen := fun px py =>
  if inside x y w rows px py then raw_pixel data w (px - x) (py - y) else scr px py.

Lemma raw_pixel_prefix data more w rows i j :
  0 <= i < w -> 0 <= j < rows -> w * rows * 4 <= zlen data ->
  raw_pixel (data ++ more) w i j = raw_pixel data w i j.
Proof.
  intros. unfold raw_pixel, byte_at, aget, zlen in *.
  assert (0 <= 4 * (j * w + i) /\ 4 * (j * w + i) + 4 <= w * rows * 4) by nia.
  rewrite !(proj2 (Z.ltb_ge _ _)) by lia. by rewrite !lookup_app_l by lia.
Qed.

(** Rows [rows..rows+n) drawn from what is unread below the rows drawn before. *)
Lemma raw_screen_more x y w rows n got s l scr before :
  wf s -> 0 < w -> 0 <= rows -> 0 < n -> unread s = drop (Z.to_nat (rows * (w * 4))) got ->
  w * (rows + n) * 4 <= zlen got ->
  (forall px py, paint_all other l scr px py = raw_screen x y w rows got before px py) ->
  forall px py,
  paint_all other (l ++ [DPut (bgrx_pixels (sk_heap s) (FromView (View (sk_rQ s) 0 (zlen (rQ_buf s))))
      (sk_rQi s) (Z.to_nat (w * n))) w n x (y + rows)]) scr px py
  = raw_screen x y w (rows + n) got before px py.
Proof.
  intros Hwf Hw Hr Hn Hu Hz IH px py. unfold paint_all in *. rewrite fold_left_app.
  cbn [fold_left paint]. rewrite IH. unfold raw_screen, inside.
  destruct (Z.leb_spec x px), (Z.ltb_spec px (x + w)); cbn; try done.
  destruct (Z.leb_spec (y + rows) py), (Z.ltb_spec py (y + rows + n)); cbn.
  - rewrite (proj2 (Z.leb_le y py)), (proj2 (Z.ltb_lt py _)) by lia. cbn.
    rewrite bgrx_unread; [|done|lia|lia|].
    + rewrite Hu. unfold raw_pixel, byte_at. rewrite !aget_drop by nia.
      replace ((py - (y + rows)) * w) with ((py - y) * w - rows * w) by lia.
      repeat (f_equal; try lia).
    + rewrite <- zlen_unread, Hu by done. unfold zlen in *. rewrite length_drop. nia.
  - rewrite (proj2 (Z.ltb_ge py (y + rows))), (proj2 (Z.ltb_ge py (y + (rows + n)))) by lia. by rewrite !andb_false_r.
  - destruct (Z.leb_spec y py); cbn; [|done].
    rewrite (proj2 (Z.ltb_lt py (y + rows))), (proj2 (Z.ltb_lt py (y + (rows + n)))) by lia. done.
  - lia.
Qed.

End RawLemmas.

Section RawFeed.
Import Websock ByteQueue Display Decoders Canvas.
Context (supports : bool) {ZS : Type} (other : draw -> screen -> screen).
Context (x y w h : Z) (scr before : screen) (Hw : 0 < w) (Hh : 0 < h).
Implicit Type st : decoding ZS.

Abbreviation rows got := (zlen (A:=Z) got / (w * 4)).

(** The display shows the rows of [got], and nothing is queued. *)
Definition raw_shows (got : list Z) st : Prop :=
  wf (dc_sock st) /\ unread (dc_sock st) = drop (Z.to_nat (rows got * (w * 4))) got
  /\ d_renderQ (dc_display st) = []
  /\ (forall px py, paint_all other (d_draw (dc_display st)) scr px py
                    = raw_screen x y w (rows got) got before px py).

Definition raw_live (got : list Z) st : Prop :=
  raw_shows got st /\ zlen got < w * h * 4
  /\ (dc_lines st = h - rows got \/ dc_lines st = 0 /\ rows got = 0).

Definition raw_done (got : list Z) st : Prop := raw_shows got st /\ dc_lines st = 0.

Lemma rows_bound got : 0 <= rows got * (w * 4) <= zlen got /\ zlen got < (rows got + 1) * (w * 4).
Proof.
  pose proof (zlen_nonneg got). pose proof (Z.div_pos (zlen got) (w * 4)).
  pose proof (Z.mul_div_le (zlen got) (w * 4)). pose proof (Z.mul_succ_div_gt (zlen got) (w * 4)). nia.
Qed.

Lemma rows_le got : zlen got <= w * h * 4 -> rows got <= h.
Proof. intros. apply Z.div_le_upper_bound; lia. Qed.

Lemma raw_step got st c :
  raw_live got st -> zlen (got ++ c) <= w * h * 4 ->
  forall s, wf s -> unread s = unread (dc_sock st) ++ c ->
  exists st', raw_decodeRect supports ZS x y w h 32 (with_sock st s)
      = (Ret (w * h * 4 <=? zlen (got ++ c)), st')
    /\ raw_shows (got ++ c) st'
    /\ (if w * h * 4 <=? zlen (got ++ c) then dc_lines st' = 0
        else dc_lines st' = h - rows (got ++ c)).
Proof.
  intros [(Hwf & Hu & Hq & Hp) [Hlt HL]] Hz s Hws Hus. set (all := got ++ c) in *.
  pose proof (rows_bound got) as Hb0. pose proof (rows_bound all) as Hb1.
  pose proof (rows_le all Hz). assert (rows got < h) by nia.
  assert (rows got <= rows all).
  { apply Z.div_le_mono; [lia|]. subst all. rewrite zlen_app. pose proof (zlen_nonneg c). lia. }
  assert (Hua : unread s = drop (Z.to_nat (rows got * (w * 4))) all).
  { rewrite Hus, Hu. unfold all. rewrite drop_app_le; [done|]. unfold zlen in *. lia. }
  assert (Hrl : rQlen s = zlen all - rows got * (w * 4)).
  { rewrite <- zlen_unread, Hua by done. unfold zlen in *. rewrite length_drop.
    assert (length got <= length all)%nat by (unfold all; rewrite length_app; lia). lia. }
  destruct st as [s0 d L sub hx t tp]. cbn in Hwf, Hu, Hq, Hp, HL, Hus. unfold with_sock. cbn.
  destruct (raw_call supports x y w h s d L sub hx t tp (h - rows got)) as [Hno Hyes]; [done..| |lia|].
  { destruct (Z.eqb_spec L 0); lia. }
  assert (Hp' : forall px py, paint_all other (d_draw d) scr px py
    = raw_screen x y w (rows got) all before px py).
  { intros. rewrite Hp. unfold raw_screen, inside.
    destruct (Z.leb_spec x px), (Z.ltb_spec px (x + w)), (Z.leb_spec y py),
      (Z.ltb_spec py (y + rows got)); cbn; try done.
    unfold all. by rewrite (raw_pixel_prefix got c w (rows got)) by nia. }
  destruct (Z.lt_ge_cases (rQlen s) (w * 4)) as [Hfew|Hmany].
  - assert (Er : rows all = rows got) by nia.
    rewrite Hno by done. eexists. split; [|split].
    + do 2 f_equal. symmetry. apply Z.leb_gt. nia.
    + unfold raw_shows. cbn. rewrite Er. done.
    + rewrite (proj2 (Z.leb_gt _ _)) by nia. cbn. lia.
  - assert (Hn : rQlen s / (w * 4) = rows all - rows got).
    { rewrite Hrl. rewrite <- Z.add_opp_r, <- Z.mul_opp_l, Z.div_add by lia. lia. }
    assert (rows got < rows all) by (pose proof (Z.div_le_lower_bound (rQlen s) (w * 4) 1); lia).
    destruct (Hyes Hmany (rows all - rows got)) as (d' & E & Hd1 & Hd2); [lia|].
    rewrite E. eexists. split; [|split].
    + do 2 f_equal. destruct (Z.leb_spec (w * h * 4) (zlen all)), (Z.ltb_spec 0 (h - rows got - (rows all - rows got))); try done; nia.
    + unfold raw_shows. cbn. split; [|split; [|split; [done|]]].
      * apply wf_advance; [done|]. nia.
      * rewrite unread_advance by (done || nia). rewrite Hua, drop_drop. f_equal. nia.
      * intros px py. rewrite Hd2. replace (h - (h - rows got)) with (rows got) by lia.
        rewrite (raw_screen_more other x y w (rows got) (rows all - rows got) all s _ _ before) by (done || nia).
        f_equal. lia.
    + cbn. destruct (Z.leb_spec (w * h * 4) (zlen all)); [|lia].
      assert (h <= rows all) by (apply Z.div_le_lower_bound; lia). lia.
Qed.

Lemma raw_feed chunks got st :
  raw_live got st -> w * h * 4 <= MAX_RQ_GROW_SIZE ->
  bytes (concat chunks) -> zlen (got ++ concat chunks) <= w * h * 4 ->
  exists st', feed (raw_decodeRect supports ZS x y w h 32) id (w * h * 4 <=? zlen got) chunks st
      = (Ret (w * h * 4 <=? zlen (got ++ concat chunks)), st')
    /\ (if w * h * 4 <=? zlen (got ++ concat chunks) then raw_done (got ++ concat chunks) st'
        else raw_live (got ++ concat chunks) st').
Proof.
  intros Hl Hmax Hb Hz.
  refine (feed_chunks (raw_decodeRect supports ZS x y w h 32) id raw_live raw_done
    (fun g => w * h * 4 <=? zlen g) (w * h * 4)
    (fun g => zlen g <= w * h * 4) _ _ _ _ _ Hmax chunks got st _ Hl eq_refl Hb Hz).
  - intros l k. rewrite zlen_app. pose proof (zlen_nonneg k). lia.
  - done.
  - intros g s0 [(? & _) [? _]]. done.
  - intros g s0 c H0 Hz0 s Hws Hus.
    destruct (raw_step g s0 c H0 Hz0 s Hws Hus) as (st' & E & Hsh & Hlines).
    exists st'. split; [done|]. split; [apply Hsh|]. split; [done|]. intros s' Hws' Hus'.
    assert (Hsh' : raw_shows (g ++ c) (with_sock st' s')).
    { destruct Hsh as (? & Hu1 & ? & ?). destruct st'. unfold raw_shows. cbn in *. by rewrite Hus'. }
    destruct (Z.leb_spec (w * h * 4) (zlen (g ++ c))); [by destruct st'|].
    split; [done|]. split; [lia|]. left. by destruct st'.
  - intros g s0 [(? & -> & _) _]. unfold zlen. rewrite length_drop. lia.
Qed.

End RawFeed.

(** ** Lemmas: the RRE decoder *)

Section RreLemmas.
Import Websock ByteQueue Display Decoders Canvas.
Context (supports : bool) {ZS : Type}.
Abbreviation rre_loop := (rre_loop supports ZS).
Abbreviation rre_decodeRect := (rre_decodeRect supports ZS).

(** A fill carried out at once, in any colour that has its three components. *)
Lemma fillRect_idle h x y w hh c d b g r :
  d_renderQ d = [] -> coherent d -> check_color c = Ret tt ->
  color_at h c 0 = Some b -> color_at h c 1 = Some g -> color_at h c 2 = Some r ->
  exists d', fillRect supports h x y w hh c d = (Ret tt, d')
    /\ step_ok d d' [DFill x y w hh (Some (Some r, Some g, Some b))].
Proof.
  intros Hq Hc Hk E0 E1 E2. unfold fillRect, queued. run_monad. rewrite Hq. cbn.
  destruct (fill_now_spec x y w hh b g r d Hc) as (d' & E & Hs). exists d'. split; [|done].
  rewrite <- E. unfold fill_now, setFillColor. run_monad. rewrite Hk, E0, E1, E2. done.
Qed.

(** The next bytes of the queue, when they are known. *)
Lemma view_unread s n l q :
  wf s -> unread s = l ++ q -> n = zlen l ->
  view_bytes (sk_heap s) (View (sk_rQ s) (sk_rQi s) n) = l
  /\ rQshiftBytes (Some n) s = (Ret (View (sk_rQ s) (sk_rQi s) n), advance n s)
  /\ wf (advance n s) /\ unread (advance n s) = q.
Proof.
  intros Hwf Hu ->. pose proof (zlen_unread s Hwf) as Hl. rewrite Hu, zlen_app in Hl.
  pose proof (zlen_nonneg l). pose proof (zlen_nonneg q).
  split; [|split; [apply rQshiftBytes_in|split; [apply wf_advance|]]]; try (done || lia).
  - unfold view_bytes. cbn [v_buf v_off v_len]. fold (rQ_buf s).
    assert (Hs : slice (unread s) 0 (zlen l) = l).
    { rewrite Hu. unfold slice, zlen. rewrite drop_0, Nat2Z.id. by rewrite take_app_length. }
    rewrite <- Hs at 2. unfold unread. pose proof Hwf as [_ _ _ Ho _].
    rewrite slice_slice by lia. f_equal. lia.
  - rewrite unread_advance by (done || lia). rewrite Hu. unfold zlen. rewrite Nat2Z.id. apply drop_app_length.
Qed.

Lemma shift16 s n q :
  wf s -> u16 n -> unread s = be16 n ++ q ->
  rQshift16 s = (Ret n, advance 2 s) /\ wf (advance 2 s) /\ unread (advance 2 s) = q.
Proof.
  intros Hwf Hn Hu. destruct (view_unread s 2 (be16 n) q) as (_ & _ & ? & ?); [done..|].
  split; [|done]. unfold rQshift16. rewrite (rQshift_two s (n / 256) (n mod 256) q) by done.
  do 2 f_equal. zlia.
Qed.

Lemma rQwait_no n s : n <= rQlen s -> rQwait n 0 s = (Ret false, s).
Proof. intros. unfold rQwait. run_monad. cbn. by rewrite (proj2 (Z.ltb_ge _ _)) by lia. Qed.

Lemma rQwait_yes n s : rQlen s < n -> rQwait n 0 s = (Ret true, s).
Proof. intros. unfold rQwait. run_monad. cbn. by rewrite (proj2 (Z.ltb_lt _ _)) by lia. Qed.

Lemma zlen_subrect sub : subrect_ok sub -> zlen (encode_subrect sub) = 12.
Proof. intros (H & _). unfold encode_subrect, zlen. rewrite !length_app, H. done. Qed.

Lemma zlen_subrects subs : Forall subrect_ok subs -> zlen (concat (map encode_subrect subs)) = 12 * zlen subs.
Proof.
  intros H. apply (zlen_cells encode_subrect 12). intros a Ha. rewrite Forall_forall in H.
  pose proof (zlen_subrect a (H a Ha)). unfold zlen in *. lia.
Qed.

Lemma draw_fill_style (c : list Z) : length c = 4%nat -> exists b g r a, c = [b; g; r; a].
Proof. destruct c as [|? [|? [|? [|? []]]]]; try done. eauto. Qed.

Lemma with_sock_eq (s0 s : sock) d L n hx (t tp : tight ZS) :
  with_sock (Decoding s0 d L n hx t tp) s = Decoding s d L n hx t tp.
Proof. done. Qed.

(** One round of the loop. *)
Lemma rre_one fuel x y s d L n hx t tp sub q :
  wf s -> d_renderQ d = [] -> coherent d -> 0 < n -> subrect_ok sub ->
  unread s = encode_subrect sub ++ q ->
  exists d', rre_loop (S fuel) x y (Decoding s d L n hx t tp)
      = rre_loop fuel x y (Decoding (advance 12 s) d' L (n - 1) hx t tp)
    /\ wf (advance 12 s) /\ unread (advance 12 s) = q
    /\ step_ok d d' [draw_subrect x y sub].
Proof.
  intros Hwf Hq Hc Hn Hok Hu. pose proof (zlen_subrect sub Hok) as Hz. pose proof Hok as (H4 & Hb & H1 & H2 & H3 & H5).
  destruct (view_unread s 12 (encode_subrect sub) q) as (_ & _ & Hw12 & Hu12); [done..|].
  assert (Hl : 12 <= rQlen s).
  { rewrite <- zlen_unread, Hu, zlen_app, Hz by done. pose proof (zlen_nonneg q). lia. }
  unfold encode_subrect in Hu. rewrite <- !app_assoc in Hu.
  destruct (view_unread s 4 _ _ Hwf Hu) as (Hv & Eb & Hw1 & Hu1); [by unfold zlen; rewrite H4|].
  destruct (shift16 _ _ _ Hw1 H1 Hu1) as (Ex & Hw2 & Hu2).
  destruct (shift16 _ _ _ Hw2 H2 Hu2) as (Ey & Hw3 & Hu3).
  destruct (shift16 _ _ _ Hw3 H3 Hu3) as (Ew & Hw4 & Hu4).
  destruct (shift16 _ _ _ Hw4 H5 Hu4) as (Eh & Hw5 & Hu5).
  rewrite !advance_advance in *.
  assert (N : forall k j (r : outcome Z) s0, rQshift16 s0 = (r, advance k s) -> k = j ->
    rQshift16 s0 = (r, advance j s)) by (by intros ???? ? <-).
  apply (N _ 6) in Ex; [|done]. apply (N _ 8) in Ey; [|done]. apply (N _ 10) in Ew; [|done].
  apply (N _ 12) in Eh; [|done].
  change (4 + 2) with 6 in *. change (4 + (2 + 2)) with 8 in *. change (4 + (2 + (2 + 2))) with 10 in *.
  assert (Hh : sk_heap (advance 12 s) = sk_heap s) by by destruct s.
  destruct (draw_fill_style _ H4) as (b & g & r & a & Hcol). rewrite Hcol in Hv.
  destruct (fillRect_idle (sk_heap s) (x + sr_x sub) (y + sr_y sub) (sr_w sub) (sr_h sub)
    (CView (View (sk_rQ s) (sk_rQi s) 4)) d b g r) as (d' & Ef & Hs);
    [done..|cbn [color_at]; by rewrite Hv|cbn [color_at]; by rewrite Hv|cbn [color_at]; by rewrite Hv|].
  exists d'. split; [|split; [done|split; [done|]]].
  - cbn [Decoders.rre_loop]. unfold on_display, mbind, M_bind, gets at 1. cbn [dc_subrects].
    rewrite (proj2 (Z.ltb_lt 0 n)) by done.
    change (on_sock ZS (rQwait (4 + 8) 0)) with (on_sock ZS (rQwait 12 0)).
    rewrite !on_sock_run. cbn [dc_sock with_sock setf]. rewrite rQwait_no by done.
    rewrite !on_sock_run. cbn [dc_sock with_sock setf]. rewrite Eb.
    rewrite !on_sock_run. cbn [dc_sock with_sock setf]. rewrite Ex.
    rewrite !on_sock_run. cbn [dc_sock with_sock setf]. rewrite Ey.
    rewrite !on_sock_run. cbn [dc_sock with_sock setf]. rewrite Ew.
    rewrite !on_sock_run. cbn [dc_sock with_sock setf]. rewrite Eh.
    unfold gets, zoom. cbn [dc_sock dc_display]. rewrite !with_sock_eq. cbn [dc_sock dc_display]. rewrite Hh, Ef. done.
  - unfold draw_subrect, fill_style. rewrite Hcol. done.
Qed.

(** The sub-rectangles that have arrived whole are drawn, and their number remembered. *)
Lemma rre_loop_spec x y L hx t tp subs rest s d :
  wf s -> d_renderQ d = [] -> coherent d -> Forall subrect_ok subs ->
  unread s ++ rest = concat (map encode_subrect subs) ->
  forall k, k = zlen (unread s) / 12 ->
  exists s' d', rre_loop (length subs) x y (Decoding s d L (zlen subs) hx t tp)
      = (Ret (zlen subs <=? k), Decoding s' d' L (zlen subs - k) hx t tp)
    /\ wf s' /\ unread s' = drop (Z.to_nat (12 * k)) (unread s)
    /\ step_ok d d' (map (draw_subrect x y) (take (Z.to_nat k) subs)).
Proof.
  revert s d. induction subs as [|sub subs IH]; intros s d Hwf Hq Hc Hok Hu k Hk.
  - apply app_nil in Hu as [Hu _]. rewrite Hu in Hk. change (zlen [] / 12) with 0 in Hk. subst k.
    exists s, d. split; [done|]. split; [done|]. split; [by rewrite Hu|]. by apply step_ok_refl.
  - apply Forall_cons_1 in Hok as [Hs Hok].
    pose proof (zlen_subrect sub Hs) as Hz. cbn [map concat] in Hu. cbn [length].
    rewrite (zlen_cons sub). pose proof (zlen_nonneg subs). pose proof (zlen_nonneg (unread s)).
    destruct (Z.lt_ge_cases (zlen (unread s)) 12) as [Hlt|Hge].
    + assert (k = 0) as -> by zlia. exists s, d. cbn [take Z.to_nat map].
      split; [|split; [done|split; [done|by apply step_ok_refl]]].
      cbn [Decoders.rre_loop]. unfold mbind, M_bind, gets. cbn [dc_subrects].
      rewrite (proj2 (Z.ltb_lt 0 _)) by lia. rewrite on_sock_run. cbn [dc_sock].
      rewrite rQwait_yes by (rewrite <- zlen_unread by done; lia).
      rewrite (proj2 (Z.leb_gt _ 0)) by lia. rewrite Z.sub_0_r. done.
    + assert (exists q, unread s = encode_subrect sub ++ q) as (q & Hq1).
      { exists (drop 12 (unread s)). apply (f_equal (take 12)) in Hu.
        rewrite take_app_le in Hu by (unfold zlen in *; lia).
        rewrite take_app_le, (take_ge (encode_subrect sub)) in Hu by (unfold zlen in *; lia).
        by rewrite <- Hu, take_drop. }
      destruct (rre_one (length subs) x y s d L (1 + zlen subs) hx t tp sub q) as (d1 & E1 & Hw1 & Hu1 & Hs1);
        [done..|lia|done|done|].
      rewrite Hq1 in Hk. rewrite zlen_app, Hz in Hk.
      replace (1 + zlen subs - 1) with (zlen subs) in E1 by lia. rewrite E1.
      destruct (IH (advance 12 s) d1 Hw1) with (k := k - 1) as (s' & d' & E' & Hw' & Hu' & Hs');
        [by rewrite (so_queue _ _ _ Hs1)|exact (so_style _ _ _ Hs1)|done| | |].
      { rewrite Hu1. rewrite Hq1, <- app_assoc in Hu. by apply app_inv_head in Hu. }
      { rewrite Hu1, Hk. pose proof (zlen_nonneg q). zlia. }
      rewrite E'. pose proof (zlen_nonneg q). assert (1 <= k) by zlia.
      exists s', d'. split; [|split; [done|split]].
      * f_equal; [|f_equal; lia]. f_equal.
        destruct (Z.leb_spec (zlen subs) (k - 1)), (Z.leb_spec (1 + zlen subs) k); done || lia.
      * rewrite Hu', Hu1, Hq1. rewrite drop_app_ge by (unfold zlen in *; lia).
        f_equal. unfold zlen in *. lia.
      * replace (Z.to_nat k) with (S (Z.to_nat (k - 1))) by lia. cbn [take map].
        destruct Hs1 as [? ? ? ? ? D1], Hs' as [? ? ? ? ? D2]. split; try congruence.
        rewrite D2, D1. by rewrite <- app_assoc.
Qed.

End RreLemmas.

Section RreFeed.
Import Websock ByteQueue Display Decoders Canvas.
Context (supports : bool) {ZS : Type}.
Context (x y w h : Z) (bg : list Z) (subs : list subrect).
Context (Hbg : length bg = 4%nat) (Hbgb : bytes bg) (Hsubs : Forall subrect_ok subs).
Context (Hn : zlen subs < 2 ^ 31).
Implicit Type st : decoding ZS.

(** How many sub-rectangles, and how many bytes, are dealt with after [got]. *)
Definition rre_count (got : list Z) : Z := (zlen got - 8) / 12.
Definition rre_used (got : list Z) : Z := if zlen got <? 8 then 0 else 8 + 12 * rre_count got.

Definition rre_drawn (got : list Z) : list draw :=
  if zlen got <? 8 then []
  else DFill x y w h (fill_style bg) :: map (draw_subrect x y) (take (Z.to_nat (rre_count got)) subs).

Definition rre_state (d0 : display) (got : list Z) st : Prop :=
  wf (dc_sock st) /\ unread (dc_sock st) = drop (Z.to_nat (rre_used got)) got
  /\ step_ok d0 (dc_display st) (rre_drawn got)
  /\ dc_subrects st = (if zlen got <? 8 then 0 else zlen subs - rre_count got).

Definition rre_live (d0 : display) (got : list Z) st : Prop :=
  rre_state d0 got st /\ zlen got < 8 + 12 * zlen subs.

Definition rre_part (got : list Z) : Prop := exists rest, got ++ rest = encode_rre bg subs.

Lemma zlen_rre : zlen (encode_rre bg subs) = 8 + 12 * zlen subs.
Proof.
  unfold encode_rre. rewrite !zlen_app, zlen_subrects by done. unfold zlen. rewrite Hbg. cbn. lia.
Qed.

Lemma rre_part_zlen got : rre_part got -> zlen got <= 8 + 12 * zlen subs.
Proof.
  intros [rest H]. rewrite <- zlen_rre, <- H, zlen_app. pose proof (zlen_nonneg rest). lia.
Qed.

Lemma rre_part_body got :
  rre_part got -> 8 <= zlen got ->
  exists q rest, got = be_bytes (zlen subs) ++ bg ++ q /\ q ++ rest = concat (map encode_subrect subs).
Proof.
  intros [rest H] Hg. exists (drop 8 got), rest. unfold encode_rre in H. rewrite app_assoc in H.
  set (hd := be_bytes _ ++ bg) in H. assert (Hl : length hd = 8%nat) by (unfold hd; rewrite length_app, Hbg; done).
  assert (Ht : take 8 got = hd).
  { apply (f_equal (take 8)) in H. rewrite take_app_le in H by (unfold zlen in Hg; lia).
    rewrite H. rewrite <- Hl. by rewrite take_app_length. }
  split.
  - rewrite app_assoc. fold (zlen subs) in hd. fold hd. by rewrite <- Ht, take_drop.
  - apply (f_equal (drop 8)) in H. rewrite drop_app_le in H by (unfold zlen in Hg; lia).
    rewrite H, <- Hl. apply drop_app_length.
Qed.

(** The header: how many there are, and the background. *)
Lemma rre_header s d L hx t tp q :
  wf s -> d_renderQ d = [] -> coherent d -> unread s = be_bytes (zlen subs) ++ bg ++ q ->
  exists d', rre_decodeRect supports ZS x y w h (Decoding s d L 0 hx t tp)
      = rre_loop supports ZS (length subs) x y (Decoding (advance 8 s) d' L (zlen subs) hx t tp)
    /\ wf (advance 8 s) /\ unread (advance 8 s) = q
    /\ step_ok d d' [DFill x y w h (fill_style bg)].
Proof.
  intros Hwf Hq Hc Hu. pose proof (zlen_nonneg subs).
  assert (Hl : 8 <= rQlen s).
  { rewrite <- zlen_unread, Hu, !zlen_app by done. pose proof (zlen_nonneg q). unfold zlen. rewrite Hbg. cbn. lia. }
  destruct (view_unread s 4 _ _ Hwf Hu eq_refl) as (_ & _ & Hw1 & Hu1).
  destruct (view_unread _ 4 _ _ Hw1 Hu1) as (Hv & Eb & Hw2 & Hu2); [by unfold zlen; rewrite Hbg|].
  rewrite advance_advance in Hw2, Hu2, Eb.
  assert (E4 : rQshift32 s = (Ret (zlen subs), advance 4 s)).
  { unfold rQshift32. unfold be_bytes in Hu. cbn [app] in Hu. rewrite (rQshift_four s _ _ _ _ _ Hwf Hu).
    rewrite be32_be_bytes. rewrite toInt32_mod32, toInt32_small by lia. done. }
  replace (sk_heap (advance 4 s)) with (sk_heap s) in Hv by (by destruct s).
  destruct (draw_fill_style _ Hbg) as (b & g & r & a & Hcol). rewrite Hcol in Hv.
  destruct (fillRect_idle supports (sk_heap s) x y w h
    (CView (View (sk_rQ (advance 4 s)) (sk_rQi (advance 4 s)) 4)) d b g r) as (d' & Ef & Hs);
    [done|done|done|cbn [color_at]; by rewrite Hv|cbn [color_at]; by rewrite Hv|cbn [color_at]; by rewrite Hv|].
  exists d'. split; [|split; [done|split; [done|]]].
  - unfold rre_decodeRect, on_display, mbind, M_bind, gets at 1. cbn [dc_subrects].
    rewrite Z.eqb_refl. change (on_sock ZS (rQwait (4 + 4) 0)) with (on_sock ZS (rQwait 8 0)).
    rewrite !on_sock_run. cbn [dc_sock]. rewrite rQwait_no by done.
    rewrite !on_sock_run, !with_sock_eq. cbn [dc_sock]. rewrite E4.
    unfold modify at 1. rewrite !on_sock_run, !with_sock_eq. cbn [dc_sock setf]. rewrite Eb.
    unfold gets, zoom. rewrite !with_sock_eq. cbn [dc_sock dc_display].
    replace (sk_heap (advance (4 + 4) s)) with (sk_heap s) by (by destruct s). rewrite Ef.
    cbn. unfold mret, M_ret. cbn. unfold zlen. rewrite Nat2Z.id. done.
  - rewrite Hcol. done.
Qed.

Lemma rre_step d0 got st c :
  coherent d0 -> d_renderQ d0 = [] -> rre_live d0 got st -> rre_part (got ++ c) ->
  forall s, wf s -> unread s = unread (dc_sock st) ++ c ->
  exists st', rre_decodeRect supports ZS x y w h (with_sock st s)
      = (Ret (8 + 12 * zlen subs <=? zlen (got ++ c)), st')
    /\ rre_state d0 (got ++ c) st'.
Proof.
  intros Hc0 Hq0 [(Hwf & Hu & Hs & Hn0) Hlt] Hpart s Hws Hus.
  pose proof (rre_part_zlen _ Hpart) as Hz. set (all := got ++ c) in *. pose proof (zlen_nonneg got).
  assert (Hall : zlen got <= zlen all) by (unfold all; rewrite zlen_app; pose proof (zlen_nonneg c); lia).
  assert (Hua : unread s = drop (Z.to_nat (rre_used got)) all).
  { rewrite Hus, Hu. unfold all. rewrite drop_app_le; [done|]. unfold rre_used, rre_count, zlen in *.
    destruct (Z.ltb_spec (Z.of_nat (length got)) 8); zlia. }
  destruct st as [s0 d L n hx t tp]. cbn in Hwf, Hu, Hs, Hn0, Hus. rewrite with_sock_eq.
  assert (Hqd : d_renderQ d = []) by by rewrite (so_queue _ _ _ Hs).
  pose proof (so_style _ _ _ Hs) as Hcd. unfold rre_state, rre_used, rre_drawn in *.
  destruct (Z.ltb_spec (zlen all) 8) as [Hsmall|Hbig].
  { rewrite (proj2 (Z.ltb_lt (zlen got) 8)) in * by lia. rewrite drop_0 in Hua. subst n.
    exists (Decoding s d L 0 hx t tp).
    split; [|split; [exact Hws|split; [cbn [dc_sock]; by rewrite Hua, drop_0|split; [exact Hs|done]]]].
    unfold rre_decodeRect, mbind, M_bind, gets. cbn [dc_subrects]. rewrite Z.eqb_refl, on_sock_run.
    cbn [dc_sock]. rewrite rQwait_yes by (rewrite <- zlen_unread, Hua by done; lia).
    rewrite (proj2 (Z.leb_gt _ _)) by (pose proof (zlen_nonneg subs); lia). done. }
  destruct (rre_part_body all Hpart Hbig) as (q & rest & Eall & Eq).
  assert (Hzall : zlen all = 8 + zlen q).
  { rewrite Eall, !zlen_app. unfold zlen. rewrite Hbg. cbn. lia. }
  assert (Hdrop : forall k, drop (8 + k)%nat all = drop k q).
  { intros k. rewrite Eall, app_assoc, drop_app_ge by (rewrite length_app, Hbg; cbn; lia).
    f_equal. rewrite length_app, Hbg. cbn. lia. }
  (* from the state in which [j] sub-rectangles are done *)
  assert (Hloop : forall j s1 d1, 0 <= j <= rre_count all -> wf s1 ->
    unread s1 = drop (Z.to_nat (12 * j)) q ->
    step_ok d0 d1 (DFill x y w h (fill_style bg) :: map (draw_subrect x y) (take (Z.to_nat j) subs)) ->
    exists st', rre_loop supports ZS (Z.to_nat (zlen subs - j)) x y (Decoding s1 d1 L (zlen subs - j) hx t tp)
      = (Ret (8 + 12 * zlen subs <=? zlen all), st')
      /\ wf (dc_sock st') /\ unread (dc_sock st') = drop (Z.to_nat (8 + 12 * rre_count all)) all
      /\ step_ok d0 (dc_display st')
           (DFill x y w h (fill_style bg) :: map (draw_subrect x y) (take (Z.to_nat (rre_count all)) subs))
      /\ dc_subrects st' = zlen subs - rre_count all).
  { intros j s1 d1 Hj Hw1 Hu1 Hs1. unfold rre_count in *.
    assert (Hjs : j <= zlen subs) by zlia.
    assert (Hlen : zlen (drop (Z.to_nat j) subs) = zlen subs - j).
    { unfold zlen in *. rewrite length_drop. lia. }
    assert (Hcells : concat (map encode_subrect (drop (Z.to_nat j) subs))
      = drop (Z.to_nat (12 * j)) (concat (map encode_subrect subs))).
    { pose proof (zlen_subrects (take (Z.to_nat j) subs) (Forall_take _ _ _ Hsubs)) as Ht.
      rewrite <- (take_drop (Z.to_nat j) subs) at 2. rewrite map_app, concat_app, drop_app_ge.
      - replace (_ - _)%nat with 0%nat; [by rewrite drop_0|]. unfold zlen in *. rewrite length_take in Ht. lia.
      - unfold zlen in *. rewrite length_take in Ht. lia. }
    assert (Hzu : zlen (unread s1) = zlen all - 8 - 12 * j).
    { rewrite Hu1. unfold zlen in *. rewrite length_drop. zlia. }
    destruct (rre_loop_spec supports x y L hx t tp (drop (Z.to_nat j) subs) rest s1 d1 Hw1)
      with (k := zlen (unread s1) / 12) as (s2 & d2 & E2 & Hw2 & Hu2 & Hs2);
      [by rewrite (so_queue _ _ _ Hs1)|exact (so_style _ _ _ Hs1)|by apply Forall_drop| |done|].
    { rewrite Hcells, Hu1, <- Eq, drop_app_le; [done|]. unfold zlen in *. zlia. }
    assert (Hk : zlen (unread s1) / 12 = (zlen all - 8) / 12 - j) by zlia.
    rewrite Hk, Hlen in *. replace (length (drop (Z.to_nat j) subs)) with (Z.to_nat (zlen subs - j)) in E2
      by (unfold zlen in *; lia).
    eexists. split; [rewrite E2; do 2 f_equal|cbn; split; [done|split; [|split]]].
    - destruct (Z.leb_spec (zlen subs - j) ((zlen all - 8) / 12 - j)),
        (Z.leb_spec (8 + 12 * zlen subs) (zlen all)); done || zlia.
    - rewrite Hu2, Hu1, drop_drop. rewrite Z2Nat.inj_add by zlia. change (Z.to_nat 8) with 8%nat.
      rewrite Hdrop. f_equal. lia.
    - destruct Hs1 as [? ? ? ? ? D1], Hs2 as [? ? ? ? ? D2]. split; try congruence.
      rewrite D2, D1, <- app_assoc. f_equal. cbn [app]. f_equal. rewrite <- map_app.
      f_equal. rewrite take_take_drop. f_equal. lia.
    - lia. }
  destruct (Z.ltb_spec (zlen got) 8) as [Hg8|Hg8].
  - subst n. rewrite drop_0 in Hua.
    destruct (rre_header s d L hx t tp q) as (d1 & E1 & Hw1 & Hu1 & Hs1); [done..|by rewrite Hua|].
    rewrite E1. destruct (Hloop 0 (advance 8 s) d1) as (st' & E & Hrest).
    + unfold rre_count. zlia.
    + done.
    + done.
    + destruct Hs, Hs1 as [? ? ? ? ? D1]. split; try congruence. rewrite D1, so_draw. by rewrite app_nil_r.
    + exists st'. split; [|done]. rewrite <- E, Z.sub_0_r. unfold zlen. by rewrite Nat2Z.id.
  - assert (Hjc : 0 <= rre_count got <= rre_count all) by (unfold rre_count; zlia).
    assert (Hpos : 0 < n) by (subst n; unfold rre_count; zlia).
    destruct (Hloop (rre_count got) s d) as (st' & E & Hrest); [done|done| |done|].
    + rewrite Hua. rewrite Z2Nat.inj_add by lia. apply Hdrop.
    + exists st'. split; [|done]. rewrite <- E, <- Hn0.
      unfold rre_decodeRect, mbind, M_bind, gets. cbn [dc_subrects]. rewrite (proj2 (Z.eqb_neq n 0)) by lia. done.
Qed.

Lemma rre_feed d0 chunks got st :
  coherent d0 -> d_renderQ d0 = [] ->
  rre_live d0 got st -> 8 + 12 * zlen subs <= MAX_RQ_GROW_SIZE ->
  bytes (concat chunks) -> rre_part (got ++ concat chunks) ->
  exists st', feed (rre_decodeRect supports ZS x y w h) id (8 + 12 * zlen subs <=? zlen got) chunks st
      = (Ret (8 + 12 * zlen subs <=? zlen (got ++ concat chunks)), st')
    /\ rre_state d0 (got ++ concat chunks) st'.
Proof.
  intros Hc0 Hq0 Hl Hmax Hb Hp.
  destruct (feed_chunks (rre_decodeRect supports ZS x y w h) id (rre_live d0) (rre_state d0)
    (fun g => 8 + 12 * zlen subs <=? zlen g) (8 + 12 * zlen subs) rre_part) with (chunks := chunks) (got := got)
    (st := st) (a := 8 + 12 * zlen subs <=? zlen got) as (st' & E & H); try done.
  - intros l k [r Hr]. exists (k ++ r). by rewrite app_assoc.
  - apply rre_part_zlen.
  - intros g s0 [(? & _) ?]. done.
  - intros g s0 c H0 Hz0 s Hws Hus.
    destruct (rre_step d0 g s0 c Hc0 Hq0 H0 Hz0 s Hws Hus) as (st' & E & Hsh).
    exists st'. split; [done|]. split; [apply Hsh|]. split; [done|]. intros s' Hws' Hus'.
    assert (Hsh' : rre_state d0 (g ++ c) (with_sock st' s')).
    { destruct Hsh as (? & Hu1 & ? & ?). destruct st'. unfold rre_state. cbn in *. by rewrite Hus'. }
    destruct (Z.leb_spec (8 + 12 * zlen subs) (zlen (g ++ c))); [done|]. split; [done|lia].
  - intros g s0 [(? & -> & _) _]. unfold zlen. rewrite length_drop. lia.
  - exists st'. split; [done|]. destruct (Z.leb_spec (8 + 12 * zlen subs) (zlen (got ++ concat chunks))); [done|apply H].
Qed.

End RreFeed.

(** ** Lemmas: Tight's compressed data *)

Section TightLemmas.
Import Websock ByteQueue Display Decoders Canvas.
Local Open Scope js_scope.
Context {ZS : Type}.
Implicit Type st : decoding ZS.

Lemma low7 b : is_byte b -> b &. 0x7f = b mod 128 /\ (b &. 0x80 =? 0) = (b <? 128).
Proof.
  intros Hb. pose proof (every_byte (fun b => (b &. 0x7f =? b mod 128)
    && Bool.eqb (b &. 0x80 =? 0) (b <? 128)) b ltac:(by vm_compute) Hb) as H.
  apply andb_true_iff in H as [H1 H2]. split; [by apply Z.eqb_eq|by apply Bool.eqb_prop].
Qed.

Lemma or_shl a b k :
  0 <= a < 2 ^ k -> 0 <= b -> 0 < k < 31 -> b * 2 ^ k + a < 2 ^ 31 -> a |. (b <<. k) = b * 2 ^ k + a.
Proof.
  intros Ha Hb Hk Hs. unfold js_or, js_shl.
  assert (1 <= 2 ^ k) by (pose proof (Z.pow_pos_nonneg 2 k); lia). assert (b <= b * 2 ^ k) by nia.
  rewrite (Z.mod_small k) by lia. rewrite (toInt32_small b), Z.shiftl_mul_pow2 by lia.
  rewrite !(toInt32_small (b * 2 ^ k)), (toInt32_small a) by lia. rewrite Z.lor_comm. by apply lor_add; lia.
Qed.

(** The length field of the Tight decoder; the rest of it stays as it is. *)
Definition with_len st (n : Z) : decoding ZS :=
  st <| dc_tight := (dc_tight st) <| t_len := n |> |>.

Lemma set_len_run f st :
  set_tight ZS dc_tight (fun t => t <| t_len := f t |>) st
  = (Ret tt, with_len st (f (dc_tight st))).
Proof. done. Qed.

Lemma with_len_eq s d L sub hx (t tp : tight ZS) n :
  with_len (Decoding s d L sub hx t tp) n = Decoding s d L sub hx (t <| t_len := n |>) tp.
Proof. done. Qed.

Lemma shift8 s b q :
  wf s -> unread s = b :: q ->
  rQshift8 s = (Ret b, advance 1 s) /\ is_byte b /\ wf (advance 1 s) /\ unread (advance 1 s) = q.
Proof.
  intros Hwf Hu. destruct (unread_cons s b q Hwf Hu) as (_ & ? & ? & ?).
  split; [by apply (rQshift_one s b q)|done].
Qed.

Lemma compact_length_bytes n : 0 <= n < 2 ^ 22 -> bytes (compact_length n).
Proof.
  intros. unfold compact_length. change (2 ^ 22) with 4194304 in *.
  destruct (Z.ltb_spec n 128), (Z.ltb_spec n 16384); repeat constructor; zlia.
Qed.

Lemma readLength_spec st n q :
  wf (dc_sock st) -> 0 <= n < 2 ^ 22 -> unread (dc_sock st) = compact_length n ++ q ->
  forall k, k = zlen (compact_length n) ->
  readLength ZS dc_tight st = (Ret tt, with_len (with_sock st (advance k (dc_sock st))) n)
  /\ wf (advance k (dc_sock st)) /\ unread (advance k (dc_sock st)) = q.
Proof.
  intros Hwf Hn Hu k ->.
  destruct (view_unread (dc_sock st) (zlen (compact_length n)) _ q Hwf Hu eq_refl) as (_ & _ & Hw & Hq).
  split; [|done]. clear Hw Hq. revert Hu. change (2 ^ 22) with 4194304 in Hn. unfold compact_length.
  destruct st as [s d L sub hx t tp]. cbn [dc_sock] in *. unfold readLength, mbind, M_bind.
  assert (Hstep' : forall b q s t, wf s -> unread s = b :: q -> on_sock ZS rQshift8 (Decoding s d L sub hx t tp)
    = (Ret b, Decoding (advance 1 s) d L sub hx t tp)).
  { intros b q0 s0 t0 H1 H2. rewrite on_sock_run. cbn [dc_sock]. by rewrite (proj1 (shift8 s0 b q0 H1 H2)). }
  destruct (Z.ltb_spec n 128) as [H1|H1]; [|destruct (Z.ltb_spec n 16384) as [H2|H2]]; cbn [app]; intros Hu;
    destruct (shift8 s _ _ Hwf Hu) as (_ & Hb1 & Hw1 & Hu1); rewrite (Hstep' _ _ _ _ Hwf Hu); rewrite set_len_run;
    destruct (low7 _ Hb1) as [-> ->].
  - rewrite (proj2 (Z.ltb_lt n 128)), Z.mod_small by lia. done.
  - rewrite (proj2 (Z.ltb_ge (n mod 128 + 128) 128)) by zlia.
    destruct (shift8 _ _ _ Hw1 Hu1) as (_ & Hb2 & Hw2 & Hu2). destruct (low7 _ Hb2) as [Ha2 Hc2].
    rewrite with_len_eq.
    rewrite (Hstep' _ _ _ _ Hw1 Hu1), set_len_run, Ha2, Hc2, (proj2 (Z.ltb_lt _ _)) by zlia.
    rewrite advance_advance. unfold skip, mret, M_ret, with_len, with_sock. cbn. do 3 f_equal.
    rewrite or_shl by zlia. destruct t. cbn. f_equal. change (2 ^ 7) with 128. zlia.
  - rewrite (proj2 (Z.ltb_ge (n mod 128 + 128) 128)) by zlia.
    destruct (shift8 _ _ _ Hw1 Hu1) as (_ & Hb2 & Hw2 & Hu2). destruct (low7 _ Hb2) as [Ha2 Hc2].
    rewrite with_len_eq.
    rewrite (Hstep' _ _ _ _ Hw1 Hu1), set_len_run, Ha2, Hc2, (proj2 (Z.ltb_ge _ 128)) by zlia.
    rewrite with_len_eq.
    destruct (shift8 _ _ _ Hw2 Hu2) as (_ & Hb3 & _ & _).
    rewrite (Hstep' _ _ _ _ Hw2 Hu2), set_len_run, !advance_advance.
    unfold with_len, with_sock. cbn. do 3 f_equal. destruct t. cbn. f_equal.
    rewrite (or_shl ((n mod 128 + 128) mod 128)) by zlia. rewrite or_shl; change (2 ^ 7) with 128; change (2 ^ 14) with 16384; change (2 ^ 31) with 2147483648; zlia.
Qed.

End TightLemmas.

Section DataFeed.
Import Websock ByteQueue Display Decoders Canvas.
Context {ZS : Type} (payload : list Z).
Context (Hsize : 2 <= zlen payload < 2 ^ 22).
Implicit Type st : decoding ZS.

Abbreviation header := (compact_length (zlen payload)).
Abbreviation total := (zlen header + zlen payload).

(** [readData], and its bytes at that moment. *)
Definition read_bytes : M (decoding ZS) (option (list Z)) :=
  v ← readData ZS dc_tight;
  match v with Some v => l ← view_now ZS v; mret (Some l) | None => mret None end.

Definition arrived {A} (o : option A) : bool := match o with Some _ => true | None => false end.

Definition data_answer (got : list Z) : option (list Z) :=
  if total <=? zlen got then Some payload else None.

Definition data_state (got : list Z) st : Prop :=
  wf (dc_sock st)
  /\ unread (dc_sock st) = (if zlen got <? 3 then got else drop (length header) got)
  /\ t_len (dc_tight st) = (if zlen got <? 3 then 0 else zlen payload).

Definition data_live (got : list Z) st : Prop := data_state got st /\ zlen got < total.
Definition data_done (got : list Z) st : Prop :=
  wf (dc_sock st) /\ unread (dc_sock st) = [] /\ t_len (dc_tight st) = 0.
Definition data_part (got : list Z) : Prop := exists rest, got ++ rest = header ++ payload.

Lemma zlen_header : 1 <= zlen header <= 3 /\ (zlen header = 1 \/ 128 <= zlen payload).
Proof.
  unfold compact_length. destruct (Z.ltb_spec (zlen payload) 128); [|destruct (Z.ltb_spec (zlen payload) 16384)];
    rewrite !zlen_cons, zlen_nil; lia.
Qed.

Lemma data_part_zlen got : data_part got -> zlen got <= total.
Proof. intros [rest H]. rewrite <- zlen_app, <- H, zlen_app. pose proof (zlen_nonneg rest). lia. Qed.

Lemma data_part_split got :
  data_part got -> 3 <= zlen got ->
  exists q rest, got = header ++ q /\ q ++ rest = payload /\ drop (length header) got = q.
Proof.
  intros [rest H] Hg. pose proof zlen_header as [Hh _]. exists (drop (length header) got), rest.
  assert (Ht : take (length header) got = header).
  { apply (f_equal (take (length header))) in H. rewrite take_app_le in H by (unfold zlen in *; lia).
    by rewrite H, take_app_length. }
  split; [|split; [|done]].
  - rewrite <- Ht at 1. by rewrite take_drop.
  - apply (f_equal (drop (length header))) in H. rewrite drop_app_le in H by (unfold zlen in *; lia).
    by rewrite H, drop_app_length.
Qed.

(** The second half of [readData], once the length is known. *)
Lemma read_payload st n q rest :
  wf (dc_sock st) -> unread (dc_sock st) = q -> q ++ rest = payload -> n = zlen payload ->
  t_len (dc_tight st) = n ->
  exists st', read_bytes st = (Ret (if zlen payload <=? zlen q then Some payload else None), st')
    /\ wf (dc_sock st')
    /\ (if zlen payload <=? zlen q then unread (dc_sock st') = [] /\ t_len (dc_tight st') = 0
        else unread (dc_sock st') = q /\ t_len (dc_tight st') = n).
Proof.
  intros Hwf Hu Hq -> Hl. destruct st as [s d L sub hx t tp]. cbn in Hwf, Hu, Hl.
  unfold read_bytes, readData, get_tight, mbind, M_bind, gets. cbn [dc_tight dc_sock]. rewrite Hl.
  rewrite (proj2 (Z.eqb_neq _ 0)) by lia. unfold mret, M_ret. cbn [dc_tight]. rewrite Hl, on_sock_run.
  cbn [dc_sock]. assert (Hr : rQlen s = zlen q) by (rewrite <- zlen_unread, Hu; done).
  destruct (Z.leb_spec (zlen payload) (zlen q)) as [Hle|Hgt].
  - assert (rest = []) as ->.
    { apply (f_equal zlen) in Hq. rewrite zlen_app in Hq. destruct rest; [done|].
      rewrite zlen_cons in Hq. pose proof (zlen_nonneg rest). lia. }
    rewrite app_nil_r in Hq. subst q. rewrite rQwait_no by lia.
    destruct (view_unread s (zlen payload) payload []) as (Hv & Eb & Hw1 & Hu1);
      [done|by rewrite app_nil_r|done|].
    rewrite on_sock_run, with_sock_eq. cbn [dc_sock]. rewrite Eb, with_sock_eq.
    rewrite (set_len_run (fun _ => 0)), with_len_eq. unfold view_now, gets. cbn [dc_sock].
    replace (sk_heap (advance _ s)) with (sk_heap s) by (by destruct s). rewrite Hv.
    eexists. split; [reflexivity|]. done.
  - rewrite rQwait_yes by lia. eexists. split; [reflexivity|]. done.
Qed.

Lemma data_step got st c :
  data_live got st -> data_part (got ++ c) ->
  forall s, wf s -> unread s = unread (dc_sock st) ++ c ->
  exists st', read_bytes (with_sock st s) = (Ret (data_answer (got ++ c)), st')
    /\ (if total <=? zlen (got ++ c) then data_done (got ++ c) st' else data_state (got ++ c) st').
Proof.
  intros [(Hwf & Hu & Hl) Hlt] Hpart s Hws Hus. pose proof zlen_header as [Hh Hh'].
  set (all := got ++ c) in *. unfold data_answer, data_state, data_done.
  destruct st as [s0 d L sub hx t tp]. cbn in Hwf, Hu, Hl, Hus. rewrite with_sock_eq.
  assert (Hall : zlen got <= zlen all) by (unfold all; rewrite zlen_app; pose proof (zlen_nonneg c); lia).
  destruct (Z.ltb_spec (zlen all) 3) as [H3|H3].
  { rewrite (proj2 (Z.ltb_lt (zlen got) 3)) in * by lia.
    assert (Hua : unread s = all) by (by rewrite Hus, Hu).
    rewrite (proj2 (Z.leb_gt _ _)) by lia. exists (Decoding s d L sub hx t tp). split; [|done].
    unfold read_bytes, readData, get_tight, mbind, M_bind, gets. cbn [dc_tight]. rewrite Hl, Z.eqb_refl, on_sock_run.
    cbn [dc_sock]. rewrite rQwait_yes by (rewrite <- zlen_unread, Hua by done; lia). done. }
  destruct (data_part_split all Hpart H3) as (q & rest & Eall & Eq & Hdrop).
  assert (Hzall : zlen all = zlen header + zlen q) by (by rewrite Eall, zlen_app).
  replace (total <=? zlen all) with (zlen payload <=? zlen q)
    by (destruct (Z.leb_spec (zlen payload) (zlen q)), (Z.leb_spec total (zlen all)); done || lia).
  assert (Hdone : forall st0, wf (dc_sock st0) -> unread (dc_sock st0) = q -> t_len (dc_tight st0) = zlen payload ->
    exists st', read_bytes st0 = (Ret (if zlen payload <=? zlen q then Some payload else None), st')
    /\ (if zlen payload <=? zlen q then wf (dc_sock st') /\ unread (dc_sock st') = [] /\ t_len (dc_tight st') = 0
        else wf (dc_sock st') /\ unread (dc_sock st') = drop (length header) all
             /\ t_len (dc_tight st') = zlen payload)).
  { intros st0 H0 H1 H2. destruct (read_payload st0 _ q rest H0 H1 Eq eq_refl H2) as (st' & E & Hw' & Hr).
    exists st'. split; [done|]. rewrite Hdrop. by destruct (zlen payload <=? zlen q). }
  destruct (Z.ltb_spec (zlen got) 3) as [Hg|Hg].
  - assert (Hua : unread s = header ++ q) by (rewrite Hus, Hu; fold all; done).
    destruct (readLength_spec (Decoding s d L sub hx t tp) (zlen payload) q Hws ltac:(lia) Hua _ eq_refl)
      as (E & Hw1 & Hu1). cbn [dc_sock] in *. rewrite with_sock_eq, with_len_eq in E.
    destruct (Hdone (Decoding (advance (zlen header) s) d L sub hx (t <| t_len := zlen payload |>) tp) Hw1 Hu1)
      as (st' & E' & Hr); [done|].
    exists st'. split; [|done]. rewrite <- E'.
    assert (Es : readData ZS dc_tight (Decoding s d L sub hx t tp)
      = readData ZS dc_tight (Decoding (advance (zlen header) s) d L sub hx (t <| t_len := zlen payload |>) tp)).
    { unfold readData, get_tight, gets, mbind, M_bind. cbn [dc_tight]. rewrite Hl, Z.eqb_refl.
      rewrite on_sock_run. cbn [dc_sock].
      rewrite rQwait_no by (rewrite <- zlen_unread, Hua by done; rewrite zlen_app in *; lia).
      rewrite with_sock_eq, E. cbn [t_len setf]. rewrite (proj2 (Z.eqb_neq (zlen payload) 0)) by lia. done. }
    unfold read_bytes, mbind, M_bind. by rewrite Es.
  - apply Hdone; [done| |done]. cbn [dc_sock]. rewrite Hus, Hu, <- Hdrop. unfold all.
    rewrite drop_app_le; [done|]. unfold zlen in *. lia.
Qed.

End DataFeed.

(** ** Lemmas: loops over pixels *)

Section Loops.
Import Websock ByteQueue Display Decoders Canvas.
Local Open Scope js_scope.

Lemma slice_app_left {A} (l k : list A) off len :
  0 <= off -> 0 <= len -> off + len <= zlen l -> slice (l ++ k) off len = slice l off len.
Proof.
  intros. unfold slice, zlen in *. rewrite drop_app_le by lia. rewrite take_app_le; [done|].
  rewrite length_drop. lia.
Qed.

Lemma slice_app_right {A} (l k : list A) off len :
  zlen l <= off -> slice (l ++ k) off len = slice k (off - zlen l) len.
Proof. intros. unfold slice, zlen in *. rewrite drop_app_ge by lia. do 2 f_equal. lia. Qed.

(** The color of a bit of a byte, from a palette of two. *)
Definition bit_of (v b : Z) : Z := if Z.testbit v b then 1 else 0.

Lemma mono_bit_spec (data : Z -> num) palette p b v :
  data p = Some v -> is_byte v -> 0 <= b < 8 ->
  mono_bit data palette p b = palette_pixel palette (bit_of v b * 3).
Proof.
  intros Hd Hv Hb. unfold mono_bit. rewrite Hd. f_equal. f_equal. unfold nint. cbn [default from_option id].
  pose proof (every_byte (fun v => forallb (fun b => toInt32 v >>. b &. 1 =? bit_of v b)
    [0; 1; 2; 3; 4; 5; 6; 7]) v ltac:(by vm_compute) Hv) as H.
  rewrite forallb_forall in H. apply Z.eqb_eq, H. cbn. lia.
Qed.

Lemma mono_row_pixel data palette width j i :
  0 <= i < width ->
  slice (mono_row data palette width j) (4 * i) 4
  = mono_bit data palette (j * ((width + 7) / 8) + i / 8) (7 - i mod 8).
Proof.
  intros Hi. set (p := j * ((width + 7) / 8)).
  set (f := fun q k : nat => mono_bit data palette (p + Z.of_nat q) (7 - Z.of_nat k)).
  set (byte := fun q : nat => concat (map (f q) (seq 0 8))).
  set (g := fun k : nat => mono_bit data palette (p + width / 8) (7 - Z.of_nat k)).
  change (mono_row data palette width j) with (concat (map byte (seq 0 (Z.to_nat (width / 8))))
    ++ concat (map g (seq 0 (Z.to_nat (width mod 8))))).
  assert (Hf : forall q (k : nat), (k < 8)%nat -> slice (byte q) (4 * Z.of_nat k) 4 = f q k).
  { intros q k Hk. apply (slice_cells (f q) 4 _ k k); [done|]. apply lookup_seq. lia. }
  assert (H1 : zlen (concat (map byte (seq 0 (Z.to_nat (width / 8))))) = 32 * (width / 8)).
  { rewrite (zlen_cells byte 32) by done. unfold zlen. rewrite length_seq. zlia. }
  destruct (Z.lt_ge_cases i (8 * (width / 8))) as [Hlo|Hhi].
  - rewrite slice_app_left by (rewrite ?H1; zlia).
    replace (4 * i) with (32 * (i / 8) + 4 * (i mod 8)) by zlia.
    rewrite <- (slice_slice _ (32 * (i / 8)) 32 (4 * (i mod 8)) 4) by zlia.
    pose proof (slice_cells byte 32 (seq 0 (Z.to_nat (width / 8))) (Z.to_nat (i / 8)) (Z.to_nat (i / 8))) as Hs.
    rewrite Z2Nat.id in Hs by zlia. change (Z.of_nat 32) with 32 in Hs. rewrite Hs; [|done|apply lookup_seq; zlia].
    replace (i mod 8) with (Z.of_nat (Z.to_nat (i mod 8))) by zlia. rewrite Hf by zlia.
    unfold f. rewrite !Z2Nat.id by zlia. done.
  - rewrite slice_app_right by (rewrite H1; lia). rewrite H1.
    replace (4 * i - 32 * (width / 8)) with (4 * Z.of_nat (Z.to_nat (i mod 8))) by zlia.
    change 4 with (Z.of_nat 4) at 1 2.
    rewrite (slice_cells g 4 _ _ (Z.to_nat (i mod 8))); [|done|apply lookup_seq; zlia].
    unfold g. rewrite Z2Nat.id by zlia. do 2 f_equal. zlia.
Qed.

Lemma zlen_mono_row data palette width j : 0 <= width -> zlen (mono_row data palette width j) = 4 * width.
Proof.
  intros Hw. unfold mono_row. rewrite zlen_app.
  rewrite (zlen_cells _ 32) by done. set (g := fun k : nat => _). rewrite (zlen_cells g 4) by done.
  unfold zlen. rewrite !length_seq. zlia.
Qed.

Lemma aget_aset {A} (l : list A) i j v :
  0 <= i < zlen l -> aget (aset l i v) j = if j =? i then Some v else aget l j.
Proof.
  intros Hi. unfold aget, aset, zlen in *. rewrite (proj2 (Z.ltb_ge i 0)) by lia.
  destruct (Z.ltb_spec j 0), (Z.eqb_spec j i); try lia; try done.
  - subst. apply list_lookup_insert_eq. lia.
  - apply list_lookup_insert_ne. lia.
Qed.

Lemma zlen_aset {A} (l : list A) i v : zlen (aset l i v) = zlen l.
Proof. unfold zlen. by rewrite length_aset. Qed.

Lemma sub_row_spec k p px data q :
  length px = 4%nat -> 0 <= p -> 4 * (p + Z.of_nat k) <= zlen data ->
  zlen (sub_row k p px data) = zlen data /\
  aget (sub_row k p px data) q
  = if (4 * p <=? q) && (q <? 4 * (p + Z.of_nat k)) then aget px (q mod 4) else aget data q.
Proof.
  intros Hpx Hp. revert p data Hp. induction k as [|k IH]; intros p data Hp Hz; cbn [sub_row].
  - split; [done|]. destruct (Z.leb_spec (4 * p) q), (Z.ltb_spec q (4 * (p + Z.of_nat 0))); done || lia.
  - destruct px as [|r [|g [|b [|a [|]]]]]; try done. cbn [nth Z.to_nat Pos.to_nat Pos.iter_op Nat.add].
    match goal with |- context [sub_row k (p + 1) _ ?d] => set (data' := d) end.
    assert (Hz' : zlen data' = zlen data) by (unfold data'; by rewrite !zlen_aset).
    destruct (IH (p + 1) data') as [IH1 IH2]; [lia|lia|]. split; [congruence|]. rewrite IH2.
    destruct (Z.leb_spec (4 * (p + 1)) q), (Z.ltb_spec q (4 * (p + 1 + Z.of_nat k)));
      cbn [andb]; [|rewrite (proj2 (Z.leb_le (4 * p) q)), (proj2 (Z.ltb_ge q (4 * (p + Z.of_nat (S k))))) by lia| |].
    + by rewrite (proj2 (Z.leb_le _ q)), (proj2 (Z.ltb_lt q _)) by lia.
    + cbn [andb]. unfold data'. rewrite !aget_aset by (rewrite ?zlen_aset; lia).
      by rewrite !(proj2 (Z.eqb_neq q _)) by lia.
    + unfold data'. rewrite !aget_aset by (rewrite ?zlen_aset; lia).
      destruct (Z.leb_spec (4 * p) q); cbn [andb].
      * rewrite (proj2 (Z.ltb_lt q _)) by lia.
        assert (q = 4 * p + 0 \/ q = 4 * p + 1 \/ q = 4 * p + 2 \/ q = 4 * p + 3) as Hq by lia.
        destruct Hq as [->|[->|[->| ->]]].
        all: rewrite ?Z.eqb_refl, ?(proj2 (Z.eqb_neq (4 * p + 0) _)), ?(proj2 (Z.eqb_neq (4 * p + 1) _)), ?(proj2 (Z.eqb_neq (4 * p + 2) _)) by lia.
        all: rewrite (Z.add_comm (4 * p)), (Z.mul_comm 4), Z.mod_add by lia; done.
      * by rewrite !(proj2 (Z.eqb_neq q _)) by lia.
    + lia.
Qed.

End Loops.

Section TileLoops.
Import Websock ByteQueue Display Decoders Canvas.

(** Column [i] and row [j] of the cells of a tile [tw] wide. *)
Lemma sub_rows_spec k x y w tw px data i j c :
  length px = 4%nat -> 0 <= x -> 0 <= w -> x + w <= tw -> 0 <= y ->
  4 * tw * (y + Z.of_nat k) <= zlen data ->
  0 <= i < tw -> 0 <= j -> 0 <= c < 4 ->
  zlen (sub_rows k x y w tw px data) = zlen data /\
  aget (sub_rows k x y w tw px data) (4 * (j * tw + i) + c)
  = if inside x y w (Z.of_nat k) i j then aget px c else aget data (4 * (j * tw + i) + c).
Proof.
  intros Hpx Hx Hw Hxw. revert y data. induction k as [|k IH]; intros y data Hy Hz Hi Hj Hc; cbn [sub_rows].
  - split; [done|]. unfold inside. destruct (Z.leb_spec y j), (Z.ltb_spec j (y + Z.of_nat 0)); try lia;
      by rewrite !andb_false_r.
  - assert (Hfit : 4 * (x + y * tw + Z.of_nat (Z.to_nat w)) <= zlen data) by nia.
    destruct (sub_row_spec (Z.to_nat w) (x + y * tw) px data (4 * (j * tw + i) + c)) as [Hz' Hrow];
      [done|nia|done|].
    destruct (IH (y + 1) (sub_row (Z.to_nat w) (x + y * tw) px data)) as [Hz2 Hrows];
      [lia|rewrite Hz'; nia|done..|].
    split; [congruence|]. rewrite Hrows, Hrow, Z2Nat.id by lia. unfold inside.
    replace ((4 * (j * tw + i) + c) mod 4) with c by zlia.
    destruct (Z.eq_dec j y) as [->|Hne].
    + rewrite (proj2 (Z.leb_gt (y + 1) y)), (proj2 (Z.leb_le y y)), (proj2 (Z.ltb_lt y (y + Z.of_nat (S k)))) by lia.
      rewrite !andb_false_r. cbn [andb]. rewrite !andb_true_r.
      destruct (Z.leb_spec x i), (Z.ltb_spec i (x + w)); cbn [andb].
      * by rewrite (proj2 (Z.leb_le (4 * (x + y * tw)) _)), (proj2 (Z.ltb_lt _ (4 * (x + y * tw + w)))) by lia.
      * by rewrite (proj2 (Z.ltb_ge _ (4 * (x + y * tw + w)))), andb_false_r by lia.
      * by rewrite (proj2 (Z.leb_gt (4 * (x + y * tw)) _)) by lia.
      * lia.
    + replace ((4 * (x + y * tw) <=? 4 * (j * tw + i) + c) && (4 * (j * tw + i) + c <? 4 * (x + y * tw + w)))
        with false.
      2:{ symmetry. apply andb_false_iff. destruct (Z.lt_ge_cases j y); [left; apply Z.leb_gt|right; apply Z.ltb_ge]; nia. }
      replace (y + 1 + Z.of_nat k) with (y + Z.of_nat (S k)) by lia.
      destruct (Z.leb_spec (y + 1) j), (Z.leb_spec y j); rewrite ?andb_false_r; cbn [andb]; done || lia.
Qed.

End TileLoops.

(** ** Properties *)

Section Properties.
Import Websock ByteQueue Display Decoders Canvas.
Context {ZS : Type}.
Implicit Type st : decoding ZS.

(** The raw decoder paints what it was sent, whatever the messages the
    pixels arrive in: after any part of the pixel data of a rectangle, cut
    anywhere, the canvas shows every whole row received, each pixel in its
    place with its blue, green and red in the wire's order, and nothing else has
    changed; the decoder answers [true] at the message that completes the data,
    not before, and is then ready for the next rectangle. *)
Theorem raw_paints supports other scr x y w h chunks st :
  0 < w -> 0 < h -> w * h * 4 <= MAX_RQ_GROW_SIZE ->
  wf (dc_sock st) -> unread (dc_sock st) = [] -> d_renderQ (dc_display st) = [] -> dc_lines st = 0 ->
  bytes (concat chunks) -> zlen (concat chunks) <= w * h * 4 ->
  let data := concat chunks in
  let before := paint_all other (d_draw (dc_display st)) scr in
  exists st', feed (raw_decodeRect supports ZS x y w h 32) id false chunks st
      = (Ret (w * h * 4 <=? zlen data), st')
    /\ (forall px py, paint_all other (d_draw (dc_display st')) scr px py
         = if inside x y w (zlen data / (w * 4)) px py then raw_pixel data w (px - x) (py - y)
           else before px py)
    /\ (w * h * 4 <= zlen data ->
        dc_lines st' = 0 /\ wf (dc_sock st') /\ unread (dc_sock st') = [] /\ d_renderQ (dc_display st') = []).
Proof.
  intros Hw Hh Hmax Hwf Hu Hq HL Hb Hz data before.
  assert (Hempty : forall px py, before px py = raw_screen x y w (zlen (A:=Z) [] / (w * 4)) [] before px py).
  { intros. unfold raw_screen, inside. change (zlen (A:=Z) []) with 0. rewrite Z.div_0_l by lia.
    destruct (Z.leb_spec y py), (Z.ltb_spec py (y + 0)); rewrite ?andb_false_r; done || lia. }
  destruct (raw_feed supports other x y w h scr before Hw Hh chunks [] st) as (st1 & E & H);
    [|done|done|done|].
  { split; [|change (zlen (A:=Z) []) with 0; rewrite Z.div_0_l by lia; split; [lia|by right]].
    split; [done|split; [done|split; [done|exact Hempty]]]. }
  change (zlen (A:=Z) []) with 0 in E. rewrite (proj2 (Z.leb_gt _ 0)) in E by lia. exists st1. split; [exact E|].
  cbn [app] in H. fold data in H. destruct (Z.leb_spec (w * h * 4) (zlen data)) as [Hfull|Hpart].
  - destruct H as [(Hw1 & Hu1 & Hq1 & Hp1) HL1]. split; [exact Hp1|]. intros _.
    split; [done|split; [done|split; [|done]]]. rewrite Hu1. apply drop_ge.
    fold data in Hz. replace (zlen data) with (h * (w * 4)) by lia. rewrite Z.div_mul by lia. unfold zlen in *. lia.
  - split; [apply H|lia].
Qed.

(** [C16] The RRE decoder, on a display that is idle (nothing in its queue, so
    that what it asks for is drawn at once), draws what was encoded, whatever the
    messages it arrives in: with any prefix of the encoding of a background and a list of
    sub-rectangles, it has filled the background as soon as the header is
    there, then exactly the sub-rectangles received whole, each once, in order,
    at its place and in its colour; it answers [true] exactly when everything
    has arrived. *)
Theorem rre_draws supports x y w h bg subs chunks rest st :
  length bg = 4%nat -> bytes bg -> Forall subrect_ok subs -> 8 + 12 * zlen subs <= MAX_RQ_GROW_SIZE ->
  wf (dc_sock st) -> unread (dc_sock st) = [] -> d_renderQ (dc_display st) = [] ->
  coherent (dc_display st) -> dc_subrects st = 0 ->
  concat chunks ++ rest = encode_rre bg subs ->
  let got := zlen (concat chunks) in
  exists st', feed (rre_decodeRect supports ZS x y w h) id false chunks st
      = (Ret (bool_decide (rest = [])), st')
    /\ d_draw (dc_display st') = d_draw (dc_display st)
         ++ (if got <? 8 then []
             else DFill x y w h (fill_style bg)
                  :: map (draw_subrect x y) (take (Z.to_nat ((got - 8) / 12)) subs))
    /\ (rest = [] -> dc_subrects st' = 0 /\ unread (dc_sock st') = []).
Proof.
  intros H4 Hbb Hs Hmax Hwf Hu Hq Hc H0 He got. pose proof (zlen_nonneg subs) as Hn.
  assert (Hn31 : zlen subs < 2 ^ 31) by (unfold MAX_RQ_GROW_SIZE in Hmax; lia).
  assert (Hz : got + zlen rest = 8 + 12 * zlen subs) by (rewrite <- (zlen_rre bg subs H4 Hs), <- He, zlen_app; done).
  assert (Hby : bytes (concat chunks)).
  { apply (Forall_app is_byte _ rest). rewrite He. unfold encode_rre.
    apply Forall_app; split; [apply be_bytes_bytes|apply Forall_app; split; [done|]].
    rewrite Forall_concat, Forall_map. eapply Forall_impl; [exact Hs|]. clear.
    intros sub (_ & Hb & H1 & H2 & H3 & H4). cbn. unfold encode_subrect, be16, u16 in *.
    repeat (apply Forall_app; split); try done; repeat constructor; zlia. }
  destruct (rre_feed supports x y w h bg subs H4 Hs Hn31 (dc_display st) chunks [] st) as (st' & E & Hst);
    [done|done| |done|done|by exists rest|].
  { split; [|unfold zlen; cbn; lia]. unfold rre_state, rre_used, rre_drawn. change (zlen (A:=Z) [] <? 8) with true.
    cbn iota. rewrite drop_0. split; [done|split; [done|split; [by apply step_ok_refl|done]]]. }
  replace (8 + 12 * zlen subs <=? zlen (A:=Z) []) with false in E
    by (symmetry; apply Z.leb_gt; unfold zlen; cbn; lia).
  exists st'. cbn [app] in *. rewrite E. destruct Hst as (_ & Hu1 & Hs1 & Hn1). fold got in Hn1.
  split; [|split].
  - do 2 f_equal. fold got. rewrite <- Hz. destruct rest as [|r rest].
    + rewrite bool_decide_true by done. apply Z.leb_le. unfold zlen. cbn. lia.
    + rewrite bool_decide_false by done. apply Z.leb_gt. rewrite zlen_cons. pose proof (zlen_nonneg rest). lia.
  - rewrite (so_draw _ _ _ Hs1). done.
  - intros ->. change (zlen (A:=Z) []) with 0 in Hz. rewrite Hu1. unfold rre_used, rre_count in *. fold got in Hn1, Hu1 |- *.
    rewrite (proj2 (Z.ltb_ge got 8)) in * by lia. replace ((got - 8) / 12) with (zlen subs) in * by zlia.
    split; [lia|]. apply drop_ge. unfold got, zlen in *. lia.
Qed.

(** [C17] Tight's compressed data, of at least two bytes, survives its transport:
    the length, in one to three bytes, and the data, cut into any messages, come out of the decoder
    as that data, at the message that completes them and not before; nothing is
    left over. *)
Theorem readData_roundtrip payload chunks rest st :
  2 <= zlen payload < 2 ^ 22 -> bytes payload ->
  wf (dc_sock st) -> unread (dc_sock st) = [] -> t_len (dc_tight st) = 0 ->
  concat chunks ++ rest = compact_length (zlen payload) ++ payload ->
  exists st', feed (ZS := ZS) read_bytes arrived None chunks st
      = (Ret (if decide (rest = []) then Some payload else None), st')
    /\ (rest = [] -> unread (dc_sock st') = [] /\ t_len (dc_tight st') = 0).
Proof.
  intros Hsize Hpb Hwf Hu H0 He. set (total := zlen (compact_length (zlen payload)) + zlen payload).
  pose proof (zlen_header payload) as [Hh Hh'].
  assert (Hz : zlen (concat chunks) + zlen rest = total) by (rewrite <- zlen_app, He, zlen_app; done).
  assert (Hby : bytes (concat chunks)).
  { apply (Forall_app is_byte _ rest). rewrite He. apply Forall_app; split; [|done].
    apply compact_length_bytes. lia. }
  assert (Hans : forall g, arrived (data_answer payload g) = (total <=? zlen g)).
  { intros. unfold data_answer. fold total. by destruct (total <=? zlen g). }
  destruct (feed_chunks (ZS := ZS) read_bytes arrived (data_live payload) (data_done) (data_answer payload)
    total (data_part payload)) with (chunks := chunks) (got := @nil Z) (st := st) (a := @None (list Z))
    as (st' & E & Hst).
  - intros l k [r Hr]. exists (k ++ r). by rewrite app_assoc.
  - apply data_part_zlen.
  - intros g s0 [(? & _) ?]. done.
  - intros g s0 c Hg Hp s Hws Hus.
    destruct (data_step payload Hsize g s0 c Hg Hp s Hws Hus) as (st1 & E1 & H1). fold total in H1.
    exists st1. split; [done|]. rewrite Hans. split; [by destruct (total <=? zlen (g ++ c)); apply H1|].
    split; [done|]. intros s' Hws' Hus'. destruct st1. cbn in *.
    destruct (Z.leb_spec total (zlen (g ++ c))).
    + destruct H1 as (_ & H1 & H2). unfold data_done. cbn in *. by rewrite Hus'.
    + split; [|done]. destruct H1 as (_ & H1 & H2). unfold data_state. cbn in *. by rewrite Hus'.
  - intros g s0 [(_ & -> & _) _]. destruct (zlen g <? 3); [done|]. unfold zlen. rewrite length_drop. lia.
  - unfold MAX_RQ_GROW_SIZE. change (2 ^ 22) with 4194304 in Hsize. lia.
  - split; [split; [done|split; [by rewrite Hu|done]]|]. change (zlen (A:=Z) []) with 0. lia.
  - unfold data_answer. fold total. change (zlen (A:=Z) []) with 0. by rewrite (proj2 (Z.leb_gt _ _)) by lia.
  - done.
  - by exists rest.
  - exists st'. cbn [app] in *. rewrite E. unfold data_answer in *. fold total.
    destruct (decide (rest = [])) as [->|Hne].
    + change (zlen (A:=Z) []) with 0 in Hz. rewrite (proj2 (Z.leb_le _ _)) in * by lia. split; [done|].
      intros _. apply Hst.
    + destruct rest as [|r rest]; [done|]. rewrite zlen_cons in Hz. pose proof (zlen_nonneg rest).
      rewrite (proj2 (Z.leb_gt _ _)) by lia. done.
Qed.

(** The pixels of a two-colour Tight rectangle: each row starts a new byte,
    and the pixel at column [i] takes its colour from bit [7 - i mod 8] of byte
    [i / 8] of its row, through the palette. *)
Theorem mono_pixels_spec (data : Z -> num) palette width height i j v :
  0 <= i < width -> 0 <= j < height ->
  data (j * ((width + 7) / 8) + i / 8) = Some v -> is_byte v ->
  slice (mono_pixels data palette width height) (4 * (j * width + i)) 4
  = palette_pixel palette (bit_of v (7 - i mod 8) * 3).
Proof.
  intros Hi Hj Hd Hv. unfold mono_pixels.
  set (f := fun y : nat => mono_row data palette width (Z.of_nat y)).
  assert (Hf : forall y, length (f y) = Z.to_nat (4 * width)).
  { intros y. pose proof (zlen_mono_row data palette width (Z.of_nat y)). unfold f, zlen in *. lia. }
  pose proof (slice_cells f (Z.to_nat (4 * width)) (seq 0 (Z.to_nat height)) (Z.to_nat j) (Z.to_nat j)
    ltac:(done) ltac:(apply lookup_seq; lia)) as Hs. rewrite !Z2Nat.id in Hs by lia.
  replace (4 * (j * width + i)) with (4 * width * j + 4 * i) by lia.
  rewrite <- (slice_slice _ _ (4 * width)) by nia. rewrite Hs. unfold f. rewrite mono_row_pixel by done.
  rewrite Z2Nat.id by lia. apply mono_bit_spec; [done|done|zlia].
Qed.

(** A sub-rectangle of a Hextile tile that lies inside it colours exactly
    its own pixels: the cell of each of them is the red, green and blue of the
    colour and 255, and every other cell of the tile, and everything else of the
    display, is as it was. *)
Theorem subTile_paints h x y w hh c b g r d :
  0 <= x -> 0 <= y -> 0 <= w -> 0 <= hh ->
  let t := d_tile d in
  x + w <= t_width t -> y + hh <= t_height t -> zlen (t_data t) = 4 * t_width t * t_height t ->
  check_color c = Ret tt -> color_at h c 0 = Some b -> color_at h c 1 = Some g -> color_at h c 2 = Some r ->
  is_byte b -> is_byte g -> is_byte r ->
  exists data', subTile h x y w hh c d = (Ret tt, d <| d_tile := Tile (t_width t) (t_height t) data' |>)
    /\ zlen data' = zlen (t_data t)
    /\ forall i j k, 0 <= i < t_width t -> 0 <= j < t_height t -> 0 <= k < 4 ->
       aget data' (4 * (j * t_width t + i) + k)
       = if inside x y w hh i j then aget [r; g; b; 255] k
         else aget (t_data t) (4 * (j * t_width t + i) + k).
Proof.
  intros Hx Hy Hw Hh t Hxw Hyh Hz Hk Eb Eg Er Hb Hg Hr.
  exists (sub_rows (Z.to_nat hh) x y w (t_width t) [r; g; b; 255] (t_data t)).
  assert (Hlen : 4 * t_width t * (y + Z.of_nat (Z.to_nat hh)) <= zlen (t_data t)) by nia.
  assert (Hspec := fun i j k => sub_rows_spec (Z.to_nat hh) x y w (t_width t) [r; g; b; 255] (t_data t) i j k
    eq_refl Hx Hw Hxw Hy Hlen).
  split; [|split].
  - unfold subTile, lift, mbind, M_bind. rewrite Hk, Er, Eg, Eb. unfold cell. cbn [default from_option id].
    by rewrite !toUint8Clamp_byte by done.
  - destruct (Z.eq_dec (t_width t) 0) as [E0|]; [|by apply (Hspec 0 0 0); lia].
    assert (w = 0) as -> by lia. assert (Hr0 : forall n px l, sub_row (Z.to_nat 0) n px l = l) by done.
    generalize (Z.to_nat hh) y. induction n as [|n IH]; intros y0; cbn [sub_rows]; [done|].
    rewrite Hr0. apply IH.
  - intros i j k Hi Hj Hk4. rewrite (proj2 (Hspec i j k Hi ltac:(lia) Hk4)), Z2Nat.id by lia. done.
Qed.

End Properties.

(** *** The properties at concrete inputs *)

Section Samples.
Import Websock ByteQueue Display Decoders Canvas.

Definition decoding_sample : decoding unit :=
  new_decoding unit tt
    {| sk_websocket := Some OPEN; sk_rQi := 3; sk_rQlen := 3; sk_rQbufferSize := 16; sk_rQmax := 2;
       sk_rQ := 0; sk_sQbufferSize := 4; sk_sQlen := 0; sk_sQ := [];
       sk_heap := {[0%nat := replicate 16 0]}; sk_receiving := true; sk_sent := [] |}
    (Display.constructor 4 4 4 4).

Lemma decoding_sample_wf : wf (dc_sock decoding_sample).
Proof. split; try done; cbn; try lia. repeat constructor; unfold is_byte; lia. Qed.

(** Four pixels of a rectangle, in three messages. *)
Lemma raw_paints_witness :
  exists st', feed (raw_decodeRect true unit 1 1 2 2 32) id false
      [[1; 2; 3; 4; 5]; [6; 7; 8; 9; 10; 11; 12]; [13; 14; 15; 16]] decoding_sample = (Ret true, st')
    /\ paint_all (fun _ s => s) (d_draw (dc_display st')) (fun _ _ => []) 2 2 = [15; 14; 13; 255]
    /\ unread (dc_sock st') = [].
Proof.
  destruct (raw_paints true (fun _ s => s) (fun _ _ => []) 1 1 2 2
    [[1; 2; 3; 4; 5]; [6; 7; 8; 9; 10; 11; 12]; [13; 14; 15; 16]] decoding_sample)
    as (st' & E & Hp & Hd).
  - lia.
  - lia.
  - discriminate.
  - apply decoding_sample_wf.
  - reflexivity.
  - reflexivity.
  - reflexivity.
  - repeat constructor; unfold is_byte; lia.
  - discriminate.
  - exists st'. split; [exact E|]. split; [rewrite Hp; reflexivity|]. apply Hd. discriminate.
Defined.

(** A background, one sub-rectangle of two, and half of the other. *)
Lemma rre_draws_witness :
  exists st', feed (rre_decodeRect true unit 10 20 8 8) id false
      [[0; 0; 0; 2; 7; 8]; [9; 0; 1; 2; 3; 0; 0; 1; 0; 2; 0; 3; 0; 4; 5; 5]] decoding_sample = (Ret false, st')
    /\ d_draw (dc_display st') = d_draw (dc_display decoding_sample)
         ++ [DFill 10 20 8 8 (Some (Some 9, Some 8, Some 7)); DFill 11 22 3 4 (Some (Some 3, Some 2, Some 1))].
Proof.
  destruct (rre_draws (ZS := unit) true 10 20 8 8 [7; 8; 9; 0]
    [Subrect [1; 2; 3; 0] 1 2 3 4; Subrect [5; 5; 5; 5] 0 0 1 1]
    [[0; 0; 0; 2; 7; 8]; [9; 0; 1; 2; 3; 0; 0; 1; 0; 2; 0; 3; 0; 4; 5; 5]]
    [5; 5; 0; 0; 0; 0; 0; 1; 0; 1] decoding_sample) as (st' & E & Hd & _).
  - reflexivity.
  - repeat constructor; unfold is_byte; lia.
  - repeat constructor; cbn; unfold u16, is_byte; lia.
  - discriminate.
  - apply decoding_sample_wf.
  - reflexivity.
  - reflexivity.
  - left. reflexivity.
  - reflexivity.
  - reflexivity.
  - exists st'. split; [exact E|]. rewrite Hd. reflexivity.
Defined.

(** 130 bytes: a length of two bytes, cut in the middle. *)
Lemma readData_roundtrip_witness :
  exists st', feed (ZS := unit) read_bytes arrived None [[130]; 1 :: replicate 99 7; replicate 31 7] decoding_sample
    = (Ret (Some (replicate 130 7)), st').
Proof.
  destruct (readData_roundtrip (ZS := unit) (replicate 130 7) [[130]; 1 :: replicate 99 7; replicate 31 7] []
    decoding_sample) as (st' & E & _).
  - split; [discriminate|reflexivity].
  - apply Forall_replicate. unfold is_byte. lia.
  - apply decoding_sample_wf.
  - reflexivity.
  - reflexivity.
  - reflexivity.
  - exists st'. exact E.
Defined.

(** The third pixel of the second row of a picture three pixels wide. *)
Lemma mono_pixels_spec_witness :
  slice (mono_pixels (fun i => [64; 32] !! Z.to_nat i) [1; 2; 3; 4; 5; 6] 3 2) 20 4 = [4; 5; 6; 255].
Proof.
  rewrite (mono_pixels_spec (fun i => [64; 32] !! Z.to_nat i) [1; 2; 3; 4; 5; 6] 3 2 2 1 32).
  - reflexivity.
  - lia.
  - lia.
  - reflexivity.
  - unfold is_byte. lia.
Defined.

(** One pixel of a tile of two by two. *)
Lemma subTile_paints_witness :
  exists data', subTile ∅ 1 0 1 1 (CVal [Some 10; Some 20; Some 30; Some 0])
      ((blank 4 4 4 4) <| d_tile := Tile 2 2 (replicate 16 9) |>)
    = (Ret tt, (blank 4 4 4 4) <| d_tile := Tile 2 2 data' |>)
    /\ aget data' 4 = Some 30 /\ aget data' 8 = Some 9.
Proof.
  destruct (subTile_paints ∅ 1 0 1 1 (CVal [Some 10; Some 20; Some 30; Some 0]) 10 20 30
    ((blank 4 4 4 4) <| d_tile := Tile 2 2 (replicate 16 9) |>)) as (data' & E & _ & Hp).
  1-4: lia.
  1-2: vm_compute; discriminate.
  1-5: reflexivity.
  1-3: unfold is_byte; lia.
  exists data'. split; [exact E|]. split.
  - exact (Hp 1 0 0 ltac:(by vm_compute) ltac:(by vm_compute) ltac:(lia)).
  - exact (Hp 0 1 0 ltac:(by vm_compute) ltac:(by vm_compute) ltac:(lia)).
Defined.

End Samples.
