(* ===== verification/Strings.v ===== *)
(** * Strings of noVNC
    (src/ControlServer/web/www/novnc/core/util/strings.js)

    [decodeUTF8] is [decodeURIComponent(escape(s))]: the code units of [s], taken
    as bytes, decoded as UTF-8 into UTF-16, as the two functions of ECMA-262 do
    it together. *)

From S2P Require Import Prelude.

Module Strings.

Definition continuation (b : Z) : bool := (0x80 <=? b) && (b <? 0xC0).

(** The UTF-16 code units of a code point. *)
Definition utf16 (cp : Z) : list Z :=
  if cp <? 0x10000 then [cp]
  else [0xD800 + (cp - 0x10000) / 0x400; 0xDC00 + (cp - 0x10000) mod 0x400].

(** A code unit above 255 is escaped as %uXXXX, which does not decode. *)
Fixpoint decodeUTF8 (l : list Z) : outcome (list Z) :=
  match l with
  | [] => Ret []
  | b :: l =>
      if b <? 0x80 then r ← decodeUTF8 l; Ret (b :: r)
      else if (0xC0 <=? b) && (b <? 0xE0) then
        match l with
        | c1 :: l =>
            let cp := (b - 0xC0) * 0x40 + (c1 - 0x80) in
            if continuation c1 && (0x80 <=? cp) then r ← decodeUTF8 l; Ret (cp :: r)
            else Throw URIError
        | _ => Throw URIError
        end
      else if (0xE0 <=? b) && (b <? 0xF0) then
        match l with
        | c1 :: c2 :: l =>
            let cp := (b - 0xE0) * 0x1000 + (c1 - 0x80) * 0x40 + (c2 - 0x80) in
            if continuation c1 && continuation c2 && (0x800 <=? cp)
               && negb ((0xD800 <=? cp) && (cp <? 0xE000))
            then r ← decodeUTF8 l; Ret (cp :: r)
            else Throw URIError
        | _ => Throw URIError
        end
      else if (0xF0 <=? b) && (b <? 0xF8) then
        match l with
        | c1 :: c2 :: c3 :: l =>
            let cp := (b - 0xF0) * 0x40000 + (c1 - 0x80) * 0x1000 + (c2 - 0x80) * 0x40 + (c3 - 0x80) in
            if continuation c1 && continuation c2 && continuation c3
               && (0x10000 <=? cp) && (cp <=? 0x10FFFF)
            then r ← decodeUTF8 l; Ret (utf16 cp ++ r)
            else Throw URIError
        | _ => Throw URIError
        end
      else Throw URIError
  end.

End Strings.

(** ** The encoding it undoes *)

Module Utf8.

(** Unicode scalar values. *)
Definition scalar (cp : Z) : Prop := 0 <= cp < 0xD800 \/ 0xE000 <= cp < 0x110000.

Definition encode (cp : Z) : list Z :=
  if cp <? 0x80 then [cp]
  else if cp <? 0x800 then [0xC0 + cp / 0x40; 0x80 + cp mod 0x40]
  else if cp <? 0x10000 then [0xE0 + cp / 0x1000; 0x80 + cp / 0x40 mod 0x40; 0x80 + cp mod 0x40]
  else [0xF0 + cp / 0x40000; 0x80 + cp / 0x1000 mod 0x40; 0x80 + cp / 0x40 mod 0x40; 0x80 + cp mod 0x40].

End Utf8.

(** ** Properties *)

Section Properties.
Import Strings Utf8.

(** Decide the comparisons of a goal. *)
Ltac decide_cmp := repeat match goal with
  | |- context [?a <? ?b] =>
      first [rewrite (proj2 (Z.ltb_lt a b)) by zlia | rewrite (proj2 (Z.ltb_ge a b)) by zlia]
  | |- context [?a <=? ?b] =>
      first [rewrite (proj2 (Z.leb_le a b)) by zlia | rewrite (proj2 (Z.leb_gt a b)) by zlia]
  end; cbn [andb negb orb].

Lemma decode_one cp rest :
  scalar cp -> decodeUTF8 (encode cp ++ rest) = r ← decodeUTF8 rest; Ret (utf16 cp ++ r).
Proof.
  intros H. unfold scalar, encode, utf16 in *. unfold mbind.
  destruct (Z.ltb_spec cp 0x80); [|destruct (Z.ltb_spec cp 0x800); [|destruct (Z.ltb_spec cp 0x10000)]];
    cbn [app decodeUTF8]; unfold continuation, utf16; decide_cmp.
  - done.
  - replace (_ * 64 + _) with cp by zlia. done.
  - set (cp' := (_ * 4096 + _ + _)). replace cp' with cp by (unfold cp'; zlia).
    destruct (Z.leb_spec 55296 cp), (Z.ltb_spec cp 57344); try lia; decide_cmp; done.
  - set (cp' := (_ * 262144 + _ + _ + _)). replace cp' with cp by (unfold cp'; zlia). decide_cmp. done.
Qed.

Lemma decode_all l : Forall scalar l -> decodeUTF8 (concat (map encode l)) = Ret (concat (map utf16 l)).
Proof. induction 1 as [|cp l H _ IH]; [done|]. cbn [map concat]. by rewrite decode_one, IH. Qed.

(** [C35] Decoding undoes UTF-8: the encoding of any sequence of Unicode
    characters decodes to its UTF-16 form. *)
Theorem decodeUTF8_encode l :
  Forall scalar l -> decodeUTF8 (concat (map encode l)) = Ret (concat (map utf16 l)).
Proof. apply decode_all. Qed.

(** "A", e acute, the euro sign and a musical clef. *)
Lemma decodeUTF8_encode_witness :
  decodeUTF8 [65; 195; 169; 226; 130; 172; 240; 157; 132; 158] = Ret [65; 233; 8364; 55348; 56606].
Proof.
  apply (decodeUTF8_encode [65; 233; 8364; 119070]). repeat constructor; unfold scalar; lia.
Defined.

End Properties.
