(* ===== verification/Localization.v ===== *)
(** * The translations of noVNC
    (src/ControlServer/web/www/novnc/app/localization.js)

    Texts are lists of UTF-16 code units.  The page is a tree of elements, texts and
    other nodes; [toLowerCase] is the browser's. *)

From S2P Require Import Prelude.

Module Localization.

Abbreviation text := (list Z).

(** *** Strings of the language *)

(** [s.split(sep)] of one character. *)
Fixpoint split_on (sep : Z) (s : text) : list text :=
  match s with
  | [] => [[]]
  | c :: s =>
      if c =? sep then [] :: split_on sep s
      else match split_on sep s with
           | part :: parts => (c :: part) :: parts
           | [] => [[c]]
           end
  end.

(** [s.replace(a, b)]: the first occurrence only. *)
Fixpoint replace_first (a b : Z) (s : text) : text :=
  match s with
  | [] => []
  | c :: s => if c =? a then b :: s else c :: replace_first a b s
  end.

Definition is_space (c : Z) : bool :=
  bool_decide (c ∈ [9; 10; 11; 12; 13; 32; 0xA0; 0x1680; 0x2028; 0x2029; 0x202F; 0x205F; 0x3000; 0xFEFF])
  || ((0x2000 <=? c) && (c <=? 0x200A)).
Fixpoint trimStart (s : text) : text :=
  match s with
  | [] => []
  | c :: s' => if is_space c then trimStart s' else s
  end.
Definition trim (s : text) : text := rev (trimStart (rev (trimStart s))).

Section Localization.
Context (toLowerCase : text -> text).

(** *** The language *)

Record localizer := Localizer {
  language : text;
  dictionary : option (gmap text text) }.
Definition constructor : localizer := Localizer (codes "en") None.

Definition subtags (tag : text) : list text := split_on 45 (replace_first 95 45 (toLowerCase tag)).

(** The built-in default? *)
Definition default_language (userLang : list text) : bool :=
  bool_decide (userLang !! 0%nat = Some (codes "en"))
  && (bool_decide (userLang !! 1%nat = None) || bool_decide (userLang !! 1%nat = Some (codes "us"))).

Fixpoint perfect_match (userLang : list text) (supportedLanguages : list text) : option text :=
  match supportedLanguages with
  | [] => None
  | l :: ls =>
      let supLang := subtags l in
      if negb (bool_decide (userLang !! 0%nat = supLang !! 0%nat)) then perfect_match userLang ls
      else if negb (bool_decide (userLang !! 1%nat = supLang !! 1%nat)) then perfect_match userLang ls
      else Some l
  end.

Fixpoint fallback_match (userLang : list text) (supportedLanguages : list text) : option text :=
  match supportedLanguages with
  | [] => None
  | l :: ls =>
      let supLang := subtags l in
      if negb (bool_decide (userLang !! 0%nat = supLang !! 0%nat)) then fallback_match userLang ls
      else if negb (bool_decide (supLang !! 1%nat = None)) then fallback_match userLang ls
      else Some l
  end.

(** A user language of the browser is undefined where it has none. *)
Fixpoint choose_language (userLanguages : list (option text)) (supportedLanguages : list text) (this : localizer)
    : outcome unit * localizer :=
  match userLanguages with
  | [] => (Ret tt, this)
  | None :: _ => (Throw TypeError, this)
  | Some l :: ls =>
      let userLang := subtags l in
      if default_language userLang then (Ret tt, this)
      else match perfect_match userLang supportedLanguages with
      | Some l => (Ret tt, Localizer l (dictionary this))
      | None =>
          match fallback_match userLang supportedLanguages with
          | Some l => (Ret tt, Localizer l (dictionary this))
          | None => choose_language ls supportedLanguages this
          end
      end
  end.

(** [languages] is the browser's list, if it has one. *)
Definition setup (languages : option (list text)) (language : option text) (supportedLanguages : list text)
    (this : localizer) : outcome unit * localizer :=
  let this := Localizer (codes "en") (dictionary this) in
  let userLanguages := match languages with Some l => map Some l | None => [language] end in
  choose_language userLanguages supportedLanguages this.

End Localization.

(** *** Translation *)

(** An empty translation is none.  (The names of the properties every object has are
    not looked up.) *)
Definition get (this : localizer) (id : text) : text :=
  match dictionary this with
  | Some d => match d !! id with Some (c :: s) => c :: s | _ => id end
  | None => id
  end.

Inductive node :=
  | Element (tagName : string) (attributes : gmap string text) (childNodes : list node)
  | Text (data : text)
  | Other.

Definition hasAttribute (a : gmap string text) (attr : string) : bool := bool_decide (is_Some (a !! attr)).

(** [isAnyOf(elem.getAttribute(attr), items)] *)
Definition attribute_in (a : gmap string text) (attr : string) (items : list string) : bool :=
  match a !! attr with Some v => bool_decide (v ∈ map codes items) | None => false end.

Definition translateAttribute (this : localizer) (attr : string) (a : gmap string text) : gmap string text :=
  match a !! attr with Some v => <[attr := get this v]> a | None => a end.

(** The attributes of an element, one after the other. *)
Definition translateAttributes (this : localizer) (tagName : string) (a : gmap string text) : gmap string text :=
  let step (attr : string) (allowed : bool) a :=
    if hasAttribute a attr && allowed then translateAttribute this attr a else a in
  let a := step "abbr" (bool_decide (tagName = "TH")) a in
  let a := step "alt" (bool_decide (tagName ∈ ["AREA"; "IMG"; "INPUT"])) a in
  let a := step "download" (bool_decide (tagName ∈ ["A"; "AREA"])) a in
  let a := step "label" (bool_decide (tagName ∈ ["MENUITEM"; "MENU"; "OPTGROUP"; "OPTION"; "TRACK"])) a in
  let a := step "placeholder" (bool_decide (tagName ∈ ["INPUT"; "TEXTAREA"])) a in
  let a := step "title" true a in
  step "value" (bool_decide (tagName = "INPUT") && attribute_in a "type" ["reset"; "button"; "submit"]) a.

Definition translation_mode (a : gmap string text) (enabled : bool) : bool :=
  if attribute_in a "translate" [""; "yes"] then true
  else if attribute_in a "translate" ["no"] then false
  else enabled.

Fixpoint process (this : localizer) (enabled : bool) (n : node) : node :=
  match n with
  | Element tagName a childNodes =>
      let enabled := translation_mode a enabled in
      Element tagName (if enabled then translateAttributes this tagName a else a)
        (map (process this enabled) childNodes)
  | Text data => if enabled then Text (get this (trim data)) else Text data
  | Other => Other
  end.

Definition translateDOM (this : localizer) (body : node) : node := process this true body.

End Localization.

(** ** What is promised *)

Module LocalizationSpec.
Import Localization.

(** The attributes of an element that are texts to read, after the HTML standard. *)
Definition translatable (tagName : string) (a : gmap string text) (attr : string) : bool :=
  if decide (attr = "abbr") then bool_decide (tagName = "TH")
  else if decide (attr = "alt") then bool_decide (tagName ∈ ["AREA"; "IMG"; "INPUT"])
  else if decide (attr = "download") then bool_decide (tagName ∈ ["A"; "AREA"])
  else if decide (attr = "label") then bool_decide (tagName ∈ ["MENUITEM"; "MENU"; "OPTGROUP"; "OPTION"; "TRACK"])
  else if decide (attr = "placeholder") then bool_decide (tagName ∈ ["INPUT"; "TEXTAREA"])
  else if decide (attr = "title") then true
  else if decide (attr = "value")
  then bool_decide (tagName = "INPUT") && attribute_in a "type" ["reset"; "button"; "submit"]
  else false.

(** The node at the end of a path of positions. *)
Fixpoint node_at (n : node) (path : list nat) : option node :=
  match path with
  | [] => Some n
  | i :: path => match n with Element _ _ l => l !! i ≫= fun c => node_at c path | _ => None end
  end.

(** What an element says of its translation. *)
Definition says (a : gmap string text) : option bool :=
  if attribute_in a "translate" [""; "yes"] then Some true
  else if attribute_in a "translate" ["no"] then Some false
  else None.

(** What the elements on a path say, the innermost last. *)
Fixpoint said (n : node) (path : list nat) : list bool :=
  match n with
  | Element _ a l =>
      option_list (says a)
      ++ match path with
         | [] => []
         | i :: path => match l !! i with Some c => said c path | None => [] end
         end
  | _ => []
  end.

(** The innermost one that says something decides. *)
Definition translated (n : node) (path : list nat) : bool := default true (last (said n path)).

Section Languages.
Context (toLowerCase : text -> text).
Abbreviation subtags := (subtags toLowerCase).

Definition american (u : text) : Prop :=
  subtags u !! 0%nat = Some (codes "en") /\ (subtags u !! 1%nat = None \/ subtags u !! 1%nat = Some (codes "us")).
Definition perfect (u s : text) : Prop :=
  subtags u !! 0%nat = subtags s !! 0%nat /\ subtags u !! 1%nat = subtags s !! 1%nat.
Definition generic (u s : text) : Prop := subtags u !! 0%nat = subtags s !! 0%nat /\ subtags s !! 1%nat = None.

(** There is nothing for a user of this language. *)
Definition unserved (supported : list text) (u : text) : Prop :=
  ~ american u /\ forall s, s ∈ supported -> ~ perfect u s /\ ~ generic u s.

(** The language a user of [u] is given. *)
Definition serves (supported : list text) (u l : text) : Prop :=
  american u /\ l = codes "en"
  \/ ~ american u /\ l ∈ supported /\ (perfect u l \/ generic u l /\ forall s, s ∈ supported -> ~ perfect u s).

End Languages.

End LocalizationSpec.

(** ** Lemmas *)

Section Lemmas.
Import Localization LocalizationSpec.
Implicit Types (a : gmap string text) (this : localizer).

Lemma translateAttribute_lookup this attr a attr' :
  translateAttribute this attr a !! attr' = if decide (attr' = attr) then get this <$> a !! attr' else a !! attr'.
Proof.
  unfold translateAttribute. destruct (a !! attr) as [v|] eqn:E; destruct (decide _) as [->|]; try done.
  - by rewrite lookup_insert_eq, E.
  - by rewrite lookup_insert_ne.
  - by rewrite E.
Qed.

(** One step of [translateAttributes]. *)
Lemma step_lookup this attr (allowed : bool) a attr' :
  (if hasAttribute a attr && allowed then translateAttribute this attr a else a) !! attr'
  = if decide (attr' = attr) then (if allowed then get this <$> a !! attr' else a !! attr') else a !! attr'.
Proof.
  unfold hasAttribute. case_bool_decide as H; cbn [andb].
  - destruct allowed; [apply translateAttribute_lookup|]. by destruct (decide _).
  - apply eq_None_not_Some in H. destruct (decide _) as [->|]; [|done]. rewrite H. by destruct allowed.
Qed.

Lemma attribute_in_same a a' attr items : a' !! attr = a !! attr -> attribute_in a' attr items = attribute_in a attr items.
Proof. unfold attribute_in. by intros ->. Qed.

Lemma translateAttributes_lookup this tagName a attr :
  translateAttributes this tagName a !! attr
  = if translatable tagName a attr then get this <$> a !! attr else a !! attr.
Proof.
  unfold translateAttributes, translatable. cbv zeta. set (ty := attribute_in _ "type" _).
  assert (Hty : ty = attribute_in a "type" ["reset"; "button"; "submit"]%string).
  { apply attribute_in_same. rewrite !step_lookup. by rewrite !decide_False by discriminate. }
  clearbody ty. subst ty. rewrite !step_lookup.
  repeat match goal with
  | |- context [decide (attr = ?s)] => destruct (decide (attr = s)) as [->|?]
  | |- context [decide (?s = ?s')] => rewrite (decide_False (P := s = s')) by discriminate
  end; done.
Qed.

Lemma translation_mode_says a enabled : translation_mode a enabled = default enabled (says a).
Proof. unfold translation_mode, says. by destruct (attribute_in a "translate" _); [|destruct (attribute_in a "translate" _)]. Qed.

Lemma last_default {A} (l l' : list A) x : default x (last (l ++ l')) = default (default x (last l)) (last l').
Proof. rewrite last_app. by destruct (last l'). Qed.

Lemma last_option_list {A} (o : option A) : last (option_list o) = o.
Proof. by destruct o. Qed.

(** What becomes of a node, if its own mode is [mode]. *)
Definition becomes this (mode : bool) (n n' : node) : Prop :=
  match n, n' with
  | Element tag a l, Element tag' a' l' =>
      tag' = tag /\ length l' = length l
      /\ forall attr, a' !! attr = if mode && translatable tag a attr then get this <$> a !! attr else a !! attr
  | Text data, Text data' => data' = if mode then get this (trim data) else data
  | Other, Other => True
  | _, _ => False
  end.

Lemma process_spec this enabled n path :
  match node_at n path with
  | Some c => exists c', node_at (process this enabled n) path = Some c'
      /\ becomes this (default enabled (last (said n path))) c c'
  | None => node_at (process this enabled n) path = None
  end.
Proof.
  revert enabled n. induction path as [|i path IH]; intros enabled [tag a l|data|]; cbn [node_at process said].
  - eexists. split; [done|]. cbn [becomes]. rewrite length_map, app_nil_r, translation_mode_says. split; [done|]. split; [done|].
    intros attr. rewrite last_option_list.
    destruct (default enabled (says a)); [apply translateAttributes_lookup|done].
  - eexists. split; [done|]. by destruct enabled.
  - by exists Other.
  - rewrite list_lookup_fmap. destruct (l !! i) as [c|]; cbn [fmap option_fmap option_map mbind option_bind]; [|done].
    rewrite last_default, translation_mode_says, last_option_list.
    apply IH.
  - by destruct enabled.
  - done.
Qed.

(** *** Languages *)

Section Languages.
Context (toLowerCase : text -> text).
Implicit Types (u l : text) (supported : list text).
Abbreviation subtags := (subtags toLowerCase).

Lemma default_language_iff u : default_language (subtags u) = true <-> american toLowerCase u.
Proof.
  unfold default_language, american. by rewrite andb_true_iff, orb_true_iff, !bool_decide_eq_true.
Qed.

Lemma perfect_match_spec u supported :
  match perfect_match toLowerCase (subtags u) supported with
  | Some l => l ∈ supported /\ perfect toLowerCase u l
  | None => forall l, l ∈ supported -> ~ perfect toLowerCase u l
  end.
Proof.
  induction supported as [|l ls IH]; cbn [perfect_match]; [by intros l Hl%elem_of_nil|].
  destruct (bool_decide_reflect (subtags u !! 0%nat = subtags l !! 0%nat)) as [E0|E0]; cbn [negb];
    [destruct (bool_decide_reflect (subtags u !! 1%nat = subtags l !! 1%nat)) as [E1|E1]; cbn [negb]|].
  { split; [by left|done]. }
  all: destruct (perfect_match _ _ ls); [split; [right; apply IH|apply IH]|].
  all: intros l' [->|Hl]%elem_of_cons; [by intros [? ?]|by apply IH].
Qed.

Lemma fallback_match_spec u supported :
  match fallback_match toLowerCase (subtags u) supported with
  | Some l => l ∈ supported /\ generic toLowerCase u l
  | None => forall l, l ∈ supported -> ~ generic toLowerCase u l
  end.
Proof.
  induction supported as [|l ls IH]; cbn [fallback_match]; [by intros l Hl%elem_of_nil|].
  destruct (bool_decide_reflect (subtags u !! 0%nat = subtags l !! 0%nat)) as [E0|E0]; cbn [negb];
    [destruct (bool_decide_reflect (subtags l !! 1%nat = None)) as [E1|E1]; cbn [negb]|].
  { split; [by left|done]. }
  all: destruct (fallback_match _ _ ls); [split; [right; apply IH|apply IH]|].
  all: intros l' [->|Hl]%elem_of_cons; [by intros [? ?]|by apply IH].
Qed.

Lemma choose_language_spec us supported this :
  exists l, choose_language toLowerCase (map Some us) supported this = (Ret tt, Localizer l (dictionary this))
    /\ ((exists i u, us !! i = Some u /\ Forall (unserved toLowerCase supported) (take i us)
           /\ (american toLowerCase u /\ l = language this
               \/ ~ american toLowerCase u /\ l ∈ supported
                  /\ (perfect toLowerCase u l \/ generic toLowerCase u l /\ forall s, s ∈ supported -> ~ perfect toLowerCase u s)))
        \/ Forall (unserved toLowerCase supported) us /\ l = language this).
Proof.
  assert (Hthis : this = Localizer (language this) (dictionary this)) by (by destruct this).
  induction us as [|u us IH]; cbn [map choose_language].
  { exists (language this). rewrite <- Hthis. split; [done|]. by right. }
  pose proof (default_language_iff u) as Hd. destruct (default_language (subtags u)).
  { exists (language this). rewrite <- Hthis. split; [done|]. left. exists 0%nat, u. split; [done|]. split; [done|]. left. split; [by apply Hd|done]. }
  assert (Hn : ~ american toLowerCase u) by (intros H%Hd; discriminate H).
  pose proof (perfect_match_spec u supported) as Hp. destruct (perfect_match _ _ _) as [l|].
  { destruct Hp as [Hl Hp]. exists l. split; [done|]. left. exists 0%nat, u. split; [done|]. split; [done|]. right. auto. }
  pose proof (fallback_match_spec u supported) as Hf. destruct (fallback_match _ _ _) as [l|].
  { destruct Hf as [Hl Hf]. exists l. split; [done|]. left. exists 0%nat, u. split; [done|]. split; [done|]. right. auto. }
  assert (Hu : unserved toLowerCase supported u) by (split; [done|]; intros s Hs; split; [by apply Hp|by apply Hf]).
  destruct IH as (l & E & H). exists l. split; [exact E|].
  destruct H as [(i & v & Hi & Hall & H)|[Hall H]]; [left|right].
  - exists (S i), v. split; [exact Hi|]. split; [by constructor|exact H].
  - split; [by constructor|exact H].
Qed.

End Languages.

End Lemmas.

(** ** Properties *)

Section Properties.
Import Localization LocalizationSpec.

(** [C27] The translated page is the page: its nodes are where they were, and at every
    path a text, and each of the seven attributes that are read by people (of the
    elements the HTML standard names for them), is the translation of the old one
    where the innermost "translate" attribute allows it and unchanged where it does
    not; no other attribute changes.  But every text that is looked up loses the
    white space around it, translation or not. *)
Theorem translateDOM_spec (this : localizer) (body : node) (path : list nat) :
  match node_at body path with
  | Some n => exists n', node_at (translateDOM this body) path = Some n' /\ becomes this (translated body path) n n'
  | None => node_at (translateDOM this body) path = None
  end.
Proof. apply process_spec. Qed.

(** The language is the best the user can be given: that of the first preference
    that is American English, or for which there is a supported language of the same
    language and region, or of the same language for all regions, the region deciding
    where both exist; English if no preference is served.  Only a browser that names
    no language at all makes it fail. *)
Theorem setup_spec (toLowerCase : text -> text) (languages : option (list text)) (lang : option text)
    (supported : list text) (this : localizer) :
  let r := setup toLowerCase languages lang supported this in
  match languages, lang with
  | None, None => r = (Throw TypeError, Localizer (codes "en") (dictionary this))
  | None, Some _ | Some _, _ => exists l, r = (Ret tt, Localizer l (dictionary this))
    /\ let us := match languages with Some us => us | None => option_list lang end in
       (exists i u, us !! i = Some u /\ Forall (unserved toLowerCase supported) (take i us)
          /\ serves toLowerCase supported u l)
       \/ Forall (unserved toLowerCase supported) us /\ l = codes "en"
  end.
Proof.
  intros r. unfold r, setup. destruct languages as [us|]; [|destruct lang as [u|]; [|done]].
  - destruct (choose_language_spec toLowerCase us supported (Localizer (codes "en") (dictionary this))) as (l & E & H).
    exists l. by split.
  - destruct (choose_language_spec toLowerCase [u] supported (Localizer (codes "en") (dictionary this))) as (l & E & H).
    exists l. by split.
Qed.

End Properties.

(** ** Examples *)

Section Examples.
Import Localization.

Definition ascii_lower (s : text) : text := map (fun c => if (65 <=? c) && (c <=? 90) then c + 32 else c) s.
Definition LINGUAS : list text :=
  map codes ["cs"; "de"; "el"; "es"; "ko"; "nl"; "pl"; "ru"; "sv"; "tr"; "zh_CN"; "zh_TW"].
Definition language_for (us : list string) : text :=
  language (setup ascii_lower (Some (map codes us)) None LINGUAS constructor).2.

Example austrian : language_for ["de-AT"; "tr"] = codes "de". Proof. reflexivity. Qed.
Example taiwanese : language_for ["zh-tw"] = codes "zh_TW". Proof. reflexivity. Qed.

(** A preference for British English counts for nothing. *)
Example british : language_for ["en-GB"; "de"] = codes "de". Proof. reflexivity. Qed.

(** Nor does a script between language and region get Chinese users their language. *)
Example hant : language_for ["zh-Hant-TW"] = codes "en". Proof. reflexivity. Qed.

(** "<p>see <b>this</b> page</p>", to which nothing is translated. *)
Example translate_trims :
  let p l := Element "P" ∅ l in let b s := Element "B" ∅ [Text (codes s)] in
  translateDOM constructor (p [Text (codes "see "); b "this"; Text (codes " page")])
  = p [Text (codes "see"); b "this"; Text (codes "page")].
Proof. reflexivity. Qed.

End Examples.
