(* ===== verification/Settings.v ===== *)
(** * Settings, address parameters and cookies of noVNC
    (src/ControlServer/web/www/novnc/app/webutil.js, core/util/logging.js)

    The settings have a cache and a permanent storage, the browser's or, in an
    extension of Chrome, that of the extension.  Texts are lists of UTF-16 code
    units. *)

From S2P Require Import Prelude Strings Localization.
From stdpp Require Import pretty.
Local Open Scope Z_scope.

Module Settings.
Import Localization.

(** *** Percent-encoding of the language *)

Definition unreserved (c : Z) : bool :=
  ((48 <=? c) && (c <=? 57)) || ((65 <=? c) && (c <=? 90)) || ((97 <=? c) && (c <=? 122))
  || bool_decide (c ∈ codes "-_.!~*'()").
Definition hex_digit (n : Z) : Z := if n <? 10 then 48 + n else 55 + n.
Definition hex_value (c : Z) : option Z :=
  if (48 <=? c) && (c <=? 57) then Some (c - 48)
  else if (65 <=? c) && (c <=? 70) then Some (c - 55)
  else if (97 <=? c) && (c <=? 102) then Some (c - 87)
  else None.
Definition percent (b : Z) : text := [37; hex_digit (b / 16); hex_digit (b mod 16)].

Definition high_surrogate (c : Z) : bool := (0xD800 <=? c) && (c <? 0xDC00).
Definition low_surrogate (c : Z) : bool := (0xDC00 <=? c) && (c <? 0xE000).

Fixpoint encodeURIComponent (s : text) : outcome text :=
  match s with
  | [] => Ret []
  | c :: s =>
      if unreserved c then r ← encodeURIComponent s; Ret (c :: r)
      else if low_surrogate c then Throw URIError
      else if high_surrogate c then
        match s with
        | d :: s =>
            if low_surrogate d then
              r ← encodeURIComponent s;
              Ret (concat (map percent (Utf8.encode ((c - 0xD800) * 0x400 + (d - 0xDC00) + 0x10000))) ++ r)
            else Throw URIError
        | [] => Throw URIError
        end
      else r ← encodeURIComponent s; Ret (concat (map percent (Utf8.encode c)) ++ r)
  end.

(** The escaped bytes before the rest of the text are decoded together. *)
Fixpoint decode_from (run : list Z) (s : text) : outcome text :=
  match s with
  | [] => Strings.decodeUTF8 run
  | c :: s =>
      if c =? 37 then
        match s with
        | h :: l :: s =>
            match hex_value h, hex_value l with
            | Some h, Some l => decode_from (run ++ [h * 16 + l]) s
            | _, _ => Throw URIError
            end
        | _ => Throw URIError
        end
      else
        b ← Strings.decodeUTF8 run; r ← decode_from [] s; Ret (b ++ c :: r)
  end.
Definition decodeURIComponent (s : text) : outcome text := decode_from [] s.

(** *** The address *)

Fixpoint strip_prefix (p s : text) : option text :=
  match p, s with
  | [], _ => Some s
  | a :: p, b :: s => if a =? b then strip_prefix p s else None
  | _ :: _, [] => None
  end.
Fixpoint take_until (stop : list Z) (s : text) : text :=
  match s with
  | [] => []
  | c :: s => if bool_decide (c ∈ stop) then [] else c :: take_until stop s
  end.

(** The match of a pattern that starts with any text, a separator, the name and an
    equals sign, and captures up to a stop: the first star is greedy, so it is the last
    one.  (An address has no line ends.)  The pattern is built from the name as it is,
    which stands for itself if it is [literal]: all names the program looks for are
    (the Example [names_literal] of Ui.v), and this is about those. *)
Definition literal (name : text) : bool := forallb (fun c => negb (bool_decide (c ∈ codes "^$\.*+?()[]{}|/"))) name.

Fixpoint last_match (seps stop : list Z) (name s : text) : option text :=
  match s with
  | [] => None
  | c :: s =>
      match last_match seps stop name s with
      | Some v => Some v
      | None =>
          if bool_decide (c ∈ seps) then take_until stop <$> strip_prefix (name ++ codes "=") s else None
      end
  end.

Definition decode_match (match_ : option text) (defVal : option text) : outcome (option text) :=
  match match_ with
  | Some v => v ← decodeURIComponent v; Ret (Some v)
  | None => Ret defVal
  end.

Definition getQueryVar (href name : text) (defVal : option text) : outcome (option text) :=
  decode_match (last_match (codes "?&") (codes "&#") name href) defVal.
Definition getHashVar (hash name : text) (defVal : option text) : outcome (option text) :=
  decode_match (last_match (codes "&#") (codes "&") name hash) defVal.
Definition getConfigVar (href hash name : text) (defVal : option text) : outcome (option text) :=
  val ← getHashVar hash name None;
  match val with
  | None => getQueryVar href name defVal
  | Some v => Ret (Some v)
  end.

(** *** Cookies *)

(** What is assigned to [document.cookie]; [expires] is the date as the browser
    writes it. *)
Definition createCookie (https : bool) (name value : text) (expires : option text) : text :=
  name ++ codes "=" ++ value
  ++ match expires with Some date => codes "; expires=" ++ date | None => [] end
  ++ codes "; path=/" ++ (if https then codes "; secure" else []).

Fixpoint drop_spaces (c : text) : text :=
  match c with
  | a :: c' => if a =? 32 then drop_spaces c' else c
  | [] => []
  end.

Fixpoint find_cookie (nameEQ : text) (ca : list text) : option text :=
  match ca with
  | [] => None
  | c :: ca =>
      match strip_prefix nameEQ (drop_spaces c) with
      | Some v => Some v
      | None => find_cookie nameEQ ca
      end
  end.

Definition readCookie (cookie name : text) (defaultValue : option text) : option text :=
  match find_cookie (name ++ codes "=") (split_on 59 cookie) with
  | Some v => Some v
  | None => defaultValue
  end.

Definition eraseCookie (https : bool) (name yesterday : text) : text := createCookie https name [] (Some yesterday).

(** *** Settings *)

Inductive value := VUndefined | VNull | VBool (b : bool) | VNumber (n : Z) | VString (s : text).
#[export] Instance value_eq_dec : EqDecision value.
Proof. solve_decision. Defined.

Definition to_string (v : value) : text :=
  match v with
  | VUndefined => codes "undefined"
  | VNull => codes "null"
  | VBool b => codes (if b then "true" else "false")
  | VNumber n => codes (pretty n)
  | VString s => s
  end.

(** [chrome] is the storage of the extension, if the page is one. *)
Record store := Store {
  settings : gmap string value;
  chrome : option (gmap string value);
  localStorage : gmap string text }.
#[export] Instance eta_store : Eta store := fun s => Store (settings s) (chrome s) (localStorage s).

Definition initSettings : M store unit :=
  modify (fun s => s <| settings := default ∅ (chrome s) |>).

Definition setSetting (name : string) (v : value) : M store unit :=
  modify (fun s => s <| settings := <[name := v]> (settings s) |>).

(** [settings[name]] *)
Definition cached (s : store) (name : string) : value := default VUndefined (settings s !! name).

(** What can be kept by the extension's storage: all but undefined. *)
Definition kept (m : gmap string value) : gmap string value := filter (fun p => p.2 <> VUndefined) m.

Definition writeSetting (name : string) (v : value) : M store unit :=
  s ← gets id;
  if decide (cached s name = v) then skip
  else
    setSetting name v;;
    modify (fun s => match chrome s with
                     | Some c => s <| chrome := Some (kept (settings s) ∪ c) |>
                     | None => s <| localStorage := <[name := to_string v]> (localStorage s) |>
                     end).

(** The end of [readSetting]. *)
Definition or_default (value defaultValue : value) : Settings.value :=
  let value := if decide (value = VUndefined) then VNull else value in
  if decide (value = VNull /\ defaultValue <> VUndefined) then defaultValue else value.

Definition readSetting (name : string) (defaultValue : value) : M store value :=
  s ← gets id;
  value ← (if bool_decide (is_Some (settings s !! name)) || bool_decide (is_Some (chrome s))
           then mret (cached s name)
           else
             let value := match localStorage s !! name with Some t => VString t | None => VNull end in
             setSetting name value;; mret value);
  mret (or_default value defaultValue).

Definition eraseSetting (name : string) : M store unit :=
  modify (fun s => s <| settings := delete name (settings s) |>);;
  modify (fun s => match chrome s with
                   | Some c => s <| chrome := Some (delete name c) |>
                   | None => s <| localStorage := delete name (localStorage s) |>
                   end).

(** *** The path of the server *)

(** [l.join(sep)] *)
Fixpoint join (sep : text) (l : list text) : text :=
  match l with
  | [] => []
  | [x] => x
  | x :: l => x ++ sep ++ join sep l
  end.

(** [pathname], [search] and [hash] of a link to a path, and what becomes of an
    assigned [search], are the browser's. *)
Definition injectParamIfMissing (location_of : text -> text * text * text) (set_search : text -> text)
    (path param value : text) : outcome text :=
  let '(pathname, search, hash) := location_of (codes "/" ++ path) in
  param_eq ← encodeURIComponent param;
  let param_eq := param_eq ++ codes "=" in
  let query := match search with [] => [] | _ :: s => split_on 38 s end in
  search ← (if existsb (fun v => bool_decide (is_Some (strip_prefix param_eq v))) query then Ret search
            else v ← encodeURIComponent value;
                 Ret (set_search (codes "?" ++ join (codes "&") (query ++ [param_eq ++ v]))));
  Ret (match pathname with 47 :: p => p | p => p end ++ search ++ hash).

End Settings.

(** ** Logging *)

Module Logging.
Import Localization Settings.

(** A level that is found in the address is the array of the match. *)
Inductive level := LName (s : text) | LMatch (groups : list text).
#[export] Instance level_eq_dec : EqDecision level.
Proof. solve_decision. Defined.

(** Which of the functions write to the console. *)
Record logging := Logging {
  log_level : level; log_Debug : bool; log_Info : bool; log_Warn : bool; log_Error : bool }.
Definition constructor : logging := Logging (LName (codes "warn")) false false false false.

(** [init_logging] of core/util/logging.js *)
Definition main_init_logging (console : bool) (lvl : option level) (this : logging) : outcome unit * logging :=
  let lvl := match lvl with None => log_level this | Some l => l end in
  let this := Logging lvl false false false false in
  if console then
    if decide (lvl = LName (codes "debug")) then (Ret tt, Logging lvl true true true true)
    else if decide (lvl = LName (codes "info")) then (Ret tt, Logging lvl false true true true)
    else if decide (lvl = LName (codes "warn")) then (Ret tt, Logging lvl false false true true)
    else if decide (lvl = LName (codes "error")) then (Ret tt, Logging lvl false false false true)
    else if decide (lvl = LName (codes "none")) then (Ret tt, this)
    else (Throw (Error "invalid logging type"), this)
  else (Ret tt, this).

Definition level_char (c : Z) : bool :=
  ((48 <=? c) && (c <=? 57)) || ((65 <=? c) && (c <=? 90)) || ((97 <=? c) && (c <=? 122))
  || bool_decide (c ∈ codes "._-").
Fixpoint take_level (s : text) : text :=
  match s with
  | [] => []
  | c :: s => if level_char c then c :: take_level s else []
  end.
(** [href.match(/logging=.../)], the first one *)
Fixpoint logging_match (s : text) : option (list text) :=
  match strip_prefix (codes "logging=") s with
  | Some r => Some [codes "logging=" ++ take_level r; take_level r]
  | None => match s with [] => None | _ :: s => logging_match s end
  end.

(** [init_logging] of app/webutil.js *)
Definition init_logging (console : bool) (href : text) (lvl : option text) (this : logging) : outcome unit * logging :=
  match lvl with
  | Some l => main_init_logging console (Some (LName l)) this
  | None => main_init_logging console (LMatch <$> logging_match href) this
  end.

End Logging.

(** ** Lemmas *)

Section Lemmas.
Import Localization Settings Utf8.
Implicit Types (s t : text).

(** *** Percent-encoding *)

Lemma hex_roundtrip n : 0 <= n < 16 -> hex_value (hex_digit n) = Some n.
Proof.
  intros Hn. unfold hex_value, hex_digit. destruct (Z.ltb_spec n 10).
  - rewrite (proj2 (Z.leb_le 48 _)), (proj2 (Z.leb_le _ 57)) by lia. cbn [andb]. f_equal. lia.
  - rewrite (proj2 (Z.leb_gt _ 57)), andb_false_r, (proj2 (Z.leb_le 65 _)), (proj2 (Z.leb_le _ 70)) by lia.
    cbn [andb]. f_equal. lia.
Qed.

Lemma decode_percent run b s : is_byte b -> decode_from run (percent b ++ s) = decode_from (run ++ [b]) s.
Proof.
  intros Hb. unfold is_byte in Hb. cbn -[hex_digit hex_value Z.div Z.modulo Z.mul]. rewrite !hex_roundtrip by zlia.
  do 3 f_equal. zlia.
Qed.

Lemma decode_percents run l s :
  Forall is_byte l -> decode_from run (concat (map percent l) ++ s) = decode_from (run ++ l) s.
Proof.
  intros Hl. revert run. induction Hl as [|b l Hb _ IH]; intros run; [by rewrite app_nil_r|].
  cbn [map concat]. rewrite <- app_assoc, decode_percent, IH, <- app_assoc by done. done.
Qed.

Lemma encode_bytes cp : scalar cp -> Forall is_byte (encode cp).
Proof.
  unfold scalar, encode, is_byte. intros H.
  destruct (Z.ltb_spec cp 0x80); [|destruct (Z.ltb_spec cp 0x800); [|destruct (Z.ltb_spec cp 0x10000)]];
    repeat constructor; zlia.
Qed.

(** The encoding of one character. *)
Definition escape (cp : Z) : text := if unreserved cp then [cp] else concat (map percent (encode cp)).

Lemma unreserved_range c : unreserved c = true -> 32 < c < 127 /\ c <> 37.
Proof.
  unfold unreserved. rewrite !orb_true_iff, !andb_true_iff, !Z.leb_le, bool_decide_eq_true. cbn [codes map String.list_ascii_of_string].
  intros [[[?|?]|?]|H]; [lia..|]. repeat (apply elem_of_cons in H as [->|H]; [cbn; lia|]). by apply elem_of_nil in H.
Qed.

Lemma unreserved_large c : 127 <= c -> unreserved c = false.
Proof. intros H. destruct (unreserved c) eqn:E; [|done]. apply unreserved_range in E. lia. Qed.

Lemma percent_one cp rest :
  scalar cp -> encodeURIComponent (Strings.utf16 cp ++ rest) = r ← encodeURIComponent rest; Ret (escape cp ++ r).
Proof.
  unfold scalar, Strings.utf16, escape. intros H. destruct (Z.ltb_spec cp 0x10000); cbn [app encodeURIComponent].
  - destruct (unreserved cp); [done|]. unfold low_surrogate, high_surrogate.
    destruct (Z.leb_spec 56320 cp), (Z.ltb_spec cp 57344); try lia; cbn [andb];
      destruct (Z.leb_spec 55296 cp), (Z.ltb_spec cp 56320); try lia; done.
  - rewrite !unreserved_large by zlia. unfold low_surrogate, high_surrogate.
    set (hi := 55296 + _). set (lo := 56320 + _).
    assert (Hhi : 55296 <= hi < 56320) by (unfold hi; zlia). assert (Hlo : 56320 <= lo < 57344) by (unfold lo; zlia).
    rewrite (proj2 (Z.leb_gt 56320 hi)), (proj2 (Z.leb_le 55296 hi)), (proj2 (Z.ltb_lt hi 56320)),
      (proj2 (Z.leb_le 56320 lo)), (proj2 (Z.ltb_lt lo 57344)) by lia. cbn [andb].
    replace ((hi - 55296) * 1024 + (lo - 56320) + 65536) with cp by (unfold hi, lo; zlia). done.
Qed.

Lemma encode_all l : Forall scalar l -> encodeURIComponent (concat (map Strings.utf16 l)) = Ret (concat (map escape l)).
Proof. induction 1 as [|cp l H _ IH]; [done|]. cbn [map concat]. by rewrite percent_one, IH. Qed.

Lemma utf16_small cp : cp < 0x10000 -> Strings.utf16 cp = [cp].
Proof. intros H. unfold Strings.utf16. by rewrite (proj2 (Z.ltb_lt cp _)). Qed.

Lemma decode_from_escaped pre l :
  Forall scalar pre -> Forall scalar l ->
  decode_from (concat (map encode pre)) (concat (map escape l)) = Ret (concat (map Strings.utf16 (pre ++ l))).
Proof.
  intros Hpre Hl. revert pre Hpre. induction Hl as [|cp l Hcp _ IH]; intros pre Hpre.
  { rewrite app_nil_r. by apply decode_all. }
  cbn [map concat]. unfold escape at 1. destruct (unreserved cp) eqn:Hu.
  - cbn [app decode_from]. pose proof (unreserved_range _ Hu). rewrite (proj2 (Z.eqb_neq cp 37)) by lia.
    rewrite decode_all by done. specialize (IH [] ltac:(done)). cbn [map concat] in IH. unfold mbind, outcome_bind. rewrite IH.
    rewrite (map_app _ pre (cp :: l)), concat_app. cbn [map concat app]. rewrite (utf16_small cp) by lia. done.
  - rewrite decode_percents by (by apply encode_bytes).
    replace (concat (map encode pre) ++ encode cp) with (concat (map encode (pre ++ [cp])))
      by (rewrite map_app, concat_app; cbn; by rewrite app_nil_r).
    rewrite IH by (apply Forall_app; split; [done|by apply Forall_singleton]). by rewrite <- app_assoc.
Qed.

Lemma escaped_chars l c : Forall scalar l -> c ∈ concat (map escape l) -> unreserved c = true \/ c = 37.
Proof.
  intros Hl Hc. apply list_elem_of_In, in_concat in Hc as (w & Hw & Hc). apply in_map_iff in Hw as (cp & <- & Hcp).
  rewrite Forall_forall in Hl. specialize (Hl cp ltac:(by apply list_elem_of_In)). apply encode_bytes in Hl.
  unfold escape in Hc. destruct (unreserved cp) eqn:Hu; [left; by destruct Hc as [<-|[]]|].
  apply in_concat in Hc as (w & Hw & Hc). apply in_map_iff in Hw as (b & <- & Hb).
  rewrite Forall_forall in Hl. specialize (Hl b ltac:(by apply list_elem_of_In)). unfold is_byte in Hl.
  assert (Hhex : forall n, 0 <= n < 16 -> unreserved (hex_digit n) = true).
  { intros n Hn. unfold unreserved, hex_digit. destruct (Z.ltb_spec n 10).
    - by rewrite (proj2 (Z.leb_le 48 _)), (proj2 (Z.leb_le _ 57)) by lia.
    - rewrite (proj2 (Z.leb_le 65 _)), (proj2 (Z.leb_le _ 90)) by lia. cbn [andb]. by rewrite !orb_true_r. }
  destruct Hc as [<-|[<-|[<-|[]]]]; [by right|left; apply Hhex; zlia..].
Qed.

(** *** Parameters of the address *)

Lemma strip_prefix_app p s : strip_prefix p (p ++ s) = Some s.
Proof. induction p as [|c p IH]; [done|]. cbn. by rewrite Z.eqb_refl. Qed.

Lemma take_until_app stop s rest :
  Forall (fun c => c ∉ stop) s -> (match rest with [] => True | c :: _ => c ∈ stop end) -> take_until stop (s ++ rest) = s.
Proof.
  intros Hs Hr. induction Hs as [|c s Hc _ IH]; cbn [app take_until].
  - destruct rest as [|c rest]; [done|]. cbn [take_until]. by rewrite bool_decide_true.
  - by rewrite bool_decide_false, IH.
Qed.

Lemma last_match_skip seps stop name s rest :
  Forall (fun c => c ∉ seps) s -> last_match seps stop name (s ++ rest) = last_match seps stop name rest.
Proof.
  induction 1 as [|c s Hc _ IH]; [done|]. cbn [app last_match]. rewrite IH, bool_decide_false by done.
  by destruct (last_match _ _ _ rest).
Qed.

Lemma last_match_before seps stop name base s v :
  last_match seps stop name s = Some v -> last_match seps stop name (base ++ s) = Some v.
Proof. intros H. induction base as [|c base IH]; [done|]. cbn [app last_match]. by rewrite IH. Qed.

Lemma last_match_param seps stop name base sep v rest :
  sep ∈ seps -> 61 ∉ seps -> Forall (fun c => c ∉ seps) name -> Forall (fun c => c ∉ seps) v -> Forall (fun c => c ∉ stop) v ->
  (match rest with [] => True | c :: _ => c ∈ stop end) -> last_match seps stop name rest = None ->
  last_match seps stop name (base ++ [sep] ++ name ++ codes "=" ++ v ++ rest) = Some v.
Proof.
  intros Hsep Heq Hn Hv Hv' Hrest Hnone. apply last_match_before. cbn [app last_match].
  replace (last_match seps stop name (name ++ codes "=" ++ v ++ rest)) with (@None text).
  - rewrite bool_decide_true, (app_assoc name), strip_prefix_app by done. cbn. by rewrite take_until_app.
  - rewrite last_match_skip by done. change (codes "=") with [61].
    rewrite last_match_skip by (by apply Forall_singleton). by rewrite last_match_skip.
Qed.

Lemma escaped_free (bad : list Z) l :
  Forall scalar l -> Forall (fun c => unreserved c = false /\ c <> 37) bad ->
  Forall (fun c => c ∉ bad) (concat (map escape l)).
Proof.
  intros Hl Hbad. apply Forall_forall. intros c Hc Hin. rewrite Forall_forall in Hbad. destruct (Hbad c Hin) as [Hu Hp].
  destruct (escaped_chars l c Hl Hc); congruence.
Qed.

(** *** Settings *)

(** The cache agrees with the storage of the browser. *)
Definition synced (st : store) : Prop :=
  chrome st = None /\ forall name v, settings st !! name = Some v ->
    v = VNull /\ localStorage st !! name = None
    \/ v <> VNull /\ v <> VUndefined /\ localStorage st !! name = Some (to_string v).

(** What a page has to do with its settings, without [setSetting]. *)
Inductive access := Write (name : string) (v : value) | Read (name : string) (defaultValue : value) | Erase (name : string).
Definition do_access (a : access) : M store unit :=
  match a with
  | Write name v => writeSetting name v
  | Read name d => readSetting name d;; skip
  | Erase name => eraseSetting name
  end.

(** A value a control has. *)
Definition from_control (a : access) : Prop :=
  match a with Write _ v => v <> VNull /\ v <> VUndefined | _ => True end.

Lemma write_run name v st :
  chrome st = None -> cached st name <> v ->
  writeSetting name v st = (Ret tt, st <| settings := <[name := v]> (settings st) |>
                                       <| localStorage := <[name := to_string v]> (localStorage st) |>).
Proof.
  intros Hc Hv. unfold writeSetting, setSetting. rewrite bind_run, gets_run. cbn [id]. rewrite decide_False by done.
  rewrite bind_run, modify_run. unfold modify. cbn. by rewrite Hc.
Qed.

Lemma read_run name d st :
  chrome st = None ->
  readSetting name d st =
    let v := match settings st !! name with
             | Some v => v
             | None => match localStorage st !! name with Some t => VString t | None => VNull end
             end in
    (Ret (or_default v d),
     match settings st !! name with Some _ => st | None => st <| settings := <[name := v]> (settings st) |> end).
Proof.
  intros Hc. unfold readSetting, setSetting, cached. rewrite bind_run, gets_run. cbn [id]. rewrite Hc.
  rewrite (bool_decide_false (is_Some None)) by (by intros []). rewrite orb_false_r.
  destruct (settings st !! name) as [v|] eqn:E; [rewrite bool_decide_true by done|rewrite bool_decide_false by (by intros [])].
  - rewrite bind_run. unfold mret at 1, M_ret at 1. done.
  - rewrite bind_run, bind_run, modify_run. unfold mret at 1, M_ret at 1. done.
Qed.

Lemma or_default_null d : or_default VNull d = if decide (d = VUndefined) then VNull else d.
Proof. by destruct d. Qed.

Lemma or_default_value v d : v <> VNull -> v <> VUndefined -> or_default v d = v.
Proof. by destruct v. Qed.

Lemma access_synced a st : from_control a -> synced st -> synced (do_access a st).2.
Proof.
  intros Ha [Hc Hs]. destruct a as [name v|name d|name]; cbn in Ha |- *.
  - destruct (decide (cached st name = v)) as [E|E].
    { unfold writeSetting. rewrite bind_run, gets_run. cbn [id]. by rewrite decide_True. }
    rewrite write_run by done. cbn [snd]. split; [done|]. cbn. intros name' v'.
    destruct (decide (name' = name)) as [->|Hn]; [|rewrite !lookup_insert_ne by done; apply Hs].
    rewrite !lookup_insert_eq. intros [= <-]. right. destruct Ha. by split_and!.
  - rewrite bind_run, read_run by done. cbv zeta. cbn [snd]. destruct (settings st !! name) eqn:E; [done|]. split; [done|].
    cbn. intros name' v'. destruct (decide (name' = name)) as [->|Hn]; [|rewrite lookup_insert_ne by done; apply Hs].
    rewrite lookup_insert_eq. intros [= <-]. destruct (localStorage st !! name); [right|left]; done.
  - unfold eraseSetting. rewrite bind_run, modify_run. unfold modify. cbn. rewrite Hc. split; [done|]. cbn. intros name' v'.
    destruct (decide (name' = name)) as [->|Hn]; [by rewrite lookup_delete_eq|]. rewrite !lookup_delete_ne by done. apply Hs.
Qed.

End Lemmas.

(** ** Properties *)

Section Properties.
Import Localization Settings Utf8 Logging.

(** [C28] What is put into the address is read from it, under a literal name: of any Unicode text the
    percent-encoded form, after a separator, the name and an equals sign, in the
    fragment or in the query string, with anything before it and with other
    parameters after it, is found and decoded to the text; the fragment is asked
    first; and a parameter that is in neither has the default. *)
Theorem getConfigVar_finds (l : list Z) (base name rest : text) (sep : Z) :
  let value := concat (map Strings.utf16 l) in
  Forall scalar l -> Forall (fun c => c ∉ codes "?&#") name -> 
  exists e, encodeURIComponent value = Ret e
  /\ (sep ∈ codes "&#" -> (match rest with [] => True | c :: _ => c = 38 end) ->
      last_match (codes "&#") (codes "&") name rest = None ->
      forall href defVal, getConfigVar href (base ++ [sep] ++ name ++ codes "=" ++ e ++ rest) name defVal = Ret (Some value))
  /\ (sep ∈ codes "?&" -> (match rest with [] => True | c :: _ => c ∈ codes "&#" end) ->
      last_match (codes "?&") (codes "&#") name rest = None ->
      forall hash defVal, last_match (codes "&#") (codes "&") name hash = None ->
      getConfigVar (base ++ [sep] ++ name ++ codes "=" ++ e ++ rest) hash name defVal = Ret (Some value))
  /\ (forall href hash defVal, last_match (codes "&#") (codes "&") name hash = None ->
      last_match (codes "?&") (codes "&#") name href = None -> getConfigVar href hash name defVal = Ret defVal).
Proof.
  intros value Hl Hn. exists (concat (map escape l)). split; [by apply encode_all|].
  assert (Hdec : decodeURIComponent (concat (map escape l)) = Ret value) by (by apply (decode_from_escaped [] l)).
  assert (Hfree : forall bad, Forall (fun c => unreserved c = false /\ c <> 37) bad -> Forall (fun c => c ∉ bad) (concat (map escape l)))
    by (intros; by apply escaped_free).
  assert (Hname : forall seps : list Z, (forall c, c ∈ seps -> c ∈ codes "?&#") -> Forall (fun c => c ∉ seps) name).
  { intros seps Hs. eapply Forall_impl; [exact Hn|]. naive_solver. }
  unfold getConfigVar, getHashVar, getQueryVar, decode_match, mbind, outcome_bind. split; [|split].
  - intros Hsep Hr Hrest href defVal. rewrite last_match_param; [by rewrite Hdec|done| | | | | |done].
    + by apply (bool_decide_unpack (61 ∉ _)).
    + apply Hname. intros c Hc. apply elem_of_cons. by right.
    + apply Hfree. by repeat constructor.
    + apply Hfree. by repeat constructor.
    + destruct rest as [|c rest]; [done|]. subst c. by left.
  - intros Hsep Hr Hrest hash defVal ->. rewrite last_match_param; [by rewrite Hdec|done| | | | |done|done].
    + by apply (bool_decide_unpack (61 ∉ _)).
    + apply Hname. intros c [->|[->|H%elem_of_nil]%elem_of_cons]%elem_of_cons; [by left|by right; left|done].
    + apply Hfree. by repeat constructor.
    + apply Hfree. by repeat constructor.
  - by intros href hash defVal -> ->.
Qed.

(** [C32] Settings outlive the page, in a browser that keeps them in [localStorage]
    (and not in the storage of a Chrome application): after any reading, writing of
    values of controls and erasing, in any order, a setting that is read on the
    reloaded page has the value it had before, as the text the storage keeps it as,
    and the default if it had none.  [setSetting] is not among these: it keeps a value
    for the page only, and may keep a later writing of the same value from the storage
    ([saved_in_vain]). *)
Theorem settings_persist (l : list access) (st : store) (name : string) (defaultValue : value) :
  chrome st = None -> Forall from_control l ->
  let st1 := fold_left (fun st a => (do_access a st).2) l ((initSettings st).2) in
  let before := (readSetting name VUndefined st1).1 in
  (readSetting name defaultValue ((initSettings st1).2)).1 =
    v ← before;
    Ret (if decide (v = VNull) then (if decide (defaultValue = VUndefined) then VNull else defaultValue)
         else VString (to_string v)).
Proof.
  intros Hc Hl st1 before.
  assert (Hs : synced st1).
  { unfold st1. assert (H0 : synced (initSettings st).2).
    { unfold initSettings, modify. cbn. rewrite Hc. split; [done|]. intros ? ? H. cbn in H. by rewrite lookup_empty in H. }
    revert H0. generalize (initSettings st).2. induction Hl as [|a l Ha _ IH]; intros s0 H0; [done|].
    cbn [fold_left]. apply IH. by apply access_synced. }
  destruct Hs as [Hc1 Hs]. unfold before. rewrite !read_run; [|done..]. cbv zeta. cbn [fst mbind outcome_bind].
  unfold initSettings, modify. cbn. rewrite Hc1. cbn. rewrite lookup_empty.
  destruct (settings st1 !! name) as [v|] eqn:E.
  - destruct (Hs _ _ E) as [[-> ->]|(Hn & Hu & ->)]; [by rewrite !or_default_null|].
    rewrite (or_default_value v) by done. by destruct v.
  - destruct (localStorage st1 !! name) as [t|]; [done|]. by rewrite !or_default_null.
Qed.

(** A logging level in the address is never set: the array of the match is no level,
    so that it stops all logging and throws; and it stays, so that setting up logging
    again throws too. *)
Theorem logging_parameter_throws (href : text) (groups : list text) (this : logging) :
  logging_match href = Some groups ->
  init_logging true href None this
    = (Throw (Error "invalid logging type"), Logging (LMatch groups) false false false false)
  /\ main_init_logging true None (Logging (LMatch groups) false false false false)
    = (Throw (Error "invalid logging type"), Logging (LMatch groups) false false false false).
Proof.
  intros H. unfold init_logging, main_init_logging. rewrite H. cbn [fmap option_fmap option_map log_level].
  by rewrite !decide_False by discriminate.
Qed.

End Properties.

(** ** Examples *)

Section Examples.
Import Localization Settings Utf8 Logging.

Definition page : text := codes "https://host/vnc.html?".

(** The password "a&b ü". *)
Lemma getConfigVar_finds_witness :
  exists e, e = codes "a%26b%20%C3%BC" /\
    getConfigVar (page ++ codes "x=1" ++ [38] ++ codes "password" ++ codes "=" ++ e ++ codes "#host=h") (codes "#host=h")
      (codes "password") None = Ret (Some [97; 38; 98; 32; 252]).
Proof.
  destruct (getConfigVar_finds [97; 38; 98; 32; 252] (page ++ codes "x=1") (codes "password") (codes "#host=h") 38)
    as (e & He & _ & H & _).
  - repeat (apply Forall_cons_2; [unfold scalar; lia|]). by apply Forall_nil_2.
  - apply (bool_decide_unpack _). vm_compute. exact I.
  - assert (E : encodeURIComponent (concat (map Strings.utf16 [97; 38; 98; 32; 252])) = Ret (codes "a%26b%20%C3%BC"))
      by (vm_compute; reflexivity).
    rewrite He in E. injection E as ->. exists (codes "a%26b%20%C3%BC"). split; [reflexivity|].
    assert (Hv : concat (map Strings.utf16 [97; 38; 98; 32; 252]) = [97; 38; 98; 32; 252]) by (vm_compute; reflexivity).
    rewrite Hv in H. rewrite (app_assoc page). apply H; [by right; left|by right; left|reflexivity|reflexivity].
Defined.

Definition new_store : store := Store ∅ None ∅.

Lemma settings_persist_witness :
  let st := fold_left (fun st a => (do_access a st).2) [Write "shared" (VBool false); Read "path" (VString [])] new_store in
  (readSetting "shared" (VBool true) ((initSettings st).2)).1 = Ret (VString (codes "false")).
Proof.
  intros st. unfold st. change new_store with ((initSettings new_store).2) at 1.
  rewrite (settings_persist [Write "shared" (VBool false); Read "path" (VString [])] new_store "shared" (VBool true)).
  - vm_compute. reflexivity.
  - reflexivity.
  - by repeat constructor.
Defined.

(** But a value that was only put into the cache is not written when it is saved: the
    page has forgotten it when it is loaded again. *)
Example saved_in_vain :
  let st := (writeSetting "path" (VString (codes "p")) (setSetting "path" (VString (codes "p")) new_store).2).2 in
  (readSetting "path" VUndefined st).1 = Ret (VString (codes "p"))
  /\ (readSetting "path" VUndefined ((initSettings st).2)).1 = Ret VNull.
Proof. by vm_compute. Qed.

Lemma logging_parameter_throws_witness :
  (init_logging true (page ++ codes "logging=debug") None Logging.constructor).1 = Throw (Error "invalid logging type").
Proof.
  destruct (logging_parameter_throws (page ++ codes "logging=debug") [codes "logging=debug"; codes "debug"] Logging.constructor)
    as [E _]; [vm_compute; reflexivity|]. by rewrite E.
Defined.

End Examples.
