(* ===== verification/Keys.v ===== *)
(** * Key tables of noVNC
    (src/ControlServer/web/www/novnc/core/input/xtscancodes.js and keysym.js)

    [XtScancode] gives the scan code of a physical key by its DOM code; the
    keysyms are those the client sends of its own accord. *)

From S2P Require Import Prelude.

Module Keys.

Definition XtScancode : list (string * Z) := [
  ("Again", 0xe005); ("AltLeft", 0x38); ("AltRight", 0xe038); ("ArrowDown", 0xe050);
  ("ArrowLeft", 0xe04b); ("ArrowRight", 0xe04d); ("ArrowUp", 0xe048);
  ("AudioVolumeDown", 0xe02e); ("AudioVolumeMute", 0xe020); ("AudioVolumeUp", 0xe030);
  ("Backquote", 0x29); ("Backslash", 0x2b); ("Backspace", 0xe); ("BracketLeft", 0x1a);
  ("BracketRight", 0x1b); ("BrowserBack", 0xe06a); ("BrowserFavorites", 0xe066);
  ("BrowserForward", 0xe069); ("BrowserHome", 0xe032); ("BrowserRefresh", 0xe067);
  ("BrowserSearch", 0xe065); ("BrowserStop", 0xe068); ("CapsLock", 0x3a); ("Comma", 0x33);
  ("ContextMenu", 0xe05d); ("ControlLeft", 0x1d); ("ControlRight", 0xe01d); ("Convert", 0x79);
  ("Copy", 0xe078); ("Cut", 0xe03c); ("Delete", 0xe053); ("Digit0", 0xb); ("Digit1", 0x2);
  ("Digit2", 0x3); ("Digit3", 0x4); ("Digit4", 0x5); ("Digit5", 0x6); ("Digit6", 0x7);
  ("Digit7", 0x8); ("Digit8", 0x9); ("Digit9", 0xa); ("Eject", 0xe07d); ("End", 0xe04f);
  ("Enter", 0x1c); ("Equal", 0xd); ("Escape", 0x1); ("F1", 0x3b); ("F10", 0x44); ("F11", 0x57);
  ("F12", 0x58); ("F13", 0x5d); ("F14", 0x5e); ("F15", 0x5f); ("F16", 0x55); ("F17", 0xe003);
  ("F18", 0xe077); ("F19", 0xe004); ("F2", 0x3c); ("F20", 0x5a); ("F21", 0x74); ("F22", 0xe079);
  ("F23", 0x6d); ("F24", 0x6f); ("F3", 0x3d); ("F4", 0x3e); ("F5", 0x3f); ("F6", 0x40);
  ("F7", 0x41); ("F8", 0x42); ("F9", 0x43); ("Find", 0xe041); ("Help", 0xe075);
  ("Hiragana", 0x77); ("Home", 0xe047); ("Insert", 0xe052); ("IntlBackslash", 0x56);
  ("IntlRo", 0x73); ("IntlYen", 0x7d); ("KanaMode", 0x70); ("Katakana", 0x78); ("KeyA", 0x1e);
  ("KeyB", 0x30); ("KeyC", 0x2e); ("KeyD", 0x20); ("KeyE", 0x12); ("KeyF", 0x21); ("KeyG", 0x22);
  ("KeyH", 0x23); ("KeyI", 0x17); ("KeyJ", 0x24); ("KeyK", 0x25); ("KeyL", 0x26); ("KeyM", 0x32);
  ("KeyN", 0x31); ("KeyO", 0x18); ("KeyP", 0x19); ("KeyQ", 0x10); ("KeyR", 0x13); ("KeyS", 0x1f);
  ("KeyT", 0x14); ("KeyU", 0x16); ("KeyV", 0x2f); ("KeyW", 0x11); ("KeyX", 0x2d); ("KeyY", 0x15);
  ("KeyZ", 0x2c); ("Lang3", 0x78); ("Lang4", 0x77); ("Lang5", 0x76); ("LaunchApp1", 0xe06b);
  ("LaunchApp2", 0xe021); ("LaunchMail", 0xe06c); ("MediaPlayPause", 0xe022);
  ("MediaSelect", 0xe06d); ("MediaStop", 0xe024); ("MediaTrackNext", 0xe019);
  ("MediaTrackPrevious", 0xe010); ("MetaLeft", 0xe05b); ("MetaRight", 0xe05c); ("Minus", 0xc);
  ("NonConvert", 0x7b); ("NumLock", 0x45); ("Numpad0", 0x52); ("Numpad1", 0x4f);
  ("Numpad2", 0x50); ("Numpad3", 0x51); ("Numpad4", 0x4b); ("Numpad5", 0x4c); ("Numpad6", 0x4d);
  ("Numpad7", 0x47); ("Numpad8", 0x48); ("Numpad9", 0x49); ("NumpadAdd", 0x4e);
  ("NumpadComma", 0x7e); ("NumpadDecimal", 0x53); ("NumpadDivide", 0xe035);
  ("NumpadEnter", 0xe01c); ("NumpadEqual", 0x59); ("NumpadMultiply", 0x37);
  ("NumpadParenLeft", 0xe076); ("NumpadParenRight", 0xe07b); ("NumpadSubtract", 0x4a);
  ("Open", 0x64); ("PageDown", 0xe051); ("PageUp", 0xe049); ("Paste", 0x65); ("Pause", 0xe046);
  ("Period", 0x34); ("Power", 0xe05e); ("PrintScreen", 0x54); ("Props", 0xe006); ("Quote", 0x28);
  ("ScrollLock", 0x46); ("Semicolon", 0x27); ("ShiftLeft", 0x2a); ("ShiftRight", 0x36);
  ("Slash", 0x35); ("Sleep", 0xe05f); ("Space", 0x39); ("Suspend", 0xe025); ("Tab", 0xf);
  ("Undo", 0xe007); ("WakeUp", 0xe063)
]%string.

(** [XtScancode[code]]; [None] is [undefined]. *)
Fixpoint lookup_code (table : list (string * Z)) (code : string) : option Z :=
  match table with
  | [] => None
  | (c, n) :: table => if String.eqb c code then Some n else lookup_code table code
  end.
Definition scancode : string -> option Z := lookup_code XtScancode.

Definition XK_Control_L : Z := 0xffe3.
Definition XK_Alt_L : Z := 0xffe9.
Definition XK_Delete : Z := 0xffff.

End Keys.
