(* ===== verification/Script.v ===== *)
(** * A little JavaScript
    (the language of what src/ControlServer/web/www/novnc/utils/genkeysymdef.js prints)

    A lexer, a parser and an evaluator of the part of JavaScript that the generated
    module is written in: comments, a table of numbers, and a function of one number
    with [if], [const] and [return].  What is outside this part has no meaning here
    ([None]); what is inside has that of ECMAScript, for integers a Number holds
    exactly. *)

From S2P Require Import Prelude.
Local Open Scope Z_scope.

Module Script.
Abbreviation text := (list Z).

(** ** Tokens *)

Inductive token := Num (n : Z) | Id (x : string) | Op (o : string) | Bad.

Definition hex_digit (c : Z) : option Z :=
  if (48 <=? c) && (c <=? 57) then Some (c - 48)
  else if (65 <=? c) && (c <=? 70) then Some (c - 55)
  else if (97 <=? c) && (c <=? 102) then Some (c - 87)
  else None.
Definition digit (c : Z) : option Z := if (48 <=? c) && (c <=? 57) then Some (c - 48) else None.

Definition word_char (c : Z) : bool :=
  (97 <=? c) && (c <=? 122) || (65 <=? c) && (c <=? 90) || (48 <=? c) && (c <=? 57) || (c =? 95) || (c =? 36).
Definition white (c : Z) : bool := bool_decide (c ∈ [9; 10; 11; 12; 13; 32]).
Definition line_end (c : Z) : bool := bool_decide (c ∈ [10; 13; 0x2028; 0x2029]).
Definition punctuation : text := codes "{}()[];:,=!<>&|/*+-.".

Definition string_of (t : text) : string :=
  String.string_of_list_ascii (map (fun c => Ascii.ascii_of_nat (Z.to_nat c)) t).

(** The value of digits in a base. *)
Fixpoint number_from (base : Z) (value : Z -> option Z) (n : Z) (t : text) : option Z :=
  match t with
  | [] => Some n
  | c :: t => v ← value c; number_from base value (base * n + v) t
  end.

(** A name, or a number: hexadecimal after "0x"; decimal otherwise, and then without a
    superfluous zero. *)
Definition word_token (w : text) : token :=
  match w with
  | 48 :: 120 :: ((_ :: _) as ds) =>
      match number_from 16 hex_digit 0 ds with Some n => Num n | None => Bad end
  | [48] => Num 0
  | c :: _ =>
      match digit c with
      | None => Id (string_of w)
      | Some 0 => Bad
      | Some _ => match number_from 10 digit 0 w with Some n => Num n | None => Bad end
      end
  | [] => Bad
  end.

(** What the lexer is in: nothing, a word, an operator, a comment (of lines: was the
    last character an asterisk?). *)
Inductive mode := Clean | Word (w : text) | Operator (o : text) | Line | Block (star : bool) | Stuck.

(** Operators of more than one character, and their beginnings. *)
Definition longer : list text :=
  map codes ["=="; "==="; "=>"; "!="; "!=="; "<="; ">="; "&&"; "||"; "++"; "--"; "+="; "-="; "**"; "<<"; ">>"; ">>>"].

Definition start (c : Z) : mode :=
  if white c || line_end c then Clean
  else if word_char c then Word [c]
  else if bool_decide (c ∈ punctuation) then Operator [c]
  else Stuck.

Definition lex_step (m : mode) (c : Z) : list token * mode :=
  match m with
  | Clean => ([], start c)
  | Word w => if word_char c then ([], Word (w ++ [c])) else ([word_token w], start c)
  | Operator o =>
      if bool_decide (o ++ [c] = codes "//") then ([], Line)
      else if bool_decide (o ++ [c] = codes "/*") then ([], Block false)
      else if bool_decide (o ++ [c] ∈ longer) then ([], Operator (o ++ [c]))
      else ([Op (string_of o)], start c)
  | Line => if line_end c then ([], Clean) else ([], Line)
  | Block star => if star && (c =? 47) then ([], Clean) else ([], Block (c =? 42))
  | Stuck => ([], Stuck)
  end.

Fixpoint lex_from (m : mode) (t : text) : list token * mode :=
  match t with
  | [] => ([], m)
  | c :: t => let '(l, m) := lex_step m c in let '(l', m) := lex_from m t in (l ++ l', m)
  end.

Definition lex (t : text) : list token :=
  let '(l, m) := lex_from Clean t in
  l ++ match m with
       | Clean | Line => []
       | Word w => [word_token w]
       | Operator o => [Op (string_of o)]
       | Block _ | Stuck => [Bad]
       end.

(** ** Programs *)

(** [ETable x e] is [x\[e\]], for the name [x] of a table. *)
Inductive expr := ENum (n : Z) | EId (x : string) | ETable (x : string) (e : expr) | EBin (o : string) (a b : expr).

Inductive block :=
  | Done
  | Return (e : expr) (rest : block)
  | Const (x : string) (e : expr) (rest : block)
  | If (e : expr) (body rest : block).

(** [const name = { ... }; export default { lookup(param) { body }, };] *)
Record program := Program { table_name : string; entries : list (Z * Z); param : string; body : block }.

Definition binary (o : string) : bool := bool_decide (o ∈ [">="; "<="; "&&"; "!=="; "|"]%string).
Definition keyword (x : string) : bool :=
  bool_decide (x ∈ ["const"; "export"; "default"; "if"; "return"; "else"; "let"; "var"; "function"]%string).

Local Open Scope string_scope.

(** An operand, or two of them with an operator between. *)
Fixpoint parse_expr (fuel : nat) (ts : list token) : option (expr * list token) :=
  match fuel with
  | O => None
  | S fuel =>
      let operand ts :=
        match ts with
        | Num n :: ts => Some (ENum n, ts)
        | Op "(" :: ts =>
            match parse_expr fuel ts with Some (e, Op ")" :: ts) => Some (e, ts) | _ => None end
        | Id x :: Op "[" :: ts =>
            match parse_expr fuel ts with
            | Some (e, Op "]" :: ts) => if keyword x then None else Some (ETable x e, ts)
            | _ => None
            end
        | Id x :: ts => if keyword x then None else Some (EId x, ts)
        | _ => None
        end in
      match operand ts with
      | Some (a, (Op o :: ts') as rest) =>
          if binary o then match operand ts' with Some (b, ts) => Some (EBin o a b, ts) | None => None end
          else Some (a, rest)
      | r => r
      end
  end.

(** Statements up to the closing brace. *)
Fixpoint parse_block (fuel : nat) (ts : list token) : option (block * list token) :=
  match fuel with
  | O => None
  | S fuel =>
      match ts with
      | Op "}" :: ts => Some (Done, ts)
      | Id "return" :: ts =>
          match parse_expr fuel ts with
          | Some (e, Op ";" :: ts) => '(b, ts) ← parse_block fuel ts; Some (Return e b, ts)
          | _ => None
          end
      | Id "const" :: Id x :: Op "=" :: ts =>
          match parse_expr fuel ts with
          | Some (e, Op ";" :: ts) => '(b, ts) ← parse_block fuel ts; if keyword x then None else Some (Const x e b, ts)
          | _ => None
          end
      | Id "if" :: Op "(" :: ts =>
          match parse_expr fuel ts with
          | Some (e, Op ")" :: Op "{" :: ts) =>
              '(b, ts) ← parse_block fuel ts; '(b', ts) ← parse_block fuel ts; Some (If e b b', ts)
          | _ => None
          end
      | _ => None
      end
  end.

(** The entries of a table, each with a comma, up to the closing brace. *)
Fixpoint parse_entries (ts : list token) : option (list (Z * Z) * list token) :=
  match ts with
  | Op "}" :: ts => Some ([], ts)
  | Num k :: Op ":" :: Num v :: Op "," :: ts => '(l, ts) ← parse_entries ts; Some ((k, v) :: l, ts)
  | _ => None
  end.

Definition parse_export (t : string) (l : list (Z * Z)) (ts : list token) : option program :=
  match ts with
  | Op ";" :: Id "export" :: Id "default" :: Op "{" :: Id "lookup" :: Op "(" :: Id u :: Op ")" :: Op "{" :: ts =>
      match parse_block (length ts) ts with
      | Some (b, [Op ","; Op "}"; Op ";"]) => if keyword t || keyword u then None else Some (Program t l u b)
      | _ => None
      end
  | _ => None
  end.

Definition parse_module (ts : list token) : option program :=
  match ts with
  | Id "const" :: Id t :: Op "=" :: Op "{" :: ts =>
      match parse_entries ts with Some (l, ts) => parse_export t l ts | None => None end
  | _ => None
  end.

(** ** What a program does *)

Inductive value := VNum (n : Z) | VBool (b : bool) | VUndefined.

(** Of equal keys the last counts. *)
Fixpoint table_get (l : list (Z * Z)) (u : Z) : option Z :=
  match l with
  | [] => None
  | (k, v) :: l => match table_get l u with Some w => Some w | None => if (k =? u)%Z then Some v else None end
  end.

Definition operate (o : string) (a b : value) : option value :=
  match a, b with
  | VNum m, VNum n =>
      if String.eqb o ">=" then Some (VBool (n <=? m)%Z)
      else if String.eqb o "<=" then Some (VBool (m <=? n)%Z)
      else if String.eqb o "|" then Some (VNum (js_or m n))
      else if String.eqb o "!==" then Some (VBool (negb (m =? n)%Z))
      else None
  | VBool m, VBool n => if String.eqb o "&&" then Some (VBool (m && n)) else None
  | VNum _, VUndefined | VUndefined, VNum _ => if String.eqb o "!==" then Some (VBool true) else None
  | VUndefined, VUndefined => if String.eqb o "!==" then Some (VBool false) else None
  | _, _ => None
  end.

Fixpoint env_get (env : list (string * value)) (x : string) : option value :=
  match env with
  | [] => None
  | (y, v) :: env => if String.eqb y x then Some v else env_get env x
  end.

Section Run.
Context (p : program).

Fixpoint eval (env : list (string * value)) (e : expr) : option value :=
  match e with
  | ENum n => Some (VNum n)
  | EId x =>
      match env_get env x with
      | Some v => Some v
      | None => if String.eqb x "undefined" then Some VUndefined else None
      end
  | ETable x e =>
      match env_get env x, eval env e with
      | None, Some (VNum n) =>
          if String.eqb x (table_name p)
          then Some (match table_get (entries p) n with Some v => VNum v | None => VUndefined end) else None
      | _, _ => None
      end
  | EBin o a b => va ← eval env a; vb ← eval env b; operate o va vb
  end.

(** [Some None]: the block ends without a return. *)
Fixpoint exec (env : list (string * value)) (b : block) : option (option value) :=
  match b with
  | Done => Some None
  | Return e _ => v ← eval env e; Some (Some v)
  | Const x e rest => v ← eval env e; exec ((x, v) :: env) rest
  | If e body rest =>
      v ← eval env e;
      match v with
      | VBool true => r ← exec env body; match r with Some v => Some (Some v) | None => exec env rest end
      | VBool false => exec env rest
      | _ => None
      end
  end.

End Run.

(** [lookup(u)] of a module, given as text. *)
Definition call_lookup (t : text) (u : Z) : option value :=
  p ← parse_module (lex t);
  r ← exec p [(param p, VNum u)] (body p);
  r.

End Script.

(** ** Lemmas *)

Section Lemmas.
Import Script.

Lemma lex_from_app m t t' :
  lex_from m (t ++ t') = let '(l, m) := lex_from m t in let '(l', m) := lex_from m t' in (l ++ l', m).
Proof.
  revert m. induction t as [|c t IH]; intros m; [cbn; by destruct (lex_from m t')|].
  cbn [app lex_from]. destruct (lex_step m c) as [l m1]. rewrite IH.
  destruct (lex_from m1 t) as [l1 m2]. destruct (lex_from m2 t') as [l2 m3]. by rewrite app_assoc.
Qed.

Lemma lex_then m m1 m2 t t' l l' :
  lex_from m t = (l, m1) -> lex_from m1 t' = (l', m2) -> lex_from m (t ++ t') = (l ++ l', m2).
Proof. intros E E'. by rewrite lex_from_app, E, E'. Qed.

Lemma lex_concat {A} (f : A -> text) (g : A -> list token) l :
  Forall (fun x => lex_from Clean (f x) = (g x, Clean)) l ->
  lex_from Clean (concat (map f l)) = (concat (map g l), Clean).
Proof. induction 1 as [|x l Hx _ IH]; [done|]. cbn [map concat]. by eapply lex_then. Qed.

Lemma lex_word w t : Forall (fun c => word_char c = true) t -> lex_from (Word w) t = ([], Word (w ++ t)).
Proof.
  intros Ht. revert w. induction Ht as [|c t Hc _ IH]; intros w; [by rewrite app_nil_r|].
  cbn [lex_from lex_step]. rewrite Hc, IH. by rewrite <- app_assoc.
Qed.

Lemma lex_line t : Forall (fun c => line_end c = false) t -> lex_from Line t = ([], Line).
Proof. induction 1 as [|c t Hc _ IH]; [done|]. cbn [lex_from lex_step]. by rewrite Hc, IH. Qed.

(** A table of rows. *)
Definition entry_tokens (p : Z * Z) : list token := [Num p.1; Op ":"; Num p.2; Op ","]%string.

Lemma parse_entries_tokens l rest :
  parse_entries (concat (map entry_tokens l) ++ Op "}" :: rest) = Some (l, rest).
Proof.
  induction l as [|[k v] l IH]; [done|]. cbn [map concat entry_tokens app fst snd parse_entries].
  by rewrite IH.
Qed.

Lemma table_get_nodup l u v : NoDup l.*1 -> (u, v) ∈ l -> table_get l u = Some v.
Proof.
  induction l as [|[k w] l IH]; [by intros _ ?%elem_of_nil|]. cbn. rewrite NoDup_cons. intros [Hk Hn] [E|Hin]%elem_of_cons.
  - injection E as <- <-. destruct (table_get l u) as [x|] eqn:E; [|by rewrite Z.eqb_refl].
    destruct Hk. clear -E. induction l as [|[k w'] l IH]; [done|]. cbn in *. destruct (table_get l u) as [y|].
    + right. by apply IH.
    + destruct (Z.eqb_spec k u) as [->|]; [by left|done].
  - by rewrite IH.
Qed.

Lemma table_get_none l u : u ∉ l.*1 -> table_get l u = None.
Proof.
  induction l as [|[k w] l IH]; [done|]. cbn. intros [Hk Hl]%not_elem_of_cons. rewrite IH by done.
  by rewrite (proj2 (Z.eqb_neq k u)) by done.
Qed.

End Lemmas.
