(* ===== verification/Generator.v ===== *)
(** * The generator of the keysym table
    (src/ControlServer/web/www/novnc/utils/genkeysymdef.js)

    The script reads the X11 header keysymdef.h and prints core/input/keysymdef.js, the
    table and the [lookup] of [Keysyms].  Module [Regex] has the regular expressions of
    ECMAScript, as far as the script uses them; what is printed is read and run by [Script].  A
    hexadecimal number of more than 13 digits, which a Number rounds, is kept exact. *)

From S2P Require Import Prelude Settings Keysyms Script.
From stdpp Require Import sorting.
Local Open Scope Z_scope.

(** ** Regular expressions *)

Module Regex.
Abbreviation text := (list Z).

Inductive regex :=
  | Char (p : Z -> bool)
  | Seq (r s : regex)
  | Star (r : regex)                  (* greedy *)
  | Opt (r : regex)                   (* greedy *)
  | Group (n : nat) (r : regex)
  | Empty
  | Bol | Eol.                        (* with the flag m *)

Definition line_terminator (c : Z) : bool := bool_decide (c ∈ [10; 13; 0x2028; 0x2029]).

(** Where the matcher is: the character before, what follows, and the groups. *)
Record state := State { before : option Z; rest : text; groups : list (nat * text) }.

(** Backtracking, in the order of ECMAScript: the first way to match [r] that [k] can
    go on from.  A round of a star that matches nothing is not repeated. *)
Fixpoint matches (r : regex) (k : state -> option state) (s : state) : option state :=
  match r with
  | Char p =>
      match rest s with
      | c :: t => if p c then k (State (Some c) t (groups s)) else None
      | [] => None
      end
  | Seq r1 r2 => matches r1 (matches r2 k) s
  | Star r =>
      (fix star (fuel : nat) (s : state) : option state :=
         match fuel with
         | O => k s
         | S fuel =>
             match matches r (fun s' => if (length (rest s') <? length (rest s))%nat then star fuel s' else None) s with
             | Some x => Some x
             | None => k s
             end
         end) (length (rest s)) s
  | Opt r => match matches r k s with Some x => Some x | None => k s end
  | Group n r =>
      matches r (fun s' => k (State (before s') (rest s')
        ((n, take (length (rest s) - length (rest s')) (rest s)) :: groups s'))) s
  | Empty => k s
  | Bol => match before s with None => k s | Some c => if line_terminator c then k s else None end
  | Eol => match rest s with [] => k s | c :: _ => if line_terminator c then k s else None end
  end.

(** The leftmost match. *)
Fixpoint exec_from (r : regex) (b : option Z) (t : text) : option state :=
  match matches r Some (State b t []) with
  | Some s => Some s
  | None => match t with [] => None | c :: t => exec_from r (Some c) t end
  end.
Definition exec (r : regex) (t : text) : option state := exec_from r None t.

(** [result[n]]; [None] is undefined.  The group of the last match counts. *)
Definition group (n : nat) (s : state) : option text :=
  list_find (fun g => g.1 = n) (groups s) ≫= fun p => Some p.2.2.

Definition literal (l : string) : regex := foldr (fun c r => Seq (Char (fun d => d =? c)) r) Empty (codes l).
Definition Plus (r : regex) : regex := Seq r (Star r).
Definition space : regex := Char (fun c => bool_decide (c ∈ [9; 10; 11; 12; 13; 32; 0xa0; 0x1680; 0x2028; 0x2029; 0x202f; 0x205f; 0x3000; 0xfeff])
  || (0x2000 <=? c) && (c <=? 0x200a)).
Definition dot : regex := Char (fun c => negb (line_terminator c)).
Definition hex : regex := Char (fun c => bool_decide (is_Some (Settings.hex_value c))).
Definition name : regex := Char (fun c =>
  (97 <=? c) && (c <=? 122) || (65 <=? c) && (c <=? 90) || (c =? 95) || (48 <=? c) && (c <=? 57)).

End Regex.

Module Generator.
Import Regex.

Infix "//" := Seq (at level 40, left associativity).

Definition re : regex :=
  Bol // literal "#define XK_" // Group 1 (Plus name) // Plus space // literal "0x" // Group 2 (Plus hex) // Star space
  // Opt (Group 3 (literal "/*" // Star space // Group 4 (Star dot) // Star space // literal "*/")) // Star space // Eol.

Definition unicode_re : regex := literal "U+" // Group 1 (Plus hex).

(** [parseInt(digits, 16)] *)
Definition parseInt16 (digits : text) : Z := fold_left (fun n c => 16 * n + default 0 (Settings.hex_value c)) digits 0.

(** The character, keysym and name of a line of the header.  [exec(undefined)] searches
    the text "undefined". *)
Definition parse_line (line : text) : option (Z * (Z * text)) :=
  match exec re line with
  | None => None
  | Some result =>
      let keyname := default [] (group 1 result) in
      let keysym := parseInt16 (default [] (group 2 result)) in
      let remainder := default (codes "undefined") (group 3 result) in
      match exec unicode_re remainder with
      | None => None
      | Some unicodeRes => Some (parseInt16 (default [] (group 1 unicodeRes)), (keysym, keyname))
      end
  end.

(** [codepoints], in the order of insertion. *)
Definition table : Type := list (Z * (Z * text)).
Definition add_line (codepoints : table) (line : text) : table :=
  match parse_line line with
  | Some (unicode, entry) =>
      match Keysyms.lookup_num codepoints unicode with
      | Some _ => codepoints
      | None => codepoints ++ [(unicode, entry)]
      end
  | None => codepoints
  end.

Fixpoint split_lines (line : text) (t : text) : list text :=
  match t with
  | [] => [line]
  | c :: t => if c =? 10 then line :: split_lines [] t else split_lines (line ++ [c]) t
  end.

Definition codepoints_of (str : text) : table := fold_left add_line (split_lines [] str) [].

(** [for (let codepoint in codepoints)]: what can be an index comes first, in order. *)
Definition key_le (p q : Z * (Z * text)) : Prop := p.1 <= q.1.
#[export] Instance key_le_dec : RelDecision key_le := fun p q => Z.le_dec p.1 q.1.
Definition for_in (l : table) : table :=
  merge_sort key_le (filter (fun p => p.1 < 2 ^ 32 - 1) l) ++ filter (fun p => ~ p.1 < 2 ^ 32 - 1) l.

Definition latin1 (codepoint : Z) : bool := (0x20 <=? codepoint) && (codepoint <=? 0xff).
Definition general (p : Z * (Z * text)) : bool := js_or p.1 0x01000000 =? p.2.1.

(** The entries that are printed. *)
Definition rows (codepoints : table) : table :=
  List.filter (fun p => negb (latin1 p.1) && negb (general p)) (for_in codepoints).

Definition digit (n : Z) : Z := if n <? 10 then 48 + n else 87 + n.
Fixpoint digits16 (fuel : nat) (n : Z) (acc : text) : text :=
  match fuel with
  | O => acc
  | S fuel => if n <? 16 then digit n :: acc else digits16 fuel (n / 16) (digit (n mod 16) :: acc)
  end.
(** [num.toString(16)] *)
Definition toString16 (n : Z) : text := digits16 (S (Z.to_nat (Z.log2 n))) n [].
Definition toHex (num : Z) : text :=
  let s := toString16 num in
  let s := if (length s <? 4)%nat then let t := codes "0000" ++ s in drop (length t - 4) t else s in
  codes "0x" ++ s.

Definition newline : text := [10].
Definition row_text (p : Z * (Z * text)) : text :=
  codes "    " ++ toHex p.1 ++ codes ": " ++ toHex p.2.1 ++ codes ", // XK_" ++ p.2.2 ++ newline.

Definition text_of (lines : list string) : text := concat (map (fun l => codes l ++ newline) lines).
Definition head_text : text := text_of
  [ "/*"; " * Mapping from Unicode codepoints to X11/RFB keysyms"; " *";
    " * This file was automatically generated from keysymdef.h"; " * DO NOT EDIT!"; " */"; "";
    "/* Functions at the bottom */"; ""; "const codepoints = {" ]%string.
Definition tail_text : text := text_of
  [ "};"; ""; "export default {"; "    lookup(u) {"; "        // Latin-1 is one-to-one mapping";
    "        if ((u >= 0x20) && (u <= 0xff)) {"; "            return u;"; "        }"; "";
    "        // Lookup table (fairly random)"; "        const keysym = codepoints[u];";
    "        if (keysym !== undefined) {"; "            return keysym;"; "        }"; "";
    "        // General mapping as final fallback"; "        return 0x01000000 | u;"; "    }," ]%string
  ++ codes "};".

Definition generate (str : text) : text :=
  head_text ++ concat (map row_text (rows (codepoints_of str))) ++ tail_text.

(** The command line, from [process.argv[2]]. *)
Fixpoint arguments (argv : list text) (show_help : bool) (filename : option text) : bool * option text :=
  match argv with
  | [] => (show_help, filename)
  | a :: argv =>
      if bool_decide (a = codes "--help") || bool_decide (a = codes "-h") then arguments argv true filename
      else arguments argv show_help (Some a)
  end.

(** What the script prints: a help text, after an error or not, or a program. *)
Inductive printed := Help (no_filename : bool) | Program (out : text).

(** [fs.readFileSync] is a parameter: [None] if it throws. *)
Definition main (readFileSync : text -> option text) (argv : list text) : option printed :=
  let '(show_help, filename) := arguments argv (bool_decide (argv = [])) None in
  match filename with
  | None | Some [] => Some (Help true)
  | Some f =>
      if show_help then Some (Help false)
      else str ← readFileSync f; Some (Program (generate str))
  end.

End Generator.

(** ** Properties *)

Section Properties.
Import Regex Generator.
Implicit Types (l : table) (p : Z * (Z * text)).

(** *** Hexadecimal numbers *)

Lemma hex_value_nonneg c v : Settings.hex_value c = Some v -> 0 <= v.
Proof. unfold Settings.hex_value. repeat case_match; intros; simplify_eq; lia. Qed.

Lemma parseInt16_nonneg digits : 0 <= parseInt16 digits.
Proof.
  unfold parseInt16. cut (forall a, 0 <= a -> 0 <= fold_left (fun n c => 16 * n + default 0 (Settings.hex_value c)) digits a);
    [by intros H; apply H|].
  induction digits as [|c digits IH]; intros a Ha; [done|]. cbn [fold_left]. apply IH.
  destruct (Settings.hex_value c) as [v|] eqn:E; cbn; [apply hex_value_nonneg in E|]; lia.
Qed.

Lemma hex_value_digit n : 0 <= n < 16 -> Settings.hex_value (digit n) = Some n.
Proof.
  intros Hn. unfold Settings.hex_value, digit. destruct (Z.ltb_spec n 10); repeat (case_match; simplify_eq/=); try (f_equal; lia).
  all: exfalso; lia.
Qed.

Lemma digits16_spec fuel n acc :
  0 <= n < 16 ^ Z.of_nat fuel -> (0 < fuel)%nat ->
  exists d ds, digits16 fuel n acc = d :: ds ++ acc /\ Forall (fun c => is_Some (Settings.hex_value c)) (d :: ds)
    /\ parseInt16 (d :: ds) = n.
Proof.
  revert n acc. induction fuel as [|fuel IH]; intros n acc Hn Hf; [lia|]. cbn [digits16]. destruct (Z.ltb_spec n 16).
  - exists (digit n), []. split; [done|]. unfold parseInt16. cbn [fold_left]. rewrite hex_value_digit by lia.
    split; [|cbn; lia]. apply Forall_singleton. rewrite hex_value_digit by lia. by eexists.
  - destruct fuel as [|fuel]; [cbn in Hn; lia|]. 
    destruct (IH (n / 16) (digit (n mod 16) :: acc)) as (d & ds & E & Hds & Hp).
    { rewrite Nat2Z.inj_succ, Z.pow_succ_r in Hn by lia. split; [zlia|]. apply Z.div_lt_upper_bound; lia. }
    { lia. }
    exists d, (ds ++ [digit (n mod 16)]). rewrite E, <- app_assoc. split; [done|].
    assert (Hd := hex_value_digit (n mod 16) ltac:(zlia)). split.
    + rewrite app_comm_cons. apply Forall_app. split; [done|]. apply Forall_singleton. rewrite Hd. by eexists.
    + unfold parseInt16 in *. rewrite app_comm_cons, fold_left_app, Hp. cbn [fold_left]. rewrite Hd. cbn. zlia.
Qed.

Lemma toString16_spec n :
  0 <= n -> exists d ds, toString16 n = d :: ds /\ Forall (fun c => is_Some (Settings.hex_value c)) (d :: ds) /\ parseInt16 (d :: ds) = n.
Proof.
  intros Hn. unfold toString16. destruct (digits16_spec (S (Z.to_nat (Z.log2 n))) n []) as (d & ds & E & H); [|lia|].
  - split; [lia|]. destruct (decide (n = 0)) as [->|]; [done|]. eapply Z.lt_le_trans; [apply Z.log2_spec; lia|].
    pose proof (Z.log2_nonneg n). rewrite Nat2Z.inj_succ, Z2Nat.id by lia. apply Z.pow_le_mono_l. lia.
  - rewrite app_nil_r in E. eauto.
Qed.

Lemma parseInt16_zeros n ds : parseInt16 (replicate n 48 ++ ds) = parseInt16 ds.
Proof. unfold parseInt16. rewrite fold_left_app. f_equal. by induction n. Qed.

Lemma number_from_hex n ds :
  Forall (fun c => is_Some (Settings.hex_value c)) ds ->
  Script.number_from 16 Script.hex_digit n ds = Some (fold_left (fun n c => 16 * n + default 0 (Settings.hex_value c)) ds n).
Proof.
  intros H. revert n. induction H as [|c ds [v Hc] _ IH]; intros n; [done|]. cbn [Script.number_from fold_left].
  change (Script.hex_digit c) with (Settings.hex_value c). rewrite Hc. apply IH.
Qed.

Lemma hex_word c : is_Some (Settings.hex_value c) -> Script.word_char c = true.
Proof.
  unfold Settings.hex_value, Script.word_char. repeat case_match; intros [v Hv]; try done;
    repeat match goal with H : _ && _ = true |- _ => apply andb_true_iff in H as [?%Z.leb_le ?%Z.leb_le] end;
    rewrite !orb_true_iff, !andb_true_iff, !Z.leb_le, !Z.eqb_eq; lia.
Qed.

(** A hexadecimal number is read back. *)
Lemma toHex_read n : 0 <= n -> exists ds,
  toHex n = 48 :: 120 :: ds /\ Forall (fun c => is_Some (Settings.hex_value c)) ds /\ Script.word_token (toHex n) = Script.Num n.
Proof.
  intros Hn. destruct (toString16_spec n Hn) as (d & ds & E & Hds & Hp).
  assert (H : exists k, toHex n = 48 :: 120 :: replicate k 48 ++ d :: ds).
  { unfold toHex. rewrite E. destruct (Nat.ltb_spec (length (d :: ds)) 4) as [Hlt|]; [|by exists 0%nat].
    exists (4 - length (d :: ds))%nat. change (codes "0x") with [48; 120]. change (codes "0000") with (replicate 4 48).
    rewrite length_app, length_replicate, Nat.add_comm, Nat.add_sub. cbn [app]. do 2 f_equal.
    rewrite drop_app_le, drop_replicate by (rewrite length_replicate; lia). done. }
  destruct H as [k ->]. assert (Hall : Forall (fun c => is_Some (Settings.hex_value c)) (replicate k 48 ++ d :: ds)).
  { apply Forall_app. split; [|exact Hds]. apply Forall_replicate. by eexists. }
  eexists. split; [done|]. split; [exact Hall|].
  pose proof (number_from_hex 0 _ Hall) as Hnum. fold (parseInt16 (replicate k 48 ++ d :: ds)) in Hnum.
  rewrite parseInt16_zeros, Hp in Hnum. revert Hnum. destruct k; cbn [replicate app Script.word_token]; by intros ->.
Qed.

Lemma lex_hex n : 0 <= n -> Script.lex_from Script.Clean (toHex n) = ([], Script.Word (toHex n)).
Proof.
  intros Hn. destruct (toHex_read n Hn) as (ds & E & Hds & _). rewrite E.
  change (Script.lex_from Script.Clean (48 :: 120 :: ds)) with
    (let '(l', m) := Script.lex_from (Script.Word [48]) (120 :: ds) in ([] ++ l', m)).
  rewrite lex_word; [done|]. constructor; [done|]. eapply Forall_impl; [exact Hds|]. apply hex_word.
Qed.

(** A row is an entry of the table. *)
Lemma lex_row p :
  0 <= p.1 -> 0 <= p.2.1 -> Forall (fun c => Script.line_end c = false) p.2.2 ->
  Script.lex_from Script.Clean (row_text p) = (entry_tokens (p.1, p.2.1), Script.Clean).
Proof.
  intros H1 H2 H3. unfold row_text.
  assert (Hcolon : forall w, Script.lex_from (Script.Word w) (codes ": ") = ([Script.word_token w; Script.Op ":"], Script.Clean)) by done.
  assert (Hcomma : forall w, Script.lex_from (Script.Word w) (codes ", // XK_") = ([Script.word_token w; Script.Op ","], Script.Line)) by done.
  etransitivity.
  - eapply lex_then; [reflexivity|]. eapply lex_then; [by apply lex_hex|]. eapply lex_then; [apply Hcolon|].
    eapply lex_then; [by apply lex_hex|]. eapply lex_then; [apply Hcomma|]. eapply lex_then; [by apply lex_line|]. reflexivity.
  - destruct (toHex_read p.1 H1) as (_ & _ & _ & ->). by destruct (toHex_read p.2.1 H2) as (_ & _ & _ & ->).
Qed.

(** *** The table *)

Lemma lookup_num_app {A} (l l' : list (Z * A)) u :
  Keysyms.lookup_num (l ++ l') u = match Keysyms.lookup_num l u with Some v => Some v | None => Keysyms.lookup_num l' u end.
Proof. induction l as [|[k v] l IH]; [done|]. cbn. by destruct (k =? u). Qed.

(** The first entry of a character is kept. *)
Lemma fold_lookup lines l u :
  Keysyms.lookup_num (fold_left add_line lines l) u = Keysyms.lookup_num (l ++ omap parse_line lines) u.
Proof.
  revert l. induction lines as [|line lines IH]; intros l; [by rewrite app_nil_r|]. cbn [fold_left].
  rewrite IH, !lookup_num_app. unfold add_line. cbn. destruct (parse_line line) as [[v e]|]; cbn; [|done].
  destruct (Keysyms.lookup_num l v) as [e'|] eqn:E.
  - destruct (Z.eqb_spec v u) as [->|]; [by rewrite E|done].
  - rewrite lookup_num_app. destruct (Keysyms.lookup_num l u); [done|]. cbn. by destruct (v =? u).
Qed.

Lemma lookup_num_none {A} (l : list (Z * A)) u : Keysyms.lookup_num l u = None <-> u ∉ l.*1.
Proof.
  induction l as [|[k v] l IH]; [split; [intros _; apply not_elem_of_nil|done]|]. cbn. rewrite not_elem_of_cons.
  destruct (Z.eqb_spec k u) as [->|]; [naive_solver|]. rewrite IH. naive_solver.
Qed.

Lemma lookup_num_some {A} (l : list (Z * A)) u v : NoDup l.*1 -> Keysyms.lookup_num l u = Some v <-> (u, v) ∈ l.
Proof.
  intros Hn. split; [apply lookup_num_in|]. induction l as [|[k w] l IH]; [by intros ?%elem_of_nil|].
  cbn in Hn. apply NoDup_cons in Hn as [Hk Hn]. cbn. intros [E|Hin]%elem_of_cons.
  - injection E as <- <-. by rewrite Z.eqb_refl.
  - destruct (Z.eqb_spec k u) as [->|]; [|by apply IH]. destruct Hk. apply list_elem_of_fmap. by exists (u, v).
Qed.

Lemma codepoints_nodup lines : NoDup (fold_left add_line lines []).*1.
Proof.
  cut (forall l, NoDup l.*1 -> NoDup (fold_left add_line lines l).*1); [intros H; apply H; constructor|].
  induction lines as [|line lines IH]; intros l Hl; [done|]. cbn [fold_left]. apply IH. unfold add_line.
  destruct (parse_line line) as [[v e]|]; [|done]. destruct (Keysyms.lookup_num l v) eqn:E; [done|].
  rewrite fmap_app. apply NoDup_app. split; [done|]. apply lookup_num_none in E. split; [|apply NoDup_singleton].
  intros x Hx Hx'. apply list_elem_of_singleton in Hx'. cbn in Hx'. congruence.
Qed.

Lemma for_in_perm l : for_in l ≡ₚ l.
Proof.
  unfold for_in. rewrite merge_sort_Permutation. apply filter_app_complement.
Qed.

Lemma in_rows l p : p ∈ rows l <-> p ∈ l /\ latin1 p.1 = false /\ general p = false.
Proof.
  unfold rows. rewrite list_elem_of_In, filter_In, <- list_elem_of_In, for_in_perm, andb_true_iff, !negb_true_iff. done.
Qed.

Lemma rows_nodup l : NoDup l.*1 -> NoDup (rows l).*1.
Proof.
  intros H. rewrite <- (for_in_perm l) in H. revert H. unfold rows. generalize (for_in l). clear l. intros l.
  induction l as [|p l IH]; [done|]. cbn. rewrite NoDup_cons. intros [Hp Hn]. destruct (_ && _); [|by apply IH].
  cbn. apply NoDup_cons. split; [|by apply IH]. intros (q & E & Hq)%list_elem_of_fmap. apply Hp. rewrite E.
  apply list_elem_of_fmap. exists q. split; [done|]. apply list_elem_of_In in Hq. apply filter_In in Hq as [Hq _]. by apply list_elem_of_In.
Qed.

Lemma parse_line_nonneg line u e : parse_line line = Some (u, e) -> 0 <= u /\ 0 <= e.1.
Proof.
  unfold parse_line. destruct (exec re line); [|done]. cbv zeta. destruct (exec unicode_re _); [|done].
  intros [= <- <-]. split; apply parseInt16_nonneg.
Qed.

Lemma codepoints_nonneg lines p : p ∈ fold_left add_line lines [] -> 0 <= p.1 /\ 0 <= p.2.1.
Proof.
  destruct p as [u e]. intros Hp. apply lookup_num_some in Hp; [|apply codepoints_nodup]. rewrite fold_lookup in Hp.
  apply lookup_num_in, list_elem_of_omap in Hp as (line & _ & Hl). by apply parse_line_nonneg in Hl.
Qed.

(** The kept rows look a character up as all entries do. *)
Lemma rows_get l u :
  NoDup l.*1 -> latin1 u = false ->
  match Script.table_get (map (fun p => (p.1, p.2.1)) (rows l)) u with Some k => k | None => js_or 0x01000000 u end
  = match Keysyms.lookup_num l u with Some e => e.1 | None => js_or 0x01000000 u end.
Proof.
  intros Hn Hu. assert (Hk : (map (fun p => (p.1, p.2.1)) (rows l)).*1 = (rows l).*1)
    by (induction (rows l) as [|q m IH]; cbn; f_equal; exact IH).
  destruct (decide (u ∈ (rows l).*1)) as [Hin|Hout].
  - apply list_elem_of_fmap in Hin as ([v e] & -> & Hin). cbn [fst] in *.
    rewrite (table_get_nodup _ v e.1); [|by rewrite Hk; apply rows_nodup|].
    + apply in_rows in Hin as [Hin _]. by apply lookup_num_some in Hin as ->.
    + apply list_elem_of_fmap. by exists (v, e).
  - rewrite table_get_none by (by rewrite Hk). destruct (Keysyms.lookup_num l u) as [e|] eqn:E; [|done].
    apply lookup_num_some in E; [|done]. destruct (general (u, e)) eqn:Eg.
    + apply Z.eqb_eq in Eg. cbn in Eg. rewrite <- Eg. unfold js_or. apply Z.lor_comm.
    + destruct Hout. apply list_elem_of_fmap. exists (u, e). split; [done|]. by apply in_rows.
Qed.

(** *** What a regular expression matches *)

(** The states a match can lead to, whatever follows. *)
Fixpoint reach (r : regex) (s s' : state) : Prop :=
  match r with
  | Char p => exists c t, rest s = c :: t /\ p c = true /\ s' = State (Some c) t (groups s)
  | Seq r1 r2 => exists m, reach r1 s m /\ reach r2 m s'
  | Star r => rtc (reach r) s s'
  | Opt r => s' = s \/ reach r s s'
  | Group n r => exists m, reach r s m /\
      s' = State (before m) (rest m) ((n, take (length (rest s) - length (rest m)) (rest s)) :: groups m)
  | Empty | Bol | Eol => s' = s
  end.

Lemma matches_reach r k s x : matches r k s = Some x -> exists s', reach r s s' /\ k s' = Some x.
Proof.
  revert k s x. induction r as [p|r1 IH1 r2 IH2|r IH|r IH|n r IH| | |]; intros k s x H; cbn [matches reach] in *.
  - destruct (rest s) as [|c t]; [done|]. destruct (p c) eqn:Ep; [|done]. eauto 10.
  - destruct (IH1 _ _ _ H) as (m & Hm & H'). destruct (IH2 _ _ _ H') as (s' & Hs & E). eauto.
  - remember (length (rest s)) as fuel eqn:Ef in H. clear Ef. revert s x H.
    induction fuel as [|fuel IHf]; intros s x H; [exists s; by split; [apply rtc_refl|]|].
    destruct (matches r _ s) as [y|] eqn:E; [|exists s; by split; [apply rtc_refl|]]. injection H as ->.
    destruct (IH _ _ _ E) as (m & Hm & E'). destruct (_ <? _)%nat; [|done].
    destruct (IHf _ _ E') as (s' & Hs & E''). exists s'. split; [by eapply rtc_l|done].
  - destruct (matches r k s) as [y|] eqn:E; [|by eauto]. injection H as ->. destruct (IH _ _ _ E) as (s' & Hs & E'). eauto.
  - destruct (IH _ _ _ H) as (m & Hm & E). eauto.
  - eauto.
  - destruct (before s) as [c|]; [destruct (line_terminator c); [|done]|]; eauto.
  - destruct (rest s) as [|c t]; [|destruct (line_terminator c); [|done]]; eauto.
Qed.

Lemma exec_reach r t x : exec r t = Some x -> exists b t', reach r (State b t' []) x.
Proof.
  unfold exec. generalize (@None Z) as b. induction t as [|c t IH]; intros b H; cbn [exec_from] in H.
  - destruct (matches r Some _) as [s|] eqn:E; [|done]. injection H as ->. apply matches_reach in E as (s' & Hs & [= ->]). eauto.
  - destruct (matches r Some _) as [s|] eqn:E; [|by eapply IH]. injection H as ->. apply matches_reach in E as (s' & Hs & [= ->]). eauto.
Qed.

(** The groups an expression can set. *)
Fixpoint ids (r : regex) : list nat :=
  match r with
  | Seq r1 r2 => ids r1 ++ ids r2
  | Star r | Opt r => ids r
  | Group n r => n :: ids r
  | _ => []
  end.

Lemma group_skip n b t g gs b' t' : g.1 <> n -> group n (State b t (g :: gs)) = group n (State b' t' gs).
Proof.
  intros Hn. unfold group. cbn [groups list_find]. rewrite decide_False by done.
  by destruct (list_find _ gs) as [[i [m w]]|].
Qed.

Lemma reach_group n r s s' : n ∉ ids r -> reach r s s' -> group n s' = group n s.
Proof.
  revert s s'. induction r as [p|r1 IH1 r2 IH2|r IH|r IH|m r IH| | |]; intros s s' Hn H; cbn [reach ids] in *.
  - by destruct H as (c & t & _ & _ & ->).
  - rewrite not_elem_of_app in Hn. destruct H as (m & H1 & H2). rewrite (IH2 m s'), (IH1 s m); naive_solver.
  - induction H as [s|s m s' H1 _ IHs]; [done|]. rewrite IHs. by apply IH.
  - destruct H as [->|H]; [done|by apply IH].
  - rewrite not_elem_of_cons in Hn. destruct H as (q & H & ->). rewrite (group_skip n _ _ _ _ (before q) (rest q)) by naive_solver.
    transitivity (group n q); [by destruct q|]. apply IH; naive_solver.
  - by subst.
  - by subst.
  - by subst.
Qed.

(** A star of a character takes characters of its kind. *)
Lemma reach_chars ok s s' :
  rtc (reach (Char ok)) s s' -> exists w, rest s = w ++ rest s' /\ Forall (fun c => ok c = true) w.
Proof.
  induction 1 as [s|s m s' (c & t & E & Hc & ->) _ (w & Ew & Hw)]; [by exists []|].
  cbn [rest] in Ew. exists (c :: w). rewrite E, Ew. split; [done|by constructor].
Qed.

Lemma reach_group_chars n ok s s' :
  reach (Group n (Plus (Char ok))) s s' -> exists w, group n s' = Some w /\ Forall (fun c => ok c = true) w.
Proof.
  intros (m & (m1 & H1 & H2) & ->). destruct H1 as (c & t & E & Hc & ->).
  apply reach_chars in H2 as (w & Ew & Hw). cbn [rest] in Ew. exists (c :: w). split; [|by constructor].
  unfold group. cbn [groups list_find]. rewrite decide_True by done. cbn [mbind option_bind fst snd]. f_equal.
  rewrite E, Ew. change (c :: w ++ rest m) with ((c :: w) ++ rest m). rewrite length_app, Nat.add_sub. by rewrite take_app_length.
Qed.

(** The name of a line has the characters of names. *)
Lemma keyname_chars line u e : parse_line line = Some (u, e) -> Forall (fun c => Script.line_end c = false) e.2.
Proof.
  unfold parse_line. destruct (exec re line) as [result|] eqn:E; [|done]. cbv zeta. destruct (exec unicode_re _); [|done].
  intros [= _ <-]. cbn [snd]. apply exec_reach in E as (b & t & H). unfold re in H.
  destruct H as (m9 & (m8 & (m7 & (m6 & (m5 & (m4 & (m3 & (m2 & (m1 & _ & _) & H2) & H3) & H4) & H5) & H6) & H7) & H8) & H9).
  apply reach_group_chars in H2 as (w & Ew & Hw).
  assert (Hskip : forall r s s', reach r s s' -> bool_decide (1%nat ∉ ids r) = true -> group 1 s' = group 1 s).
  { intros r q q' Hr Hn. apply bool_decide_eq_true in Hn. by eapply reach_group. }
  rewrite (Hskip _ _ _ H9 eq_refl), (Hskip _ _ _ H8 eq_refl), (Hskip _ _ _ H7 eq_refl), (Hskip _ _ _ H6 eq_refl),
    (Hskip _ _ _ H5 eq_refl), (Hskip _ _ _ H4 eq_refl), (Hskip _ _ _ H3 eq_refl), Ew. cbn [default from_option id].
  eapply Forall_impl; [exact Hw|]. intros c. cbn beta. unfold Script.line_end. intros Hc. apply bool_decide_eq_false.
  intros Hin. repeat (apply elem_of_cons in Hin as [->|Hin]; [done|]). by apply elem_of_nil in Hin.
Qed.

Lemma codepoints_names lines p : p ∈ fold_left add_line lines [] -> Forall (fun c => Script.line_end c = false) p.2.2.
Proof.
  destruct p as [u e]. intros Hp. apply lookup_num_some in Hp; [|apply codepoints_nodup]. rewrite fold_lookup in Hp.
  apply lookup_num_in, list_elem_of_omap in Hp as (line & _ & Hl). by apply keyname_chars in Hl.
Qed.

(** *** The program *)

Definition head_tokens : list Script.token := (Script.lex_from Script.Clean head_text).1.
Definition tail_tokens : list Script.token := Script.lex tail_text.

(** Its [lookup], as it is read. *)
Definition lookup_body : Script.block :=
  let u := Script.EId "u" in let keysym := Script.EId "keysym" in
  Script.If (Script.EBin "&&" (Script.EBin ">=" u (Script.ENum 0x20)) (Script.EBin "<=" u (Script.ENum 0xff)))
    (Script.Return u Script.Done)
  (Script.Const "keysym" (Script.ETable "codepoints" u)
  (Script.If (Script.EBin "!==" keysym (Script.EId "undefined")) (Script.Return keysym Script.Done)
  (Script.Return (Script.EBin "|" (Script.ENum 0x01000000) u) Script.Done))).

Lemma module_read (entries : list (Z * Z)) :
  Script.parse_module (head_tokens ++ concat (map entry_tokens entries) ++ tail_tokens)
  = Some (Script.Program "codepoints" entries "u" lookup_body).
Proof.
  assert (H : exists ts, tail_tokens = Script.Op "}" :: ts
    /\ Script.parse_export "codepoints" entries ts = Some (Script.Program "codepoints" entries "u" lookup_body)).
  { eexists. split; [vm_compute; reflexivity|]. vm_compute. reflexivity. }
  destruct H as (ts & -> & H).
  change head_tokens with [Script.Id "const"; Script.Id "codepoints"; Script.Op "="; Script.Op "{"]%string.
  cbn [app Script.parse_module]. by rewrite parse_entries_tokens.
Qed.

(** The text as tokens. *)
Lemma generate_lex (str : text) :
  Script.lex (generate str) = head_tokens
    ++ concat (map entry_tokens (map (fun p => (p.1, p.2.1)) (rows (codepoints_of str)))) ++ tail_tokens.
Proof.
  assert (Hhead : Script.lex_from Script.Clean head_text = (head_tokens, Script.Clean)) by (vm_compute; reflexivity).
  assert (Htail : Script.lex_from Script.Clean tail_text = ((Script.lex_from Script.Clean tail_text).1, Script.Operator [59]))
    by (vm_compute; reflexivity).
  assert (Hrows : Script.lex_from Script.Clean (concat (map row_text (rows (codepoints_of str))))
    = (concat (map (fun p => entry_tokens (p.1, p.2.1)) (rows (codepoints_of str))), Script.Clean)).
  { apply lex_concat, Forall_forall. intros p [Hp _]%in_rows. destruct (codepoints_nonneg _ _ Hp) as [H1 H2].
    apply lex_row; [done|done|]. exact (codepoints_names _ _ Hp). }
  unfold Script.lex, generate. rewrite (lex_then _ _ _ _ _ _ _ Hhead (lex_then _ _ _ _ _ _ _ Hrows Htail)).
  rewrite map_map, <- !app_assoc. do 2 f_equal.
Qed.

(** [C36] The generated module is right: the text that is printed for a header is a
    program of JavaScript, and its [lookup], as it is read and run, gives a Latin-1
    character itself, any other character the keysym of the first line of the header
    that has it, and a character of no line its Unicode keysym.  The rows that are
    left out are not missed, and no name in a comment changes the program. *)
Theorem generated_lookup (str : text) (u : Z) :
  Script.call_lookup (generate str) u
  = Some (Script.VNum
      (if (0x20 <=? u) && (u <=? 0xff) then u
       else match Keysyms.lookup_num (omap parse_line (split_lines [] str)) u with
            | Some (keysym, _) => keysym
            | None => js_or 0x01000000 u
            end)).
Proof.
  unfold Script.call_lookup. rewrite generate_lex, module_read. cbn [mbind option_bind].
  pose proof (rows_get (codepoints_of str) u (codepoints_nodup _)) as Hrows. unfold codepoints_of in Hrows at 2.
  rewrite fold_lookup in Hrows. cbn [app] in Hrows. unfold latin1 in Hrows.
  set (l := map _ _) in *. cbn. destruct ((32 <=? u) && (u <=? 255)); cbn; [done|].
  specialize (Hrows eq_refl). destruct (Script.table_get l u) as [k|]; cbn; rewrite Hrows;
    by destruct (Keysyms.lookup_num _ u) as [[k' n]|].
Qed.

End Properties.

(** ** Examples *)

Section Examples.
Import Regex Generator.

Example header_line : parse_line (codes "#define XK_Aogonek                       0x01a1  /* U+0104 LATIN CAPITAL LETTER A WITH OGONEK */")
  = Some (0x104, (0x1a1, codes "Aogonek")).
Proof. vm_compute. reflexivity. Qed.

(** A deprecated name is a line too; a line with more behind its comment is none. *)
Example header_lines :
  parse_line (codes "#define XK_wonsign 0x20a9 /*(U+20A9 WON SIGN)*/") = Some (0x20a9, (0x20a9, codes "wonsign"))
  /\ parse_line (codes "#define XK_wonsign 0x20a9 /* U+20A9 */ 1") = None
  /\ parse_line (codes "#define XK_VoidSymbol 0xffffff") = None.
Proof. vm_compute. done. Qed.

Example header_row : row_text (0x104, (0x1a1, codes "Aogonek")) = codes "    0x0104: 0x01a1, // XK_Aogonek" ++ newline.
Proof. vm_compute. reflexivity. Qed.

(** The table of the repository is one the script prints: a header with just its
    entries, in any order (here from the last), gives it again. *)
Definition define_line (p : Z * Z) : text :=
  codes "#define XK_name 0x" ++ toString16 p.2 ++ codes " /* U+" ++ toString16 p.1 ++ codes " */" ++ newline.

Example repository_table :
  map (fun p => (p.1, p.2.1)) (rows (codepoints_of (concat (map define_line (rev Keysyms.codepoints))))) = Keysyms.codepoints.
Proof. vm_compute. reflexivity. Qed.

(** Help that was asked for begins with an error; "--file" alone is the name of a file. *)
Example help_is_error : main (fun _ => None) [codes "--help"] = Some (Help true).
Proof. reflexivity. Qed.
Example file_alone : main (fun f => if bool_decide (f = codes "--file") then Some [] else None) [codes "--file"]
  = Some (Program (generate [])).
Proof. reflexivity. Qed.

End Examples.
