(* ===== verification/KeyInput.v ===== *)
(** * From browser key events to keys and keysyms
    (src/ControlServer/web/www/novnc/core/input/util.js)

    A [KeyboardEvent] is the record [event]; a field that a browser leaves out is
    empty, 0 or [None].  Strings that may hold any character are lists of UTF-16
    code units.  The names looked up in tables are assumed not to be members of
    [Object.prototype], which the [in] operator would find as well. *)

From S2P Require Import Prelude Keys Keysyms.

Module KeyInput.
Import Keys Keysyms.

Inductive event_type := Keydown | Keypress | Keyup.
#[export] Instance event_type_eq_dec : EqDecision event_type.
Proof. solve_decision. Defined.

(** The forerunner of [code]: a name, or "U+" and a hexadecimal number. *)
Inductive key_identifier := Named (name : string) | CodePoint (n : Z).

Record event := Event {
  e_type : event_type;
  e_code : string;
  e_keyCode : Z;
  e_location : option Z;
  e_key : option (list Z);
  e_char : option (list Z);
  e_charCode : Z;
  e_keyIdentifier : option key_identifier;
  e_shiftKey : bool;
  e_altKey : bool;
  e_timeStamp : double }.

Section Util.
(** The browser. *)
Context (isMac isIE isEdge : bool).

(** Left keys that location 2 makes right keys, and number pad keys by the
    names they have without NumLock. *)
Definition right_codes : list (string * string) := [
  ("ShiftLeft", "ShiftRight"); ("ControlLeft", "ControlRight"); ("AltLeft", "AltRight") ].
Definition numpad_codes : list (string * string) := [
  ("Delete", "NumpadDecimal"); ("Insert", "Numpad0"); ("End", "Numpad1"); ("ArrowDown", "Numpad2");
  ("PageDown", "Numpad3"); ("ArrowLeft", "Numpad4"); ("ArrowRight", "Numpad6"); ("Home", "Numpad7");
  ("ArrowUp", "Numpad8"); ("PageUp", "Numpad9"); ("Enter", "NumpadEnter") ].

Definition rename (table : list (string * string)) (code : string) : string :=
  default code (lookup_str table code).

Definition getKeycode (evt : event) : string :=
  if negb (String.eqb (e_code evt) "") then
    rename [("OSLeft", "MetaLeft"); ("OSRight", "MetaRight")] (e_code evt)
  else if bool_decide (e_type evt = Keypress) then "Unidentified"
  else
    match lookup_num vkeys (e_keyCode evt) with
    | None => "Unidentified"
    | Some code =>
        let code := if isMac && String.eqb code "ContextMenu" then "MetaRight" else code in
        if decide (e_location evt = Some 2) then rename right_codes code
        else if decide (e_location evt = Some 3) then rename numpad_codes code
        else code
    end.

(** A value of [key]. *)
Definition is_key (name : string) (key : list Z) : bool := bool_decide (key = codes name).
Definition unidentified : list Z := codes "Unidentified".

(** Other names of keys: of Internet Explorer and Edge, of Mozilla, of iOS. *)
Definition key_names : list (string * string) := [
  ("Spacebar", " "); ("Esc", "Escape"); ("Scroll", "ScrollLock"); ("Win", "Meta");
  ("Apps", "ContextMenu"); ("Up", "ArrowUp"); ("Left", "ArrowLeft"); ("Right", "ArrowRight");
  ("Down", "ArrowDown"); ("Del", "Delete"); ("Divide", "/"); ("Multiply", "*"); ("Subtract", "-");
  ("Add", "+"); ("OS", "Meta"); ("UIKeyInputUpArrow", "ArrowUp"); ("UIKeyInputDownArrow", "ArrowDown");
  ("UIKeyInputLeftArrow", "ArrowLeft"); ("UIKeyInputRightArrow", "ArrowRight");
  ("UIKeyInputEscape", "Escape") ].

Fixpoint lookup_key {A} (table : list (string * A)) (key : list Z) : option A :=
  match table with
  | [] => None
  | (k, v) :: table => if is_key k key then Some v else lookup_key table key
  end.

(** The key deduced from the physical key or the character. *)
Definition deduced_key (evt : event) : list Z :=
  match lookup_str fixedkeys (getKeycode evt) with
  | Some key => codes key
  | None => if e_charCode evt =? 0 then unidentified else [e_charCode evt mod 2 ^ 16]
  end.

(** [None] is [undefined], which only "Decimal" can give. *)
Definition getKey (evt : event) : option (list Z) :=
  match e_key evt with
  | None => Some (deduced_key evt)
  | Some key =>
      if is_key "Decimal" key then e_char evt
      else
        match lookup_key key_names key with
        | Some name => Some (codes name)
        | None =>
            if negb (length key =? 1)%nat || (negb isIE && negb isEdge) then Some key
            else Some (deduced_key evt)
        end
  end.

(** The keysym at a location of a key: a keysym, [None] for [null]. *)
Definition key_location (evt : event) (key : list Z) : Z :=
  let location := if is_key "Meta" key && bool_decide (e_location evt = Some 0) then Some 2
                  else e_location evt in
  match location with
  | None => 0
  | Some l => if 3 <? l then 0 else l
  end.

Definition getKeysym (evt : event) : outcome (option Z) :=
  match getKey evt with
  | None => Throw TypeError
  | Some key =>
      if is_key "Unidentified" key then Ret None
      else
        match lookup_key DOMKeyTable key with
        | Some keysyms => Ret (aget keysyms (key_location evt key))
        | None =>
            match key with
            | [codepoint] => Ret (if codepoint =? 0 then None else Some (lookup codepoint))
            | _ => Ret None
            end
        end
  end.

End Util.

End KeyInput.

(** ** Properties *)

Section Properties.
Import Keys Keysyms KeyInput.
Context (isMac isIE isEdge : bool).

(** Strings are UTF-16 code units. *)
Definition utf16 (s : option (list Z)) : Prop := forall l, s = Some l -> Forall (fun c => 0 <= c < 2 ^ 16) l.

Lemma utf16_codes name : utf16 (Some (codes name)).
Proof.
  intros l [= <-]. unfold codes. apply Forall_map, Forall_true. intros c. cbn.
  destruct c as [[] [] [] [] [] [] [] []]; cbv; split; (discriminate || reflexivity).
Qed.

Lemma utf16_getKey evt : utf16 (e_key evt) -> utf16 (e_char evt) -> utf16 (getKey isMac isIE isEdge evt).
Proof.
  intros Hk Hc. assert (Hd : utf16 (Some (deduced_key isMac evt))).
  { unfold deduced_key. destruct (lookup_str _ _); [apply utf16_codes|]. destruct (_ =? 0); [apply utf16_codes|].
    intros l [= <-]. constructor; [|constructor]. apply Z.mod_pos_bound. done. }
  unfold getKey. destruct (e_key evt) as [key|]; [|exact Hd]. destruct (is_key "Decimal" key); [exact Hc|].
  destruct (lookup_key key_names key); [apply utf16_codes|]. by destruct (_ || _).
Qed.

Lemma lookup_key_in {A} (table : list (string * A)) key v : lookup_key table key = Some v -> v ∈ table.*2.
Proof.
  induction table as [|[k w] table IH]; [done|]. cbn. destruct (is_key k key); [|intros H; right; auto].
  intros [= ->]. left.
Qed.

Lemma dom_keysyms keysyms i k :
  keysyms ∈ DOMKeyTable.*2 -> aget keysyms i = Some k -> 0 < k < 2 ^ 32.
Proof.
  intros H Hk. assert (Hall : Forall (Forall (fun k => 0 < k < 2 ^ 32)) DOMKeyTable.*2).
  { apply (bool_decide_unpack _). vm_compute. exact I. }
  rewrite Forall_forall in Hall. specialize (Hall _ H). rewrite Forall_forall in Hall. apply Hall.
  unfold aget in Hk. destruct (i <? 0); [done|]. by eapply list_elem_of_lookup_2.
Qed.

(** [C31] The keysym of any key event is a keysym: a positive number that fits the
    32-bit field of a key event, or none.  Nothing else can come of it, except a
    TypeError for the key "Decimal" of Internet Explorer and Edge from a browser
    that does not say the character it gives. *)
Theorem getKeysym_sound evt :
  utf16 (e_key evt) -> utf16 (e_char evt) ->
  match getKeysym isMac isIE isEdge evt with
  | Ret (Some k) => 0 < k < 2 ^ 32
  | Ret None => True
  | Throw e => e = TypeError /\ e_key evt = Some (codes "Decimal") /\ e_char evt = None
  end.
Proof.
  intros Hk Hc. pose proof (utf16_getKey evt Hk Hc) as Hu. unfold getKeysym.
  destruct (getKey isMac isIE isEdge evt) as [key|] eqn:E.
  - destruct (is_key "Unidentified" key); [done|]. destruct (lookup_key DOMKeyTable key) as [keysyms|] eqn:El.
    + apply lookup_key_in in El. destruct (aget keysyms _) as [k|] eqn:Ea; [|done]. by eapply dom_keysyms.
    + destruct key as [|c [|]]; [done| |done]. destruct (Z.eqb_spec c 0); [done|].
      specialize (Hu _ eq_refl). apply Forall_cons in Hu as [Hr _]. change (2 ^ 16) with 65536 in Hr.
      pose proof (lookup_bounds c ltac:(lia)). lia.
  - unfold getKey in E. destruct (e_key evt) as [key|]; [|done]. unfold is_key in E.
    destruct (bool_decide_reflect (key = codes "Decimal")) as [->|]; [done|].
    destruct (lookup_key key_names key); [done|]. by destruct (_ || _).
Qed.

End Properties.

(** The right Alt key, and "a". *)
Lemma getKeysym_sound_witness :
  let right_alt := KeyInput.Event KeyInput.Keydown "AltRight" 18 (Some 2) (Some (codes "Alt")) None 0 None false true (dbl_of_Z 0) in
  KeyInput.getKeysym false false false right_alt = Ret (Some 0xffea) /\ 0 < 0xffea < 2 ^ 32.
Proof.
  intros right_alt. split; [vm_compute; reflexivity|].
  assert (E : KeyInput.getKeysym false false false right_alt = Ret (Some 0xffea)) by (vm_compute; reflexivity).
  pose proof (getKeysym_sound false false false right_alt) as H. rewrite E in H. apply H.
  - apply utf16_codes.
  - intros l [=].
Defined.
