(* ===== verification/Keyboard.v ===== *)
(** * The keyboard handler of noVNC
    (src/ControlServer/web/www/novnc/core/input/keyboard.js)

    The record [keyboard] holds the fields of a [Keyboard] object, the timers it
    has set and, in [k_reported], the calls of its [onkeyevent] handler.  A keysym
    that is [null] or [undefined] is [None].  The [input]s are what the browser
    does to the object. *)

From stdpp Require Import pretty.
From S2P Require Import Prelude Keys Keysyms KeyInput.

Module Keyboard.
Import Keys Keysyms KeyInput.

(** What the owner of the object is told. *)
Record report := Report { p_keysym : option Z; p_code : string; p_down : bool }.

(** [k_keyDownList] is in the order in which a [for ... in] loop visits it: the
    order of insertion, since no code is a number. *)
Record keyboard := Keyboard {
  k_keyDownList : list (string * option Z);
  k_pendingKey : option string;
  k_altGrArmed : bool;
  k_altGrTimeout : bool;           (* the timer is set *)
  k_altGrCtrlTime : double;
  k_pressTimers : list event;      (* timers of [_handleKeyPressTimeout] *)
  k_grabbed : bool;                (* the listeners are on *)
  k_reported : list report;
  k_checking : bool }.             (* the listeners of [_checkAlt] are on, where there are any *)

#[export] Instance eta_keyboard : Eta keyboard := fun k =>
  Keyboard (k_keyDownList k) (k_pendingKey k) (k_altGrArmed k) (k_altGrTimeout k)
    (k_altGrCtrlTime k) (k_pressTimers k) (k_grabbed k) (k_reported k) (k_checking k).

Definition constructor : keyboard := Keyboard [] None false false (dbl_of_Z 0) [] false [] false.

(** The list of keys that are down. *)
Definition held : Type := list (string * option Z).
Definition code_in (code : string) (l : held) : bool :=
  match lookup_str l code with Some _ => true | None => false end.
Definition press (code : string) (keysym : option Z) (l : held) : held :=
  if code_in code l then map (fun p => if String.eqb p.1 code then (code, keysym) else p) l
  else l ++ [(code, keysym)].
Fixpoint release (code : string) (l : held) : held :=
  match l with
  | [] => []
  | (c, keysym) :: l => if String.eqb c code then release code l else (c, keysym) :: release code l
  end.

(** Is the value true in a condition? *)
Definition truthy (keysym : option Z) : bool :=
  match keysym with Some k => negb (k =? 0) | None => false end.

Definition XK_Control_L : option Z := KeyTable "XK_Control_L".
Definition XK_Caps_Lock : option Z := KeyTable "XK_Caps_Lock".

Section Keyboard.
(** The browser, and the upper case of a character. *)
Context (isMac isIE isEdge isIOS isWindows isFirefox : bool).
Context (toUpperCase : Z -> list Z).

Definition sendKeyEvent (keysym : option Z) (code : string) (down : bool) : M keyboard unit :=
  k ← gets id;
  if negb down && negb (code_in code (k_keyDownList k)) then skip
  else
    modify (fun k => k <| k_keyDownList := if down then press code keysym (k_keyDownList k)
                                           else release code (k_keyDownList k) |>);;
    modify (fun k => k <| k_reported := k_reported k ++ [Report keysym code down] |>).

(** [_getKeyCode] *)
Definition platform (n : Z) : string := "Platform" +:+ pretty n.

Definition getKeyCode (e : event) : string :=
  let code := getKeycode isMac e in
  if negb (String.eqb code "Unidentified") then code
  else if negb (e_keyCode e =? 0) && negb (bool_decide (e_type e = Keypress)) && negb (e_keyCode e =? 229)
  then platform (e_keyCode e)
  else
    match e_keyIdentifier e with
    | None => "Unidentified"
    | Some (Named name) => name
    | Some (CodePoint n) => platform (default 0 (head (toUpperCase (n mod 2 ^ 16))))
    end.

(** A press and a release. *)
Definition tap (keysym : option Z) (code : string) : M keyboard unit :=
  sendKeyEvent keysym code true;; sendKeyEvent keysym code false.

(** The keys of a Mac. *)
Definition mac_keysym (keysym : option Z) : option Z :=
  if negb isMac then keysym
  else if decide (keysym = KeyTable "XK_Super_L") then KeyTable "XK_Alt_L"
  else if decide (keysym = KeyTable "XK_Super_R") then KeyTable "XK_Super_L"
  else if decide (keysym = KeyTable "XK_Alt_L") then KeyTable "XK_Mode_switch"
  else if decide (keysym = KeyTable "XK_Alt_R") then KeyTable "XK_ISO_Level3_Shift"
  else keysym.

(** The end of a possible AltGr: the keysym for this key. *)
Definition resolve_altGr (e : event) (code : string) (keysym : option Z) : M keyboard (option Z) :=
  k ← gets id;
  if negb (k_altGrArmed k) then mret keysym
  else
    modify (fun k => k <| k_altGrArmed := false |> <| k_altGrTimeout := false |>);;
    if String.eqb code "AltRight" && dbl_lt (dbl_sub (e_timeStamp e) (k_altGrCtrlTime k)) (dbl_of_Z 50)
    then mret (KeyTable "XK_ISO_Level3_Shift")
    else sendKeyEvent XK_Control_L "ControlLeft" true;; mret keysym.

Definition set_pendingKey (code : option string) : M keyboard unit :=
  modify (fun k => k <| k_pendingKey := code |>).

Definition handleKeyDown (e : event) : M keyboard unit :=
  let code := getKeyCode e in
  keysym ← lift (getKeysym isMac isIE isEdge e);
  keysym ← resolve_altGr e code keysym;
  if String.eqb code "Unidentified" || isIOS then when (truthy keysym) (tap keysym code)
  else
    down ← gets k_keyDownList;
    let keysym := mac_keysym keysym in
    let keysym := match lookup_str down code with Some k => k | None => keysym end in
    if isMac && String.eqb code "CapsLock" then tap XK_Caps_Lock "CapsLock"
    else if negb (truthy keysym)
            && (match e_key e with None | Some [] => true | _ => false end || isIE || isEdge)
    then
      set_pendingKey (Some code);;
      modify (fun k => k <| k_pressTimers := k_pressTimers k ++ [e] |>)
    else
      set_pendingKey None;;
      if String.eqb code "ControlLeft" && isWindows && negb (code_in "ControlLeft" down)
      then modify (fun k => k <| k_altGrArmed := true |> <| k_altGrTimeout := true |>
                              <| k_altGrCtrlTime := e_timeStamp e |>)
      else sendKeyEvent keysym code true.

Definition handleKeyPress (e : event) : M keyboard unit :=
  pending ← gets k_pendingKey;
  match pending with
  | None => skip
  | Some pendingKey =>
      let code := getKeyCode e in
      keysym ← lift (getKeysym isMac isIE isEdge e);
      if negb (String.eqb code "Unidentified") && negb (String.eqb code pendingKey) then skip
      else
        set_pendingKey None;;
        if negb (truthy keysym) then skip else sendKeyEvent keysym pendingKey true
  end.

(** The keysym of most layouts. *)
Definition guess_keysym (e : event) : Z :=
  if (0x30 <=? e_keyCode e) && (e_keyCode e <=? 0x39) then e_keyCode e
  else if (0x41 <=? e_keyCode e) && (e_keyCode e <=? 0x5a) then
    if e_shiftKey e then e_keyCode e else e_keyCode e + 32
  else 0.

Definition handleKeyPressTimeout (e : event) : M keyboard unit :=
  pending ← gets k_pendingKey;
  match pending with
  | None => skip
  | Some code => set_pendingKey None;; sendKeyEvent (Some (guess_keysym e)) code true
  end.

(** The Ctrl key of an AltGr that has not come. *)
Definition abort_altGr : M keyboard unit :=
  modify (fun k => k <| k_altGrArmed := false |> <| k_altGrTimeout := false |>);;
  sendKeyEvent XK_Control_L "ControlLeft" true.

Definition handleKeyUp (e : event) : M keyboard unit :=
  let code := getKeyCode e in
  armed ← gets k_altGrArmed;
  when armed abort_altGr;;
  if isMac && String.eqb code "CapsLock" then tap XK_Caps_Lock "CapsLock"
  else
    down ← gets k_keyDownList;
    sendKeyEvent (default None (lookup_str down code)) code false.

Definition handleAltGrTimeout : M keyboard unit := abort_altGr.

(** The loop over the keys that were down when it began. *)
Fixpoint release_all (codes : list string) : M keyboard unit :=
  match codes with
  | [] => skip
  | code :: codes =>
      down ← gets k_keyDownList;
      sendKeyEvent (default None (lookup_str down code)) code false;;
      release_all codes
  end.

Definition allKeysUp : M keyboard unit :=
  down ← gets k_keyDownList; release_all (map fst down).

(** The event [_checkAlt] makes up for an Alt key. *)
Definition alt_up (code : string) (keysym : option Z) : event :=
  Event Keyup code 0 (Some 0) (Some (match keysym with Some k => codes (pretty k) | None => codes "null" end))
    None 0 None false false (dbl_of_Z 0).

(** [dispatchEvent] of that event: the listener of [_checkAlt] on the document
    captures it, since a made up event has no [altKey], before the canvas gets it.
    [None] when [fuel] rounds of this are not enough. *)
Fixpoint checkAlt (fuel : nat) (altKey : bool) (k : keyboard) : option keyboard :=
  match fuel with
  | O => None
  | S fuel =>
      if altKey then Some k
      else
        foldr (fun code (next : keyboard -> option keyboard) k =>
            match lookup_str (k_keyDownList k) code with
            | None => next k
            | Some keysym =>
                k ← checkAlt fuel false k;
                next (when (k_grabbed k) (handleKeyUp (alt_up code keysym)) k).2
            end) Some ["AltLeft"; "AltRight"] k
  end.

Definition grab : M keyboard unit := modify (fun k => k <| k_grabbed := true |> <| k_checking := true |>).

(** The listeners of [_checkAlt] were added with [capture]: removing them without it
    removes nothing. *)
Definition ungrab : M keyboard unit := modify (fun k => k <| k_grabbed := false |>);; allKeysUp.

(** ** What happens to the object *)

Inductive input :=
  | IKey (e : event)               (* a key event of the canvas *)
  | IPressTimeout (i : nat)        (* the timer of a keydown *)
  | IAltGrTimeout
  | IBlur                          (* the window loses the focus *)
  | IGrab | IUngrab.

Definition handle (i : input) : M keyboard unit :=
  k ← gets id;
  match i with
  | IKey e =>
      when (k_grabbed k)
        match e_type e with
        | Keydown => handleKeyDown e
        | Keypress => handleKeyPress e
        | Keyup => handleKeyUp e
        end
  | IPressTimeout i =>
      match k_pressTimers k !! i with
      | None => skip
      | Some e => modify (fun k => k <| k_pressTimers := delete i (k_pressTimers k) |>);; handleKeyPressTimeout e
      end
  | IAltGrTimeout => when (k_altGrTimeout k) (modify (fun k => k <| k_altGrTimeout := false |>);; handleAltGrTimeout)
  | IBlur => when (k_grabbed k) allKeysUp
  | IGrab => grab
  | IUngrab => ungrab
  end.

(** An exception ends the handler it was thrown in; [_checkAlt] listens only in
    Firefox on Windows. *)
Inductive step (k : keyboard) : keyboard -> Prop :=
  | step_handle i : step k (handle i k).2
  | step_checkAlt fuel altKey k' :
      k_checking k && isWindows && isFirefox = true -> checkAlt fuel altKey k = Some k' -> step k k'.

End Keyboard.
End Keyboard.

(** ** The specification: a server that believes what it is told

    It knows the keys that are down.  A key may go down again only with the same
    keysym (or if it had none), and only a key that is down may go up, with the
    keysym it went down with; anything else is [None]. *)

Module Receiver.
Import Keys Keysyms KeyInput Keyboard.

Definition receive (r : report) (l : held) : option held :=
  match lookup_str l (p_code r), p_down r with
  | None, true => Some (press (p_code r) (p_keysym r) l)
  | None, false => None
  | Some keysym, true =>
      if decide (p_keysym r = keysym \/ truthy keysym = false) then Some (press (p_code r) (p_keysym r) l) else None
  | Some keysym, false => if decide (p_keysym r = keysym) then Some (release (p_code r) l) else None
  end.

Fixpoint receive_all (rs : list report) (l : held) : option held :=
  match rs with [] => Some l | r :: rs => l ← receive r l; receive_all rs l end.

Lemma receive_snoc rs r l : receive_all (rs ++ [r]) l = l ← receive_all rs l; receive r l.
Proof.
  revert l. induction rs as [|r0 rs IH]; intros l; cbn.
  - by destruct (receive r l).
  - destruct (receive r0 l); [apply IH|done].
Qed.

End Receiver.

(** ** Lemmas: the list of keys *)

Section Held.
Import Keys Keysyms KeyInput Keyboard.
Implicit Type l : held.

Lemma code_in_lookup code l : code_in code l = true <-> is_Some (lookup_str l code).
Proof. unfold code_in. destruct (lookup_str l code); split; eauto; [done|by intros []]. Qed.

Lemma lookup_app code l l' :
  lookup_str (l ++ l') code = match lookup_str l code with Some k => Some k | None => lookup_str l' code end.
Proof. induction l as [|[c k] l IH]; [done|]. cbn. by destruct (String.eqb c code). Qed.

Lemma lookup_press code keysym l c :
  lookup_str (press code keysym l) c = if String.eqb code c then Some keysym else lookup_str l c.
Proof.
  unfold press. destruct (code_in code l) eqn:Hin.
  - apply code_in_lookup in Hin as [k0 Hin]. revert Hin. induction l as [|[d k] l IH]; [done|]. cbn.
    destruct (String.eqb_spec d code) as [->|Hd].
    + intros _. cbn. destruct (String.eqb_spec code c) as [->|Hc]; [done|].
      clear IH. induction l as [|[d' k'] l IH]; [done|]. cbn. destruct (String.eqb_spec d' code) as [->|]; cbn.
      * by rewrite (proj2 (String.eqb_neq _ _) Hc).
      * by destruct (String.eqb d' c).
    + intros H. cbn. destruct (String.eqb_spec d c) as [->|]; [|by apply IH].
      by rewrite (proj2 (String.eqb_neq _ _)) by congruence.
  - rewrite lookup_app. unfold code_in in Hin. cbn.
    destruct (String.eqb_spec code c) as [<-|]; [by destruct (lookup_str l code)|by destruct (lookup_str l c)].
Qed.

Lemma lookup_release code l c :
  lookup_str (release code l) c = if String.eqb code c then None else lookup_str l c.
Proof.
  induction l as [|[d k] l IH]; [cbn; by destruct (String.eqb code c)|]. cbn [release lookup_str].
  destruct (String.eqb_spec d code) as [->|Hd]; cbn [lookup_str].
  - rewrite IH. by destruct (String.eqb code c).
  - destruct (String.eqb_spec d c) as [->|]; [|exact IH]. by rewrite (proj2 (String.eqb_neq _ _)) by congruence.
Qed.

Lemma release_all_nil l : (forall c, lookup_str l c = None) -> l = [].
Proof. destruct l as [|[c k] l]; [done|]. intros H. specialize (H c). cbn in H. by rewrite String.eqb_refl in H. Qed.

End Held.

(** ** Lemmas: the invariant of the object *)

Section Invariant.
Import Keys Keysyms KeyInput Keyboard Receiver.
Context (isMac isIE isEdge isIOS isWindows isFirefox : bool) (toUpperCase : Z -> list Z).
Implicit Type k : keyboard.

(** A key that may go down with any keysym. *)
Definition free k (code : string) : Prop :=
  match lookup_str (k_keyDownList k) code with Some keysym => truthy keysym = false | None => True end.

Record good k : Prop := {
  g_told : receive_all (k_reported k) [] = Some (k_keyDownList k);
  g_armed : k_altGrArmed k = true -> k_pendingKey k = None /\ lookup_str (k_keyDownList k) "ControlLeft" = None;
  g_timer : k_altGrTimeout k = k_altGrArmed k;
  g_pending : forall c, k_pendingKey k = Some c ->
    c <> "Unidentified"%string /\ free k c /\ (isMac = true -> c <> "CapsLock"%string);
  g_unidentified : lookup_str (k_keyDownList k) "Unidentified" = None;
  g_caps : isMac = true -> lookup_str (k_keyDownList k) "CapsLock" = None;
  g_ios : isIOS = true -> k_keyDownList k = [] /\ k_pendingKey k = None /\ k_altGrArmed k = false }.

Lemma send_run keysym code down k :
  sendKeyEvent keysym code down k =
  (Ret tt, if negb down && negb (code_in code (k_keyDownList k)) then k
           else k <| k_keyDownList := if down then press code keysym (k_keyDownList k)
                                      else release code (k_keyDownList k) |>
                  <| k_reported := k_reported k ++ [Report keysym code down] |>).
Proof. unfold sendKeyEvent, gets, mbind, M_bind. cbn [id]. by destruct (negb down && _). Qed.

Lemma release_press code keysym (l : held) : lookup_str l code = None -> release code (press code keysym l) = l.
Proof.
  intros H. unfold press, code_in. rewrite H. induction l as [|[c k] l IH]; cbn in *; [by rewrite String.eqb_refl|].
  destruct (String.eqb c code); [done|]. by rewrite IH.
Qed.

Lemma good_down keysym code k :
  good k -> isIOS = false -> k_pendingKey k = None -> code <> "Unidentified"%string ->
  (isMac = true -> code <> "CapsLock"%string) -> (k_altGrArmed k = true -> code <> "ControlLeft"%string) ->
  (free k code \/ lookup_str (k_keyDownList k) code = Some keysym) ->
  good (sendKeyEvent keysym code true k).2.
Proof.
  intros [H1 H2 H3 H4 H5 H6 H7] Hi Hp Hu Hc Ha Hf. rewrite send_run. cbn [negb andb snd].
  assert (E : forall c, c <> code -> lookup_str (press code keysym (k_keyDownList k)) c = lookup_str (k_keyDownList k) c).
  { intros c Hn. rewrite lookup_press, (proj2 (String.eqb_neq _ _)); congruence. }
  destruct k as [l p a t ct pt g rs ck]; cbn in *. subst p. split; cbn.
  - rewrite receive_snoc, H1. cbn. unfold receive. cbn. unfold free in Hf. cbn in Hf.
    destruct (lookup_str l code) as [ks|]; [|done]. by rewrite decide_True by (destruct Hf as [? | [= ->]]; auto).
  - intros E1. split; [done|]. rewrite E by (intros Hn; by apply (Ha E1)). by apply H2.
  - done.
  - done.
  - by rewrite E by congruence.
  - intros E1. rewrite E by (intros Hn; by apply (Hc E1)). auto.
  - congruence.
Qed.

Lemma good_up code k : good k -> good (sendKeyEvent (default None (lookup_str (k_keyDownList k) code)) code false k).2.
Proof.
  intros [H1 H2 H3 H4 H5 H6 H7]. rewrite send_run. cbn [negb andb snd]. unfold code_in.
  destruct (lookup_str (k_keyDownList k) code) as [ks|] eqn:El; cbn [negb]; [|done].
  assert (E : forall c, lookup_str (k_keyDownList k) c = None -> lookup_str (release code (k_keyDownList k)) c = None).
  { intros c Hn. rewrite lookup_release, Hn. by destruct (String.eqb _ _). }
  destruct k as [l p a t ct pt g rs ck]; cbn in *. split; cbn.
  - rewrite receive_snoc, H1. cbn. unfold receive. cbn. rewrite El. by rewrite decide_True.
  - intros Ha. destruct (H2 Ha). auto.
  - done.
  - intros c Hc. destruct (H4 c Hc) as (? & Hf & ?). split; [done|]. split; [|done]. revert Hf. unfold free. cbn.
    rewrite lookup_release. by destruct (String.eqb _ _).
  - auto.
  - auto.
  - intros Hi. by destruct (H7 Hi) as (-> & ? & ?).
Qed.

(** A press and a release leave the list alone. *)
Lemma tap_run keysym code k :
  lookup_str (k_keyDownList k) code = None ->
  tap keysym code k = (Ret tt, k <| k_reported := k_reported k ++ [Report keysym code true; Report keysym code false] |>).
Proof.
  intros H. unfold tap, mbind, M_bind. rewrite send_run. cbn [negb andb]. rewrite send_run.
  destruct k as [l p a t ct pt g rs ck]; cbn in *. unfold code_in. rewrite lookup_press, String.eqb_refl. cbn.
  by rewrite release_press, <- app_assoc.
Qed.

Lemma good_tap keysym code k :
  good k -> lookup_str (k_keyDownList k) code = None -> good (tap keysym code k).2.
Proof.
  intros [H1 H2 H3 H4 H5 H6 H7] H. rewrite tap_run by done. destruct k as [l p a t ct pt g rs ck]; cbn in *.
  split; cbn; try done. change [?a; ?b] with ([a] ++ [b]). rewrite app_assoc, !receive_snoc, H1. cbn.
  unfold receive. cbn. rewrite H. cbn. rewrite lookup_press, String.eqb_refl, decide_True by done.
  by rewrite release_press.
Qed.

Lemma bind_ret_run {A B} (m : M keyboard A) (f : A -> M keyboard B) k a k' :
  m k = (Ret a, k') -> (m ≫= f) k = f a k'.
Proof. intros E. unfold mbind, M_bind. by rewrite E. Qed.

Lemma XK_values : XK_Control_L = Some 0xffe3 /\ XK_Caps_Lock = Some 0xffe5.
Proof. done. Qed.

(** Disarming, with or without the Ctrl key. *)
Definition disarm k : keyboard := k <| k_altGrArmed := false |> <| k_altGrTimeout := false |>.

Lemma good_disarm k : good k -> good (disarm k).
Proof.
  intros [H1 H2 H3 H4 H5 H6 H7]. destruct k as [l p a t ct pt g rs ck]; cbn in *.
  split; cbn; try done. intros Hi. by destruct (H7 Hi) as (? & ? & ?).
Qed.

Lemma abort_run k : exists k', abort_altGr k = (Ret tt, k') /\ k' = (sendKeyEvent XK_Control_L "ControlLeft" true (disarm k)).2.
Proof. eexists. split; [|reflexivity]. unfold abort_altGr, modify, mbind, M_bind. rewrite send_run. done. Qed.

Lemma good_ctrl k : good k -> k_altGrArmed k = true -> good (sendKeyEvent XK_Control_L "ControlLeft" true (disarm k)).2.
Proof.
  intros Hg Ha. destruct (g_armed _ Hg Ha) as [Hp Hl]. apply good_down; try done.
  - by apply good_disarm.
  - destruct isIOS eqn:Hi; [|done]. destruct (g_ios _ Hg Hi) as (_ & _ & ?). congruence.
  - left. unfold free. change (k_keyDownList (disarm k)) with (k_keyDownList k). by rewrite Hl.
Qed.

Lemma good_resolve e code keysym k :
  good k -> exists ks k', resolve_altGr e code keysym k = (Ret ks, k') /\ good k' /\ k_altGrArmed k' = false.
Proof.
  intros Hg. unfold resolve_altGr, gets. rewrite (bind_ret_run _ _ _ k k) by done.
  destruct (k_altGrArmed k) eqn:Ha; cbn [negb]; [|by exists keysym, k].
  rewrite (bind_ret_run _ _ _ tt (disarm k)) by done.
  destruct (_ && _).
  - exists (KeyTable "XK_ISO_Level3_Shift"), (disarm k). split; [done|]. split; [by apply good_disarm|done].
  - pose proof (good_ctrl k Hg Ha) as H. unfold mbind, M_bind. rewrite send_run in H |- *.
    eexists _, _. split; [reflexivity|]. split; [exact H|done].
Qed.

(** Setting the pending key. *)
Lemma good_pending o k :
  good k -> (forall c, o = Some c -> k_altGrArmed k = false /\ isIOS = false /\ c <> "Unidentified"%string
    /\ free k c /\ (isMac = true -> c <> "CapsLock"%string)) ->
  good (k <| k_pendingKey := o |>).
Proof.
  intros [H1 H2 H3 H4 H5 H6 H7] Ho. destruct k as [l p a t ct pt g rs ck]; cbn in *. split; cbn; try done.
  - intros Ha. destruct (H2 Ha) as [_ ?]. split; [|done]. destruct o as [c|]; [|done]. destruct (Ho c eq_refl) as [? _]. congruence.
  - intros c ->. destruct (Ho c eq_refl) as (_ & _ & ? & ? & ?). done.
  - intros Hi. destruct (H7 Hi) as (? & ? & ?). split; [done|]. split; [|done]. destruct o as [c|]; [|done].
    destruct (Ho c eq_refl) as (_ & ? & _). congruence.
Qed.

Lemma good_same k k' :
  good k -> k_keyDownList k' = k_keyDownList k -> k_reported k' = k_reported k -> k_pendingKey k' = k_pendingKey k ->
  k_altGrArmed k' = k_altGrArmed k -> k_altGrTimeout k' = k_altGrTimeout k -> good k'.
Proof.
  intros [H1 H2 H3 H4 H5 H6 H7]. destruct k, k'; cbn in *. intros -> -> -> -> ->. by split.
Qed.

Lemma good_down_event e k :
  good k -> good (handleKeyDown isMac isIE isEdge isIOS isWindows toUpperCase e k).2.
Proof.
  intros Hg. unfold handleKeyDown. set (code := getKeyCode isMac toUpperCase e). unfold lift at 1.
  destruct (getKeysym isMac isIE isEdge e) as [ks0|]; [|exact Hg].
  rewrite (bind_ret_run _ _ k ks0 k) by done.
  destruct (good_resolve e code ks0 k Hg) as (ks & k1 & E & Hg1 & Ha1). rewrite (bind_ret_run _ _ _ _ _ E).
  destruct (String.eqb_spec code "Unidentified") as [Hc|Hc]; cbn [orb].
  { rewrite Hc. destruct (truthy ks); [|exact Hg1]. apply good_tap; [done|]. apply (g_unidentified _ Hg1). }
  destruct isIOS eqn:Hi; cbn [orb].
  { destruct (truthy ks); [|exact Hg1]. apply good_tap; [done|]. by rewrite (proj1 (g_ios _ Hg1 Hi)). }
  unfold gets. rewrite (bind_ret_run _ _ k1 (k_keyDownList k1) k1) by done. cbv zeta.
  set (ks2 := match lookup_str _ code with Some k => k | None => _ end).
  assert (Hks : free k1 code \/ lookup_str (k_keyDownList k1) code = Some ks2).
  { unfold free, ks2. destruct (lookup_str (k_keyDownList k1) code); auto. }
  assert (Hfalsy : truthy ks2 = false -> free k1 code).
  { unfold free, ks2. by destruct (lookup_str (k_keyDownList k1) code). }
  destruct (isMac && String.eqb code "CapsLock") eqn:Hcaps.
  { apply andb_true_iff in Hcaps as [Hm _]. apply good_tap; [done|]. by apply (g_caps _ Hg1). }
  assert (Hnc : isMac = true -> code <> "CapsLock"%string).
  { intros Hm ->. by rewrite Hm in Hcaps. }
  unfold set_pendingKey. destruct (negb (truthy ks2) && _) eqn:Hp.
  - apply andb_true_iff in Hp as [Hp _]. apply negb_true_iff in Hp.
    unfold modify, mbind, M_bind. cbn [snd]. eapply good_same; [apply (good_pending (Some code) k1 Hg1)|done..].
    intros c [= <-]. auto 6.
  - assert (Hg2 : good (k1 <| k_pendingKey := None |>)) by (apply good_pending; [done|]; discriminate).
    rewrite (bind_ret_run (modify _) _ k1 tt (k1 <| k_pendingKey := None |>)) by done.
    destruct (String.eqb code "ControlLeft" && isWindows && negb _) eqn:Hctrl.
    + apply andb_true_iff in Hctrl as [_ Hn]. apply negb_true_iff in Hn. unfold modify. cbn [snd].
      destruct Hg2 as [G1 G2 G3 G4 G5 G6 G7]. destruct k1 as [l p a t ct pt g rs ck]; cbn in *. split; cbn; try done.
      * intros _. split; [done|]. unfold code_in in Hn. by destruct (lookup_str l "ControlLeft").
      * intros Hi2. congruence.
    + apply good_down; try done.
      change (k_altGrArmed (k1 <| k_pendingKey := None |>)) with (k_altGrArmed k1). by rewrite Ha1.
Qed.

Lemma good_pending_down code keysym k :
  good k -> k_pendingKey k = Some code -> good (sendKeyEvent keysym code true (k <| k_pendingKey := None |>)).2.
Proof.
  intros Hg Hp. destruct (g_pending _ Hg code Hp) as (Hu & Hf & Hm).
  assert (Ha : k_altGrArmed k = false).
  { destruct (k_altGrArmed k) eqn:Ha; [|done]. destruct (g_armed _ Hg Ha). congruence. }
  apply good_down; try done.
  - apply good_pending; [done|]. discriminate.
  - destruct isIOS eqn:Hi; [|done]. destruct (g_ios _ Hg Hi) as (_ & ? & _). congruence.
  - change (k_altGrArmed (k <| k_pendingKey := None |>)) with (k_altGrArmed k). by rewrite Ha.
  - by left.
Qed.

Lemma good_press_event e k : good k -> good (handleKeyPress isMac isIE isEdge toUpperCase e k).2.
Proof.
  intros Hg. unfold handleKeyPress, gets. rewrite (bind_ret_run _ _ k (k_pendingKey k) k) by done.
  destruct (k_pendingKey k) as [p|] eqn:Hp; [|exact Hg]. cbv zeta. unfold lift.
  destruct (getKeysym isMac isIE isEdge e) as [ks|]; [|exact Hg]. rewrite (bind_ret_run _ _ k ks k) by done.
  destruct (_ && _); [exact Hg|]. unfold set_pendingKey.
  rewrite (bind_ret_run (modify _) _ k tt (k <| k_pendingKey := None |>)) by done.
  destruct (truthy ks); cbn [negb]; [by apply good_pending_down|]. apply good_pending; [done|discriminate].
Qed.

Lemma good_press_timeout e k : good k -> good (handleKeyPressTimeout e k).2.
Proof.
  intros Hg. unfold handleKeyPressTimeout, gets. rewrite (bind_ret_run _ _ k (k_pendingKey k) k) by done.
  destruct (k_pendingKey k) as [p|] eqn:Hp; [|exact Hg]. unfold set_pendingKey.
  rewrite (bind_ret_run (modify _) _ k tt (k <| k_pendingKey := None |>)) by done. by apply good_pending_down.
Qed.

Lemma good_up_event e k : good k -> good (handleKeyUp isMac toUpperCase e k).2.
Proof.
  intros Hg. unfold handleKeyUp. cbv zeta. set (code := getKeyCode isMac toUpperCase e). unfold gets.
  rewrite (bind_ret_run _ _ k (k_altGrArmed k) k) by done.
  assert (Hw : exists k', when (k_altGrArmed k) abort_altGr k = (Ret tt, k') /\ good k').
  { destruct (k_altGrArmed k) eqn:Ha; [|by exists k]. destruct (abort_run k) as (k' & E & ->).
    eexists. split; [exact E|]. by apply good_ctrl. }
  destruct Hw as (k' & E & Hg'). rewrite (bind_ret_run _ _ _ _ _ E).
  destruct (isMac && String.eqb code "CapsLock") eqn:Hcaps.
  - apply andb_true_iff in Hcaps as [Hm _]. apply good_tap; [done|]. by apply (g_caps _ Hg').
  - rewrite (bind_ret_run _ _ k' (k_keyDownList k') k') by done. by apply good_up.
Qed.

(** The loop of [_allKeysUp]. *)
Lemma release_all_run cs k :
  good k -> exists k', release_all cs k = (Ret tt, k') /\ good k'
    /\ (forall c, lookup_str (k_keyDownList k') c = if decide (c ∈ cs) then None else lookup_str (k_keyDownList k) c)
    /\ k_altGrArmed k' = k_altGrArmed k /\ k_pendingKey k' = k_pendingKey k /\ k_grabbed k' = k_grabbed k.
Proof.
  revert k. induction cs as [|code cs IH]; intros k Hg.
  { exists k. split; [done|]. split; [done|]. split; [|done]. intros c. by rewrite decide_False by apply not_elem_of_nil. }
  cbn [release_all]. unfold gets. rewrite (bind_ret_run _ _ k (k_keyDownList k) k) by done.
  set (ks := default None _). pose proof (good_up code k Hg) as Hg1. fold ks in Hg1.
  destruct (sendKeyEvent ks code false k) as [o k1] eqn:E. cbn [snd] in Hg1.
  pose proof E as E0. rewrite send_run in E0. injection E0 as <- E1. rewrite (bind_ret_run _ _ _ _ _ E).
  destruct (IH k1 Hg1) as (k' & E' & Hg' & Hl & Ha & Hp & Hgr). exists k'. split; [done|]. split; [done|].
  assert (Hk1 : lookup_str (k_keyDownList k1) code = None
    /\ (forall c, c <> code -> lookup_str (k_keyDownList k1) c = lookup_str (k_keyDownList k) c)
    /\ k_altGrArmed k1 = k_altGrArmed k /\ k_pendingKey k1 = k_pendingKey k /\ k_grabbed k1 = k_grabbed k).
  { rewrite <- E1. cbn [negb andb]. unfold code_in.
    destruct (lookup_str (k_keyDownList k) code) as [x|] eqn:El; cbn [negb]; [|done].
    destruct k as [l p a t ct pt g rs ck]; cbn in *. split; [by rewrite lookup_release, String.eqb_refl|]. split; [|done].
    intros c Hc. rewrite lookup_release, (proj2 (String.eqb_neq _ _)); congruence. }
  destruct Hk1 as (K1 & K2 & K3 & K4 & K5). split; [|split; [congruence|split; congruence]].
  intros c. rewrite Hl. destruct (decide (c = code)) as [->|Hc].
  - rewrite (decide_True (P := code ∈ code :: cs)) by left. by destruct (decide _).
  - destruct (decide (c ∈ cs)) as [Hin|Hin].
    + by rewrite decide_True by (by right).
    + rewrite decide_False by (intros [?|?]%elem_of_cons; done). by apply K2.
Qed.

Lemma lookup_not_in code (l : held) : code ∉ map fst l -> lookup_str l code = None.
Proof.
  induction l as [|[c k] l IH]; [done|]. cbn. rewrite not_elem_of_cons. intros [Hn H].
  rewrite (proj2 (String.eqb_neq _ _)) by congruence. auto.
Qed.

Lemma allKeysUp_run k :
  good k -> exists k', allKeysUp k = (Ret tt, k') /\ good k' /\ k_keyDownList k' = []
    /\ k_altGrArmed k' = k_altGrArmed k /\ k_pendingKey k' = k_pendingKey k /\ k_grabbed k' = k_grabbed k.
Proof.
  intros Hg. unfold allKeysUp, gets. rewrite (bind_ret_run _ _ k (k_keyDownList k) k) by done.
  destruct (release_all_run (map fst (k_keyDownList k)) k Hg) as (k' & E & Hg' & Hl & H).
  exists k'. split; [done|]. split; [done|]. split; [|done]. apply release_all_nil. intros c. rewrite Hl.
  destruct (decide _); [done|]. by apply lookup_not_in.
Qed.

Lemma good_handle i k :
  good k -> good (handle isMac isIE isEdge isIOS isWindows toUpperCase i k).2.
Proof.
  intros Hg. unfold handle, gets. rewrite (bind_ret_run _ _ k k k) by done. destruct i as [e|i| | | |].
  - destruct (k_grabbed k); [|exact Hg]. destruct (e_type e);
      [by apply good_down_event|by apply good_press_event|by apply good_up_event].
  - destruct (k_pressTimers k !! i) as [e|]; [|exact Hg].
    rewrite (bind_ret_run (modify _) _ k tt (k <| k_pressTimers := delete i (k_pressTimers k) |>)) by done.
    apply good_press_timeout. by eapply good_same.
  - destruct (k_altGrTimeout k) eqn:Ht; [|exact Hg].
    unfold when, handleAltGrTimeout. rewrite (bind_ret_run (modify _) _ k tt (k <| k_altGrTimeout := false |>)) by done.
    destruct (abort_run (k <| k_altGrTimeout := false |>)) as (k' & E & ->). rewrite E. cbn [snd].
    replace (disarm (k <| k_altGrTimeout := false |>)) with (disarm k) by done.
    apply good_ctrl; [done|]. by rewrite <- (g_timer _ Hg).
  - destruct (k_grabbed k); [|exact Hg]. cbn [when]. by destruct (allKeysUp_run k Hg) as (k' & -> & Hg' & _).
  - by eapply good_same.
  - unfold ungrab. rewrite (bind_ret_run (modify _) _ k tt (k <| k_grabbed := false |>)) by done.
    destruct (allKeysUp_run (k <| k_grabbed := false |>)) as (k' & -> & Hg' & _); [by eapply good_same|done].
Qed.

Lemma good_constructor : good constructor.
Proof. by split. Qed.

(** [_checkAlt] does nothing, or does not end. *)
Lemma checkAlt_fuel fuel k :
  is_Some (lookup_str (k_keyDownList k) "AltLeft") \/ is_Some (lookup_str (k_keyDownList k) "AltRight") ->
  checkAlt isMac toUpperCase fuel false k = None.
Proof.
  intros H. induction fuel as [|fuel IH]; [done|]. cbn [checkAlt foldr].
  destruct (lookup_str (k_keyDownList k) "AltLeft"); [by rewrite IH|].
  destruct (lookup_str (k_keyDownList k) "AltRight"); [by rewrite IH|]. by destruct H as [[]|[]].
Qed.

Lemma checkAlt_idle fuel altKey k k' : checkAlt isMac toUpperCase fuel altKey k = Some k' -> k' = k.
Proof.
  destruct altKey; [destruct fuel; [done|]; by intros [= ->]|]. intros H.
  destruct (lookup_str (k_keyDownList k) "AltLeft") eqn:H1; [by rewrite checkAlt_fuel in H by (rewrite H1; eauto)|].
  destruct (lookup_str (k_keyDownList k) "AltRight") eqn:H2; [by rewrite checkAlt_fuel in H by (rewrite H2; eauto)|].
  destruct fuel; [done|]. cbn [checkAlt foldr] in H. rewrite H1, H2 in H. by injection H.
Qed.

End Invariant.

(** ** Properties *)

Section Properties.
Import Keys Keysyms KeyInput Keyboard Receiver.
Context (isMac isIE isEdge isIOS isWindows isFirefox : bool) (toUpperCase : Z -> list Z).
Implicit Type k : keyboard.
Abbreviation handle := (handle isMac isIE isEdge isIOS isWindows toUpperCase).
Abbreviation step := (step isMac isIE isEdge isIOS isWindows isFirefox toUpperCase).
Abbreviation good := (good isMac isIOS).

Lemma good_reachable k : rtc step constructor k -> good k.
Proof.
  intros H. assert (H0 : good constructor) by apply good_constructor. revert H0.
  induction H as [k|k1 k2 k3 H _ IH]; [done|]. intros Hg. apply IH. destruct H as [i|fuel altKey k' _ H].
  - by apply good_handle.
  - by rewrite (checkAlt_idle _ _ _ _ _ _ H).
Qed.

(** [C9] Whatever events and timers arrive, in whatever order and on whatever
    browser, what the keyboard handler reports makes sense to a server that
    believes it: no key goes up that is not down, or with another keysym than it
    went down with; no key that is down goes down again with a different keysym;
    and the keys the server believes down are exactly those of [_keyDownList]. *)
Theorem keys_consistent k :
  rtc step constructor k -> receive_all (k_reported k) [] = Some (k_keyDownList k).
Proof. intros H. apply (g_told _ _ _ (good_reachable k H)). Qed.

(** An object without listeners whose timers have nothing to do. *)
Lemma quiet_handle i k :
  k_grabbed k = false -> k_altGrTimeout k = false -> k_pendingKey k = None -> i <> IGrab -> i <> IUngrab ->
  k_reported (handle i k).2 = k_reported k.
Proof.
  intros H1 H2 H3 Hi Hu. unfold Keyboard.handle, gets. rewrite (bind_ret_run _ _ k k k) by done.
  destruct i as [e|i| | | |]; rewrite ?H1, ?H2; try done.
  destruct (k_pressTimers k !! i); [|done].
  unfold handleKeyPressTimeout, gets, modify, mbind, M_bind. cbn [k_pendingKey].
  change (k_pendingKey (k <| k_pressTimers := delete i (k_pressTimers k) |>)) with (k_pendingKey k). by rewrite H3.
Qed.

Lemma blur_eq k : k_grabbed k = true -> handle IBlur k = allKeysUp k.
Proof. intros H. unfold Keyboard.handle, gets. by rewrite (bind_ret_run _ _ k k k), H. Qed.

Lemma ungrab_eq k : handle IUngrab k = allKeysUp (k <| k_grabbed := false |>).
Proof. done. Qed.

Lemma ungrab_run k :
  good k -> exists k', handle IUngrab k = (Ret tt, k') /\ good k' /\ k_keyDownList k' = []
    /\ k_altGrArmed k' = k_altGrArmed k /\ k_pendingKey k' = k_pendingKey k /\ k_grabbed k' = false.
Proof.
  intros Hg. rewrite ungrab_eq.
  destruct (allKeysUp_run isMac isIOS (k <| k_grabbed := false |>)) as (k' & H); [by eapply good_same|]. by exists k'.
Qed.

(** When the window loses the focus, and when the session lets go of the
    keyboard, every key the server believes down is released.  After the latter
    nothing more is reported, unless the handler was waiting for the rest of an
    AltGr or for a keypress at that moment. *)
Theorem keys_released k :
  rtc step constructor k ->
  (k_grabbed k = true -> receive_all (k_reported (handle IBlur k).2) [] = Some []) /\
  receive_all (k_reported (handle IUngrab k).2) [] = Some [] /\
  (k_altGrArmed k = false -> k_pendingKey k = None -> forall i, i <> IGrab -> i <> IUngrab ->
     k_reported (handle i (handle IUngrab k).2).2 = k_reported (handle IUngrab k).2).
Proof.
  intros H. apply good_reachable in H as Hg. destruct (ungrab_run k Hg) as (k' & -> & Hg' & Hl & Ha' & Hp' & Hgr').
  split; [|split].
  - intros Hgr. rewrite blur_eq by done.
    destruct (allKeysUp_run isMac isIOS k Hg) as (k2 & -> & Hg2 & Hl2 & _). cbn [snd]. by rewrite (g_told _ _ _ Hg2), Hl2.
  - cbn [snd]. by rewrite (g_told _ _ _ Hg'), Hl.
  - intros Ha Hp i Hi1 Hi2. cbn [snd]. apply quiet_handle; [done| |congruence|done|done]. rewrite (g_timer _ _ _ Hg'). congruence.
Qed.

(** In Firefox on Windows, while the client believes an Alt key down, any
    event of the mouse or of a key without Alt never comes to an end: the key-up
    that [_checkAlt] makes up is captured by [_checkAlt] itself, again and again. *)
Theorem checkAlt_never_ends k fuel :
  code_in "AltLeft" (k_keyDownList k) || code_in "AltRight" (k_keyDownList k) = true ->
  checkAlt isMac toUpperCase fuel false k = None.
Proof.
  intros H. apply checkAlt_fuel. apply orb_true_iff in H as [H|H]; apply code_in_lookup in H; auto.
Qed.

(** The Ctrl key that outlives the session's hold on the keyboard. *)
Lemma altGr_after_ungrab k :
  rtc step constructor k -> k_altGrArmed k = true ->
  receive_all (k_reported ((handle IUngrab;; handle IAltGrTimeout) k).2) [] = Some [("ControlLeft"%string, XK_Control_L)].
Proof.
  intros H Ha. apply good_reachable in H as Hg. destruct (ungrab_run k Hg) as (k' & E0 & Hg' & Hl & Ha' & _ & _).
  rewrite (bind_ret_run _ _ _ _ _ E0).
  pose proof (good_handle isMac isIE isEdge isIOS isWindows toUpperCase IAltGrTimeout k' Hg') as Hg2.
  rewrite (g_told _ _ _ Hg2). f_equal. unfold Keyboard.handle, gets. rewrite (bind_ret_run _ _ k' k' k') by done.
  rewrite (g_timer _ _ _ Hg'), Ha', Ha.
  cbn [when]. unfold handleAltGrTimeout. rewrite (bind_ret_run (modify _) _ k' tt (k' <| k_altGrTimeout := false |>)) by done.
  destruct (abort_run (k' <| k_altGrTimeout := false |>)) as (k2 & E & ->). rewrite E. cbn [snd]. rewrite send_run. cbn [negb andb snd].
  change (press "ControlLeft" XK_Control_L (k_keyDownList k') = [("ControlLeft"%string, XK_Control_L)]). by rewrite Hl.
Qed.

End Properties.

(** ** Properties: AltGr on Windows *)

Section Windows.
Import Keys Keysyms KeyInput Keyboard.
Context (isIE isEdge : bool) (toUpperCase : Z -> list Z).
Implicit Type k : keyboard.
Abbreviation handle := (handle false isIE isEdge false true toUpperCase).

(** A keydown of a physical key with a keysym, in a browser that names it. *)
Definition plain_down (e : event) (code : string) (keysym : Z) : Prop :=
  e_type e = Keydown /\ getKeyCode false toUpperCase e = code
  /\ getKeysym false isIE isEdge e = Ret (Some keysym) /\ keysym <> 0.

Definition arm e k : keyboard := k <| k_pendingKey := None |> <| k_altGrArmed := true |>
  <| k_altGrTimeout := true |> <| k_altGrCtrlTime := e_timeStamp e |>.

(** What a keydown comes to once a possible AltGr is resolved. *)
Lemma down_resolved e code keysym k ks k' :
  plain_down e code keysym -> code <> "Unidentified"%string -> k_grabbed k = true ->
  resolve_altGr e code (Some keysym) k = (Ret (Some ks), k') -> ks <> 0 -> lookup_str (k_keyDownList k') code = None ->
  handle (IKey e) k =
    (if String.eqb code "ControlLeft" && negb (code_in "ControlLeft" (k_keyDownList k')) then (Ret tt, arm e k')
     else sendKeyEvent (Some ks) code true (k' <| k_pendingKey := None |>)).
Proof.
  intros (T & C & K & _) Hu Hg E Hks Hl. unfold Keyboard.handle, gets. rewrite (bind_ret_run _ _ k k k), Hg, T by done.
  cbn [when]. unfold handleKeyDown. rewrite K, C. unfold lift. rewrite (bind_ret_run _ _ k (Some keysym) k) by done.
  rewrite (bind_ret_run _ _ _ _ _ E). rewrite (proj2 (String.eqb_neq _ _) Hu). cbn [orb]. unfold gets.
  rewrite (bind_ret_run _ _ k' (k_keyDownList k') k') by done. rewrite Hl.
  change (mac_keysym false (Some ks)) with (Some ks). cbn [truthy andb]. rewrite (proj2 (Z.eqb_neq _ _) Hks). cbn [negb andb].
  unfold set_pendingKey. rewrite (bind_ret_run (modify _) _ k' tt (k' <| k_pendingKey := None |>)) by done.
  rewrite andb_true_r. by destruct (_ && _).
Qed.

(** [C30] Windows sends AltGr as a left Ctrl directly followed by a right Alt.
    Within 50 ms the two are reported as the one key AltGr; later than that as
    the two keys they are, in the order in which they were pressed. *)
Theorem altGr_merged k e1 e2 keysym :
  k_grabbed k = true -> k_altGrArmed k = false ->
  lookup_str (k_keyDownList k) "ControlLeft" = None -> lookup_str (k_keyDownList k) "AltRight" = None ->
  plain_down e1 "ControlLeft" 0xffe3 -> plain_down e2 "AltRight" keysym ->
  k_reported ((handle (IKey e1);; handle (IKey e2)) k).2 = k_reported k ++
    (if dbl_lt (dbl_sub (e_timeStamp e2) (e_timeStamp e1)) (dbl_of_Z 50)
     then [Report (KeyTable "XK_ISO_Level3_Shift") "AltRight" true]
     else [Report (Some 0xffe3) "ControlLeft" true; Report (Some keysym) "AltRight" true]).
Proof.
  intros Hg Ha Hc Hr (T1 & C1 & K1 & N1) (T2 & C2 & K2 & N2).
  assert (E1 : handle (IKey e1) k = (Ret tt, arm e1 k)).
  { rewrite (down_resolved e1 "ControlLeft" 0xffe3 k 0xffe3 k); try done.
    - unfold code_in. by rewrite Hc.
    - unfold resolve_altGr, gets. rewrite (bind_ret_run _ _ k k k) by done. by rewrite Ha. }
  rewrite (bind_ret_run _ _ _ _ _ E1). set (k1 := arm e1 k).
  assert (E2 : resolve_altGr e2 "AltRight" (Some keysym) k1 =
    if dbl_lt (dbl_sub (e_timeStamp e2) (e_timeStamp e1)) (dbl_of_Z 50)
    then (Ret (KeyTable "XK_ISO_Level3_Shift"), disarm k1)
    else (Ret (Some keysym), (sendKeyEvent XK_Control_L "ControlLeft" true (disarm k1)).2)).
  { unfold resolve_altGr, gets. rewrite (bind_ret_run _ _ k1 k1 k1) by done. change (k_altGrArmed k1) with true. cbn [negb].
    rewrite (bind_ret_run (modify _) _ k1 tt (disarm k1)) by done. cbn [String.eqb Ascii.eqb Bool.eqb andb].
    change (k_altGrCtrlTime k1) with (e_timeStamp e1). destruct (dbl_lt _ _); [done|].
    unfold mbind, M_bind. rewrite send_run. done. }
  destruct (dbl_lt _ _).
  - rewrite (down_resolved e2 "AltRight" keysym k1 0xfe03 (disarm k1)); [|by split|done|done|done|done|done].
    by rewrite send_run.
  - rewrite send_run in E2. cbn [negb andb snd] in E2.
    match type of E2 with _ = (_, ?k2) => rewrite (down_resolved e2 "AltRight" keysym k1 keysym k2) end; [|by split|done|done|exact E2|done|].
    + rewrite send_run. cbn [negb andb snd String.eqb Ascii.eqb Bool.eqb].
      change ((k_reported k ++ [Report XK_Control_L "ControlLeft" true]) ++ [Report (Some keysym) "AltRight" true]
        = k_reported k ++ [Report (Some 0xffe3) "ControlLeft" true; Report (Some keysym) "AltRight" true]).
      by rewrite <- app_assoc.
    + change (lookup_str (press "ControlLeft" XK_Control_L (k_keyDownList k)) "AltRight" = None).
      rewrite lookup_press. exact Hr.
Qed.

End Windows.

(** ** Witnesses: the key "a" on Linux, AltGr on Windows *)

Section Examples.
Import Keys Keysyms KeyInput Keyboard Receiver.

Definition key_event (t : event_type) (code : string) (key : string) (location : Z) (time : Z) : event :=
  Event t code 0 (Some location) (Some (codes key)) None 0 None false false (dbl_of_Z time).

Definition linux : input -> M keyboard unit := handle false false false false false (fun c => [c]).
Definition windows : input -> M keyboard unit := handle false false false false true (fun c => [c]).
Definition a_down : input := IKey (key_event Keydown "KeyA" "a" 0 0).
Definition inputs (h : input -> M keyboard unit) (l : list input) : keyboard :=
  fold_left (fun k i => (h i k).2) l constructor.

Lemma keys_consistent_witness :
  k_reported (inputs linux [IGrab; a_down]) = [Report (Some 97) "KeyA" true] /\
  receive_all (k_reported (inputs linux [IGrab; a_down])) [] = Some (k_keyDownList (inputs linux [IGrab; a_down])).
Proof.
  split; [vm_compute; reflexivity|].
  apply (keys_consistent false false false false false false (fun c => [c])).
  eapply rtc_l; [apply (step_handle _ _ _ _ _ _ _ _ IGrab)|].
  eapply rtc_l; [apply (step_handle _ _ _ _ _ _ _ _ a_down)|]. apply rtc_refl.
Defined.

Lemma keys_released_witness :
  receive_all (k_reported (inputs linux [IGrab; a_down; IBlur])) [] = Some [] /\
  receive_all (k_reported (inputs linux [IGrab; a_down; IUngrab])) [] = Some [].
Proof.
  destruct (keys_released false false false false false false (fun c => [c]) (inputs linux [IGrab; a_down])) as (H1 & H2 & _).
  { eapply rtc_l; [apply (step_handle _ _ _ _ _ _ _ _ IGrab)|].
    eapply rtc_l; [apply (step_handle _ _ _ _ _ _ _ _ a_down)|]. apply rtc_refl. }
  split; [apply H1; reflexivity|exact H2].
Defined.

Lemma altGr_merged_witness :
  k_reported ((windows (IKey (key_event Keydown "ControlLeft" "Control" 1 1000));;
               windows (IKey (key_event Keydown "AltRight" "Alt" 2 1010))) (inputs windows [IGrab])).2
    = [Report (Some 0xfe03) "AltRight" true].
Proof.
  assert (H1 : plain_down false false (fun c => [c]) (key_event Keydown "ControlLeft" "Control" 1 1000) "ControlLeft" 0xffe3)
    by (split; [done|split; [vm_compute; reflexivity|split; [vm_compute; reflexivity|discriminate]]]).
  assert (H2 : plain_down false false (fun c => [c]) (key_event Keydown "AltRight" "Alt" 2 1010) "AltRight" 0xffea)
    by (split; [done|split; [vm_compute; reflexivity|split; [vm_compute; reflexivity|discriminate]]]).
  pose proof (altGr_merged false false (fun c => [c]) (inputs windows [IGrab]) _ _ 0xffea eq_refl eq_refl eq_refl eq_refl H1 H2) as H.
  transitivity (k_reported (inputs windows [IGrab]) ++
    (if dbl_lt (dbl_sub (dbl_of_Z 1010) (dbl_of_Z 1000)) (dbl_of_Z 50)
     then [Report (KeyTable "XK_ISO_Level3_Shift") "AltRight" true]
     else [Report (Some 0xffe3) "ControlLeft" true; Report (Some 0xffea) "AltRight" true])); [exact H|].
  vm_compute. reflexivity.
Defined.

Lemma checkAlt_never_ends_witness :
  checkAlt false (fun c => [c]) 1000 false (inputs windows [IGrab; IKey (key_event Keydown "AltLeft" "Alt" 1 0)]) = None.
Proof. apply (checkAlt_never_ends false (fun c => [c])). vm_compute. reflexivity. Defined.

End Examples.
