(* ===== verification/Des.v ===== *)
(** * The DES cipher of the VNC authentication
    (src/ControlServer/web/www/novnc/core/des.js, and genDES of core/rfb.js)

    The tables, the key schedule and the rounds, on 32-bit integers. *)

From S2P Require Import Prelude.

Module Des.
Local Open Scope js_scope.

Definition PC2 : list Z :=
  [13; 16; 10; 23; 0; 4; 2; 27; 14; 5; 20; 9; 22; 18; 11; 3; 25; 7; 15; 6; 26; 19; 12; 1; 40;
  51; 30; 36; 46; 54; 29; 39; 50; 44; 32; 47; 43; 48; 38; 55; 33; 52; 45; 41; 49; 35; 28; 31].
Definition totrot : list Z :=
  [1; 2; 4; 6; 8; 10; 12; 14; 15; 17; 19; 21; 23; 25; 27; 28].

(** The S-boxes with their permutation: each entry is one of a, b or c = a|b or 0,
    combined with one of d, e or f = d|e or 0. *)
Definition spbox (a b d e : Z) (table : Z -> Z -> Z -> Z -> Z -> Z -> Z -> list Z) : list Z :=
  table a b (a |. b) d e (d |. e) 0.

Definition SP1 : list Z :=
  spbox (1 <<. 16) (1 <<. 24) (1 <<. 2) (1 <<. 10) (fun a b c d e f z =>
    [c |. e; z |. z; a |. z; c |. f; c |. d; a |. f; z |. d; a |. z;
     z |. e; c |. e; c |. f; z |. e; b |. f; c |. d; b |. z; z |. d;
     z |. f; b |. e; b |. e; a |. e; a |. e; c |. z; c |. z; b |. f;
     a |. d; b |. d; b |. d; a |. d; z |. z; z |. f; a |. f; b |. z;
     a |. z; c |. f; z |. d; c |. z; c |. e; b |. z; b |. z; z |. e;
     c |. d; a |. z; a |. e; b |. d; z |. e; z |. d; b |. f; a |. f;
     c |. f; a |. d; c |. z; b |. f; b |. d; z |. f; a |. f; c |. e;
     z |. f; b |. e; b |. e; z |. z; a |. d; a |. e; z |. z; c |. d]).
Definition SP2 : list Z :=
  spbox (1 <<. 20) (1 <<. 31) (1 <<. 5) (1 <<. 15) (fun a b c d e f z =>
    [c |. f; b |. e; z |. e; a |. f; a |. z; z |. d; c |. d; b |. f;
     b |. d; c |. f; c |. e; b |. z; b |. e; a |. z; z |. d; c |. d;
     a |. e; a |. d; b |. f; z |. z; b |. z; z |. e; a |. f; c |. z;
     a |. d; b |. d; z |. z; a |. e; z |. f; c |. e; c |. z; z |. f;
     z |. z; a |. f; c |. d; a |. z; b |. f; c |. z; c |. e; z |. e;
     c |. z; b |. e; z |. d; c |. f; a |. f; z |. d; z |. e; b |. z;
     z |. f; c |. e; a |. z; b |. d; a |. d; b |. f; b |. d; a |. d;
     a |. e; z |. z; b |. e; z |. f; b |. z; c |. d; c |. f; a |. e]).
Definition SP3 : list Z :=
  spbox (1 <<. 17) (1 <<. 27) (1 <<. 3) (1 <<. 9) (fun a b c d e f z =>
    [z |. f; c |. e; z |. z; c |. d; b |. e; z |. z; a |. f; b |. e;
     a |. d; b |. d; b |. d; a |. z; c |. f; a |. d; c |. z; z |. f;
     b |. z; z |. d; c |. e; z |. e; a |. e; c |. z; c |. d; a |. f;
     b |. f; a |. e; a |. z; b |. f; z |. d; c |. f; z |. e; b |. z;
     c |. e; b |. z; a |. d; z |. f; a |. z; c |. e; b |. e; z |. z;
     z |. e; a |. d; c |. f; b |. e; b |. d; z |. e; z |. z; c |. d;
     b |. f; a |. z; b |. z; c |. f; z |. d; a |. f; a |. e; b |. d;
     c |. z; b |. f; z |. f; c |. z; a |. f; z |. d; c |. d; a |. e]).
Definition SP4 : list Z :=
  spbox (1 <<. 13) (1 <<. 23) (1 <<. 0) (1 <<. 7) (fun a b c d e f z =>
    [c |. d; a |. f; a |. f; z |. e; c |. e; b |. f; b |. d; a |. d;
     z |. z; c |. z; c |. z; c |. f; z |. f; z |. z; b |. e; b |. d;
     z |. d; a |. z; b |. z; c |. d; z |. e; b |. z; a |. d; a |. e;
     b |. f; z |. d; a |. e; b |. e; a |. z; c |. e; c |. f; z |. f;
     b |. e; b |. d; c |. z; c |. f; z |. f; z |. z; z |. z; c |. z;
     a |. e; b |. e; b |. f; z |. d; c |. d; a |. f; a |. f; z |. e;
     c |. f; z |. f; z |. d; a |. z; b |. d; a |. d; c |. e; b |. f;
     a |. d; a |. e; b |. z; c |. d; z |. e; b |. z; a |. z; c |. e]).
Definition SP5 : list Z :=
  spbox (1 <<. 25) (1 <<. 30) (1 <<. 8) (1 <<. 19) (fun a b c d e f z =>
    [z |. d; a |. f; a |. e; c |. d; z |. e; z |. d; b |. z; a |. e;
     b |. f; z |. e; a |. d; b |. f; c |. d; c |. e; z |. f; b |. z;
     a |. z; b |. e; b |. e; z |. z; b |. d; c |. f; c |. f; a |. d;
     c |. e; b |. d; z |. z; c |. z; a |. f; a |. z; c |. z; z |. f;
     z |. e; c |. d; z |. d; a |. z; b |. z; a |. e; c |. d; b |. f;
     a |. d; b |. z; c |. e; a |. f; b |. f; z |. d; a |. z; c |. e;
     c |. f; z |. f; c |. z; c |. f; a |. e; z |. z; b |. e; c |. z;
     z |. f; a |. d; b |. d; z |. e; z |. z; b |. e; a |. f; b |. d]).
Definition SP6 : list Z :=
  spbox (1 <<. 22) (1 <<. 29) (1 <<. 4) (1 <<. 14) (fun a b c d e f z =>
    [b |. d; c |. z; z |. e; c |. f; c |. z; z |. d; c |. f; a |. z;
     b |. e; a |. f; a |. z; b |. d; a |. d; b |. e; b |. z; z |. f;
     z |. z; a |. d; b |. f; z |. e; a |. e; b |. f; z |. d; c |. d;
     c |. d; z |. z; a |. f; c |. e; z |. f; a |. e; c |. e; b |. z;
     b |. e; z |. d; c |. d; a |. e; c |. f; a |. z; z |. f; b |. d;
     a |. z; b |. e; b |. z; z |. f; b |. d; c |. f; a |. e; c |. z;
     a |. f; c |. e; z |. z; c |. d; z |. d; z |. e; c |. z; a |. f;
     z |. e; a |. d; b |. f; z |. z; c |. e; b |. z; a |. d; b |. f]).
Definition SP7 : list Z :=
  spbox (1 <<. 21) (1 <<. 26) (1 <<. 1) (1 <<. 11) (fun a b c d e f z =>
    [a |. z; c |. d; b |. f; z |. z; z |. e; b |. f; a |. f; c |. e;
     c |. f; a |. z; z |. z; b |. d; z |. d; b |. z; c |. d; z |. f;
     b |. e; a |. f; a |. d; b |. e; b |. d; c |. z; c |. e; a |. d;
     c |. z; z |. e; z |. f; c |. f; a |. e; z |. d; b |. z; a |. e;
     b |. z; a |. e; a |. z; b |. f; b |. f; c |. d; c |. d; z |. d;
     a |. d; b |. z; b |. e; a |. z; c |. e; z |. f; a |. f; c |. e;
     z |. f; b |. d; c |. f; c |. z; a |. e; z |. z; z |. d; c |. f;
     z |. z; a |. f; c |. z; z |. e; b |. d; b |. e; z |. e; a |. d]).
Definition SP8 : list Z :=
  spbox (1 <<. 18) (1 <<. 28) (1 <<. 6) (1 <<. 12) (fun a b c d e f z =>
    [b |. f; z |. e; a |. z; c |. f; b |. z; b |. f; z |. d; b |. z;
     a |. d; c |. z; c |. f; a |. e; c |. e; a |. f; z |. e; z |. d;
     c |. z; b |. d; b |. e; z |. f; a |. e; a |. d; c |. d; c |. e;
     z |. f; z |. z; z |. z; c |. d; b |. d; b |. e; a |. f; a |. z;
     a |. f; a |. z; c |. e; z |. e; z |. d; c |. d; z |. e; a |. f;
     b |. e; z |. d; b |. d; c |. z; c |. d; b |. z; a |. z; b |. f;
     z |. z; c |. f; a |. d; b |. d; c |. z; b |. e; b |. f; z |. z;
     c |. f; a |. e; a |. e; z |. f; z |. f; a |. d; b |. z; c |. e]).

(** ** The key schedule *)

(** The loop over PC1: [l] jumps about the bits of the password. *)
Definition pc1_step (l : Z) : Z :=
  l + (if l <? -5 then 65 else if l <? -3 then 31 else if l <? -1 then 63
       else if l =? 27 then 35 else 0).

Definition pc1_bit (password : list Z) (l : Z) : Z :=
  if nint (aget password (l >>>. 3)) &. (1 <<. (l &. 0x7)) =? 0 then 0 else 1.

Fixpoint pc1_loop (n : nat) (password : list Z) (l : Z) : list Z :=
  match n with
  | O => []
  | S n => let l := pc1_step l in pc1_bit password l :: pc1_loop n password (l - 8)
  end.

(** The two halves, each rotated by [totrot]. *)
Definition pcr (pc1m : list Z) (rot : Z) : list Z :=
  concat (map (fun o => map (fun j =>
      let l := o - 28 + Z.of_nat j + rot in
      default 0 (aget pc1m (if l <? o then l else l - 28))) (seq 0 28)) [28; 56]).

(** 24 bits chosen by PC2. *)
Definition kn_half (pcr : list Z) (from : Z) : Z :=
  fold_left (fun k j =>
    if default 0 (aget pcr (default 0 (aget PC2 (Z.of_nat j + from)))) =? 0 then k
    else k |. (1 <<. (23 - Z.of_nat j))) (seq 0 24) 0.

Definition kn (pc1m : list Z) : list (Z * Z) :=
  map (fun rot => let p := pcr pc1m rot in (kn_half p 0, kn_half p 24)) totrot.

(** "cookey" *)
Definition cookey (raw0 raw1 : Z) : list Z :=
  [ ((raw0 &. 0x00fc0000) <<. 6) |. ((raw0 &. 0x00000fc0) <<. 10)
      |. ((raw1 &. 0x00fc0000) >>>. 10) |. ((raw1 &. 0x00000fc0) >>>. 6);
    ((raw0 &. 0x0003f000) <<. 12) |. ((raw0 &. 0x0000003f) <<. 16)
      |. ((raw1 &. 0x0003f000) >>>. 4) |. (raw1 &. 0x0000003f) ].

(** [new DES(password)]: the keys. *)
Definition keys (password : list Z) : list Z :=
  concat (map (fun '(raw0, raw1) => cookey raw0 raw1) (kn (pc1_loop 56 password 56))).

(** ** Encryption *)

Definition sp (box : list Z) (i : Z) : Z := default 0 (aget box (i &. 0x3f)).

(** The four S-boxes of each half of a round. *)
Definition sp7531 (x : Z) : Z := sp SP7 x |. sp SP5 (x >>>. 8) |. sp SP3 (x >>>. 16) |. sp SP1 (x >>>. 24).
Definition sp8642 (fval x : Z) : Z :=
  fval |. sp SP8 x |. sp SP6 (x >>>. 8) |. sp SP4 (x >>>. 16) |. sp SP2 (x >>>. 24).

(** What a round mixes into the other half. *)
Definition fval (half k0 k1 : Z) : Z :=
  sp8642 (sp7531 (((half <<. 28) |. (half >>>. 4)) ^. k0)) (half ^. k1).

Fixpoint rounds (n : nat) (ks : list Z) (l r : Z) : Z * Z :=
  match n, ks with
  | S n, k0 :: k1 :: k2 :: k3 :: ks =>
      let l := l ^. fval r k0 k1 in
      let r := r ^. fval l k2 k3 in
      rounds n ks l r
  | _, _ => (l, r)
  end.

(** [x = ((p >>> k) ^ q) & mask; q ^= x; p ^= (x << k)] *)
Definition exchange (p q k mask : Z) : Z * Z :=
  let x := ((p >>>. k) ^. q) &. mask in (p ^. (x <<. k), q ^. x).

(** [x = (l ^ r) & 0xaaaaaaaa; l ^= x; r ^= x] *)
Definition exchange_odd (l r : Z) : Z * Z :=
  let x := (l ^. r) &. 0xaaaaaaaa in (l ^. x, r ^. x).

Definition squash (b : list Z) (i : Z) : Z :=
  (nint (aget b i) <<. 24) |. (nint (aget b (i + 1)) <<. 16) |. (nint (aget b (i + 2)) <<. 8)
    |. nint (aget b (i + 3)).

Definition spread (x : Z) : list Z := map (fun i => (x >>>. (8 * (3 - i))) mod 256) [0; 1; 2; 3].

Definition enc8 (ks text : list Z) : list Z :=
  let l := squash text 0 in let r := squash text 4 in
  let '(l, r) := exchange l r 4 0x0f0f0f0f in
  let '(l, r) := exchange l r 16 0x0000ffff in
  let '(r, l) := exchange r l 2 0x33333333 in
  let '(r, l) := exchange r l 8 0x00ff00ff in
  let r := (r <<. 1) |. ((r >>>. 31) &. 1) in
  let '(l, r) := exchange_odd l r in
  let l := (l <<. 1) |. ((l >>>. 31) &. 1) in
  let '(l, r) := rounds 8 ks l r in
  let r := (r <<. 31) |. (r >>>. 1) in
  let '(l, r) := exchange_odd l r in
  let l := (l <<. 31) |. (l >>>. 1) in
  let '(l, r) := exchange l r 8 0x00ff00ff in
  let '(l, r) := exchange l r 2 0x33333333 in
  let '(r, l) := exchange r l 16 0x0000ffff in
  let '(r, l) := exchange r l 4 0x0f0f0f0f in
  spread r ++ spread l.

Definition encrypt (ks t : list Z) : list Z := enc8 ks (take 8 t) ++ enc8 ks (take 8 (drop 8 t)).

(** [RFB.genDES] *)
Definition genDES (password challenge : list Z) : list Z := encrypt (keys password) challenge.

End Des.
