(* ===== verification/DesSpec.v ===== *)
(** * The cipher of the VNC authentication is DES
    (src/ControlServer/web/www/novnc/core/des.js)

    [Fips] is the Data Encryption Standard written from its tables, on lists of
    bits; the lemmas read the 32-bit words of Des.v as such lists and follow the
    code step by step. *)

From S2P Require Import Prelude Des.

(** ** The Data Encryption Standard (FIPS 46-3)

    Bits are numbered from 1, the most significant first, as in the standard. *)

Module Fips.

Definition permute (table : list nat) (block : list bool) : list bool :=
  map (fun i => nth (i - 1) block false) table.

Definition IP : list nat := [
  58; 50; 42; 34; 26; 18; 10; 2; 60; 52; 44; 36; 28; 20; 12; 4;
  62; 54; 46; 38; 30; 22; 14; 6; 64; 56; 48; 40; 32; 24; 16; 8;
  57; 49; 41; 33; 25; 17; 9; 1; 59; 51; 43; 35; 27; 19; 11; 3;
  61; 53; 45; 37; 29; 21; 13; 5; 63; 55; 47; 39; 31; 23; 15; 7 ]%nat.
Definition IP_inverse : list nat := [
  40; 8; 48; 16; 56; 24; 64; 32; 39; 7; 47; 15; 55; 23; 63; 31;
  38; 6; 46; 14; 54; 22; 62; 30; 37; 5; 45; 13; 53; 21; 61; 29;
  36; 4; 44; 12; 52; 20; 60; 28; 35; 3; 43; 11; 51; 19; 59; 27;
  34; 2; 42; 10; 50; 18; 58; 26; 33; 1; 41; 9; 49; 17; 57; 25 ]%nat.
Definition E : list nat := [
  32; 1; 2; 3; 4; 5; 4; 5; 6; 7; 8; 9; 8; 9; 10; 11; 12; 13; 12; 13; 14; 15; 16; 17;
  16; 17; 18; 19; 20; 21; 20; 21; 22; 23; 24; 25; 24; 25; 26; 27; 28; 29; 28; 29; 30; 31; 32; 1 ]%nat.
Definition P : list nat := [
  16; 7; 20; 21; 29; 12; 28; 17; 1; 15; 23; 26; 5; 18; 31; 10;
  2; 8; 24; 14; 32; 27; 3; 9; 19; 13; 30; 6; 22; 11; 4; 25 ]%nat.
Definition PC1 : list nat := [
  57; 49; 41; 33; 25; 17; 9; 1; 58; 50; 42; 34; 26; 18; 10; 2; 59; 51; 43; 35; 27; 19; 11; 3; 60; 52; 44; 36;
  63; 55; 47; 39; 31; 23; 15; 7; 62; 54; 46; 38; 30; 22; 14; 6; 61; 53; 45; 37; 29; 21; 13; 5; 28; 20; 12; 4 ]%nat.
Definition PC2 : list nat := [
  14; 17; 11; 24; 1; 5; 3; 28; 15; 6; 21; 10; 23; 19; 12; 4; 26; 8; 16; 7; 27; 20; 13; 2;
  41; 52; 31; 37; 47; 55; 30; 40; 51; 45; 33; 48; 44; 49; 39; 56; 34; 53; 46; 42; 50; 36; 29; 32 ]%nat.
Definition shifts : list nat := [1; 1; 2; 2; 2; 2; 2; 2; 1; 2; 2; 2; 2; 2; 2; 1]%nat.

(** Four rows of sixteen values. *)
Definition S1 : list Z := [
  14; 4; 13; 1; 2; 15; 11; 8; 3; 10; 6; 12; 5; 9; 0; 7; 0; 15; 7; 4; 14; 2; 13; 1; 10; 6; 12; 11; 9; 5; 3; 8;
  4; 1; 14; 8; 13; 6; 2; 11; 15; 12; 9; 7; 3; 10; 5; 0; 15; 12; 8; 2; 4; 9; 1; 7; 5; 11; 3; 14; 10; 0; 6; 13 ].
Definition S2 : list Z := [
  15; 1; 8; 14; 6; 11; 3; 4; 9; 7; 2; 13; 12; 0; 5; 10; 3; 13; 4; 7; 15; 2; 8; 14; 12; 0; 1; 10; 6; 9; 11; 5;
  0; 14; 7; 11; 10; 4; 13; 1; 5; 8; 12; 6; 9; 3; 2; 15; 13; 8; 10; 1; 3; 15; 4; 2; 11; 6; 7; 12; 0; 5; 14; 9 ].
Definition S3 : list Z := [
  10; 0; 9; 14; 6; 3; 15; 5; 1; 13; 12; 7; 11; 4; 2; 8; 13; 7; 0; 9; 3; 4; 6; 10; 2; 8; 5; 14; 12; 11; 15; 1;
  13; 6; 4; 9; 8; 15; 3; 0; 11; 1; 2; 12; 5; 10; 14; 7; 1; 10; 13; 0; 6; 9; 8; 7; 4; 15; 14; 3; 11; 5; 2; 12 ].
Definition S4 : list Z := [
  7; 13; 14; 3; 0; 6; 9; 10; 1; 2; 8; 5; 11; 12; 4; 15; 13; 8; 11; 5; 6; 15; 0; 3; 4; 7; 2; 12; 1; 10; 14; 9;
  10; 6; 9; 0; 12; 11; 7; 13; 15; 1; 3; 14; 5; 2; 8; 4; 3; 15; 0; 6; 10; 1; 13; 8; 9; 4; 5; 11; 12; 7; 2; 14 ].
Definition S5 : list Z := [
  2; 12; 4; 1; 7; 10; 11; 6; 8; 5; 3; 15; 13; 0; 14; 9; 14; 11; 2; 12; 4; 7; 13; 1; 5; 0; 15; 10; 3; 9; 8; 6;
  4; 2; 1; 11; 10; 13; 7; 8; 15; 9; 12; 5; 6; 3; 0; 14; 11; 8; 12; 7; 1; 14; 2; 13; 6; 15; 0; 9; 10; 4; 5; 3 ].
Definition S6 : list Z := [
  12; 1; 10; 15; 9; 2; 6; 8; 0; 13; 3; 4; 14; 7; 5; 11; 10; 15; 4; 2; 7; 12; 9; 5; 6; 1; 13; 14; 0; 11; 3; 8;
  9; 14; 15; 5; 2; 8; 12; 3; 7; 0; 4; 10; 1; 13; 11; 6; 4; 3; 2; 12; 9; 5; 15; 10; 11; 14; 1; 7; 6; 0; 8; 13 ].
Definition S7 : list Z := [
  4; 11; 2; 14; 15; 0; 8; 13; 3; 12; 9; 7; 5; 10; 6; 1; 13; 0; 11; 7; 4; 9; 1; 10; 14; 3; 5; 12; 2; 15; 8; 6;
  1; 4; 11; 13; 12; 3; 7; 14; 10; 15; 6; 8; 0; 5; 9; 2; 6; 11; 13; 8; 1; 4; 10; 7; 9; 5; 0; 15; 14; 2; 3; 12 ].
Definition S8 : list Z := [
  13; 2; 8; 4; 6; 15; 11; 1; 10; 9; 3; 14; 5; 0; 12; 7; 1; 15; 13; 8; 10; 3; 7; 4; 12; 5; 6; 11; 0; 14; 9; 2;
  7; 11; 4; 1; 9; 12; 14; 2; 0; 6; 10; 13; 15; 3; 5; 8; 2; 1; 14; 7; 4; 10; 8; 13; 15; 12; 9; 0; 3; 5; 6; 11 ].

(** The bits of a number of [n] bits, and the number of a list of bits. *)
Definition bits (n : nat) (x : Z) : list bool := map (fun i => Z.testbit x (Z.of_nat i)) (rev (seq 0 n)).
Definition number (l : list bool) : Z := fold_left (fun x b => 2 * x + Z.b2z b) l 0.

(** The outer bits of six choose the row, the inner ones the column. *)
Definition S (box : list Z) (b : list bool) : list bool :=
  match b with
  | [b1; b2; b3; b4; b5; b6] =>
      bits 4 (nth (Z.to_nat (16 * number [b1; b6] + number [b2; b3; b4; b5])) box 0)
  | _ => []
  end.

Fixpoint S_boxes (boxes : list (list Z)) (b : list bool) : list bool :=
  match boxes with
  | [] => []
  | box :: boxes => S box (take 6 b) ++ S_boxes boxes (drop 6 b)
  end.

(** The cipher function. *)
Definition f (R K : list bool) : list bool :=
  permute P (S_boxes [S1; S2; S3; S4; S5; S6; S7; S8] (zip_with xorb (permute E R) K)).

(** The key schedule KS. *)
Definition rotate (n : nat) (l : list bool) : list bool := drop n l ++ take n l.

Fixpoint schedule (shifts : list nat) (C D : list bool) : list (list bool) :=
  match shifts with
  | [] => []
  | n :: shifts =>
      let C := rotate n C in let D := rotate n D in
      permute PC2 (C ++ D) :: schedule shifts C D
  end.

Definition KS (key : list bool) : list (list bool) :=
  let CD := permute PC1 key in schedule shifts (take 28 CD) (drop 28 CD).

Fixpoint feistel (Ks : list (list bool)) (L R : list bool) : list bool * list bool :=
  match Ks with
  | [] => (L, R)
  | K :: Ks => feistel Ks R (zip_with xorb L (f R K))
  end.

Definition encipher (key block : list bool) : list bool :=
  let LR := permute IP block in
  let '(L, R) := feistel (KS key) (take 32 LR) (drop 32 LR) in
  permute IP_inverse (R ++ L).

(** The cipher on bytes. *)
Fixpoint to_bytes (n : nat) (l : list bool) : list Z :=
  match n with O => [] | Datatypes.S n => number (take 8 l) :: to_bytes n (drop 8 l) end.

Definition des (key block : list Z) : list Z :=
  to_bytes 8 (encipher (concat (map (bits 8) key)) (concat (map (bits 8) block))).

End Fips.

(** The key of a VNC password: its first eight bytes, padded with zeros, each with
    its bits in reverse order. *)
Definition vnc_key (password : list Z) : list Z :=
  map (fun i => Fips.number (rev (Fips.bits 8 (default 0 (aget password (Z.of_nat i)))))) (seq 0 8).

(** ** Lemmas: 32-bit words as lists of bits *)

Abbreviation word := (Fips.bits 32).

(** Lists of a known length are explicit ones. *)
Lemma length_cons {A} n (l : list A) : length l = S n -> exists x k, l = x :: k /\ length k = n.
Proof. destruct l as [|x k]; [done|]. intros [= <-]. by exists x, k. Qed.

Ltac explicit H :=
  lazymatch type of H with
  | length ?l = 0%nat => destruct l; [clear H|discriminate H]
  | length ?l = _ => let x := fresh "b" in let k := fresh "l" in let E := fresh "H" in
      destruct (length_cons _ l H) as (x & k & -> & E); clear H; explicit E
  end.

Ltac nat_constants := repeat match goal with
  | |- context [Z.to_nat ?c] => let n := eval vm_compute in (Z.to_nat c) in change (Z.to_nat c) with n
  end.

Section Words.
Import Des.
Local Open Scope js_scope.

Lemma word_map (x : Z) (g : nat -> bool) :
  (forall i, (i < 32)%nat -> Z.testbit x (Z.of_nat i) = g i) -> word x = map g (rev (seq 0 32)).
Proof. intros H. apply map_ext_in. intros i Hi. apply H. apply in_rev, in_seq in Hi. lia. Qed.

Lemma testbit_toInt32 n i : (i < 32)%nat -> Z.testbit (toInt32 n) (Z.of_nat i) = Z.testbit n (Z.of_nat i).
Proof. intros Hi. rewrite toInt32_testbit by lia. f_equal. lia. Qed.

Lemma bits32_toInt32 x : word (toInt32 x) = word x.
Proof. apply map_ext_in. intros i Hi. apply testbit_toInt32. apply in_rev, in_seq in Hi. lia. Qed.

Lemma zip_with_map {A B C D} (f : B -> C -> D) (g : A -> B) (h : A -> C) l :
  zip_with f (map g l) (map h l) = map (fun x => f (g x) (h x)) l.
Proof. induction l; cbn; congruence. Qed.

Lemma word_xor x y : word (x ^. y) = zip_with xorb (word x) (word y).
Proof.
  unfold Fips.bits at 2 3. rewrite zip_with_map. apply word_map. intros i Hi. unfold js_xor.
  by rewrite Z.lxor_spec, !testbit_toInt32.
Qed.
Lemma word_or x y : word (x |. y) = zip_with orb (word x) (word y).
Proof.
  unfold Fips.bits at 2 3. rewrite zip_with_map. apply word_map. intros i Hi. unfold js_or.
  by rewrite Z.lor_spec, !testbit_toInt32.
Qed.

(** The bits that a constant selects. *)
Definition select (mask l : list bool) : list bool := zip_with (fun m b : bool => if m then b else false) mask l.

Lemma word_and x mask : word (x &. mask) = select (word mask) (word x).
Proof.
  unfold select, Fips.bits at 2 3. rewrite zip_with_map. apply word_map. intros i Hi. unfold js_and.
  rewrite Z.land_spec, !testbit_toInt32 by lia. by destruct (Z.testbit x _), (Z.testbit mask _).
Qed.

(** Equality of lists of 32 bits, bit by bit from the least significant one. *)
Lemma bits_at n x i : (i < n)%nat -> nth i (Fips.bits n x) false = Z.testbit x (Z.of_nat (n - 1 - i)).
Proof.
  intros Hi. unfold Fips.bits. rewrite (nth_indep _ false (Z.testbit x (Z.of_nat 0))) by
    (rewrite length_map, length_rev, length_seq; lia).
  rewrite (map_nth (fun i => Z.testbit x (Z.of_nat i)) _ 0%nat). f_equal. f_equal.
  rewrite rev_nth, length_seq by (rewrite length_seq; lia). rewrite seq_nth by lia. lia.
Qed.

Lemma length_bits n x : length (Fips.bits n x) = n.
Proof. unfold Fips.bits. by rewrite length_map, length_rev, length_seq. Qed.

Lemma nth_no_bits k i : nth i (replicate k false) false = false.
Proof. revert i. induction k as [|k IH]; intros [|i]; cbn; auto. Qed.

Definition shifted_left (k : nat) (l : list bool) : list bool := drop k l ++ replicate k false.
Definition shifted_right (k : nat) (l : list bool) : list bool := replicate k false ++ take (32 - k) l.

Lemma word_shl x k : 0 <= k < 32 -> word (x <<. k) = shifted_left (Z.to_nat k) (word x).
Proof.
  intros Hk. unfold shifted_left. apply (nth_ext _ _ false false).
  { rewrite length_app, length_drop, length_replicate, !length_bits. lia. }
  rewrite length_bits. intros i Hi. rewrite bits_at by lia. unfold js_shl.
  rewrite (Z.mod_small k) by lia. rewrite testbit_toInt32, Z.shiftl_spec by lia.
  destruct (decide (i < 32 - Z.to_nat k)%nat).
  - rewrite app_nth1 by (rewrite length_drop, length_bits; lia). rewrite nth_skipn, bits_at by lia.
    rewrite <- (testbit_toInt32 x) by lia. f_equal. lia.
  - rewrite app_nth2 by (rewrite length_drop, length_bits; lia). rewrite nth_no_bits. apply Z.testbit_neg_r. lia.
Qed.

Lemma word_ushr x k : 0 <= k < 32 -> word (x >>>. k) = shifted_right (Z.to_nat k) (word x).
Proof.
  intros Hk. unfold shifted_right. apply (nth_ext _ _ false false).
  { rewrite length_app, length_take, length_replicate, !length_bits. lia. }
  rewrite length_bits. intros i Hi. rewrite bits_at by lia. unfold js_ushr, toUint32.
  rewrite (Z.mod_small k) by lia. rewrite Z.shiftr_spec by lia.
  destruct (decide (i < Z.to_nat k)%nat).
  - rewrite app_nth1 by (rewrite length_replicate; lia). rewrite nth_no_bits. apply Z.mod_pow2_bits_high. lia.
  - rewrite app_nth2 by (rewrite length_replicate; lia). rewrite length_replicate, nth_firstn.
    rewrite (proj2 (Nat.ltb_lt _ _)) by lia. rewrite bits_at by lia. rewrite Z.mod_pow2_bits_low by lia. f_equal. lia.
Qed.

(** ** Numbers of a few bits *)

Lemma number_app l b : Fips.number (l ++ [b]) = 2 * Fips.number l + Z.b2z b.
Proof. unfold Fips.number. by rewrite fold_left_app. Qed.

Lemma number_cons b l : Fips.number (b :: l) = Z.b2z b * 2 ^ zlen l + Fips.number l.
Proof.
  induction l as [|c l IH] using rev_ind; [by destruct b|]. rewrite app_comm_cons, !number_app, IH, zlen_snoc.
  rewrite Z.pow_add_r by (try apply zlen_nonneg; lia). ring.
Qed.

Lemma bits_S n x : Fips.bits (S n) x = Z.testbit x (Z.of_nat n) :: Fips.bits n x.
Proof. unfold Fips.bits. by rewrite seq_S, rev_app_distr. Qed.

Lemma number_bits n x : Fips.number (Fips.bits n x) = x mod 2 ^ Z.of_nat n.
Proof.
  induction n as [|n IH]; [by rewrite Z.mod_1_r|]. rewrite bits_S, number_cons, IH.
  unfold zlen. rewrite length_bits, Z.testbit_spec' by lia. rewrite Nat2Z.inj_succ, Z.pow_succ_r by lia.
  rewrite (Z.mul_comm 2), Z.rem_mul_r by (try apply Z.pow_nonzero; lia). lia.
Qed.

Lemma number_bounds l : 0 <= Fips.number l < 2 ^ zlen l.
Proof.
  induction l as [|b l IH]; [done|]. rewrite number_cons, zlen_cons, Z.pow_add_r by (try apply zlen_nonneg; lia).
  change (2 ^ 1) with 2. destruct b; cbn [Z.b2z]; lia.
Qed.

Lemma bits_number l : Fips.bits (length l) (Fips.number l) = l.
Proof.
  induction l as [|b l IH]; [done|]. cbn [length]. rewrite bits_S, number_cons. f_equal.
  - pose proof (number_bounds l). unfold zlen in *. rewrite Z.testbit_eqb, Z.div_add_l, Z.div_small by lia. by destruct b.
  - transitivity (Fips.bits (length l) (Fips.number l)); [|exact IH]. apply map_ext_in. intros i Hi. apply in_rev, in_seq in Hi.
    assert (Z.of_nat i < zlen l) by (unfold zlen; lia).
    rewrite <- (Z.mod_pow2_bits_low _ (zlen l)) by done.
    rewrite Z.add_comm, Z.mod_add by (apply Z.pow_nonzero; lia). by apply Z.mod_pow2_bits_low.
Qed.

End Words.

(** ** Lemmas: the steps of the code on lists of bits *)

Section Steps.
Import Des.
Local Open Scope js_scope.
Implicit Type m : list bool.

(** [a] where the mask has a bit, [b] elsewhere. *)
Fixpoint choose (mask a b : list bool) : list bool :=
  match mask, a, b with
  | m :: mask, x :: a, y :: b => (if m then x else y) :: choose mask a b
  | _, _, _ => []
  end.

Lemma xor_if (m a b : bool) : xorb a (if m then xorb a b else false) = if m then b else a.
Proof. by destruct m, a, b. Qed.
Lemma xor_if' (m a b : bool) : xorb b (if m then xorb a b else false) = if m then a else b.
Proof. by destruct m, a, b. Qed.

Lemma xor_choose (p q : list bool) m :
  length p = 32%nat -> length q = 32%nat -> length m = 32%nat -> zip_with xorb q (select m (zip_with xorb p q)) = choose m p q.
Proof. intros Hp Hq Hm. explicit Hp. explicit Hq. explicit Hm. cbn. by rewrite !xor_if'. Qed.

Lemma xor_choose_left (p q : list bool) m k :
  length p = 32%nat -> length q = 32%nat -> length m = 32%nat -> k ∈ [2; 4; 8; 16]%nat ->
  zip_with xorb p (shifted_left k (select m (zip_with xorb (shifted_right k p) q)))
  = choose (shifted_left k m) (shifted_left k q) p.
Proof.
  intros Hp Hq Hm Hk. explicit Hp. explicit Hq. explicit Hm. rewrite !elem_of_cons in Hk.
  destruct Hk as [->|[->|[->|[->|Hk]]]]; [| | | |by apply not_elem_of_nil in Hk];
    cbn; by rewrite !xor_if, !xorb_false_r.
Qed.

Lemma exchange_word k p q mask p' q' : k ∈ [2; 4; 8; 16] -> exchange p q k mask = (p', q') ->
  word p' = choose (shifted_left (Z.to_nat k) (word mask)) (shifted_left (Z.to_nat k) (word q)) (word p)
  /\ word q' = choose (word mask) (shifted_right (Z.to_nat k) (word p)) (word q).
Proof.
  intros Hk [= <- <-]. assert (Hk' : 0 <= k < 32) by (rewrite !elem_of_cons, elem_of_nil in Hk; lia).
  rewrite !word_xor, word_shl, word_and, word_xor, word_ushr by done. split.
  - apply xor_choose_left; [apply length_bits..|]. rewrite !elem_of_cons, elem_of_nil in Hk. rewrite !elem_of_cons. lia.
  - apply xor_choose; [|apply length_bits..]. unfold shifted_right.
    rewrite length_app, length_replicate, length_take, length_bits. lia.
Qed.

Lemma zip_xor_comm (a b : list bool) : zip_with xorb a b = zip_with xorb b a.
Proof. revert b. induction a as [|x a IH]; intros [|y b]; cbn; [done..|]. by rewrite IH, xorb_comm. Qed.

Lemma exchange_odd_word l r l' r' : exchange_odd l r = (l', r') ->
  word l' = choose (word 0xaaaaaaaa) (word r) (word l) /\ word r' = choose (word 0xaaaaaaaa) (word l) (word r).
Proof.
  intros [= <- <-]. rewrite !word_xor, word_and, word_xor. split.
  - rewrite (zip_xor_comm (word l) (word r)). by rewrite xor_choose by apply length_bits.
  - by rewrite xor_choose by apply length_bits.
Qed.

Lemma or_zeros (l : list bool) : zip_with orb l (replicate (length l) false) = l.
Proof. induction l as [|b l IH]; [done|]. cbn. by rewrite orb_false_r, IH. Qed.
Lemma zeros_or (l : list bool) : zip_with orb (replicate (length l) false) l = l.
Proof. induction l as [|b l IH]; [done|]. cbn. by rewrite IH. Qed.

(** A rotation to the left. *)
Lemma rotate_word x k k' : 0 < k < 32 -> k' = 32 - k ->
  word ((x <<. k) |. (x >>>. k')) = Fips.rotate (Z.to_nat k) (word x).
Proof.
  intros Hk ->. rewrite word_or, word_shl, word_ushr by lia. unfold shifted_left, shifted_right.
  replace (32 - Z.to_nat (32 - k))%nat with (Z.to_nat k) by lia. replace (Z.to_nat (32 - k)) with (32 - Z.to_nat k)%nat by lia.
  set (n := Z.to_nat k). unfold Fips.rotate.
  assert (Hd : length (drop n (word x)) = (32 - n)%nat) by (rewrite length_drop, length_bits; lia).
  assert (Ht : length (take n (word x)) = n) by (rewrite length_take, length_bits; lia).
  rewrite zip_with_app by (rewrite length_replicate; exact Hd). f_equal.
  - rewrite <- Hd. apply or_zeros.
  - rewrite <- Ht at 1. apply zeros_or.
Qed.

Lemma top_bit x : (x >>>. 31) &. 1 = x >>>. 31.
Proof.
  unfold js_ushr, toUint32. change (31 mod 32) with 31. rewrite Z.shiftr_div_pow2 by lia.
  assert (0 <= x mod 2 ^ 32 / 2 ^ 31 < 2) by zlia. unfold js_and. rewrite toInt32_small by lia.
  change (toInt32 1) with (Z.ones 1). rewrite Z.land_ones by lia. apply Z.mod_small. change (2 ^ 1) with 2. lia.
Qed.

End Steps.

(** ** Lemmas: the rounds *)

Section Rounds.
Import Des.
Local Open Scope js_scope.

(** The output of S-box [j] (from 0), permuted and rotated. *)
Definition placed (j : nat) (s : list bool) : list bool :=
  Fips.rotate 1 (Fips.permute Fips.P (replicate (4 * j) false ++ s ++ replicate (28 - 4 * j) false)).

(** The six-bit parts of a key, each in a byte of its own. *)
Definition cooked (js : list nat) (K : list bool) : list bool :=
  concat (map (fun j => [false; false] ++ take 6 (drop (6 * j) K)) js).

Definition box_ok (SP : list Z) (box : list Z) (j : nat) : Prop :=
  forall b, length b = 6%nat -> word (default 0 (aget SP (Fips.number b))) = placed j (Fips.S box b).

Ltac box := let H := fresh in intros ? H; explicit H;
  repeat match goal with b : bool |- _ => destruct b end; vm_compute; reflexivity.
Lemma box1 : box_ok SP1 Fips.S1 0. Proof. box. Qed.
Lemma box2 : box_ok SP2 Fips.S2 1. Proof. box. Qed.
Lemma box3 : box_ok SP3 Fips.S3 2. Proof. box. Qed.
Lemma box4 : box_ok SP4 Fips.S4 3. Proof. box. Qed.
Lemma box5 : box_ok SP5 Fips.S5 4. Proof. box. Qed.
Lemma box6 : box_ok SP6 Fips.S6 5. Proof. box. Qed.
Lemma box7 : box_ok SP7 Fips.S7 6. Proof. box. Qed.
Lemma box8 : box_ok SP8 Fips.S8 7. Proof. box. Qed.

(** The lookup with the byte at [k] bits. *)
Definition slice (k : nat) (l : list bool) : list bool := take 6 (drop (26 - k) l).

Lemma index_number x : x &. 0x3f = Fips.number (drop 26 (word x)).
Proof.
  change (drop 26 (word x)) with (Fips.bits 6 x). rewrite number_bits. unfold js_and. change (toInt32 63) with (Z.ones 6).
  rewrite Z.land_ones by lia. change (Z.of_nat 6) with 6.
  apply Z.bits_inj'. intros i Hi. destruct (decide (i < 6)).
  - rewrite !Z.mod_pow2_bits_low by lia. rewrite <- (Z2Nat.id i) by lia. apply testbit_toInt32. lia.
  - by rewrite !Z.mod_pow2_bits_high by lia.
Qed.

Lemma sp_word SP box j x k :
  box_ok SP box j -> k ∈ [8; 16; 24] -> word (sp SP (x >>>. k)) = placed j (Fips.S box (slice (Z.to_nat k) (word x))).
Proof.
  intros Hb Hk. rewrite !elem_of_cons, elem_of_nil in Hk. unfold sp. rewrite index_number.
  rewrite word_ushr by lia.
  by destruct Hk as [->|[->|[->|[]]]]; apply Hb.
Qed.

Lemma sp_word_0 SP box j x : box_ok SP box j -> word (sp SP x) = placed j (Fips.S box (slice 0 (word x))).
Proof.
  intros Hb. unfold sp. rewrite index_number. by apply Hb.
Qed.

Lemma merge s1 s2 s3 s4 s5 s6 s7 s8 :
  length s1 = 4%nat -> length s2 = 4%nat -> length s3 = 4%nat -> length s4 = 4%nat ->
  length s5 = 4%nat -> length s6 = 4%nat -> length s7 = 4%nat -> length s8 = 4%nat ->
  fold_left (zip_with orb) [placed 4 s5; placed 2 s3; placed 0 s1; placed 7 s8; placed 5 s6; placed 3 s4; placed 1 s2] (placed 6 s7)
  = Fips.rotate 1 (Fips.permute Fips.P (s1 ++ s2 ++ s3 ++ s4 ++ s5 ++ s6 ++ s7 ++ s8 ++ [])).
Proof.
  intros H1 H2 H3 H4 H5 H6 H7 H8. explicit H1. explicit H2. explicit H3. explicit H4. explicit H5. explicit H6. explicit H7. explicit H8.
  cbn. by rewrite !orb_false_r.
Qed.

Lemma length_S box b : length b = 6%nat -> length (Fips.S box b) = 4%nat.
Proof. intros H. by explicit H. Qed.

Lemma fval_word half k0 k1 R K :
  length R = 32%nat -> length K = 48%nat -> word half = Fips.rotate 1 R ->
  word k0 = cooked [0; 2; 4; 6]%nat K -> word k1 = cooked [1; 3; 5; 7]%nat K ->
  word (fval half k0 k1) = Fips.rotate 1 (Fips.f R K).
Proof.
  intros HR HK Hh H0 H1. unfold fval, sp8642, sp7531. set (x := _ ^. k0). set (y := half ^. k1).
  assert (Hx : word x = zip_with xorb (Fips.rotate 28 (Fips.rotate 1 R)) (cooked [0; 2; 4; 6]%nat K)).
  { unfold x. rewrite word_xor, H0, <- Hh. f_equal. by apply (rotate_word half 28 4). }
  assert (Hy : word y = zip_with xorb (Fips.rotate 1 R) (cooked [1; 3; 5; 7]%nat K)) by (unfold y; by rewrite word_xor, H1, Hh).
  clearbody x y. rewrite !word_or.
  rewrite (sp_word_0 _ _ _ x box7), (sp_word_0 _ _ _ y box8).
  rewrite (sp_word _ _ _ x 8 box5), (sp_word _ _ _ x 16 box3), (sp_word _ _ _ x 24 box1),
    (sp_word _ _ _ y 8 box6), (sp_word _ _ _ y 16 box4), (sp_word _ _ _ y 24 box2) by set_solver.
  rewrite Hx, Hy. clear Hx Hy Hh H0 H1. explicit HR. explicit HK. unfold Fips.f. cbn [Fips.S_boxes].
  rewrite <- merge by (apply length_S; reflexivity). reflexivity.
Qed.

End Rounds.

(** ** Lemmas: the sixteen rounds and the keys *)

Section Cipher.
Import Des.
Local Open Scope js_scope.

(** The keys of the code for the keys of the standard. *)
Inductive key_words : list Z -> list (list bool) -> Prop :=
  | key_words_nil : key_words [] []
  | key_words_cons k0 k1 ks K Ks :
      length K = 48%nat -> word k0 = cooked [0; 2; 4; 6]%nat K -> word k1 = cooked [1; 3; 5; 7]%nat K ->
      key_words ks Ks -> key_words (k0 :: k1 :: ks) (K :: Ks).

Lemma rotate_xor n (a b : list bool) :
  length a = length b -> zip_with xorb (Fips.rotate n a) (Fips.rotate n b) = Fips.rotate n (zip_with xorb a b).
Proof.
  intros H. unfold Fips.rotate. by rewrite zip_with_drop, zip_with_take, zip_with_app by (rewrite !length_drop; lia).
Qed.

Lemma half_round half other k0 k1 H O K :
  length H = 32%nat -> length O = 32%nat -> length K = 48%nat ->
  word half = Fips.rotate 1 H -> word other = Fips.rotate 1 O ->
  word k0 = cooked [0; 2; 4; 6]%nat K -> word k1 = cooked [1; 3; 5; 7]%nat K ->
  word (other ^. fval half k0 k1) = Fips.rotate 1 (zip_with xorb O (Fips.f H K)).
Proof.
  intros HH HO HK Eh Eo E0 E1. rewrite word_xor, Eo, (fval_word half k0 k1 H K) by done. by apply rotate_xor.
Qed.

Lemma rounds_feistel n ks Ks l r L R :
  key_words ks Ks -> length Ks = (2 * n)%nat -> length L = 32%nat -> length R = 32%nat ->
  word l = Fips.rotate 1 L -> word r = Fips.rotate 1 R ->
  let '(l', r') := rounds n ks l r in let '(L', R') := Fips.feistel Ks L R in
  word l' = Fips.rotate 1 L' /\ word r' = Fips.rotate 1 R' /\ length L' = 32%nat /\ length R' = 32%nat.
Proof.
  revert ks Ks l r L R. induction n as [|n IH]; intros ks Ks l r L R HK Hn HL HR Hl Hr.
  { destruct HK; [done|discriminate]. }
  inversion HK as [|k0 k1 ks' K1 Ks' L1 E0 E1 HK']; subst; [cbn in Hn; lia|].
  inversion HK' as [|k2 k3 ks'' K2 Ks'' L2 E2 E3 HK'']; subst; [cbn in Hn; lia|]. cbn [rounds Fips.feistel].
  pose proof (half_round r l k0 k1 R L K1 HR HL L1 Hr Hl E0 E1) as Hl'.
  assert (HL' : length (zip_with xorb L (Fips.f R K1)) = 32%nat) by by rewrite length_zip_with, HL.
  pose proof (half_round _ r k2 k3 _ R K2 HL' HR L2 Hl' Hr E2 E3) as Hr'.
  apply IH; [done|cbn in Hn; lia|done| |done|done]. by rewrite length_zip_with, HR.
Qed.

(** *** The key schedule *)

Lemma land_bit v m : 0 <= m < 8 -> (v &. (1 <<. m) =? 0) = negb (Z.testbit v m).
Proof.
  intros Hm. unfold js_and, js_shl. rewrite (Z.mod_small m) by lia. change (toInt32 1) with 1.
  rewrite Z.shiftl_1_l. assert (1 <= 2 ^ m <= 2 ^ 7) by (split; [apply (Z.pow_le_mono_r 2 0)|apply Z.pow_le_mono_r]; lia).
  change (2 ^ 7) with 128 in *. rewrite !(toInt32_small (2 ^ m)) by lia.
  assert (E : Z.testbit (toInt32 v) m = Z.testbit v m) by (rewrite toInt32_testbit by lia; f_equal; lia). rewrite <- E.
  destruct (Z.testbit (toInt32 v) m) eqn:T; cbn [negb].
  - apply Z.eqb_neq. intros H0. apply (f_equal (fun x => Z.testbit x m)) in H0.
    by rewrite Z.land_spec, T, Z.pow2_bits_true, Z.bits_0 in H0 by lia.
  - apply Z.eqb_eq. apply Z.bits_inj'. intros i Hi. rewrite Z.land_spec, Z.bits_0, Z.pow2_bits_eqb by lia.
    destruct (Z.eqb_spec m i) as [<-|]; [by rewrite T|by rewrite andb_false_r].
Qed.

(** The bit of a password by its number. *)
Definition password_bit (password : list Z) (l : Z) : bool :=
  Z.testbit (default 0 (aget password (l / 8))) (l mod 8).

Lemma pc1_bit_spec password l : 0 <= l < 64 -> pc1_bit password l = Z.b2z (password_bit password l).
Proof.
  intros Hl. unfold pc1_bit, password_bit.
  assert (E1 : l >>>. 3 = l / 8).
  { unfold js_ushr, toUint32. rewrite (Z.mod_small l) by lia. change (3 mod 32) with 3. by rewrite Z.shiftr_div_pow2 by lia. }
  assert (E2 : l &. 0x7 = l mod 8).
  { unfold js_and. rewrite (toInt32_small l) by lia. change (toInt32 7) with (Z.ones 3). by rewrite Z.land_ones by lia. }
  rewrite E1, E2, land_bit by (apply Z.mod_pos_bound; lia). unfold nint.
  rewrite toInt32_testbit by (apply Z.mod_pos_bound; lia). rewrite Z.min_l by zlia.
  by destruct (Z.testbit _ _).
Qed.

Fixpoint pc1_indices (n : nat) (l : Z) : list Z :=
  match n with O => [] | S n => let l := pc1_step l in l :: pc1_indices n (l - 8) end.

Lemma pc1_loop_map n password l : pc1_loop n password l = map (pc1_bit password) (pc1_indices n l).
Proof. revert l. induction n as [|n IH]; intros l; [done|]. cbn. by rewrite IH. Qed.

Definition key_bits (password : list Z) : list bool := concat (map (Fips.bits 8) (vnc_key password)).

Lemma key_bits_at password n : (n < 64)%nat -> nth n (key_bits password) false = password_bit password (Z.of_nat n).
Proof.
  intros Hn. assert (E : key_bits password =
    concat (map (fun i => rev (Fips.bits 8 (default 0 (aget password (Z.of_nat i))))) (seq 0 8))).
  { unfold key_bits, vnc_key. rewrite map_map. f_equal. apply map_ext. intros i.
    set (b := rev _). assert (Hb : length b = 8%nat) by (unfold b; by rewrite length_rev, length_bits).
    rewrite <- Hb at 1. apply bits_number. }
  rewrite E. do 64 (destruct n as [|n]; [reflexivity|]). lia.
Qed.

Lemma pc1_permuted password :
  pc1_loop 56 password 56 = map Z.b2z (Fips.permute Fips.PC1 (key_bits password)).
Proof.
  rewrite pc1_loop_map. replace (pc1_indices 56 56) with (map (fun i => Z.of_nat (i - 1)) Fips.PC1) by (vm_compute; reflexivity).
  unfold Fips.permute. rewrite !map_map. apply map_ext_in. intros i Hi.
  assert (Hb : forallb (fun i => (1 <=? i) && (i <=? 64))%nat Fips.PC1 = true) by (vm_compute; reflexivity).
  rewrite forallb_forall in Hb. specialize (Hb i Hi). rewrite andb_true_iff, !Nat.leb_le in Hb.
  rewrite pc1_bit_spec, key_bits_at by lia. done.
Qed.

End Cipher.

Section Keys.
Import Des.
Local Open Scope js_scope.

(** The bits that PC2 chooses, for each rotation. *)
Definition chosen (p : list Z) (j : nat) : Z := default 0 (aget p (default 0 (aget PC2 (Z.of_nat j)))).

Lemma schedule_chosen CD :
  length CD = 56%nat ->
  map (fun rot => map (chosen (pcr (map Z.b2z CD) rot)) (seq 0 48)) totrot
  = map (map Z.b2z) (Fips.schedule Fips.shifts (take 28 CD) (drop 28 CD)).
Proof. intros H. explicit H. vm_compute. reflexivity. Qed.

(** Half a key: [n] of its bits after [n] rounds of the loop. *)
Definition half_loop (g : nat -> Z) (n : nat) : Z :=
  fold_left (fun k j => if g j =? 0 then k else k |. (1 <<. (23 - Z.of_nat j))) (seq 0 n) 0.

Lemma half_loop_bit g n i :
  (n <= 24)%nat -> (i < 32)%nat ->
  Z.testbit (half_loop g n) (Z.of_nat i) = (24 - n <=? i)%nat && (i <? 24)%nat && negb (g (23 - i)%nat =? 0).
Proof.
  intros Hn Hi. induction n as [|n IH].
  { unfold half_loop. cbn [seq fold_left]. rewrite Z.bits_0. destruct (Nat.leb_spec (24 - 0) i), (Nat.ltb_spec i 24); done || lia. }
  specialize (IH ltac:(lia)). unfold half_loop in *. rewrite seq_S, fold_left_app. cbn [fold_left Nat.add].
  set (k := fold_left _ (seq 0 n) 0) in *.
  assert (E : Z.testbit (k |. (1 <<. (23 - Z.of_nat n))) (Z.of_nat i) = Z.testbit k (Z.of_nat i) || (i =? 23 - n)%nat).
  { unfold js_or, js_shl. rewrite Z.lor_spec, !testbit_toInt32 by lia. rewrite Z.mod_small by lia. change (toInt32 1) with 1.
    rewrite Z.shiftl_1_l, Z.pow2_bits_eqb by lia. f_equal.
    destruct (Z.eqb_spec (23 - Z.of_nat n) (Z.of_nat i)), (Nat.eqb_spec i (23 - n)); done || lia. }
  destruct (decide (i = 23 - n)%nat) as [->|Hne].
  - replace (23 - (23 - n))%nat with n in * by lia. rewrite (proj2 (Nat.leb_gt _ _)) in IH by lia.
    rewrite (proj2 (Nat.leb_le _ _)), (proj2 (Nat.ltb_lt _ _)) by lia. cbn [andb] in *.
    destruct (g n =? 0); cbn [negb]; [by rewrite IH|by rewrite E, Nat.eqb_refl, orb_true_r].
  - assert (E' : (24 - S n <=? i)%nat = (24 - n <=? i)%nat) by (destruct (Nat.leb_spec (24 - S n) i), (Nat.leb_spec (24 - n) i); done || lia).
    rewrite E', <- IH. destruct (g n =? 0); [done|]. by rewrite E, (proj2 (Nat.eqb_neq _ _) Hne), orb_false_r.
Qed.

Lemma half_loop_word g :
  word (half_loop g 24) = replicate 8 false ++ map (fun j => negb (g j =? 0)) (seq 0 24).
Proof.
  rewrite (word_map _ (fun i => (24 - 24 <=? i)%nat && (i <? 24)%nat && negb (g (23 - i)%nat =? 0)));
    [reflexivity|]. intros i Hi. by apply half_loop_bit.
Qed.

Lemma fold_left_pointwise {A B} (f g : A -> B -> A) l k : (forall k j, f k j = g k j) -> fold_left f l k = fold_left g l k.
Proof. intros H. revert k. induction l as [|j l IH]; intros k; [done|]. cbn. by rewrite H, IH. Qed.

Lemma kn_half_loop p (from : nat) : kn_half p (Z.of_nat from) = half_loop (fun j => chosen p (from + j)) 24.
Proof.
  unfold kn_half, half_loop, chosen. apply fold_left_pointwise. intros k j.
  by replace (Z.of_nat j + Z.of_nat from) with (Z.of_nat (from + j)) by lia.
Qed.

(** [cookey] spreads the bits. *)
Lemma cookey_words raw0 raw1 A B :
  length A = 24%nat -> length B = 24%nat -> word raw0 = replicate 8 false ++ A -> word raw1 = replicate 8 false ++ B ->
  exists k0 k1, cookey raw0 raw1 = [k0; k1]
    /\ word k0 = cooked [0; 2; 4; 6]%nat (A ++ B) /\ word k1 = cooked [1; 3; 5; 7]%nat (A ++ B).
Proof.
  intros HA HB E0 E1. eexists _, _. split; [reflexivity|]. rewrite !word_or, !word_shl, !word_ushr, !word_and, E0, E1 by lia.
  clear E0 E1. explicit HA. explicit HB.
  repeat match goal with |- context [word ?c] => let l := eval vm_compute in (word c) in change (word c) with l end.
  nat_constants.
  unfold shifted_left, shifted_right. cbn. by rewrite !orb_false_r.
Qed.

Lemma map_eq_Forall2 {A B C} (f : A -> C) (g : B -> C) l k : map f l = map g k -> Forall2 (fun a b => f a = g b) l k.
Proof. revert k. induction l as [|a l IH]; intros [|b k] [=]; constructor; auto. Qed.

Lemma key_words_kn (pc1m : list Z) rots Ks :
  Forall2 (fun rot K => map (chosen (pcr pc1m rot)) (seq 0 48) = map Z.b2z K) rots Ks ->
  key_words (concat (map (fun '(raw0, raw1) => cookey raw0 raw1)
    (map (fun rot => let p := pcr pc1m rot in (kn_half p 0, kn_half p 24)) rots))) Ks.
Proof.
  induction 1 as [|rot K rots Ks HK H IH]; [constructor|]. cbv zeta in IH |- *. set (p := pcr pc1m rot) in *.
  assert (HL : length K = 48%nat).
  { apply (f_equal length) in HK. by rewrite !length_map, length_seq in HK. }
  assert (Hbits : forall n from K', map (chosen p) (seq from n) = map Z.b2z K' ->
    map (fun j => negb (chosen p (from + j) =? 0)) (seq 0 n) = K').
  { intros n from K' E. rewrite <- (map_map (fun j => chosen p (from + j)) (fun v => negb (v =? 0))).
    rewrite <- (map_map (fun j => (from + j)%nat) (chosen p)). pose proof (fmap_add_seq from 0 n) as Es.
    rewrite Nat.add_0_r in Es. change (map (fun j => (from + j)%nat) (seq 0 n)) with (Nat.add from <$> seq 0 n).
    rewrite Es, E, map_map. transitivity (map (fun b => b) K'); [|apply map_id]. apply map_ext. by intros []. }
  cbn [map concat]. replace (map (chosen p) (seq 0 48)) with (map (chosen p) (seq 0 24) ++ map (chosen p) (seq 24 24)) in HK
    by (by rewrite <- map_app, <- seq_app).
  rewrite <- (take_drop 24 K), map_app in HK. apply app_inj_1 in HK as [HA HB];
    [|rewrite !length_map, length_seq, length_take; lia].
  apply Hbits in HA, HB.
  assert (E0 : word (kn_half p 0) = replicate 8 false ++ take 24 K).
  { rewrite (kn_half_loop p 0 : kn_half p 0 = _), half_loop_word. by f_equal. }
  assert (E1 : word (kn_half p 24) = replicate 8 false ++ drop 24 K).
  { rewrite (kn_half_loop p 24 : kn_half p 24 = _), half_loop_word. by f_equal. }
  pose proof (cookey_words _ _ (take 24 K) (drop 24 K) ltac:(rewrite length_take; lia) ltac:(rewrite length_drop; lia) E0 E1) as Hc.
  rewrite take_drop in Hc. destruct Hc as (k0 & k1 & Ek & Ek0 & Ek1). cbn [map concat].
  change (cookey (kn_half (pcr pc1m rot) 0) (kn_half (pcr pc1m rot) 24)) with (cookey (kn_half p 0) (kn_half p 24)).
  rewrite Ek. by constructor.
Qed.

Lemma keys_words password : key_words (keys password) (Fips.KS (key_bits password)).
Proof. unfold keys, kn. rewrite pc1_permuted. apply key_words_kn, map_eq_Forall2. by apply schedule_chosen. Qed.

End Keys.

(** ** Lemmas: the ends of the cipher *)

Section Ends.
Import Des.
Local Open Scope js_scope.

Definition start (l r : Z) : Z * Z :=
  let '(l, r) := exchange l r 4 0x0f0f0f0f in
  let '(l, r) := exchange l r 16 0x0000ffff in
  let '(r, l) := exchange r l 2 0x33333333 in
  let '(r, l) := exchange r l 8 0x00ff00ff in
  let r := (r <<. 1) |. ((r >>>. 31) &. 1) in
  let '(l, r) := exchange_odd l r in
  let l := (l <<. 1) |. ((l >>>. 31) &. 1) in (l, r).

Definition finish (l r : Z) : Z * Z :=
  let r := (r <<. 31) |. (r >>>. 1) in
  let '(l, r) := exchange_odd l r in
  let l := (l <<. 31) |. (l >>>. 1) in
  let '(l, r) := exchange l r 8 0x00ff00ff in
  let '(l, r) := exchange l r 2 0x33333333 in
  let '(r, l) := exchange r l 16 0x0000ffff in
  let '(r, l) := exchange r l 4 0x0f0f0f0f in (l, r).

Lemma enc8_parts ks text :
  enc8 ks text =
    let '(l, r) := start (squash text 0) (squash text 4) in
    let '(l, r) := rounds 8 ks l r in
    let '(l, r) := finish l r in spread r ++ spread l.
Proof.
  unfold enc8, start, finish. cbv zeta.
  repeat (match goal with
  | |- context [exchange ?p ?q ?k ?m] => destruct (exchange p q k m)
  | |- context [exchange_odd ?p ?q] => destruct (exchange_odd p q)
  | |- context [rounds ?n ?ks ?l ?r] => destruct (rounds n ks l r)
  end; cbv beta iota zeta). reflexivity.
Qed.

Ltac exchanged := match goal with
  | |- context [exchange ?p ?q ?k ?m] => let E := fresh "E" in
      destruct (exchange p q k m) as [? ?] eqn:E; apply exchange_word in E as [? ?]; [|by repeat first [left | right]]
  | |- context [exchange_odd ?p ?q] => let E := fresh "E" in
      destruct (exchange_odd p q) as [? ?] eqn:E; apply exchange_odd_word in E as [? ?]
  end.

Ltac lists := repeat match goal with H : word _ = _ |- _ => rewrite H end.

Lemma start_word l r :
  let '(l', r') := start l r in let LR := Fips.permute Fips.IP (word l ++ word r) in
  word l' = Fips.rotate 1 (take 32 LR) /\ word r' = Fips.rotate 1 (drop 32 LR).
Proof.
  unfold start. repeat exchanged. rewrite ?top_bit in *. rewrite ?rotate_word in * by lia. lists.
  pose proof (length_bits 32 l) as Hl. pose proof (length_bits 32 r) as Hr.
  revert Hl Hr. generalize (word l) (word r). intros L R Hl Hr. explicit Hl. explicit Hr. split; vm_compute; reflexivity.
Qed.

Lemma finish_word l r L R :
  length L = 32%nat -> length R = 32%nat -> word l = Fips.rotate 1 L -> word r = Fips.rotate 1 R ->
  let '(l', r') := finish l r in word r' ++ word l' = Fips.permute Fips.IP_inverse (R ++ L).
Proof.
  intros HL HR El Er. unfold finish. repeat exchanged. rewrite ?rotate_word in * by lia. lists.
  clear -HL HR. explicit HL. explicit HR. vm_compute. reflexivity.
Qed.

(** *** Bytes *)

Lemma word_byte b : is_byte b -> word (nint (Some b)) = replicate 24 false ++ Fips.bits 8 b.
Proof.
  intros [H0 H1]. unfold nint. cbn [default]. rewrite bits32_toInt32.
  apply (nth_ext _ _ false false); [by rewrite length_app, !length_bits|]. rewrite length_bits. intros i Hi.
  rewrite bits_at by lia. destruct (decide (i < 24)%nat).
  - rewrite app_nth1 by (rewrite length_replicate; lia). rewrite nth_no_bits. apply Z.testbit_false; [lia|].
    rewrite Z.div_small; [done|]. split; [done|]. apply (Z.lt_le_trans _ (2 ^ 8)); [done|]. apply Z.pow_le_mono_r; lia.
  - rewrite app_nth2 by (rewrite length_replicate; lia). rewrite length_replicate, bits_at by lia. do 2 f_equal. lia.
Qed.

Lemma squash_word a b c d text i :
  bytes [a; b; c; d] -> aget text i = Some a -> aget text (i + 1) = Some b -> aget text (i + 2) = Some c ->
  aget text (i + 3) = Some d -> word (squash text i) = concat (map (Fips.bits 8) [a; b; c; d]).
Proof.
  intros H Ea Eb Ec Ed. rewrite !Forall_cons in H. destruct H as (Ha & Hb & Hc & Hd & _). unfold squash. rewrite Ea, Eb, Ec, Ed.
  rewrite !word_or, !word_shl, !word_byte by (done || lia). cbn [map concat].
  generalize (length_bits 8 a) (length_bits 8 b) (length_bits 8 c) (length_bits 8 d).
  generalize (Fips.bits 8 a) (Fips.bits 8 b) (Fips.bits 8 c) (Fips.bits 8 d). intros A B C D HA HB HC HD.
  explicit HA. explicit HB. explicit HC. explicit HD.
  nat_constants.
  unfold shifted_left. cbn. by rewrite !orb_false_r.
Qed.

Lemma byte_number x k : 0 <= k < 32 ->
  (x >>>. k) mod 256 = Fips.number (drop 24 (shifted_right (Z.to_nat k) (word x))).
Proof.
  intros Hk. rewrite <- word_ushr by done. change (drop 24 (word ?y)) with (Fips.bits 8 y). by rewrite number_bits.
Qed.

Lemma spread_bytes r l : spread r ++ spread l = Fips.to_bytes 8 (word r ++ word l).
Proof.
  unfold spread. cbn [map]. rewrite !byte_number by lia. reflexivity.
Qed.

Lemma length_schedule shifts C D : length (Fips.schedule shifts C D) = length shifts.
Proof. revert C D. induction shifts as [|n shifts IH]; intros C D; [done|]. cbn. by rewrite IH. Qed.

(** The cipher with keys that match. *)
Lemma encipher_words ks Ks l r LR :
  key_words ks Ks -> length Ks = 16%nat -> length LR = 64%nat ->
  word l = Fips.rotate 1 (take 32 LR) -> word r = Fips.rotate 1 (drop 32 LR) ->
  (let '(l, r) := rounds 8 ks l r in let '(l, r) := finish l r in spread r ++ spread l)
  = Fips.to_bytes 8 (let '(L, R) := Fips.feistel Ks (take 32 LR) (drop 32 LR) in Fips.permute Fips.IP_inverse (R ++ L)).
Proof.
  intros HK Hn HLR Hl Hr.
  pose proof (rounds_feistel 8 ks Ks l r (take 32 LR) (drop 32 LR) HK Hn) as Hf.
  rewrite length_take, length_drop, HLR in Hf. specialize (Hf eq_refl eq_refl Hl Hr).
  destruct (rounds 8 ks l r) as [l' r'], (Fips.feistel Ks (take 32 LR) (drop 32 LR)) as [L R].
  destruct Hf as (Hl' & Hr' & HL & HR).
  pose proof (finish_word l' r' L R HL HR Hl' Hr') as Hf. destruct (finish l' r') as [l'' r'']. by rewrite <- Hf, spread_bytes.
Qed.

Lemma enc8_des password a b c d e f g h :
  bytes [a; b; c; d; e; f; g; h] ->
  enc8 (keys password) [a; b; c; d; e; f; g; h] = Fips.des (vnc_key password) [a; b; c; d; e; f; g; h].
Proof.
  intros H. change [a; b; c; d; e; f; g; h] with ([a; b; c; d] ++ [e; f; g; h]) in H. apply Forall_app in H as [H1 H2].
  rewrite enc8_parts. set (text := [a; b; c; d; e; f; g; h]).
  pose proof (squash_word a b c d text 0 H1 eq_refl eq_refl eq_refl eq_refl) as El.
  pose proof (squash_word e f g h text 4 H2 eq_refl eq_refl eq_refl eq_refl) as Er.
  pose proof (start_word (squash text 0) (squash text 4)) as Hs. destruct (start _ _) as [l r].
  unfold Fips.des, Fips.encipher. fold (key_bits password).
  assert (Et : concat (map (Fips.bits 8) text) = word (squash text 0) ++ word (squash text 4)).
  { rewrite El, Er. by rewrite <- concat_app, <- map_app. }
  rewrite Et. cbv zeta in Hs |- *.
  assert (HLR : length (Fips.permute Fips.IP (word (squash text 0) ++ word (squash text 4))) = 64%nat) by apply length_map.
  revert Hs HLR. generalize (Fips.permute Fips.IP (word (squash text 0) ++ word (squash text 4))). intros LR [Hl Hr] HLR.
  apply encipher_words; [apply keys_words|apply length_schedule|done|done|done].
Qed.

End Ends.

(** ** Properties *)

Section Properties.
Import Des.

(** [C10] The optimised cipher, whose S-boxes are merged with their permutation and
    whose halves are kept rotated, is the Data Encryption Standard: the response to
    a challenge is the challenge enciphered, block by block, with the password as
    the key, truncated or padded with zeros to eight bytes, and with the bits of
    each byte in reverse order. *)
Theorem genDES_is_des password challenge :
  bytes challenge -> zlen challenge = 16 ->
  genDES password challenge
  = Fips.des (vnc_key password) (take 8 challenge) ++ Fips.des (vnc_key password) (drop 8 challenge).
Proof.
  intros Hb Hl. unfold zlen in Hl. assert (H : length challenge = 16%nat) by lia. clear Hl.
  do 16 (destruct challenge as [|? challenge]; [discriminate H|]). destruct challenge; [|discriminate H].
  apply (Forall_app _ [_; _; _; _; _; _; _; _] [_; _; _; _; _; _; _; _]) in Hb as [H1 H2].
  unfold genDES, encrypt. cbn [take drop]. by rewrite !enc8_des.
Qed.

Lemma genDES_is_des_witness :
  let challenge := [0; 1; 2; 3; 4; 5; 6; 7; 250; 251; 252; 253; 254; 255; 0; 128] in
  bytes challenge /\ zlen challenge = 16 /\
  genDES (codes "secret") challenge
  = Fips.des (vnc_key (codes "secret")) (take 8 challenge) ++ Fips.des (vnc_key (codes "secret")) (drop 8 challenge).
Proof.
  cbv zeta. split; [|split].
  - apply (bool_decide_unpack _). vm_compute. exact I.
  - reflexivity.
  - apply genDES_is_des; [|reflexivity]. apply (bool_decide_unpack _). vm_compute. exact I.
Defined.

(** The standard, at an example of its validation: key 133457799BBCDFF1, block 0123456789ABCDEF. *)
Example des_vector :
  Fips.des [0x13; 0x34; 0x57; 0x79; 0x9B; 0xBC; 0xDF; 0xF1] [0x01; 0x23; 0x45; 0x67; 0x89; 0xAB; 0xCD; 0xEF]
  = [0x85; 0xE8; 0x13; 0x54; 0x0F; 0x0A; 0xB4; 0x05].
Proof. by vm_compute. Qed.

End Properties.
