(* ===== verification/Mouse.v ===== *)
(** * The mouse handler of noVNC
    (src/ControlServer/web/www/novnc/core/input/mouse.js)

    A [Mouse] turns the mouse, touch and wheel events of its target into calls of
    [onmousebutton] and [onmousemove], logged here in [ms_reports]; what the code
    passes to [setCapture] is counted.  A timer is a flag: it is pending.  Handlers
    answer whether they stopped the event. *)

From S2P Require Import Prelude Doubles.
From Stdlib Require Import SpecFloat.

Module Mouse.
Local Open Scope js_scope.

Definition point : Type := double * double.

(** *** Events (core/util/events.js) *)

(** The fields of a DOM event the handlers read; [ev_which] is 0 where the browser has none. *)
Record event := Event {
  ev_type : string;
  ev_touches : option (list point);
  ev_changedTouches : option (list point);
  ev_client : point;
  ev_which : Z;
  ev_button : Z }.

(** [changedTouches[0]] of an empty list is undefined: reading its coordinates throws. *)
Definition getPointerEvent {S} (e : event) : M S point :=
  match ev_changedTouches e, ev_touches e with
  | Some (p :: _), _ => mret p
  | Some [], _ => throw TypeError
  | None, Some (p :: _) => mret p
  | None, Some [] => throw TypeError
  | None, None => mret (ev_client e)
  end.

(** [getBoundingClientRect()] *)
Record bounds := Bounds {
  b_left : double; b_top : double; b_right : double; b_bottom : double; b_width : double; b_height : double }.

(** *** State *)

Definition WHEEL_STEP : double := dbl_of_Z 10.
Definition WHEEL_LINE_HEIGHT : double := dbl_of_Z 19.

(** The calls of [onmousebutton] and [onmousemove]. *)
Inductive report :=
  | RButton (pos : point) (down : bool) (bmask : Z)
  | RMove (pos : point).

Record mouse := Mouse {
  ms_doubleClickTimer : bool;
  ms_lastTouchPos : option point;
  ms_pos : option point;
  ms_wheelStepXTimer : bool;
  ms_wheelStepYTimer : bool;
  ms_accumulatedWheelDeltaX : double;
  ms_accumulatedWheelDeltaY : double;
  ms_touchButton : Z;
  ms_listening : bool;             (* mouse and wheel listeners *)
  ms_touch_listening : bool;
  ms_captures : nat;
  ms_reports : list report }.
#[export] Instance eta_mouse : Eta mouse := fun m =>
  Mouse (ms_doubleClickTimer m) (ms_lastTouchPos m) (ms_pos m) (ms_wheelStepXTimer m) (ms_wheelStepYTimer m)
    (ms_accumulatedWheelDeltaX m) (ms_accumulatedWheelDeltaY m) (ms_touchButton m) (ms_listening m)
    (ms_touch_listening m) (ms_captures m) (ms_reports m).

Definition constructor : mouse :=
  Mouse false None None false false (dbl_of_Z 0) (dbl_of_Z 0) 1 false false 0 [].

Definition onmousebutton (pos : point) (down : bool) (bmask : Z) : M mouse unit :=
  modify (fun m => m <| ms_reports := ms_reports m ++ [RButton pos down bmask] |>).
Definition onmousemove (pos : point) : M mouse unit :=
  modify (fun m => m <| ms_reports := ms_reports m ++ [RMove pos] |>).

(** [this._pos], of which coordinates are read *)
Definition get_pos : M mouse point :=
  p ← gets ms_pos; match p with Some p => mret p | None => throw TypeError end.

Section Mouse.
(** [window.devicePixelRatio], NaN if there is none. *)
Context (devicePixelRatio : double).

(** [window.devicePixelRatio || 1] *)
Definition pixel_ratio : double :=
  match devicePixelRatio with
  | S754_nan | S754_zero _ => dbl_of_Z 1
  | r => r
  end.

(** One coordinate, clipped to the target. *)
Definition clip (client low high size : double) : double :=
  if dbl_lt client low then dbl_of_Z 0
  else if dbl_le high client then dbl_sub size (dbl_of_Z 1)
  else dbl_sub client low.

Definition updateMousePosition (b : bounds) (e : event) : M mouse unit :=
  p ← getPointerEvent e;
  modify (fun m => m <| ms_pos := Some (clip p.1 (b_left b) (b_right b) (b_width b),
                                        clip p.2 (b_top b) (b_bottom b) (b_height b)) |>).

Definition is_touch (e : event) : bool :=
  bool_decide (is_Some (ev_touches e)) || bool_decide (is_Some (ev_changedTouches e)).

Definition resetDoubleClickTimer : M mouse unit := modify (fun m => m <| ms_doubleClickTimer := false |>).

(** Close enough for a double click? *)
Definition near (p q : point) : bool :=
  let xs := dbl_sub p.1 q.1 in let ys := dbl_sub p.2 q.2 in
  let d := dbl_sqrt (dbl_add (dbl_mul xs xs) (dbl_mul ys ys)) in
  dbl_lt d (dbl_mul (dbl_of_Z 20) pixel_ratio).

(** The first touch, or a second one soon after it. *)
Definition touch_pos (pos : point) : M mouse point :=
  timer ← gets ms_doubleClickTimer;
  pos ← (if negb timer then modify (fun m => m <| ms_lastTouchPos := Some pos |>);; mret pos
         else
           last ← gets ms_lastTouchPos;
           match last with
           | None => throw TypeError
           | Some last => mret (if near last pos then last else pos)
           end);
  modify (fun m => m <| ms_doubleClickTimer := true |>);;
  mret pos.

(** The mask of a mouse button, by the standard and by old IE. *)
Definition button_mask (e : event) : Z :=
  if negb (ev_which e =? 0) then 1 <<. ev_button e
  else (ev_button e &. 0x1) + (ev_button e &. 0x2) * 2 + (ev_button e &. 0x4) / 2.

Definition handleMouseButton (b : bounds) (e : event) (down : bool) : M mouse bool :=
  updateMousePosition b e;;
  pos ← get_pos;
  pos ← (if is_touch e && down then touch_pos pos else mret pos);
  touchButton ← gets ms_touchButton;
  onmousebutton pos down (if is_touch e then touchButton else button_mask e);;
  mret true.

Definition handleMouseDown (b : bounds) (e : event) : M mouse bool :=
  when (bool_decide (ev_type e = "mousedown"%string)) (modify (fun m => m <| ms_captures := S (ms_captures m) |>));;
  handleMouseButton b e true.

Definition handleMouseUp (b : bounds) (e : event) : M mouse bool := handleMouseButton b e false.

(** A press and a release of a wheel button. *)
Definition wheel_click (bmask : Z) : M mouse unit :=
  pos ← get_pos; onmousebutton pos true bmask;;
  pos ← get_pos; onmousebutton pos false bmask.

Definition generateWheelStepX : M mouse unit :=
  d ← gets ms_accumulatedWheelDeltaX;
  (if dbl_lt d (dbl_of_Z 0) then wheel_click (1 <<. 5)
   else if dbl_lt (dbl_of_Z 0) d then wheel_click (1 <<. 6)
   else skip);;
  modify (fun m => m <| ms_accumulatedWheelDeltaX := dbl_of_Z 0 |>).

Definition generateWheelStepY : M mouse unit :=
  d ← gets ms_accumulatedWheelDeltaY;
  (if dbl_lt d (dbl_of_Z 0) then wheel_click (1 <<. 3)
   else if dbl_lt (dbl_of_Z 0) d then wheel_click (1 <<. 4)
   else skip);;
  modify (fun m => m <| ms_accumulatedWheelDeltaY := dbl_of_Z 0 |>).

Definition resetWheelStepTimers : M mouse unit :=
  modify (fun m => m <| ms_wheelStepXTimer := false |> <| ms_wheelStepYTimer := false |>).

Definition handleMouseWheel (b : bounds) (e : event) (deltaX deltaY : double) (deltaMode : Z) : M mouse bool :=
  resetWheelStepTimers;;
  updateMousePosition b e;;
  let dX := if negb (deltaMode =? 0) then dbl_mul deltaX WHEEL_LINE_HEIGHT else deltaX in
  let dY := if negb (deltaMode =? 0) then dbl_mul deltaY WHEEL_LINE_HEIGHT else deltaY in
  modify (fun m => m <| ms_accumulatedWheelDeltaX := dbl_add (ms_accumulatedWheelDeltaX m) dX |>
                     <| ms_accumulatedWheelDeltaY := dbl_add (ms_accumulatedWheelDeltaY m) dY |>);;
  m ← gets id;
  (if dbl_lt WHEEL_STEP (dbl_abs (ms_accumulatedWheelDeltaX m)) then generateWheelStepX
   else modify (fun m => m <| ms_wheelStepXTimer := true |>));;
  m ← gets id;
  (if dbl_lt WHEEL_STEP (dbl_abs (ms_accumulatedWheelDeltaY m)) then generateWheelStepY
   else modify (fun m => m <| ms_wheelStepYTimer := true |>));;
  mret true.

Definition handleMouseMove (b : bounds) (e : event) : M mouse bool :=
  updateMousePosition b e;;
  pos ← get_pos;
  onmousemove pos;;
  mret true.

(** A click or the context menu; is it on the target? *)
Definition handleMouseDisable (on_target : bool) : M mouse bool := mret on_target.

Definition grab (isTouchDevice : bool) : M mouse unit :=
  when isTouchDevice (modify (fun m => m <| ms_touch_listening := true |>));;
  modify (fun m => m <| ms_listening := true |>).

Definition ungrab (isTouchDevice : bool) : M mouse unit :=
  resetWheelStepTimers;;
  when isTouchDevice (modify (fun m => m <| ms_touch_listening := false |>));;
  modify (fun m => m <| ms_listening := false |>).

(** What can happen to it.  A wheel event is a mouse event; whether this is a
    touch device can change, but not back. *)
Inductive input :=
  | IDown (b : bounds) (e : event)
  | IUp (b : bounds) (e : event)
  | IMove (b : bounds) (e : event)
  | IWheel (b : bounds) (client : point) (deltaX deltaY : double) (deltaMode : Z)
  | IClick (on_target : bool)
  | IDoubleClickTimeout | IWheelXTimeout | IWheelYTimeout
  | IGrab (isTouchDevice : bool)
  | IUngrab (isTouchDevice : bool)
  | ISetTouchButton (bmask : Z).

Definition wheel_event (client : point) : event := Event "wheel" None None client 0 0.

(** A listener hears the event if it was added. *)
Definition heard (e : event) (m : mouse) : bool :=
  if is_touch e then ms_touch_listening m else ms_listening m.

Definition handle (i : input) : M mouse bool :=
  m ← gets id;
  match i with
  | IDown b e => if heard e m then handleMouseDown b e else mret false
  | IUp b e => if heard e m then handleMouseUp b e else mret false
  | IMove b e => if heard e m then handleMouseMove b e else mret false
  | IWheel b client dX dY mode =>
      if ms_listening m then handleMouseWheel b (wheel_event client) dX dY mode else mret false
  | IClick on_target => if ms_listening m then handleMouseDisable on_target else mret false
  | IDoubleClickTimeout => when (ms_doubleClickTimer m) resetDoubleClickTimer;; mret false
  | IWheelXTimeout =>
      when (ms_wheelStepXTimer m)
        (modify (fun m => m <| ms_wheelStepXTimer := false |>);; generateWheelStepX);; mret false
  | IWheelYTimeout =>
      when (ms_wheelStepYTimer m)
        (modify (fun m => m <| ms_wheelStepYTimer := false |>);; generateWheelStepY);; mret false
  | IGrab touch => grab touch;; mret false
  | IUngrab touch => ungrab touch;; mret false
  | ISetTouchButton bmask => modify (fun m => m <| ms_touchButton := bmask |>);; mret false
  end.

Definition step (m m' : mouse) : Prop := exists i, m' = (handle i m).2.

End Mouse.
End Mouse.

(** ** Lemmas *)

Section Lemmas.
Import Mouse.
Context (devicePixelRatio : double).
Implicit Types (m : mouse) (b : bounds) (e : event).
Abbreviation handle := (handle devicePixelRatio).

(** A run of inputs. *)
Definition inputs (l : list input) m : mouse := fold_left (fun m i => (handle i m).2) l m.

Lemma keeps_pos_event {S} (P : S -> Prop) e : keeps P (getPointerEvent e).
Proof. unfold getPointerEvent. keeps_by ltac:(fun _ => fail). Qed.

Lemma keeps_inputs (P : mouse -> Prop) l m :
  (forall i, i ∈ l -> keeps P (handle i)) -> P m -> P (inputs l m).
Proof.
  revert m. unfold inputs. induction l as [|i l IH]; intros m Hl Hm; [done|]. cbn [fold_left].
  apply IH; [intros j Hj; apply Hl; by right|]. apply Hl; [by left|done].
Qed.

(** *** The wheel *)

(** Of a direction: the distance not yet reported waits for its timer, at a known place. *)
Definition waits (timer : mouse -> bool) (delta : mouse -> double) m : Prop :=
  (delta m = dbl_of_Z 0 \/ timer m = true) /\ (timer m = true -> is_Some (ms_pos m)).

Abbreviation waits_X := (waits ms_wheelStepXTimer ms_accumulatedWheelDeltaX).
Abbreviation waits_Y := (waits ms_wheelStepYTimer ms_accumulatedWheelDeltaY).
Definition wheel_waits m : Prop := waits_X m /\ waits_Y m.

Lemma waits_same timer delta m m' :
  timer m' = timer m -> delta m' = delta m -> (is_Some (ms_pos m) -> is_Some (ms_pos m')) ->
  waits timer delta m -> waits timer delta m'.
Proof. unfold waits. intros -> -> Hp [H1 H2]. auto. Qed.

Lemma keeps_wheel_modify (f : mouse -> mouse) :
  (forall m, ms_wheelStepXTimer (f m) = ms_wheelStepXTimer m /\ ms_wheelStepYTimer (f m) = ms_wheelStepYTimer m
    /\ ms_accumulatedWheelDeltaX (f m) = ms_accumulatedWheelDeltaX m
    /\ ms_accumulatedWheelDeltaY (f m) = ms_accumulatedWheelDeltaY m /\ (is_Some (ms_pos m) -> is_Some (ms_pos (f m)))) ->
  keeps wheel_waits (modify f).
Proof.
  intros Hf m [HX HY]. destruct (Hf m) as (E1 & E2 & E3 & E4 & Hp).
  split; [revert HX|revert HY]; by apply waits_same.
Qed.

Ltac wheel := keeps_by ltac:(fun _ => lazymatch goal with
  | |- keeps _ (getPointerEvent _) => apply keeps_pos_event
  | |- keeps _ (modify _) => apply keeps_wheel_modify; intros ?; by split_and!
  | |- keeps _ _ => assumption
  end).

(** A click of a wheel button where the pointer is. *)
Definition click (p : point) (bmask : Z) : list report := [RButton p true bmask; RButton p false bmask].

Lemma wheel_click_run bmask m p :
  ms_pos m = Some p -> wheel_click bmask m = (Ret tt, m <| ms_reports := ms_reports m ++ click p bmask |>).
Proof.
  intros Hp. unfold wheel_click, get_pos, onmousebutton. run_monad. rewrite Hp. cbn.
  destruct m; cbn in *. rewrite Hp. cbn. by rewrite <- app_assoc.
Qed.

(** The button of a direction, if there is one. *)
Definition direction (d : double) (before after : Z) : list Z :=
  if dbl_lt d (dbl_of_Z 0) then [before] else if dbl_lt (dbl_of_Z 0) d then [after] else [].

Lemma generate_X_run m p :
  ms_pos m = Some p ->
  generateWheelStepX m = (Ret tt, m <| ms_accumulatedWheelDeltaX := dbl_of_Z 0 |>
    <| ms_reports := ms_reports m ++ concat (map (click p) (direction (ms_accumulatedWheelDeltaX m) 32 64)) |>).
Proof.
  intros Hp. unfold generateWheelStepX, direction. unfold mbind at 1, M_bind at 1, gets.
  destruct (dbl_lt _ (dbl_of_Z 0)); [|destruct (dbl_lt (dbl_of_Z 0) _)];
    unfold mbind, M_bind; rewrite ?(wheel_click_run _ m p) by done; destruct m; cbn; rewrite ?app_nil_r; done.
Qed.

Lemma generate_Y_run m p :
  ms_pos m = Some p ->
  generateWheelStepY m = (Ret tt, m <| ms_accumulatedWheelDeltaY := dbl_of_Z 0 |>
    <| ms_reports := ms_reports m ++ concat (map (click p) (direction (ms_accumulatedWheelDeltaY m) 8 16)) |>).
Proof.
  intros Hp. unfold generateWheelStepY, direction. unfold mbind at 1, M_bind at 1, gets.
  destruct (dbl_lt _ (dbl_of_Z 0)); [|destruct (dbl_lt (dbl_of_Z 0) _)];
    unfold mbind, M_bind; rewrite ?(wheel_click_run _ m p) by done; destruct m; cbn; rewrite ?app_nil_r; done.
Qed.

Lemma wheel_handled b client dX dY mode : keeps wheel_waits (handleMouseWheel b (wheel_event client) dX dY mode).
Proof.
  intros m _. unfold handleMouseWheel, resetWheelStepTimers, updateMousePosition, getPointerEvent, wheel_event.
  cbn [ev_changedTouches ev_touches ev_client]. unfold mbind, M_bind, modify, gets, mret, M_ret. cbn [id].
  set (m1 := _ <| ms_accumulatedWheelDeltaX := _ |> <| ms_accumulatedWheelDeltaY := _ |>).
  assert (Hp : exists p, ms_pos m1 = Some p) by (eexists; reflexivity). destruct Hp as [p Hp]. clearbody m1.
  assert (HX : exists m2, (if dbl_lt WHEEL_STEP (dbl_abs (ms_accumulatedWheelDeltaX m1)) then generateWheelStepX
     else fun s => (Ret tt, s <| ms_wheelStepXTimer := true |>)) m1 = (Ret tt, m2) /\ waits_X m2 /\ ms_pos m2 = Some p).
  { destruct (dbl_lt WHEEL_STEP _).
    - rewrite (generate_X_run m1 p Hp). eexists. split; [reflexivity|]. split; [|done]. split; [by left|]. intros _. by eexists.
    - eexists. split; [reflexivity|]. split; [|done]. split; [by right|]. intros _. by eexists. }
  destruct HX as (m2 & -> & HX & Hp2).
  assert (HY : exists m3, (if dbl_lt WHEEL_STEP (dbl_abs (ms_accumulatedWheelDeltaY m2)) then generateWheelStepY
     else fun s => (Ret tt, s <| ms_wheelStepYTimer := true |>)) m2 = (Ret tt, m3) /\ waits_Y m3 /\ waits_X m3).
  { destruct (dbl_lt WHEEL_STEP _).
    - rewrite (generate_Y_run m2 p Hp2). eexists. split; [reflexivity|]. split; [|exact HX]. split; [by left|]. intros _. by eexists.
    - eexists. split; [reflexivity|]. split; [|exact HX]. split; [by right|]. intros _. by eexists. }
  destruct HY as (m3 & -> & HY & HX3). by split.
Qed.

Lemma X_timeout_run m p :
  ms_wheelStepXTimer m = true -> ms_pos m = Some p ->
  handle IWheelXTimeout m = (Ret false, m <| ms_wheelStepXTimer := false |> <| ms_accumulatedWheelDeltaX := dbl_of_Z 0 |>
    <| ms_reports := ms_reports m ++ concat (map (click p) (direction (ms_accumulatedWheelDeltaX m) 32 64)) |>).
Proof.
  intros Ht Hp. unfold Mouse.handle. unfold mbind, M_bind, gets, modify. cbn [id]. rewrite Ht. cbn [when].
  unfold mbind, M_bind. by rewrite (generate_X_run _ p) by done.
Qed.

Lemma Y_timeout_run m p :
  ms_wheelStepYTimer m = true -> ms_pos m = Some p ->
  handle IWheelYTimeout m = (Ret false, m <| ms_wheelStepYTimer := false |> <| ms_accumulatedWheelDeltaY := dbl_of_Z 0 |>
    <| ms_reports := ms_reports m ++ concat (map (click p) (direction (ms_accumulatedWheelDeltaY m) 8 16)) |>).
Proof.
  intros Ht Hp. unfold Mouse.handle. unfold mbind, M_bind, gets, modify. cbn [id]. rewrite Ht. cbn [when].
  unfold mbind, M_bind. by rewrite (generate_Y_run _ p) by done.
Qed.

Lemma idle_X_timeout m : ms_wheelStepXTimer m = false -> handle IWheelXTimeout m = (Ret false, m).
Proof. intros Ht. unfold Mouse.handle, mbind, M_bind, gets. cbn [id]. by rewrite Ht. Qed.

Lemma idle_Y_timeout m : ms_wheelStepYTimer m = false -> handle IWheelYTimeout m = (Ret false, m).
Proof. intros Ht. unfold Mouse.handle, mbind, M_bind, gets. cbn [id]. by rewrite Ht. Qed.

Lemma X_timeout_waits : keeps wheel_waits (handle IWheelXTimeout).
Proof.
  intros m [HX HY]. destruct (ms_wheelStepXTimer m) eqn:E; [|by rewrite idle_X_timeout].
  destruct (proj2 HX E) as [p Hp]. rewrite (X_timeout_run m p E Hp). split; [|exact HY]. split; [by left|done].
Qed.

Lemma Y_timeout_waits : keeps wheel_waits (handle IWheelYTimeout).
Proof.
  intros m [HX HY]. destruct (ms_wheelStepYTimer m) eqn:E; [|by rewrite idle_Y_timeout].
  destruct (proj2 HY E) as [p Hp]. rewrite (Y_timeout_run m p E Hp). split; [exact HX|]. split; [by left|done].
Qed.

Lemma handle_wheel_waits i : (forall touch, i <> IUngrab touch) -> keeps wheel_waits (handle i).
Proof.
  intros Hi. destruct i as [b e|b e|b e|b p dX dY mode|o| | | |t|t|n]; [| | | | | |apply X_timeout_waits|apply Y_timeout_waits| | |].
  4: { apply keeps_bind; [apply keeps_gets|]. intros m0. destruct (ms_listening m0); [apply wheel_handled|apply keeps_ret]. }
  7: by destruct (Hi t).
  all: unfold Mouse.handle, handleMouseDown, handleMouseUp, handleMouseMove, handleMouseButton, updateMousePosition, get_pos,
    touch_pos, onmousebutton, onmousemove, handleMouseDisable, resetDoubleClickTimer, grab; wheel.
Qed.

(** *** Where the pointer is *)

(** The target's rectangle, at integral coordinates. *)
Definition rectangle (x y w h : Z) : bounds :=
  Bounds (dbl_of_Z x) (dbl_of_Z y) (dbl_of_Z (x + w)) (dbl_of_Z (y + h)) (dbl_of_Z w) (dbl_of_Z h).
Definition integral (p : point) : Prop :=
  exists x y, p = (dbl_of_Z x, dbl_of_Z y) /\ - 2 ^ 50 < x < 2 ^ 50 /\ - 2 ^ 50 < y < 2 ^ 50.

(** Inside a target of this size. *)
Definition inside (w h : Z) (p : point) : Prop :=
  exists x y, p = (dbl_of_Z x, dbl_of_Z y) /\ 0 <= x < w /\ 0 <= y < h.

Lemma clip_inside c low size :
  - 2 ^ 50 < c < 2 ^ 50 -> - 2 ^ 50 < low < 2 ^ 50 -> 0 < size < 2 ^ 50 ->
  exists n, clip (dbl_of_Z c) (dbl_of_Z low) (dbl_of_Z (low + size)) (dbl_of_Z size) = dbl_of_Z n /\ 0 <= n < size.
Proof.
  intros Hc Hl Hs. unfold clip. rewrite dbl_lt_Z, dbl_le_Z by (unfold exact; lia).
  destruct (Z.ltb_spec c low); [exists 0; split; [done|lia]|].
  destruct (Z.leb_spec (low + size) c).
  - exists (size - 1). rewrite dbl_sub_Z by (unfold exact; lia). split; [done|lia].
  - exists (c - low). rewrite dbl_sub_Z by (unfold exact; lia). split; [done|lia].
Qed.

Definition report_pos (r : report) : point := match r with RButton p _ _ => p | RMove p => p end.

(** The places known and reported. *)
Definition all_inside (w h : Z) m : Prop :=
  (forall p, ms_pos m = Some p -> inside w h p) /\ (forall p, ms_lastTouchPos m = Some p -> inside w h p)
  /\ Forall (fun r => inside w h (report_pos r)) (ms_reports m).

(** An event on the target at [x, y]: its pointers are at integral places. *)
Definition placed (x y w h : Z) (i : input) : Prop :=
  match i with
  | IDown b e | IUp b e | IMove b e =>
      b = rectangle x y w h /\ integral (ev_client e)
      /\ Forall integral (default [] (ev_touches e)) /\ Forall integral (default [] (ev_changedTouches e))
  | IWheel b client _ _ _ => b = rectangle x y w h /\ integral client
  | _ => True
  end.

Section Inside.
Context (x y w h : Z) (Hw : 0 < w < 2 ^ 50) (Hh : 0 < h < 2 ^ 50) (Hx : - 2 ^ 50 < x < 2 ^ 50) (Hy : - 2 ^ 50 < y < 2 ^ 50).
Abbreviation all_inside := (all_inside w h).
Abbreviation inside := (inside w h).

Definition event_integral e : Prop :=
  integral (ev_client e) /\ Forall integral (default [] (ev_touches e)) /\ Forall integral (default [] (ev_changedTouches e)).

Lemma getPointerEvent_integral e : event_integral e -> yields all_inside (getPointerEvent e) integral.
Proof.
  intros (H1 & H2 & H3). unfold getPointerEvent.
  destruct (ev_changedTouches e) as [[|p l]|]; [apply yields_throw|apply yields_ret; by inversion H3|].
  destruct (ev_touches e) as [[|p l]|]; [apply yields_throw|apply yields_ret; by inversion H2|by apply yields_ret].
Qed.

Lemma update_inside e : event_integral e -> keeps all_inside (updateMousePosition (rectangle x y w h) e).
Proof.
  intros He. eapply keeps_yields; [by apply getPointerEvent_integral|]. intros p (cx & cy & -> & Hcx & Hcy).
  apply keeps_modify. intros m (_ & H2 & H3). split; [|done]. cbn. intros q [= <-].
  destruct (clip_inside cx x w) as (a & -> & Ha); [lia..|]. destruct (clip_inside cy y h) as (b & -> & Hb); [lia..|].
  by exists a, b.
Qed.

Lemma get_pos_inside : yields all_inside get_pos inside.
Proof.
  unfold get_pos. apply (yields_bind _ _ _ (fun o => forall p, o = Some p -> inside p)).
  - intros m Hm. split; [exact Hm|]. exact (proj1 Hm).
  - intros [p|] Hp; [apply yields_ret; by apply Hp|apply yields_throw].
Qed.

Lemma button_inside p down n : inside p -> keeps all_inside (onmousebutton p down n).
Proof.
  intros Hp. apply keeps_modify. intros m (H1 & H2 & H3). split; [done|]. split; [done|]. cbn.
  apply Forall_app. split; [done|]. by repeat constructor.
Qed.

Lemma keeps_inside_modify (f : mouse -> mouse) :
  (forall m, ms_pos (f m) = ms_pos m /\ ms_lastTouchPos (f m) = ms_lastTouchPos m /\ ms_reports (f m) = ms_reports m) ->
  keeps all_inside (modify f).
Proof.
  intros Hf. apply keeps_modify. intros m (H1 & H2 & H3). destruct (Hf m) as (E1 & E2 & E3).
  split; [by rewrite E1|]. split; [by rewrite E2|by rewrite E3].
Qed.

Ltac stays := keeps_by ltac:(fun _ => lazymatch goal with
  | |- keeps _ (modify _) => apply keeps_inside_modify; intros ?; by split_and!
  | |- keeps _ (onmousebutton _ _ _) => by apply button_inside
  | |- keeps _ (updateMousePosition _ _) => by apply update_inside
  | Hc : forall n, keeps _ (wheel_click n) |- keeps _ (wheel_click _) => apply Hc
  end).

Lemma touch_pos_inside p : inside p -> yields all_inside (touch_pos devicePixelRatio p) inside.
Proof.
  intros Hp. unfold touch_pos. apply yields_keeps; [stays|]. intros timer. eapply yields_bind.
  - destruct timer; cbn [negb]; [|apply yields_keeps; [|intros []; by apply yields_ret]].
    + eapply (yields_bind _ _ _ (fun o => forall q, o = Some q -> inside q)).
      * intros m Hm. split; [exact Hm|]. exact (proj1 (proj2 Hm)).
      * intros [q|] Hq; [|apply yields_throw]. apply yields_ret. destruct (near _ _ _); [by apply Hq|done].
    + apply keeps_modify. intros m (H1 & H2 & H3). split; [done|]. split; [|done]. by intros q [= <-].
  - intros q Hq. apply yields_keeps; [stays|]. intros []. by apply yields_ret.
Qed.

Lemma mouse_button_inside e down : event_integral e -> keeps all_inside (handleMouseButton devicePixelRatio (rectangle x y w h) e down).
Proof.
  intros He. unfold handleMouseButton. apply keeps_bind; [by apply update_inside|intros []].
  eapply keeps_yields; [apply get_pos_inside|]. intros p Hp.
  apply (keeps_yields _ _ _ inside).
  - destruct (_ && _); [by apply touch_pos_inside|by apply yields_ret].
  - intros q Hq. stays.
Qed.

Lemma wheel_click_inside n : keeps all_inside (wheel_click n).
Proof.
  unfold wheel_click. eapply keeps_yields; [apply get_pos_inside|]. intros p Hp.
  apply keeps_bind; [by apply button_inside|intros []]. eapply keeps_yields; [apply get_pos_inside|]. intros q Hq.
  by apply button_inside.
Qed.

Lemma handle_inside i : placed x y w h i -> keeps all_inside (handle i).
Proof.
  pose proof wheel_click_inside as Hc.
  intros Hi. unfold Mouse.handle. apply keeps_bind; [apply keeps_gets|]. intros m0.
  destruct i as [b e|b e|b e|b p dX dY mode|o| | | |t|t|n]; cbn in Hi.
  - destruct Hi as [-> He]. destruct (heard e m0); [|apply keeps_ret]. unfold handleMouseDown.
    apply keeps_bind; [stays|intros []]. by apply mouse_button_inside.
  - destruct Hi as [-> He]. destruct (heard e m0); [|apply keeps_ret]. by apply mouse_button_inside.
  - destruct Hi as [-> He]. destruct (heard e m0); [|apply keeps_ret]. unfold handleMouseMove.
    apply keeps_bind; [by apply update_inside|intros []]. eapply keeps_yields; [apply get_pos_inside|]. intros p Hp.
    apply keeps_bind; [|intros []; apply keeps_ret]. apply keeps_modify. intros m (H1 & H2 & H3).
    split; [done|]. split; [done|]. cbn. apply Forall_app. split; [done|]. by repeat constructor.
  - destruct Hi as [-> He]. destruct (ms_listening m0); [|apply keeps_ret].
    assert (Hv : event_integral (wheel_event p)) by (split; [done|by split]).
    unfold handleMouseWheel, resetWheelStepTimers, generateWheelStepX, generateWheelStepY. stays.
  - unfold handleMouseDisable. stays.
  - unfold resetDoubleClickTimer. stays.
  - unfold generateWheelStepX. stays.
  - unfold generateWheelStepY. stays.
  - unfold grab. stays.
  - unfold ungrab, resetWheelStepTimers. stays.
  - stays.
Qed.

End Inside.

End Lemmas.

(** ** Where a report is expected

    The place of an event is that of its pointer, counted from the corner of the
    target and kept on it.  A report is expected at the place of the event that made
    it, one that a timer made at the place of the last event; and the start of a
    second touch, soon after the first and close to it, at the place of the first. *)

Section Aim.
Import Mouse.
Context (devicePixelRatio : double) (x y w h : Z).
Abbreviation handle := (handle devicePixelRatio).
Abbreviation near := (near devicePixelRatio).

Definition clamp (low size c : Z) : Z := Z.max 0 (Z.min (c - low) (size - 1)).

Definition pointer_of (e : event) : option point :=
  match ev_changedTouches e, ev_touches e with
  | Some l, _ => head l
  | None, Some l => head l
  | None, None => Some (ev_client e)
  end.

Definition event_of (i : input) : option event :=
  match i with
  | IDown _ e | IUp _ e | IMove _ e => Some e
  | IWheel _ client _ _ _ => Some (wheel_event client)
  | _ => None
  end.

(** The place of an event that is heard. *)
Definition place_of (m : mouse) (i : input) : option (Z * Z) :=
  e ← event_of i;
  p ← (if heard e m then pointer_of e else None);
  Some (clamp x w (dbl_trunc p.1), clamp y h (dbl_trunc p.2)).

Definition touch_start (i : input) : bool := match i with IDown _ e => is_touch e | _ => false end.
Definition doubles (p : Z * Z) : point := (dbl_of_Z p.1, dbl_of_Z p.2).

(** The mouse; where the last event was, and the first touch; and the places that
    reports are expected at. *)
Record aim := Aim { am_mouse : mouse; am_at : option (Z * Z); am_touch : option (Z * Z); am_places : list (Z * Z) }.

Definition spot (a : aim) (i : input) : option (Z * Z) :=
  match place_of (am_mouse a) i, am_touch a with
  | Some p, Some t =>
      if touch_start i && ms_doubleClickTimer (am_mouse a) && near (doubles t) (doubles p) then Some t else Some p
  | Some p, None => Some p
  | None, _ => am_at a
  end.

Definition aim_step (a : aim) (i : input) : aim :=
  let m := am_mouse a in let m' := (handle i m).2 in
  let or o o' := match o with Some p => Some p | None => o' end in
  let new := (length (ms_reports m') - length (ms_reports m))%nat in
  Aim m' (or (place_of m i) (am_at a))
    (if touch_start i && negb (ms_doubleClickTimer m) then or (place_of m i) (am_touch a) else am_touch a)
    (am_places a ++ match spot a i with Some p => replicate new p | None => [] end).

Definition expected_places (l : list input) : list (Z * Z) :=
  am_places (fold_left aim_step l (Aim constructor None None [])).

Context (Hw : 0 < w < 2 ^ 50) (Hh : 0 < h < 2 ^ 50) (Hx : - 2 ^ 50 < x < 2 ^ 50) (Hy : - 2 ^ 50 < y < 2 ^ 50).

Lemma clip_clamp c low size :
  - 2 ^ 50 < c < 2 ^ 50 -> - 2 ^ 50 < low < 2 ^ 50 -> 0 < size < 2 ^ 50 ->
  clip (dbl_of_Z c) (dbl_of_Z low) (dbl_of_Z (low + size)) (dbl_of_Z size) = dbl_of_Z (clamp low size c).
Proof.
  intros Hc Hl Hs. unfold clip, clamp. rewrite dbl_lt_Z, dbl_le_Z by (unfold exact; lia).
  destruct (Z.ltb_spec c low); [by rewrite Z.max_l by lia|].
  destruct (Z.leb_spec (low + size) c); rewrite dbl_sub_Z by (unfold exact; lia);
    by rewrite Z.max_r, ?Z.min_r, ?Z.min_l by lia.
Qed.

Lemma pointer_run {S} e (s : S) :
  getPointerEvent e s = match pointer_of e with Some p => (Ret p, s) | None => (Throw TypeError, s) end.
Proof.
  unfold getPointerEvent, pointer_of.
  destruct (ev_changedTouches e) as [[]|]; [done..|]. by destruct (ev_touches e) as [[]|].
Qed.

(** The place is what the handler works out. *)
Lemma update_run e m : event_integral e ->
  updateMousePosition (rectangle x y w h) e m
    = match pointer_of e with
      | Some p => (Ret tt, m <| ms_pos := Some (doubles (clamp x w (dbl_trunc p.1), clamp y h (dbl_trunc p.2))) |>)
      | None => (Throw TypeError, m)
      end.
Proof.
  intros He. unfold updateMousePosition. rewrite bind_run, pointer_run.
  pose proof (getPointerEvent_integral w h e He (Mouse.constructor)) as Hp. rewrite pointer_run in Hp.
  destruct (pointer_of e) as [p|]; [|done].
  destruct Hp as [_ (cx & cy & -> & Hcx & Hcy)]; [by split_and!; [| |constructor]|].
  rewrite modify_run. cbn [rectangle b_left b_right b_width b_top b_bottom b_height fst snd doubles].
  by rewrite !clip_clamp, !dbl_trunc_Z by (unfold exact; lia).
Qed.

(** What is known of the places, and what was reported. *)
Definition aimed (a : aim) : Prop :=
  ms_pos (am_mouse a) = doubles <$> am_at a /\ ms_lastTouchPos (am_mouse a) = doubles <$> am_touch a
  /\ map report_pos (ms_reports (am_mouse a)) = map doubles (am_places a).

(** A handler that leaves the pointer at [at_] and reports the place [p], if anything. *)
Definition lands (m m' : mouse) (at_ touch p : option (Z * Z)) : Prop :=
  ms_pos m' = doubles <$> at_ /\ ms_lastTouchPos m' = doubles <$> touch
  /\ exists new, ms_reports m' = ms_reports m ++ new /\ Forall (fun r => Some (report_pos r) = doubles <$> p) new.

Lemma lands_none m m' at_ touch p :
  ms_pos m' = doubles <$> at_ -> ms_lastTouchPos m' = doubles <$> touch -> ms_reports m' = ms_reports m ->
  lands m m' at_ touch p.
Proof. intros H1 H2 H3. split; [done|]. split; [done|]. exists []. by rewrite H3, app_nil_r. Qed.

Lemma reported_places new (p : option (Z * Z)) :
  Forall (fun r => Some (report_pos r) = doubles <$> p) new ->
  map report_pos new = map doubles (match p with Some p => replicate (length new) p | None => [] end).
Proof.
  induction 1 as [|r new Hr _ IH]; [by destruct p|]. destruct p as [p|]; [|done]. injection Hr as Hr.
  cbn [map length replicate]. by rewrite Hr, IH.
Qed.

Lemma lands_aimed a i :
  aimed a ->
  (let a' := aim_step a i in lands (am_mouse a) (am_mouse a') (am_at a') (am_touch a') (spot a i)) ->
  aimed (aim_step a i).
Proof.
  intros (_ & _ & Hr) (H1 & H2 & new & E & Hn). split; [exact H1|]. split; [exact H2|].
  cbn [aim_step am_mouse am_places] in *. rewrite E, length_app, map_app, Hr, map_app.
  rewrite Nat.add_comm, Nat.add_sub. by rewrite (reported_places _ _ Hn).
Qed.

Lemma get_pos_run m : get_pos m = (match ms_pos m with Some p => Ret p | None => Throw TypeError end, m).
Proof. unfold get_pos. rewrite bind_run, gets_run. by destruct (ms_pos m). Qed.

(** A button event that is heard. *)
Lemma button_lands e down m at_ touch i :
  event_integral e -> event_of i = Some e -> heard e m = true ->
  touch_start i = is_touch e && down ->
  ms_pos m = doubles <$> at_ -> ms_lastTouchPos m = doubles <$> touch ->
  let a := Aim m at_ touch [] in
  let or o o' := match o with Some p => Some p | None => o' end in
  lands m (handleMouseButton devicePixelRatio (rectangle x y w h) e down m).2
    (or (place_of m i) at_)
    (if touch_start i && negb (ms_doubleClickTimer m) then or (place_of m i) touch else touch)
    (spot a i).
Proof.
  intros He Hi Hh' Ht Hat Hto a or. unfold spot, a. cbn [am_mouse am_touch am_at].
  unfold handleMouseButton. rewrite bind_run, update_run by done.
  unfold place_of. rewrite Hi. cbn [mbind option_bind]. rewrite Hh', Ht. fold or.
  destruct (pointer_of e) as [p|]; cbn [mbind option_bind or].
  2: { destruct (is_touch e && down), (ms_doubleClickTimer m); cbn [andb negb]; by apply lands_none. }
  set (c := (clamp _ _ _, _)). rewrite bind_run, get_pos_run. set (m1 := m <| ms_pos := _ |>).
  change (ms_pos m1) with (Some (doubles c)). cbv iota. rewrite bind_run.
  destruct (is_touch e && down) eqn:Etd; cbn [andb].
  - unfold touch_pos. rewrite bind_run, gets_run.
    change (ms_doubleClickTimer m1) with (ms_doubleClickTimer m). destruct (ms_doubleClickTimer m).
    + run_monad. cbn -[doubles Mouse.near]. rewrite Hto.
      destruct touch as [t|]; cbn -[doubles Mouse.near]; [|by apply lands_none].
      destruct (near (doubles t) (doubles c)); split_and!; try done; eexists; (split; [reflexivity|]);
        by repeat constructor.
    + run_monad. split_and!; [done..|]. eexists. split; [reflexivity|]. destruct touch; by repeat constructor.
  - run_monad. split_and!; [done|done|]. eexists. split; [reflexivity|]. destruct touch; by repeat constructor.
Qed.

Lemma direction_at p d n n' : Forall (fun r => report_pos r = p) (concat (map (click p) (direction d n n'))).
Proof. unfold direction. repeat case_match; by repeat constructor. Qed.

(** More reports, at the same place. *)
Lemma lands_more m m1 new m2 at_ touch p :
  Forall (fun r => report_pos r = doubles p) new ->
  lands m m1 at_ touch (Some p) ->
  ms_pos m2 = ms_pos m1 -> ms_lastTouchPos m2 = ms_lastTouchPos m1 -> ms_reports m2 = ms_reports m1 ++ new ->
  lands m m2 at_ touch (Some p).
Proof.
  intros Hn (H1 & H2 & l & H3 & H4) E1 E2 E3. split; [by rewrite E1|]. split; [by rewrite E2|].
  exists (l ++ new). rewrite E3, H3, app_assoc. split; [done|]. apply Forall_app. split; [done|].
  eapply Forall_impl; [exact Hn|]. intros r ->. done.
Qed.

(** A motion that is heard. *)
Lemma move_lands e m at_ touch places :
  event_integral e -> heard e m = true ->
  ms_pos m = doubles <$> at_ -> ms_lastTouchPos m = doubles <$> touch ->
  lands m (handleMouseMove (rectangle x y w h) e m).2
    (match place_of m (IMove (rectangle x y w h) e) with Some p => Some p | None => at_ end) touch
    (spot (Aim m at_ touch places) (IMove (rectangle x y w h) e)).
Proof.
  intros He Eh Hat Hto. unfold handleMouseMove. rewrite bind_run, update_run by done.
  unfold spot, place_of. cbn [event_of mbind option_bind am_mouse am_touch am_at touch_start andb]. rewrite Eh.
  destruct (pointer_of e) as [p|]; cbn [mbind option_bind]; [|by apply lands_none].
  set (c := (clamp _ _ _, _)). run_monad. split_and!; [done|done|]. eexists. split; [reflexivity|].
  destruct touch; by repeat constructor.
Qed.

(** A wheel event that is heard. *)
Lemma wheel_lands client dX dY mode m at_ touch :
  integral client ->
  ms_pos m = doubles <$> at_ -> ms_lastTouchPos m = doubles <$> touch ->
  let p := (clamp x w (dbl_trunc client.1), clamp y h (dbl_trunc client.2)) in
  lands m (handleMouseWheel (rectangle x y w h) (wheel_event client) dX dY mode m).2 (Some p) touch (Some p).
Proof.
  intros Hc Hat Hto p. unfold handleMouseWheel, resetWheelStepTimers. rewrite bind_run, modify_run, bind_run.
  rewrite update_run by (split; [done|by split]). cbn [pointer_of wheel_event ev_changedTouches ev_touches ev_client].
  fold p. rewrite bind_run, modify_run. set (m1 := _ <| ms_accumulatedWheelDeltaX := _ |> <| ms_accumulatedWheelDeltaY := _ |>).
  assert (H1 : lands m m1 (Some p) touch (Some p)) by by apply lands_none.
  clearbody m1. rewrite bind_run, gets_run. cbn [id]. rewrite bind_run.
  assert (H2 : exists m2, (if dbl_lt WHEEL_STEP (dbl_abs (ms_accumulatedWheelDeltaX m1)) then generateWheelStepX
      else modify (fun m => m <| ms_wheelStepXTimer := true |>)) m1 = (Ret tt, m2) /\ lands m m2 (Some p) touch (Some p)).
  { destruct (dbl_lt _ _).
    - eexists. split; [by apply generate_X_run; apply H1|]. eapply lands_more; [apply direction_at|apply H1|done..].
    - eexists. split; [done|]. eapply (lands_more m m1 []); [constructor|apply H1|try done..]. by rewrite app_nil_r. }
  clear H1. destruct H2 as (m2 & -> & H2). rewrite bind_run, gets_run. cbn [id]. rewrite bind_run.
  destruct (dbl_lt _ _).
  - rewrite (generate_Y_run m2 (doubles p)) by apply H2. eapply lands_more; [apply direction_at|apply H2|done..].
  - eapply (lands_more m m2 []); [constructor|apply H2|try done..]. by rewrite app_nil_r.
Qed.

(** What has no place of its own. *)
Lemma quiet m m' at_ touch places i :
  place_of m i = None -> lands m m' at_ touch at_ ->
  lands m m' (match place_of m i with Some p => Some p | None => at_ end)
    (if touch_start i && negb (ms_doubleClickTimer m) then match place_of m i with Some p => Some p | None => touch end else touch)
    (spot (Aim m at_ touch places) i).
Proof. unfold spot. cbn [am_mouse am_at am_touch]. intros ->. by destruct (_ && _). Qed.

Lemma unheard m i e : event_of i = Some e -> heard e m = false -> place_of m i = None.
Proof. unfold place_of. intros -> H. cbn. by rewrite H. Qed.

Lemma same_lands m m' at_ touch p :
  ms_pos m = doubles <$> at_ -> ms_lastTouchPos m = doubles <$> touch ->
  ms_pos m' = ms_pos m -> ms_lastTouchPos m' = ms_lastTouchPos m -> ms_reports m' = ms_reports m ->
  lands m m' at_ touch p.
Proof. intros H1 H2 H3 H4 H5. apply lands_none; by rewrite ?H3, ?H4. Qed.

(** The wheel's clicks are where the pointer is; without a place there are none. *)
Lemma clicks_land n m m1 at_ touch :
  ms_pos m = doubles <$> at_ -> ms_lastTouchPos m = doubles <$> touch ->
  ms_pos m1 = ms_pos m -> ms_lastTouchPos m1 = ms_lastTouchPos m -> ms_reports m1 = ms_reports m ->
  lands m (wheel_click n m1).2 at_ touch at_.
Proof.
  intros H1 H2 E1 E2 E3. destruct at_ as [p|].
  - rewrite (wheel_click_run n m1 (doubles p)) by (by rewrite E1, H1).
    eapply (lands_more m m1 (click (doubles p) n)); [by repeat constructor|by apply same_lands|done..].
  - unfold wheel_click. rewrite bind_run, get_pos_run, E1, H1. cbn. by apply same_lands.
Qed.

Lemma steps_land (X : bool) m m1 at_ touch :
  ms_pos m = doubles <$> at_ -> ms_lastTouchPos m = doubles <$> touch ->
  ms_pos m1 = ms_pos m -> ms_lastTouchPos m1 = ms_lastTouchPos m -> ms_reports m1 = ms_reports m ->
  lands m ((if X then generateWheelStepX else generateWheelStepY) m1).2 at_ touch at_.
Proof.
  intros H1 H2 E1 E2 E3.
  assert (H : forall n (g : mouse -> mouse), (forall m, ms_pos (g m) = ms_pos m /\ ms_lastTouchPos (g m) = ms_lastTouchPos m
      /\ ms_reports (g m) = ms_reports m) -> lands m ((wheel_click n;; modify g) m1).2 at_ touch at_).
  { intros n g Hg. rewrite bind_run. pose proof (clicks_land n m m1 at_ touch H1 H2 E1 E2 E3) as (L1 & L2 & L3).
    destruct (wheel_click n m1) as [[[]|e] m2]; [|by split_and!].
    rewrite modify_run. destruct (Hg m2) as (G1 & G2 & G3). cbn [snd]. unfold lands. by rewrite G1, G2, G3. }
  destruct X; [unfold generateWheelStepX|unfold generateWheelStepY]; rewrite bind_run, gets_run;
    (destruct (dbl_lt _ (dbl_of_Z 0)); [by apply H|]; destruct (dbl_lt (dbl_of_Z 0) _); [by apply H|]);
    by apply same_lands.
Qed.

Ltac timer_lands X :=
  match goal with |- lands ?m (match ?t with _ => _ end).2 ?a ?u ?p =>
    let H := fresh in assert (H : lands m t.2 a u p) by (by refine (steps_land X _ _ _ _ _ _ _ _ _));
    destruct t as [[[]|?] ?]; exact H end.

Lemma aim_step_ok a i : placed x y w h i -> aimed a -> aimed (aim_step a i).
Proof.
  intros Hi Ha. apply lands_aimed; [done|]. destruct a as [m at_ touch places]. destruct Ha as (Hat & Hto & _).
  cbn [am_mouse am_at am_touch] in *. cbn [aim_step am_mouse am_at am_touch]. unfold Mouse.handle. rewrite bind_run, gets_run. cbn [id].
  destruct i as [b e|b e|b e|b p dX dY mode|o| | | |t|t|n]; cbn in Hi.
  - destruct Hi as [-> He]. destruct (heard e m) eqn:Eh.
    + unfold handleMouseDown. rewrite bind_run. destruct (bool_decide _); cbn [when].
      * rewrite modify_run. set (m1 := m <| ms_captures := _ |>).
        exact (button_lands e true m1 at_ touch (IDown _ e) He eq_refl Eh (eq_sym (andb_true_r _)) Hat Hto).
      * exact (button_lands e true m at_ touch (IDown _ e) He eq_refl Eh (eq_sym (andb_true_r _)) Hat Hto).
    + apply quiet; [by apply (unheard _ _ e)|by apply same_lands].
  - destruct Hi as [-> He]. destruct (heard e m) eqn:Eh.
    + exact (button_lands e false m at_ touch (IUp _ e) He eq_refl Eh (eq_sym (andb_false_r _)) Hat Hto).
    + apply quiet; [by apply (unheard _ _ e)|by apply same_lands].
  - destruct Hi as [-> He]. destruct (heard e m) eqn:Eh; [exact (move_lands e m at_ touch places He Eh Hat Hto)|].
    apply quiet; [by apply (unheard _ _ e)|by apply same_lands].
  - destruct Hi as [-> He]. destruct (ms_listening m) eqn:El.
    + unfold spot, place_of. cbn. rewrite El. cbn. destruct touch; exact (wheel_lands p dX dY mode m at_ _ He Hat Hto).
    + apply quiet; [by apply (unheard _ _ (wheel_event p))|by apply same_lands].
  - apply quiet; [done|]. destruct (ms_listening m); by apply same_lands.
  - apply quiet; [done|]. destruct (ms_doubleClickTimer m); by apply same_lands.
  - apply quiet; [done|]. destruct (ms_wheelStepXTimer m); [|by apply same_lands].
    cbn [when]. rewrite bind_run, bind_run, modify_run.
    timer_lands true.
  - apply quiet; [done|]. destruct (ms_wheelStepYTimer m); [|by apply same_lands].
    cbn [when]. rewrite bind_run, bind_run, modify_run.
    timer_lands false.
  - apply quiet; [done|]. destruct t; by apply same_lands.
  - apply quiet; [done|]. destruct t; by apply same_lands.
  - apply quiet; [done|]. by apply same_lands.
Qed.

(** Every report is where it is expected. *)
Lemma reports_expected l :
  Forall (placed x y w h) l ->
  map report_pos (ms_reports (inputs devicePixelRatio l constructor)) = map doubles (expected_places l).
Proof.
  intros Hl. unfold expected_places, inputs.
  assert (H : forall a, aimed a -> aimed (fold_left aim_step l a)
    /\ am_mouse (fold_left aim_step l a) = fold_left (fun m i => (handle i m).2) l (am_mouse a)).
  { induction Hl as [|i l Hi _ IH]; intros a Ha; [done|]. cbn [fold_left].
    destruct (IH (aim_step a i)) as [H1 H2]; [by apply aim_step_ok|]. by split. }
  destruct (H (Aim constructor None None [])) as [(_ & _ & H1) H2]; [done|]. cbn [am_mouse] in H2. by rewrite <- H2.
Qed.

(** Every place expected is on the target. *)
Definition within (p : Z * Z) : Prop := 0 <= p.1 < w /\ 0 <= p.2 < h.

Lemma place_within m i p : place_of m i = Some p -> within p.
Proof.
  unfold place_of. destruct (event_of i) as [e|]; [|done]. cbn.
  destruct (if heard e m then _ else _) as [q|]; [|done]. intros [= <-]. unfold within, clamp. cbn. lia.
Qed.

Lemma expected_within l : Forall within (expected_places l).
Proof.
  unfold expected_places.
  set (P a := (forall p, am_at a = Some p -> within p) /\ (forall p, am_touch a = Some p -> within p)
    /\ Forall within (am_places a)).
  enough (H : forall a, P a -> P (fold_left aim_step l a)) by (by apply H; split_and!; [| |constructor]).
  induction l as [|i l IH]; intros a Ha; [done|]. cbn [fold_left]. apply IH. clear IH.
  destruct Ha as (H1 & H2 & H3). pose proof (place_within (am_mouse a) i) as Hp.
  assert (Hs : forall p, spot a i = Some p -> within p).
  { unfold spot. destruct (place_of _ _) as [p|]; [|auto]. destruct (am_touch a) as [t|]; [|auto].
    destruct (_ && _ && _); auto. }
  split_and!; cbn [aim_step am_at am_touch am_places].
  - destruct (place_of _ _); auto.
  - destruct (_ && _); [|auto]. destruct (place_of _ _); auto.
  - apply Forall_app. split; [done|]. destruct (spot a i); [apply Forall_replicate; auto|constructor].
Qed.

End Aim.

(** ** Properties *)

Section Properties.
Import Mouse.
Context (devicePixelRatio : double).
Implicit Types (m : mouse).
Abbreviation handle := (handle devicePixelRatio).
Abbreviation inputs := (inputs devicePixelRatio).

(** [C26] Scrolling is not forgotten as long as the mouse is not let go of: until
    [ungrab], which stops the timers (and leaves the distance: [wheel_left_over]), in
    any sequence of events and timers and in either direction, a distance that was
    scrolled and has not been reported has its timer running; and when the timer
    goes off, the distance is reported as one click of the wheel button of its
    sign, where the pointer is, and is counted no more. *)
Theorem wheel_never_forgotten (l : list input) :
  (forall touch, IUngrab touch ∉ l) ->
  let m := inputs l constructor in
  let x := ms_accumulatedWheelDeltaX m in let y := ms_accumulatedWheelDeltaY m in
  (x = dbl_of_Z 0 \/ ms_wheelStepXTimer m = true) /\ (y = dbl_of_Z 0 \/ ms_wheelStepYTimer m = true)
  /\ (ms_wheelStepXTimer m = true -> exists p, ms_pos m = Some p
      /\ let m' := (handle IWheelXTimeout m).2 in
         ms_reports m' = ms_reports m ++ concat (map (click p) (direction x 32 64)) /\ ms_accumulatedWheelDeltaX m' = dbl_of_Z 0)
  /\ (ms_wheelStepYTimer m = true -> exists p, ms_pos m = Some p
      /\ let m' := (handle IWheelYTimeout m).2 in
         ms_reports m' = ms_reports m ++ concat (map (click p) (direction y 8 16)) /\ ms_accumulatedWheelDeltaY m' = dbl_of_Z 0).
Proof.
  intros Hl m x y. assert (Hm : wheel_waits m).
  { apply keeps_inputs; [|by repeat split; [left| | left|]]. intros i Hi. apply handle_wheel_waits. intros t ->. by apply (Hl t). }
  destruct Hm as [[HX1 HX2] [HY1 HY2]]. split; [exact HX1|]. split; [exact HY1|]. split; intros Ht.
  - destruct (HX2 Ht) as [p Hp]. exists p. split; [exact Hp|]. cbv zeta. by rewrite (X_timeout_run _ m p Ht Hp).
  - destruct (HY2 Ht) as [p Hp]. exists p. split; [exact Hp|]. cbv zeta. by rewrite (Y_timeout_run _ m p Ht Hp).
Qed.

(** [C38] The pointer never leaves a target that is not empty and stays where it is, at
    integral coordinates: whatever mouse, touch and wheel events
    come, at whatever integral places of the screen, every position reported has
    coordinates from 0 to one less than the size of the target. *)
Theorem pointer_inside (x y w h : Z) (l : list input) :
  - 2 ^ 50 < x < 2 ^ 50 -> - 2 ^ 50 < y < 2 ^ 50 -> 0 < w < 2 ^ 50 -> 0 < h < 2 ^ 50 ->
  Forall (placed x y w h) l ->
  Forall (fun r => inside w h (report_pos r)) (ms_reports (inputs l constructor)).
Proof.
  intros Hx Hy Hw Hh Hl. assert (H : all_inside w h (inputs l constructor)).
  { apply keeps_inputs; [|by split_and!; [| |constructor]]. intros i Hi. apply (handle_inside devicePixelRatio x y w h); try done.
    by apply (proj1 (Forall_forall _ _) Hl). }
  apply H.
Qed.

(** The masks of the three buttons are those of the protocol, left 1, middle 2, right
    4, both by the standard numbering and by that of old IE. *)
Theorem button_masks (e : event) :
  ev_which e <> 0 -> 0 <= ev_button e < 31 -> button_mask e = 2 ^ ev_button e.
Proof.
  intros Hw Hb. unfold button_mask. destruct (Z.eqb_spec (ev_which e) 0); [done|]. cbn [negb].
  unfold js_shl. rewrite (Z.mod_small _ 32), Z.shiftl_mul_pow2, (toInt32_small 1) by lia. rewrite Z.mul_1_l.
  assert (ev_button e < 31) as Hb' by lia. apply toInt32_small.
  assert (2 ^ ev_button e <= 2 ^ 30) by (apply Z.pow_le_mono_r; lia). lia.
Qed.

Lemma ie_button_masks ty p :
  map (fun b => button_mask (Event ty None None p 0 b)) [1; 2; 4] = [1; 4; 2].
Proof. reflexivity. Qed.

End Properties.

(** ** Examples *)

Section Examples.
Import Mouse.

Definition screen : bounds := rectangle 10 20 640 480.
Definition at_place (ty : string) (x y button : Z) : event := Event ty None None (dbl_of_Z x, dbl_of_Z y) 1 button.

(** A click outside the target, and a little scrolling down. *)
Definition click_and_scroll : list input :=
  [ IGrab false; IDown screen (at_place "mousedown" 5 600 0); IUp screen (at_place "mouseup" 700 30 0);
    IWheel screen (dbl_of_Z 15, dbl_of_Z 25) (dbl_of_Z 0) (dbl_of_Z 4) 0 ].

Lemma wheel_never_forgotten_witness :
  let m := inputs (dbl_of_Z 1) click_and_scroll constructor in
  ms_wheelStepYTimer m = true /\ exists p,
  ms_reports (handle (dbl_of_Z 1) IWheelYTimeout m).2 = ms_reports m ++ [RButton p true 16; RButton p false 16].
Proof.
  intros m. assert (Ht : ms_wheelStepYTimer m = true) by (vm_compute; reflexivity). split; [exact Ht|].
  destruct (wheel_never_forgotten (dbl_of_Z 1) click_and_scroll) as (_ & _ & _ & H).
  - intros t Ht'. unfold click_and_scroll in Ht'. rewrite !elem_of_cons in Ht'. destruct Ht' as [?|[?|[?|[?|Ht']]]]; try discriminate. by apply elem_of_nil in Ht'.
  - destruct (H Ht) as (p & Hp & H1 & _). exists p. exact H1.
Defined.

Lemma click_and_scroll_placed : Forall (placed 10 20 640 480) click_and_scroll.
Proof.
  assert (H : forall a b, - 2 ^ 50 < a < 2 ^ 50 -> - 2 ^ 50 < b < 2 ^ 50 -> integral (dbl_of_Z a, dbl_of_Z b)).
  { intros a b Ha Hb. by exists a, b. }
  repeat constructor; cbn -[dbl_of_Z integral].
  - apply (H 5 600); lia.
  - apply (H 700 30); lia.
  - apply (H 15 25); lia.
Qed.

Lemma pointer_inside_witness :
  Forall (fun r => inside 640 480 (report_pos r)) (ms_reports (inputs (dbl_of_Z 1) click_and_scroll constructor)).
Proof. apply (pointer_inside (dbl_of_Z 1) 10 20); try lia. exact click_and_scroll_placed. Defined.

(** The scrolling left when the mouse is let go of is added to a later scroll. *)
Definition scroll_left_over : list input :=
  let wheel d := IWheel screen (dbl_of_Z 15, dbl_of_Z 25) (dbl_of_Z 0) (dbl_of_Z d) 0 in
  [ IGrab false; wheel 9; IUngrab false; IGrab false; wheel 2 ].

Lemma wheel_left_over : List.length (ms_reports (inputs (dbl_of_Z 1) scroll_left_over constructor)) = 2%nat.
Proof. vm_compute. reflexivity. Qed.

(** The fourth button of a mouse, "back", is sent as a turn of the wheel. *)
Lemma back_button_scrolls : button_mask (at_place "mousedown" 15 25 3) = 8.
Proof. reflexivity. Qed.

(** Two touches soon after each other and close together are at the place of the first;
    the end of the second is where it is. *)
Definition touch (ty : string) (x y : Z) : event :=
  Event ty (Some []) (Some [(dbl_of_Z x, dbl_of_Z y)]) (S754_nan, S754_nan) 0 0.
Lemma double_tap :
  map report_pos (ms_reports (inputs (dbl_of_Z 1)
    [ IGrab true; IDown screen (touch "touchstart" 110 120); IUp screen (touch "touchend" 110 120);
      IDown screen (touch "touchstart" 120 130); IUp screen (touch "touchend" 120 130) ] constructor))
  = [ (dbl_of_Z 100, dbl_of_Z 100); (dbl_of_Z 100, dbl_of_Z 100); (dbl_of_Z 100, dbl_of_Z 100); (dbl_of_Z 110, dbl_of_Z 110) ].
Proof. vm_compute. reflexivity. Qed.

End Examples.
