(* ===== verification/Cursor.v ===== *)
(** * The cursor of noVNC
    (src/ControlServer/web/www/novnc/core/util/cursor.js)

    Where the browser cannot show a picture as the cursor of an element, or has no
    cursor, the cursor is a canvas that follows the pointer.  A [Cursor] is here with
    that canvas, its place and its visibility; [Rfb] has of it only the picture last
    asked for. *)

From S2P Require Import Prelude Doubles Mouse.

Module Cursor.
Import Mouse(point).

(** An image of the canvas: its size and its bytes. *)
Record image := Image { im_w : Z; im_h : Z; im_rgba : list Z }.

Inductive css_cursor := CssNone | CssUrl (image : image) (hotx hoty : Z).

(** [style.cursor] of the target is kept in [target_cursor]. *)
Record cursor := Cursor_ {
  target : option nat;
  canvas : image;
  canvas_place : option point;      (* style.left and style.top *)
  visible : bool;                   (* style.visibility *)
  position : point;
  hotSpot : Z * Z;
  target_cursor : option css_cursor;
  listening : bool }.
#[export] Instance eta_cursor : Eta cursor := fun c =>
  Cursor_ (target c) (canvas c) (canvas_place c) (visible c) (position c) (hotSpot c) (target_cursor c) (listening c).

Section Cursor.
Context (useFallback : bool).
(** [this._target.contains(node)] and [getComputedStyle(node).cursor === 'none'] *)
Context (contains : nat -> nat -> bool) (cursor_none : nat -> bool).

(** Without the fallback the canvas is in no document. *)
Definition constructor : cursor :=
  Cursor_ None (Image 300 150 []) None (negb useFallback) (dbl_of_Z 0, dbl_of_Z 0) (0, 0) None false.

Definition get_target : M cursor nat :=
  t ← gets target; match t with Some t => mret t | None => throw TypeError end.

Definition clear : M cursor unit :=
  get_target;;
  modify (fun c => c <| target_cursor := Some CssNone |> <| canvas := Image 0 0 [] |>
    <| position := (dbl_add (position c).1 (dbl_of_Z (hotSpot c).1), dbl_add (position c).2 (dbl_of_Z (hotSpot c).2)) |>
    <| hotSpot := (0, 0) |>).

Definition detach : M cursor unit :=
  when useFallback (get_target;; modify (fun c => c <| listening := false |>));;
  modify (fun c => c <| target := None |>).

Definition attach (t : nat) : M cursor unit :=
  old ← gets target;
  when (bool_decide (is_Some old)) detach;;
  modify (fun c => c <| target := Some t |>);;
  when useFallback (modify (fun c => c <| listening := true |>));;
  clear.

Definition updatePosition : M cursor unit := modify (fun c => c <| canvas_place := Some (position c) |>).

Definition change (rgba : list Z) (hotx hoty w h : Z) : M cursor unit :=
  if (w =? 0) || (h =? 0) then clear
  else
    modify (fun c => c
      <| position := (dbl_sub (dbl_add (position c).1 (dbl_of_Z (hotSpot c).1)) (dbl_of_Z hotx),
                      dbl_sub (dbl_add (position c).2 (dbl_of_Z (hotSpot c).2)) (dbl_of_Z hoty)) |>
      <| hotSpot := (hotx, hoty) |>
      <| canvas := Image w h rgba |>);;
    if useFallback then updatePosition
    else get_target;; modify (fun c => c <| target_cursor := Some (CssUrl (Image w h rgba) hotx hoty) |>).

Definition showCursor : M cursor unit := modify (fun c => c <| visible := true |>).
Definition hideCursor : M cursor unit := modify (fun c => c <| visible := false |>).

(** A node, or none outside the page. *)
Definition shouldShowCursor (node : option nat) : M cursor bool :=
  t ← gets target;
  if bool_decide (node = t) then mret true
  else
    t ← get_target;
    match node with
    | Some n => if negb (contains t n) then mret false else mret (cursor_none n)
    | None => mret false
    end.

Definition updateVisibility (node : option nat) : M cursor unit :=
  show ← shouldShowCursor node; if (show : bool) then showCursor else hideCursor.

(** A motion of the mouse or of a touch. *)
Definition move_to (node : option nat) (client : point) : M cursor unit :=
  updateVisibility node;;
  modify (fun c => c <| position := (dbl_sub client.1 (dbl_of_Z (hotSpot c).1), dbl_sub client.2 (dbl_of_Z (hotSpot c).2)) |>);;
  updatePosition.
Definition handleMouseMove (node : option nat) (client : point) : M cursor unit := move_to node client.
Definition handleMouseOver (node : option nat) (client : point) : M cursor unit := handleMouseMove node client.
Definition handleMouseLeave : M cursor unit := hideCursor.
Definition handleTouchMove (node : option nat) (client : point) : M cursor unit := move_to node client.
Definition handleTouchStart (node : option nat) (client : point) : M cursor unit := handleTouchMove node client.

(** [document.elementFromPoint] is the browser's. *)
Definition handleMouseUp (below : option nat) : M cursor unit := updateVisibility below.
Definition handleTouchEnd (below : option nat) : M cursor unit := updateVisibility below.

(** The events are heard only with the fallback, and while attached. *)
Inductive input :=
  | IAttach (t : nat) | IDetach
  | IChange (rgba : list Z) (hotx hoty w h : Z) | IClear
  | IMouseOver (node : option nat) (client : point) | IMouseMove (node : option nat) (client : point)
  | IMouseLeave | IMouseUp (below : option nat)
  | ITouchStart (node : option nat) (client : point) | ITouchMove (node : option nat) (client : point)
  | ITouchEnd (below : option nat).

Definition handle (i : input) : M cursor unit :=
  c ← gets id;
  let heard m := when (listening c) m in
  match i with
  | IAttach t => attach t
  | IDetach => detach
  | IChange rgba hotx hoty w h => change rgba hotx hoty w h
  | IClear => clear
  | IMouseOver n p => heard (handleMouseOver n p)
  | IMouseMove n p => heard (handleMouseMove n p)
  | IMouseLeave => heard handleMouseLeave
  | IMouseUp n => heard (handleMouseUp n)
  | ITouchStart n p => heard (handleTouchStart n p)
  | ITouchMove n p => heard (handleTouchMove n p)
  | ITouchEnd n => heard (handleTouchEnd n)
  end.

Definition step (c c' : cursor) : Prop := exists i, c' = (handle i c).2.

End Cursor.
End Cursor.

(** ** Properties *)

Section Properties.
Import Cursor.
Context (contains : nat -> nat -> bool) (cursor_none : nat -> bool).
Implicit Types (c : cursor).
Abbreviation handle := (handle true contains cursor_none).

Definition run (l : list input) c : cursor := fold_left (fun c i => (handle i c).2) l c.

Lemma run_app l l' c : run (l ++ l') c = run l' (run l c).
Proof. apply fold_left_app. Qed.

Definition small (n : Z) : Prop := - 2 ^ 40 < n < 2 ^ 40.
Definition place (x y : Z) : Mouse.point := (dbl_of_Z x, dbl_of_Z y).

(** The element and the place of the pointer a motion tells of. *)
Definition told (i : input) : option (option nat * Mouse.point) :=
  match i with
  | IMouseOver n p | IMouseMove n p | ITouchStart n p | ITouchMove n p => Some (n, p)
  | _ => None
  end.

(** Places and hot spots are integers of a reasonable size. *)
Definition reasonable (i : input) : Prop :=
  match told i with Some (_, p) => exists x y, p = place x y /\ small x /\ small y | None => True end
  /\ match i with IChange _ hotx hoty _ _ => small hotx /\ small hoty | _ => True end.

(** The pointer is at [x, y]. *)
Record follows (x y : Z) c : Prop := {
  fo_pointer : small x /\ small y;
  fo_hot : small (hotSpot c).1 /\ small (hotSpot c).2;
  fo_position : position c = place (x - (hotSpot c).1) (y - (hotSpot c).2);
  fo_heard : listening c = true -> is_Some (target c) }.

(** What there is of the canvas is at the position of the cursor. *)
Definition placed c : Prop := im_w (canvas c) <> 0 -> im_h (canvas c) <> 0 -> canvas_place c = Some (position c).

Definition shown_over c (node : option nat) : bool :=
  match node, target c with
  | Some n, Some t => bool_decide (n = t) || contains t n && cursor_none n
  | _, _ => false
  end.

Lemma sub_small a b : small a -> small b -> dbl_sub (dbl_of_Z a) (dbl_of_Z b) = dbl_of_Z (a - b).
Proof. unfold small. intros. apply dbl_sub_Z; unfold exact; lia. Qed.

Lemma back_small a b : small a -> small b -> dbl_add (dbl_of_Z (a - b)) (dbl_of_Z b) = dbl_of_Z a.
Proof. unfold small. intros. rewrite dbl_add_Z by (unfold exact; lia). f_equal. lia. Qed.

Lemma follows_constructor : follows 0 0 (constructor true).
Proof. split; [by split|by split|done|done]. Qed.

(** The cursor gives its pointer back from its position. *)
Lemma follows_back x y c :
  follows x y c ->
  dbl_add (position c).1 (dbl_of_Z (hotSpot c).1) = dbl_of_Z x /\ dbl_add (position c).2 (dbl_of_Z (hotSpot c).2) = dbl_of_Z y.
Proof. intros [[Hx Hy] [Hh Hh'] -> _]. split; by apply back_small. Qed.

Definition keeps_pointer (m : M cursor unit) : Prop :=
  forall x y c, follows x y c -> follows x y (m c).2 /\ (placed c -> placed (m c).2).

Lemma clear_pointer : keeps_pointer clear.
Proof.
  intros x y c Hc. destruct (follows_back x y c Hc) as [Ex Ey]. 
  unfold clear, get_target. run_monad. destruct (target c) as [t|] eqn:Et; cbn; [|by split].
  split; [|by intros _ H]. destruct Hc as [Hp _ _ _]. split; cbn; [done|by split| |by rewrite Et]. rewrite Ex, Ey, !Z.sub_0_r. done.
Qed.

Lemma change_pointer rgba hotx hoty w h : small hotx -> small hoty -> keeps_pointer (change true rgba hotx hoty w h).
Proof.
  intros Hx' Hy' x y c Hc. unfold change. destruct ((w =? 0) || (h =? 0)); [by apply clear_pointer|].
  destruct (follows_back x y c Hc) as [Ex Ey]. destruct Hc as [[Hx Hy] Hh Hpos Hl].
  unfold updatePosition. run_monad. cbn. split; [|done]. rewrite Ex, Ey. split; [done..| |done].
  cbn. by rewrite !sub_small.
Qed.

(** A motion that is heard puts the cursor where it tells. *)
Lemma move_run node x y c :
  small x -> small y -> (exists x' y', follows x' y' c) -> listening c = true ->
  let c' := (move_to contains cursor_none node (place x y) c).2 in
  follows x y c' /\ placed c' /\ visible c' = shown_over c node.
Proof.
  intros Hx Hy (x' & y' & [_ [Hh Hh'] _ Hl]) Hc c'. destruct (Hl Hc) as [t Et].
  assert (E : exists b, updateVisibility contains cursor_none node c = (Ret tt, c <| visible := b |>) /\ b = shown_over c node).
  { clear - Et. destruct c; cbn in Et; subst.
    unfold updateVisibility, shouldShowCursor, shown_over, get_target, showCursor, hideCursor. run_monad. cbn.
    destruct node as [n|]; [|by eexists]. destruct (decide (n = t)) as [->|Hn].
    - rewrite !bool_decide_true by done. by eexists.
    - rewrite !bool_decide_false by congruence. cbn.
      destruct (contains t n); cbn; [|by eexists]. destruct (cursor_none n); by eexists. }
  destruct E as (b & E & Eb). unfold c', move_to. rewrite bind_run, E. unfold updatePosition. run_monad. cbn.
  split; [|by split]. split; cbn; [done..| |by rewrite Et]. by rewrite !sub_small.
Qed.

(** What hears nothing of the pointer leaves its place. *)
Lemma handle_pointer i : reasonable i -> told i = None -> keeps_pointer (handle i).
Proof.
  intros [_ Hr] Ht x y c Hc. assert (Hclear := clear_pointer).
  assert (Hvis : forall node, follows x y (updateVisibility contains cursor_none node c).2
            /\ (placed c -> placed (updateVisibility contains cursor_none node c).2)).
  { intros node. assert (E : exists b, (updateVisibility contains cursor_none node c).2 = c <| visible := b |>).
    { clear. destruct c as [[t|] ? ? v ? ? ? ?].
      all: unfold updateVisibility, shouldShowCursor, get_target, showCursor, hideCursor; run_monad; cbn.
      all: case_bool_decide; [by eexists|]; cbn; try (by exists v).
      destruct node as [n|]; cbn; [|by eexists]. destruct (contains t n); cbn; [|by eexists]. destruct (cursor_none n); by eexists. }
    destruct E as [b ->]. split; [|done]. destruct Hc. by split. }
  unfold Cursor.handle. rewrite bind_run, gets_run. cbn [id].
  destruct i as [t| |rgba hx hy w h| |n p|n p| |n|n p|n p|n]; try done.
  - assert (Hd : forall t', follows x y (c <| target := Some t' |> <| listening := true |>)
              /\ (placed c -> placed (c <| target := Some t' |> <| listening := true |>))) by (split; [by destruct Hc; split|done]).
    destruct (Hd t) as [H1 H2]. destruct (Hclear _ _ _ H1) as [H3 H4]. revert H3 H4.
    unfold attach, detach, get_target. run_monad. cbn. destruct (target c) as [t'|] eqn:Et; cbn; rewrite ?Et; cbn; auto.
  - unfold detach, get_target. run_monad. cbn. destruct (target c) as [t'|] eqn:Et; cbn; [|by split].
    split; [by destruct Hc; split|done].
  - destruct Hr. by apply change_pointer.
  - by apply clear_pointer.
  - unfold when. destruct (listening c); [|done]. split; [by destruct Hc; split|done].
  - unfold when. destruct (listening c); [|done]. apply Hvis.
  - unfold when. destruct (listening c); [|done]. apply Hvis.
Qed.
Lemma told_run i node p c : told i = Some (node, p) -> listening c = true -> handle i c = move_to contains cursor_none node p c.
Proof. intros Ht Hl. unfold Cursor.handle, when. rewrite bind_run, gets_run. cbn [id]. rewrite Hl. destruct i; try done; by injection Ht as -> ->. Qed.

Lemma handle_follows i c : reasonable i -> (exists x y, follows x y c) -> exists x y, follows x y (handle i c).2.
Proof.
  intros Hr (x & y & Hc). destruct (told i) as [[node p]|] eqn:Ht.
  - destruct (listening c) eqn:Hl.
    + rewrite (told_run i node p c Ht Hl). destruct Hr as [Hr _]. rewrite Ht in Hr. destruct Hr as (x' & y' & -> & Hx & Hy).
      exists x', y'. apply move_run; eauto.
    + exists x, y. replace (handle i c).2 with c; [done|].
      unfold Cursor.handle, when. rewrite bind_run, gets_run. cbn [id]. rewrite Hl. by destruct i.
  - exists x, y. by apply handle_pointer.
Qed.

Lemma run_follows l c : Forall reasonable l -> (exists x y, follows x y c) -> exists x y, follows x y (run l c).
Proof. intros Hl. revert c. induction Hl as [|i l Hi _ IH]; intros c Hc; [done|]. apply IH. by apply handle_follows. Qed.

Lemma run_pointer x y l c :
  Forall (fun i => reasonable i /\ told i = None) l -> follows x y c -> placed c -> follows x y (run l c) /\ placed (run l c).
Proof.
  intros Hl. revert c. induction Hl as [|i l [Hi Ht] _ IH]; intros c Hc Hp; [done|].
  destruct (handle_pointer i Hi Ht x y c Hc) as [H1 H2]. apply IH; auto.
Qed.

(** [C39] The canvas that stands for the cursor follows the pointer: whatever happened
    before, once a motion to [x, y] has been heard the canvas is visible exactly if the
    pointer is over the target, or over a part of it without a cursor of its own; and
    through all that is not a motion (new pictures, no picture, the release of a
    button, attaching again) the canvas, unless it is empty, has its hot spot at
    [x, y]: the next picture is shown with its own hot spot there, with no motion in
    between. *)
Theorem cursor_follows (l1 l2 : list input) (i : input) (node : option nat) (x y : Z) :
  Forall reasonable l1 -> listening (run l1 (constructor true)) = true ->
  told i = Some (node, place x y) -> small x -> small y ->
  Forall (fun i => reasonable i /\ told i = None) l2 ->
  let c := run (l1 ++ i :: l2) (constructor true) in
  visible (run (l1 ++ [i]) (constructor true)) = shown_over (run l1 (constructor true)) node
  /\ (im_w (canvas c) <> 0 -> im_h (canvas c) <> 0 ->
      canvas_place c = Some (place (x - (hotSpot c).1) (y - (hotSpot c).2)))
  /\ forall rgba hotx hoty w h, small hotx -> small hoty -> w <> 0 -> h <> 0 ->
     let c' := (handle (IChange rgba hotx hoty w h) c).2 in
     canvas c' = Image w h rgba /\ canvas_place c' = Some (place (x - hotx) (y - hoty)).
Proof.
  intros Hl1 Hl Ht Hx Hy Hl2 c. assert (H0 := run_follows l1 _ Hl1 (ex_intro _ 0 (ex_intro _ 0 follows_constructor))).
  unfold c. rewrite !run_app.
  assert (Ei : forall l c, run (i :: l) c = run l (handle i c).2) by done. rewrite !Ei, (told_run _ _ _ _ Ht Hl).
  destruct (move_run node x y _ Hx Hy H0 Hl) as (Hf & Hp & Hv). split; [exact Hv|].
  destruct (run_pointer x y l2 _ Hl2 Hf Hp) as [Hf2 Hp2]. split.
  { intros Hw Hh. rewrite (Hp2 Hw Hh). f_equal. exact (fo_position _ _ _ Hf2). }
  cbv zeta. intros rgba hotx hoty w h Hhx Hhy Hw Hh. set (c' := (handle _ _).2).
  assert (E : canvas c' = Image w h rgba) by
    (unfold c', Cursor.handle, change; rewrite (proj2 (Z.eqb_neq w 0) Hw), (proj2 (Z.eqb_neq h 0) Hh); reflexivity).
  assert (Hhot : hotSpot c' = (hotx, hoty)) by
    (unfold c', Cursor.handle, change; rewrite (proj2 (Z.eqb_neq w 0) Hw), (proj2 (Z.eqb_neq h 0) Hh); reflexivity).
  split; [exact E|]. destruct (handle_pointer (IChange rgba hotx hoty w h) (conj I (conj Hhx Hhy)) eq_refl x y _ Hf2) as [Hf3 Hp3].
  fold c' in Hf3, Hp3. rewrite (Hp3 Hp2) by (by rewrite E). f_equal. rewrite (fo_position _ _ _ Hf3), Hhot. done.
Qed.

End Properties.

(** ** Examples *)

Section Examples.
Import Cursor.
Abbreviation contains := (fun t n : nat => bool_decide (t = 1 /\ n = 2)%nat).
Abbreviation cursor_none := (fun n : nat => bool_decide (n = 2)%nat).
Abbreviation run := (run contains cursor_none).

(** The pointer moves over a part of the target; the server sends a picture. *)
Lemma cursor_follows_witness :
  canvas_place (handle true contains cursor_none (IChange [1; 2; 3; 4] 3 4 1 1)
    (run ([IAttach 1] ++ IMouseMove (Some 2%nat) (place 100 200) :: [IMouseUp None]) (constructor true))).2
  = Some (place 97 196).
Proof.
  refine (proj2 (proj2 (proj2 (cursor_follows contains cursor_none [IAttach 1] [IMouseUp None]
    (IMouseMove (Some 2%nat) (place 100 200)) (Some 2%nat) 100 200 _ _ _ _ _ _)) [1; 2; 3; 4] 3 4 1 1 _ _ _ _)).
  all: first [reflexivity | discriminate | split; reflexivity | repeat constructor].
Defined.

(** What is detached leaves its canvas where it is, visible. *)
Example detached_cursor_stays :
  let c := run [IAttach 1; IMouseMove (Some 1%nat) (place 100 200); IChange [1; 2; 3; 4] 0 0 1 1; IDetach; IMouseMove None (place 5 5)]
             (constructor true) in
  target c = None /\ visible c = true /\ im_w (canvas c) = 1 /\ canvas_place c = Some (place 100 200).
Proof. vm_compute. done. Qed.

(** A cursor that was never attached cannot be detached with the fallback. *)
Example detach_first : (detach true (constructor true)).1 = Throw TypeError /\ (detach false (constructor false)).1 = Ret tt.
Proof. done. Qed.

End Examples.
