(* ===== verification/Browser.v ===== *)
(** * What noVNC asks of its browser
    (src/ControlServer/web/www/novnc/core/util/browser.js and app/error-handler.js)

    Module [Browser] tells browsers and systems by their names; Module [ErrorHandler]
    shows the first uncaught error of a page.  Texts are lists of code units. *)

From S2P Require Import Prelude Doubles Mouse.
From stdpp Require Import pretty.
Local Open Scope Z_scope.

Module Browser.
Abbreviation text := (list Z).

(** A text is found at a place, or anywhere. *)
Fixpoint starts (p t : text) : bool :=
  match p, t with
  | [], _ => true
  | c :: p, d :: t => (c =? d) && starts p t
  | _ :: _, [] => false
  end.
Fixpoint occurs (p t : text) : bool :=
  starts p t || match t with [] => false | _ :: t => occurs p t end.

(** [(/word/i).exec(t)], for a word of small letters.  (Of the other characters none is
    taken for one of ASCII.) *)
Definition small (c : Z) : Z := if (65 <=? c) && (c <=? 90) then c + 32 else c.
Definition named (word : string) (t : text) : bool := occurs (codes word) (map small t).

Section Navigator.
Context (platform userAgent : text).

Definition isMac : bool := named "mac" platform.
Definition isWindows : bool := named "win" platform.
Definition isIOS : bool := named "ipad" platform || named "iphone" platform || named "ipod" platform.
Definition isAndroid : bool := named "android" userAgent.
Definition isSafari : bool := occurs (codes "Safari") userAgent && negb (occurs (codes "Chrome") userAgent).
Definition isIE : bool := named "trident" userAgent.
Definition isEdge : bool := named "edge" userAgent.
Definition isFirefox : bool := named "firefox" userAgent.

End Navigator.

(** [isTouchDevice]: whether the browser has a handler of touches, and how many points
    it says it can tell; a touch proves it. *)
Definition isTouchDevice (ontouchstart_in ontouchstart_defined : bool) (maxTouchPoints msMaxTouchPoints : option Z) : bool :=
  ontouchstart_in || ontouchstart_defined
  || match maxTouchPoints with Some n => 0 <? n | None => false end
  || match msMaxTouchPoints with Some n => 0 <? n | None => false end.
Definition onFirstTouch (isTouchDevice : bool) : bool := true.

(** In pixels; a pixel is one of the device if the browser does not say. *)
Definition dragThreshold (devicePixelRatio : double) : double := dbl_mul (dbl_of_Z 10) (Mouse.pixel_ratio devicePixelRatio).

(** The style that was set is still there, or setting it threw. *)
Definition supportsCursorURIs (style_cursor : outcome text) : bool :=
  match style_cursor with Ret (_ :: _) => true | _ => false end.
Definition supportsImageMetadata {A} (new_ImageData : outcome A) : bool :=
  match new_ImageData with Ret _ => true | Throw _ => false end.

End Browser.

Module ErrorHandler.
Import Browser.

(** An event, or a reason of a rejection, of which the properties are read; and an
    error. *)
Record event := Event { message : option text; filename : option text; lineno : option Z; colno : option Z; stack : option text }.

(** What the page shows of an error: classes and texts. *)
Record page := Page { errormsg : list (string * text); error_open : bool }.

(** Without a page, what [document.write] has put in its place is there. *)
Definition state : Type := option page.

Definition truthy (t : option text) : option text := match t with Some (_ :: _) => t | _ => None end.

Definition number_text (n : Z) : text := codes (pretty n).
Definition location (e : event) (f : text) : text :=
  f ++ match lineno e with
       | Some l => codes ":" ++ number_text l ++ match colno e with Some c => codes ":" ++ number_text c | None => [] end
       | None => []
       end.

Definition append (class : string) (t : text) : M state unit :=
  p ← gets id;
  match p with
  | Some p => modify (fun _ => Some (Page (errormsg p ++ [(class, t)]) (error_open p)))
  | None => throw TypeError
  end.

(** The event and the error may be null or undefined. *)
Definition handleError (e : option event) (err : option (option text)) : M state bool :=
  catch (
    p ← gets id;
    match p with
    | None => throw TypeError
    | Some p =>
        if bool_decide (errormsg p = []) then
          match e with
          | None => throw TypeError
          | Some e =>
              append "noVNC_message" (default (codes "undefined") (message e));;
              match truthy (filename e) with
              | Some f => append "noVNC_location" (location e f)
              | None => skip
              end;;
              match err ≫= truthy with
              | Some s => append "noVNC_stack" s
              | None => skip
              end;;
              modify (fmap (fun p => Page (errormsg p) true))
          end
        else skip
    end) (fun _ => modify (fun _ => None));;
  mret false.

Inductive input :=
  | OnError (e : event) (error_stack : option (option text))
  | OnReject (reason : option event).

Definition handle (i : input) : M state bool :=
  match i with
  | OnError e err => handleError (Some e) err
  | OnReject r => handleError r (stack <$> r)
  end.

End ErrorHandler.

(** ** Properties *)

Section Properties.
Import Browser ErrorHandler.

Definition run (l : list input) (s : state) : state := fold_left (fun s i => (handle i s).2) l s.

(** What an error shows. *)
Definition shown (e : event) (err : option (option text)) : list (string * text) :=
  ("noVNC_message"%string, default (codes "undefined") (message e))
  :: match truthy (filename e) with Some f => [("noVNC_location"%string, location e f)] | None => [] end
  ++ match err ≫= truthy with Some s => [("noVNC_stack"%string, s)] | None => [] end.

Lemma handleError_shows e err o : handleError (Some e) err (Some (Page [] o)) = (Ret false, Some (Page (shown e err) true)).
Proof.
  unfold handleError, shown, append. generalize (default (codes "undefined") (message e)). intros m.
  destruct (truthy (filename e)) as [f|], (err ≫= truthy) as [t|]; try generalize (location e f); reflexivity.
Qed.

Lemma handleError_keeps e err x l o : handleError e err (Some (Page (x :: l) o)) = (Ret false, Some (Page (x :: l) o)).
Proof. done. Qed.

(** Only the first error is shown: it is shown with its place and its stack, and then,
    whatever errors and rejections come, it stays. *)
Theorem first_error_stays (e : event) (err : option (option text)) (l : list input) :
  run (OnError e err :: l) (Some (Page [] false)) = Some (Page (shown e err) true).
Proof.
  unfold run. cbn [fold_left]. unfold handle at 2. rewrite handleError_shows. cbn [snd].
  induction l as [|i l IH]; [done|]. cbn [fold_left]. rewrite <- IH at 2. f_equal.
  destruct i; unfold handle, shown; by rewrite handleError_keeps.
Qed.

End Properties.

(** ** Examples *)

Section Examples.
Import Browser ErrorHandler.

(** A rejection without a reason, as of [Promise.reject()], overwrites the page. *)
Example no_reason : run [OnReject None] (Some (Page [] false)) = None.
Proof. reflexivity. Qed.

Example where_it_is : shown (Event (Some (codes "x is not defined")) (Some (codes "ui.js")) (Some 12) (Some 5) None) None
  = [("noVNC_message", codes "x is not defined"); ("noVNC_location", codes "ui.js:12:5")]%string.
Proof. vm_compute. reflexivity. Qed.

(** Darwin is named after Windows; the Edge of 2020 is not named Edge. *)
Example darwin : isWindows (codes "Darwin") = true /\ isEdge (codes "Chrome/80.0 Safari/537.36 Edg/80.0") = false.
Proof. vm_compute. done. Qed.

End Examples.
