(* ===== verification/Pages.v ===== *)
(** * The pages of the control server
    (src/ControlServer/web/www/js/scripts.js)

    Elements of class "refreshnow" are loaded once, those of class "autorefresh" every two
    seconds, each from the address in its attribute [src].  The document is a tree; what
    is taken out of it stays a tree of its own, since a response may still arrive for
    it.  Texts are lists of code units. *)

From S2P Require Import Prelude Browser.
From stdpp Require Import list.
Local Open Scope Z_scope.

Module Pages.
Import Browser(starts, occurs).
Abbreviation text := (list Z).

(** *** The operating system *)

Definition getOS (userAgent platform : text) : option string :=
  if bool_decide (platform ∈ map codes ["Macintosh"; "MacIntel"; "MacPPC"; "Mac68K"]) then Some "MacOS"%string
  else if bool_decide (platform ∈ map codes ["iPhone"; "iPad"; "iPod"]) then Some "iOS"%string
  else if bool_decide (platform ∈ map codes ["Win32"; "Win64"; "Windows"; "WinCE"]) then Some "Windows"%string
  else if occurs (codes "Android") userAgent then Some "Android"%string
  else if occurs (codes "Linux") platform then Some "Linux"%string
  else None.

(** What [loadFile] does when the answer has come. *)
Inductive loaded := Callback | Nothing | StatusError.
Definition loadFile_onload (readyState status : Z) (has_callback : bool) : loaded :=
  if readyState =? 4 then if status =? 200 then if has_callback then Callback else Nothing else StatusError else Nothing.

(** *** Class names *)

Definition word (c : Z) : bool :=
  (97 <=? c) && (c <=? 122) || (65 <=? c) && (c <=? 90) || (c =? 95) || (48 <=? c) && (c <=? 57).
Definition white (c : Z) : bool := bool_decide (c ∈ [9; 10; 12; 13; 32]).

(** [\b] before what follows, when [prev] does not belong to a word *)
Definition ends_word (t : text) : bool := match t with c :: _ => negb (word c) | [] => true end.

(** [t.replace(/\bp\b/g, "")], with [prev] the character before, for a word [p]; a
    match of [p] is passed over in [skip] characters. *)
Fixpoint remove_word (p : text) (prev : option Z) (skip : nat) (t : text) : text :=
  match t with
  | [] => []
  | c :: t' =>
      match skip with
      | S n => remove_word p (Some c) n t'
      | O =>
          if match prev with Some d => negb (word d) | None => true end && starts p t && ends_word (drop (length p) t)
          then remove_word p (Some c) (length p - 1) t'
          else c :: remove_word p (Some c) 0 t'
      end
  end.

(** The classes of an element. *)
Fixpoint tokens_from (run t : text) : list text :=
  match t with
  | [] => match run with [] => [] | _ => [run] end
  | c :: t =>
      if white c then match run with [] => tokens_from [] t | _ => run :: tokens_from [] t end
      else tokens_from (run ++ [c]) t
  end.
Definition has_class (class : string) (className : text) : bool := bool_decide (codes class ∈ tokens_from [] className).

(** *** Documents *)

Record attributes := Attributes { className : text; a_preexec : option text; a_src : option text; a_exec : option text }.
#[export] Instance eta_attributes : Eta attributes := fun a =>
  Attributes (className a) (a_preexec a) (a_src a) (a_exec a).

(** Elements are told apart by numbers. *)
Inductive element := Element (id : nat) (a : attributes) (children : list element).

Definition id_of (e : element) : nat := let 'Element i _ _ := e in i.

(** The elements of a tree, in the order of the document. *)
Fixpoint flatten (e : element) : list (nat * attributes) :=
  let 'Element i a l := e in (i, a) :: concat (map flatten l).

Fixpoint find_element (i : nat) (e : element) : option element :=
  let 'Element j _ l := e in
  if decide (i = j) then Some e
  else (fix go l := match l with [] => None | e :: l => match find_element i e with Some x => Some x | None => go l end end) l.

(** Change the attributes, or the children, of an element. *)
Fixpoint set_attributes (i : nat) (f : attributes -> attributes) (e : element) : element :=
  let 'Element j a l := e in Element j (if decide (i = j) then f a else a) (map (set_attributes i f) l).
Fixpoint set_children (i : nat) (new : list element) (e : element) : element :=
  let 'Element j a l := e in Element j a (if decide (i = j) then new else map (set_children i new) l).

(** The document of a page and what was taken out of it. *)
Record page := Page {
  roots : list element;
  next_id : nat;
  fetches : list (option (nat * text));     (* element and address; none when answered *)
  calls : list (text * nat);                (* functions called for an element *)
  not_found : list text;                    (* what console.log says *)
  scripts : list text;                      (* scripts that were run *)
  page_timer : bool }.
#[export] Instance eta_page : Eta page := fun p =>
  Page (roots p) (next_id p) (fetches p) (calls p) (not_found p) (scripts p) (page_timer p).

Fixpoint find_in (i : nat) (l : list element) : option element :=
  match l with [] => None | e :: l => match find_element i e with Some x => Some x | None => find_in i l end end.

(** What the browser makes of a text of HTML: elements without numbers. *)
Inductive html := Html (a : attributes) (children : list html).

Fixpoint number (n : nat) (h : html) : element * nat :=
  let 'Html a l := h in
  let '(l, m) := (fix go n l := match l with
                                | [] => ([], n)
                                | h :: l => let '(e, n) := number n h in let '(l, n) := go n l in (e :: l, n)
                                end) (S n) l in
  (Element n a l, m).

Section Pages.
(** [typeof window[f] === "function"], what such a function does, what a script does
    when it is run, and the parser of the browser *)
Context (is_function : text -> bool) (window_function : text -> nat -> M page unit).
Context (run_script : text -> M page unit) (parse : text -> list html).

Definition get_attributes (i : nat) : M page (option attributes) :=
  p ← gets id; mret ((fun e => let 'Element _ a _ := e in a) <$> find_in i (roots p)).

Definition change (i : nat) (f : attributes -> attributes) : M page unit :=
  modify (fun p => p <| roots := map (set_attributes i f) (roots p) |>).

(** [window[name](el)], or a message *)
Definition run_function (name : text) (el : nat) : M page unit :=
  if is_function name then modify (fun p => p <| calls := calls p ++ [(name, el)] |>);; window_function name el
  else modify (fun p => p <| not_found := not_found p ++ [name] |>).

Definition run_exec (el : nat) : M page unit :=
  a ← get_attributes el;
  match a ≫= a_exec with Some f => run_function f el | None => skip end.

(** It is asynchronous: an exception ends it and is not thrown. *)
Definition page_fetch (el : nat) : M page unit :=
  catch (
    a ← get_attributes el;
    match a ≫= a_preexec with
    | Some f => run_function f el;; change el (fun a => a <| a_preexec := Some [] |>)
    | None => skip
    end;;
    a ← get_attributes el;
    match a ≫= a_src with
    | Some ((_ :: _) as url) => modify (fun p => p <| fetches := fetches p ++ [Some (el, url)] |>)
    | _ => run_exec el
    end) (fun _ => skip).

(** [doc.getElementsByClassName(class)]: below [doc], in order *)
Definition below (doc : nat) (p : page) : list (nat * attributes) :=
  match find_in doc (roots p) with Some (Element _ _ l) => concat (map flatten l) | None => [] end.
Definition getElementsByClassName (class : string) (doc : nat) (p : page) : list nat :=
  (List.filter (fun x => has_class class (className x.2)) (below doc p)).*1.

Definition drop_refreshnow (a : attributes) : attributes :=
  a <| className := remove_word (codes "refreshnow") None 0 (className a) |>.

Fixpoint onload_loop (fuel : nat) (doc : nat) : M page unit :=
  match fuel with
  | O => skip
  | S fuel =>
      elements ← gets (getElementsByClassName "refreshnow" doc);
      match elements with
      | [] => skip
      | element :: _ => change element drop_refreshnow;; page_fetch element;; onload_loop fuel doc
      end
  end.
Definition page_updater_onload (doc : nat) : M page unit :=
  elements ← gets (getElementsByClassName "refreshnow" doc); onload_loop (length elements) doc.

(** [url.substring(url.lastIndexOf('.') + 1)] *)
Fixpoint after_last (c : Z) (found t : text) : text :=
  match t with [] => found | d :: t => after_last c (if d =? c then t else found) t end.

Definition no_attributes : attributes := Attributes [] None None None.

(** Is an element in the document?  A script runs at once when it gets there; what it
    throws is reported and goes no further. *)
Definition connected (i : nat) (p : page) : bool :=
  match find_in 0 (roots p) with Some doc => bool_decide (is_Some (find_element i doc)) | None => false end.

Definition append_script (el : nat) (t : text) : M page unit :=
  p ← gets id;
  when (connected el p)
    (modify (fun p => p <| scripts := scripts p ++ [t] |>);; catch (run_script t) (fun _ => skip)).

(** The text of a response has arrived: it replaces what the element has. *)
Definition response (el : nat) (url t : text) : M page unit :=
  p ← gets id;
  let old := match find_in el (roots p) with Some (Element _ _ l) => l | None => [] end in
  if decide (after_last 46 url url = codes "js") then
    modify (fun p => p <| roots := map (set_children el [Element (next_id p) no_attributes []]) (roots p) ++ old |>
      <| next_id := S (next_id p) |>);;
    append_script el t;;
    run_exec el
  else
    modify (fun p =>
      let '(span, n) := number (next_id p) (Html no_attributes (parse t)) in
      p <| roots := map (set_children el [span]) (roots p) ++ old |> <| next_id := n |>);;
    page_updater_onload el;;
    run_exec el.

Fixpoint fetch_all (l : list nat) : M page unit :=
  match l with [] => skip | e :: l => page_fetch e;; fetch_all l end.

(** The number of the document is 0. *)
Definition page_updater : M page unit :=
  elements ← gets (getElementsByClassName "autorefresh" 0); fetch_all elements.

Definition page_updater_stop : M page unit := modify (fun p => p <| page_timer := false |>).

Definition onload : M page unit := page_updater_onload 0;; modify (fun p => p <| page_timer := true |>).

(** What happens to a page once it is loaded: the timer, a response or the failure of
    a fetch. *)
Inductive input := ITimer | IResponse (n : nat) (t : text) | IFailure (n : nat) | IStop.

Definition handle (i : input) : M page unit :=
  p ← gets id;
  match i with
  | ITimer => when (page_timer p) page_updater
  | IResponse n t =>
      match fetches p !! n with
      | Some (Some (el, url)) =>
          modify (fun p => p <| fetches := <[n := None]> (fetches p) |>);; catch (response el url t) (fun _ => skip)
      | _ => skip
      end
  | IFailure n => modify (fun p => p <| fetches := <[n := None]> (fetches p) |>)
  | IStop => page_updater_stop
  end.

Definition step (p p' : page) : Prop := exists i, p' = (handle i p).2.

(** A page of these elements, after it has been loaded. *)
Definition load (l : list element) (next : nat) : page :=
  (onload (Page [Element 0 no_attributes l] next [] [] [] [] false)).2.

End Pages.
End Pages.

(** ** Class names *)

Section ClassNames.
Import Browser(starts) Pages.
Context (p : text) (Hp : Forall (fun c => word c = true) p) (Hne : p <> []).
Implicit Types (t a b : text).

Definition non_word_end (prev : option Z) : Prop := match prev with Some d => word d = false | None => True end.
Definition begins_apart b : Prop := match b with c :: _ => word c = false | [] => True end.

Lemma ends_word_iff t : ends_word t = true <-> begins_apart t.
Proof. destruct t as [|c t]; [done|]. cbn. by rewrite negb_true_iff. Qed.

Lemma starts_app t b : starts t (t ++ b) = true.
Proof. induction t as [|c t IH]; [done|]. cbn. by rewrite Z.eqb_refl. Qed.

Lemma starts_inv q t : starts q t = true -> exists b, t = q ++ b.
Proof.
  revert t. induction q as [|c q IH]; intros t H; [by exists t|]. destruct t as [|d t]; [done|]. cbn in H.
  apply andb_true_iff in H as [->%Z.eqb_eq H]. destruct (IH t H) as [b ->]. by exists b.
Qed.

(** Nothing is removed inside a word. *)
Lemma remove_inside c q t b :
  word c = true -> Forall (fun c => word c = true) q -> begins_apart b -> remove_word p (Some c) 0 t = q ++ b ->
  exists t', t = q ++ t' /\ begins_apart t'.
Proof.
  intros Hc Hq. revert c t Hc. induction Hq as [|d q Hd _ IH]; intros c t Hc Hb E.
  - exists t. split; [done|]. destruct t as [|e t]; [done|]. cbn in E. rewrite Hc in E. cbn in E. by subst b.
  - destruct t as [|e t]; [done|]. cbn in E. rewrite Hc in E. cbn in E. injection E as -> E.
    destruct (IH d t Hd Hb E) as (t' & -> & Ht). by exists t'.
Qed.

(** What is passed over does not matter. *)
Lemma remove_skip k prev t : remove_word p prev (length k) (k ++ t) = remove_word p (last (option_list prev ++ k)) 0 t.
Proof.
  revert prev. induction k as [|c k IH]; intros prev; [by destruct prev|]. cbn [app length remove_word]. rewrite IH.
  change (option_list (Some c) ++ k) with (c :: k). by rewrite last_app_cons.
Qed.

Lemma remove_match prev t :
  non_word_end prev -> begins_apart t -> exists c, word c = true /\ remove_word p prev 0 (p ++ t) = remove_word p (Some c) 0 t.
Proof.
  intros Hprev Ht. destruct p as [|d q] eqn:E; [done|]. exists (default d (last q)). split.
  { apply Forall_cons in Hp as [Hd Hq]. destruct (last q) as [x|] eqn:El; [|done]. cbn.
    apply last_Some in El as [q' ->]. apply Forall_app in Hq as [_ Hq]. by apply Forall_cons in Hq as [Hq _]. }
  cbn [app]. cbn [remove_word]. change (d :: q ++ t) with ((d :: q) ++ t).
  rewrite starts_app, drop_app_length, (proj2 (ends_word_iff t) Ht).
  replace (match prev with Some d => negb (word d) | None => true end) with true by (destruct prev; [cbn in *; by rewrite Hprev|done]).
  cbn [andb length]. rewrite Nat.sub_1_r. cbn [Nat.pred]. rewrite <- E, remove_skip. f_equal.
  change (option_list (Some d) ++ q) with (d :: q). rewrite last_cons. by destruct (last q).
Qed.

(** A part of a text that is apart from words on both sides. *)
Definition ends_apart (prev : option Z) a : Prop := non_word_end (last (option_list prev ++ a)).

Lemma ends_apart_cons c a : a <> [] -> ends_apart None a -> ends_apart None (c :: a).
Proof. by destruct a. Qed.

(** After the removal the word is nowhere. *)
Lemma remove_gone n prev t a b :
  (length t <= n)%nat -> remove_word p prev 0 t = a ++ p ++ b -> ends_apart prev a -> begins_apart b -> False.
Proof.
  revert prev t a. induction n as [n IH] using lt_wf_ind. intros prev t a Hn E Ha Hb.
  destruct t as [|c t]; [cbn in E; destruct a; [by destruct p|done]|].
  destruct (match prev with Some d => negb (word d) | None => true end && starts p (c :: t) && ends_word (drop (length p) (c :: t))) eqn:Em.
  - apply andb_true_iff in Em as [[Hprev Hs]%andb_true_iff He]. apply starts_inv in Hs as [t' Et]. rewrite Et in *.
    rewrite drop_app_length in He. apply ends_word_iff in He.
    assert (Hprev' : non_word_end prev) by (destruct prev; [by apply negb_true_iff in Hprev|done]).
    destruct (remove_match prev t' Hprev' He) as (d & Hd & Er). rewrite Er in E. 
    assert (Hlen : (length t' < length (p ++ t'))%nat) by (rewrite length_app; destruct p; [done|cbn; lia]).
    destruct a as [|x a].
    + cbn in E. destruct p as [|x q] eqn:Ep; [done|]. rewrite <- Ep in *. destruct t' as [|y t']; [by subst p|].
      cbn in E. rewrite Hd in E. cbn in E. subst p. injection E as -> _. rewrite Forall_cons in Hp. destruct Hp as [Hx _].
      cbn in He. congruence.
    + apply (IH (length t') ltac:(lia) (Some d) t' (x :: a)); [done|done| |done].
      revert Ha. unfold ends_apart. by rewrite !last_app_cons.
  - cbn [remove_word] in E. rewrite Em in E. destruct a as [|x a].
    + destruct p as [|x q] eqn:Ep; [done|]. injection E as -> E. pose proof Hp as [Hx Hq]%Forall_cons.
      rewrite <- Ep in E. destruct (remove_inside x q t b Hx Hq Hb E) as (t' & -> & Ht').
      change (x :: q ++ t') with ((x :: q) ++ t') in Em. rewrite starts_app, drop_app_length, (proj2 (ends_word_iff t') Ht') in Em.
      unfold ends_apart in Ha. rewrite app_nil_r in Ha. destruct prev as [d|]; cbn in *; [by rewrite Ha in Em|done].
    + injection E as -> E. apply (IH (length t) ltac:(cbn in Hn; lia) (Some x) t a); [done|done| |done].
      revert Ha. unfold ends_apart. change (option_list (Some x) ++ a) with (x :: a). by rewrite last_app_cons.
Qed.

Lemma white_not_word c : white c = true -> word c = false.
Proof.
  unfold white. rewrite bool_decide_eq_true. intros H. repeat (apply elem_of_cons in H as [->|H]; [done|]). by apply elem_of_nil in H.
Qed.

(** A class is apart from the others. *)
Lemma tokens_apart q run t :
  q ∈ tokens_from run t ->
  (exists b, run ++ t = q ++ b /\ begins_apart b)
  \/ (exists a b, t = a ++ q ++ b /\ a <> [] /\ ends_apart None a /\ begins_apart b).
Proof.
  revert run. induction t as [|c t IH]; intros run Hq; cbn in Hq.
  { left. exists []. destruct run; [by apply elem_of_nil in Hq|]. by apply list_elem_of_singleton in Hq as ->. }
  destruct (white c) eqn:Ec.
  - assert (Hrest : q ∈ tokens_from [] t -> exists a b, c :: t = a ++ q ++ b /\ a <> [] /\ ends_apart None a /\ begins_apart b).
    { intros Hq'. destruct (IH [] Hq') as [(b & E & Hb)|(a & b & -> & Hne' & Ha & Hb)].
      - exists [c], b. cbn in E. rewrite E. split_and!; [done|done|by apply white_not_word|done].
      - exists (c :: a), b. split_and!; [done|done| |done]. by apply ends_apart_cons. }
    destruct run as [|x run]; [right; auto|]. apply elem_of_cons in Hq as [->|Hq]; [|right; auto].
    left. exists (c :: t). split; [done|]. by apply white_not_word.
  - destruct (IH _ Hq) as [(b & E & Hb)|(a & b & -> & Hne' & Ha & Hb)].
    + left. exists b. split; [|done]. by rewrite <- E, <- app_assoc.
    + right. exists (c :: a), b. split_and!; [done|done| |done]. by apply ends_apart_cons.
Qed.

Lemma class_removed t : p ∉ tokens_from [] (remove_word p None 0 t).
Proof.
  intros H. destruct (tokens_apart _ _ _ H) as [(b & E & Hb)|(a & b & E & _ & Ha & Hb)].
  - by apply (remove_gone _ None t [] b (Nat.le_refl _) E).
  - by apply (remove_gone _ None t a b (Nat.le_refl _) E).
Qed.

End ClassNames.

Lemma refreshnow_removed a : Pages.has_class "refreshnow" (Pages.className (Pages.drop_refreshnow a)) = false.
Proof.
  unfold Pages.has_class. apply bool_decide_eq_false. apply class_removed; [|done].
  change (codes "refreshnow") with [114; 101; 102; 114; 101; 115; 104; 110; 111; 119]. by repeat constructor.
Qed.

(** The two scripts agree on the systems they both know. *)
Lemma getOS_agrees userAgent platform :
  match Pages.getOS userAgent platform with
  | Some "MacOS"%string => Browser.isMac platform = true /\ Browser.isWindows platform = false /\ Browser.isIOS platform = false
  | Some "iOS"%string => Browser.isIOS platform = true /\ Browser.isMac platform = false /\ Browser.isWindows platform = false
  | Some "Windows"%string => Browser.isWindows platform = true /\ Browser.isMac platform = false /\ Browser.isIOS platform = false
  | _ => True
  end.
Proof.
  unfold Pages.getOS. repeat case_bool_decide; try done.
  4: by destruct (Browser.occurs (codes "Android") userAgent), (Browser.occurs (codes "Linux") platform).
  all: match goal with H : _ ∈ map codes _ |- _ => cbn [map] in H; revert H; rewrite !elem_of_cons, elem_of_nil; intros H end.
  all: repeat match goal with H : _ \/ _ |- _ => destruct H as [->|H]; [by vm_compute|] end; done.
Qed.

(** ** Trees *)

Section Trees.
Import Pages.
Implicit Types (e : element) (a : attributes) (i : nat).

Lemma element_ind' (P : element -> Prop) :
  (forall i a l, Forall P l -> P (Element i a l)) -> forall e, P e.
Proof. intros H. fix IH 1. intros [i a l]. apply H. induction l as [|e l IHl]; constructor; [apply IH|exact IHl]. Qed.

Definition flatten_all (l : list element) : list (nat * attributes) := concat (map flatten l).
Definition attributes_of e : attributes := let 'Element _ a _ := e in a.
Definition children_of e : list element := let 'Element _ _ l := e in l.

Lemma find_here e : find_element (id_of e) e = Some e.
Proof. destruct e. cbn. by rewrite decide_True. Qed.

(** The search in an element is that in its children. *)
Lemma find_element_eq i j a l : find_element i (Element j a l) = if decide (i = j) then Some (Element j a l) else find_in i l.
Proof. cbn. destruct (decide (i = j)); [done|]. induction l as [|e l IH]; [done|]. cbn. by destruct (find_element i e). Qed.

Lemma find_in_app i l l' : find_in i (l ++ l') = match find_in i l with Some e => Some e | None => find_in i l' end.
Proof. induction l as [|e l IH]; [done|]. cbn. by destruct (find_element i e). Qed.

(** What commutes with the search of each commutes with that of all. *)
Lemma find_in_map i (f g : element -> element) l :
  Forall (fun e => find_element i (f e) = g <$> find_element i e) l -> find_in i (map f l) = g <$> find_in i l.
Proof. induction 1 as [|e l He _ IH]; [done|]. cbn. rewrite He, IH. by destruct (find_element i e). Qed.

Lemma find_id i e x : find_element i e = Some x -> id_of x = i.
Proof.
  induction e as [j a l IH] using element_ind'. rewrite find_element_eq. destruct (decide (i = j)) as [->|]; [by intros [= <-]|].
  induction IH as [|e l He _ IHl]; [done|]. cbn. destruct (find_element i e) as [y|]; [|exact IHl]. intros [= ->]. by apply He.
Qed.

Definition at_id i (f : attributes -> attributes) (x : nat * attributes) : nat * attributes :=
  (x.1, if decide (i = x.1) then f x.2 else x.2).

Lemma flatten_set i f e : flatten (set_attributes i f e) = map (at_id i f) (flatten e).
Proof.
  induction e as [j a l IH] using element_ind'. cbn. unfold at_id at 1. cbn. f_equal.
  rewrite concat_map, !map_map. f_equal. apply map_ext_Forall. exact IH.
Qed.

Lemma flatten_all_set i f l : flatten_all (map (set_attributes i f) l) = map (at_id i f) (flatten_all l).
Proof. unfold flatten_all. rewrite concat_map, !map_map. f_equal. apply map_ext. intros. apply flatten_set. Qed.

Lemma find_set i j f e : find_element i (set_attributes j f e) = set_attributes j f <$> find_element i e.
Proof.
  induction e as [k a l IH] using element_ind'. cbn [set_attributes]. rewrite !find_element_eq.
  destruct (decide (i = k)); [done|]. by apply find_in_map.
Qed.

Lemma find_in_set i j f l : find_in i (map (set_attributes j f) l) = set_attributes j f <$> find_in i l.
Proof. apply find_in_map. apply Forall_true. intros. apply find_set. Qed.

(** The children of an element are replaced. *)
Lemma flatten_new i new e x :
  x ∈ flatten (set_children i new e) ->
  x ∈ flatten e \/ x ∈ flatten_all new /\ is_Some (find_element i e).
Proof.
  induction e as [j a l IH] using element_ind'. cbn [set_children flatten]. rewrite find_element_eq. intros [->|Hx]%elem_of_cons.
  { left. by left. }
  destruct (decide (i = j)) as [->|Hn]; [right; by eauto|].
  assert (H : x ∈ flatten_all l \/ x ∈ flatten_all new /\ is_Some (find_in i l)).
  { clear Hn. unfold flatten_all in *. induction IH as [|e l He _ IHl]; [by apply elem_of_nil in Hx|].
    cbn in *. apply elem_of_app in Hx as [Hx|Hx].
    - destruct (He Hx) as [?|[? [y Hy]]]; [left; apply elem_of_app; by left|right]. split; [done|]. rewrite Hy. by eexists.
    - destruct (IHl Hx) as [?|[? Hy]]; [left; apply elem_of_app; by right|right]. split; [done|].
      destruct (find_element i e); [by eexists|done]. }
  destruct H as [H|H]; [left; by right|by right].
Qed.

Lemma flatten_all_new i new l x :
  x ∈ flatten_all (map (set_children i new) l) -> x ∈ flatten_all l \/ x ∈ flatten_all new /\ is_Some (find_in i l).
Proof.
  unfold flatten_all. induction l as [|e l IH]; cbn; [by intros ?%elem_of_nil|]. intros [Hx|Hx]%elem_of_app.
  - destruct (flatten_new _ _ _ _ Hx) as [?|[? [y ->]]]; [left; apply elem_of_app; by left|]. right. by eauto.
  - destruct (IH Hx) as [?|[? Hy]]; [left; apply elem_of_app; by right|]. right. split; [done|].
    destruct (find_element i e); [by eexists|done].
Qed.

Definition with_children new e : element := let 'Element i a _ := e in Element i a new.

Lemma find_new i new e : find_element i (set_children i new e) = with_children new <$> find_element i e.
Proof.
  induction e as [k a l IH] using element_ind'. cbn [set_children]. rewrite !find_element_eq.
  destruct (decide (i = k)); [done|]. by apply find_in_map.
Qed.

Lemma find_in_new i new l : find_in i (map (set_children i new) l) = with_children new <$> find_in i l.
Proof. apply find_in_map. apply Forall_true. intros. apply find_new. Qed.

(** What is below an element is in the page. *)
Lemma find_flatten i e x y : find_element i e = Some x -> y ∈ flatten x -> y ∈ flatten e.
Proof.
  induction e as [j a l IH] using element_ind'. rewrite find_element_eq. destruct (decide (i = j)); [by intros [= <-]|]. intros E Hy.
  cbn. right. induction IH as [|e l He _ IHl]; [done|]. cbn in *. destruct (find_element i e) as [z|] eqn:Ez.
  - injection E as ->. apply elem_of_app. left. by apply He.
  - apply elem_of_app. right. exact (IHl E).
Qed.

Lemma find_in_flatten i l x : find_in i l = Some x -> (i, attributes_of x) ∈ flatten_all l.
Proof.
  unfold flatten_all. induction l as [|e l IH]; [done|]. cbn. rewrite elem_of_app. destruct (find_element i e) as [y|] eqn:E; [|auto].
  intros [= ->]. left. apply (find_flatten i e x); [done|]. apply find_id in E as <-. destruct x. cbn. by left.
Qed.

(** Where numbers are different an element is found by its number. *)
Lemma find_unique i a e : NoDup (flatten e).*1 -> (i, a) ∈ flatten e -> attributes_of <$> find_element i e = Some a.
Proof.
  induction e as [j b l IH] using element_ind'. cbn [flatten fmap list_fmap]. rewrite NoDup_cons, find_element_eq. cbn [fst].
  intros [Hj Hl] [E|Hi]%elem_of_cons.
  { injection E as -> ->. by rewrite decide_True. }
  rewrite decide_False by (intros ->; apply Hj, list_elem_of_fmap; by exists (j, a)).
  clear Hj. induction IH as [|e l He _ IHl]; [by apply elem_of_nil in Hi|]. cbn in *. rewrite fmap_app in Hl.
  apply NoDup_app in Hl as (H1 & H2 & H3). apply elem_of_app in Hi as [Hi|Hi].
  - specialize (He H1 Hi). by destruct (find_element i e).
  - specialize (IHl H3 Hi). destruct (find_element i e) as [x|] eqn:E; [|exact IHl].
    destruct (H2 i); [|apply list_elem_of_fmap; by exists (i, a)]. 
    apply list_elem_of_fmap. exists (i, attributes_of x). split; [done|]. apply (find_flatten i e x); [done|].
    apply find_id in E as <-. destruct x. cbn. by left.
Qed.

End Trees.

(** ** What is loaded *)

Section Loading.
Import Pages.
Context (is_function : text -> bool) (window_function : text -> nat -> M page unit) (parse : text -> list html).
Context (run_script : text -> M page unit).
(** No attribute names a function. *)
Context (Hnone : forall f, is_function f = false).
Implicit Types (p : page) (a : attributes).
Abbreviation run_exec := (run_exec is_function window_function).
Abbreviation run_function := (run_function is_function window_function).
Abbreviation page_fetch := (page_fetch is_function window_function).
Abbreviation onload_loop := (onload_loop is_function window_function).
Abbreviation page_updater_onload := (page_updater_onload is_function window_function).
Abbreviation response := (response is_function window_function run_script parse).
Abbreviation handle := (handle is_function window_function run_script parse).

Definition refreshing (x : nat * attributes) : Prop := has_class "refreshnow" (className x.2) = true.
Definition nothing_waits p : Prop := forall x, x ∈ flatten_all (roots p) -> ~ refreshing x.
(** What waits is below an element. *)
Definition waits_below (doc : nat) p : Prop :=
  forall x, x ∈ flatten_all (roots p) -> refreshing x -> exists y, y ∈ below doc p /\ refreshing y /\ y.1 = x.1.

Lemma run_function_roots f el p : roots (run_function f el p).2 = roots p.
Proof. unfold Pages.run_function. by rewrite Hnone. Qed.

Definition attributes_at i p : option attributes := attributes_of <$> find_in i (roots p).

Lemma get_attributes_run i p : get_attributes i p = (Ret (attributes_at i p), p).
Proof. done. Qed.

Lemma run_exec_roots el p : roots (run_exec el p).2 = roots p.
Proof.
  unfold Pages.run_exec. rewrite bind_run, get_attributes_run. destruct (_ ≫= a_exec); [apply run_function_roots|done].
Qed.

Lemma set_same i e : set_attributes i id e = e.
Proof.
  induction e as [j a l IH] using element_ind'. cbn. f_equal; [by destruct (decide (i = j))|].
  induction IH as [|e l He _ IHl]; [done|]. cbn. by rewrite He, IHl.
Qed.

(** The attributes of an element whose function has been called. *)
Definition called a : attributes := a <| a_preexec := Some [] |>.

(** Fetching changes no class. *)
Lemma page_fetch_roots el p :
  exists f, (forall a, className (f a) = className a /\ a_src (f a) = a_src a) /\ (f = id \/ f = called) /\ roots (page_fetch el p).2 = map (set_attributes el f) (roots p)
    /\ (page_fetch el p).1 = Ret tt.
Proof.
  assert (Hid : map (set_attributes el id) (roots p) = roots p) by (rewrite (map_ext _ id); [apply map_id|apply set_same]).
  assert (Hrest : forall q, roots ((a ← get_attributes el;
      match a ≫= a_src with
      | Some ((_ :: _) as url) => modify (fun p => p <| fetches := fetches p ++ [Some (el, url)] |>)
      | _ => run_exec el
      end) q).2 = roots q).
  { intros q. rewrite bind_run, get_attributes_run.
    destruct (_ ≫= a_src) as [[|c url]|]; [apply run_exec_roots|done|apply run_exec_roots]. }
  unfold Pages.page_fetch. set (rest := (a ← get_attributes el; _) : M page unit) in *.
  unfold catch. rewrite bind_run, get_attributes_run, bind_run. destruct (_ ≫= a_preexec) as [f|].
  - rewrite bind_run. pose proof (run_function_roots f el p) as Hf. destruct (run_function f el p) as [[[]|e] q]; cbn [snd] in Hf.
    + unfold change. rewrite modify_run. change (fun a => a <| a_preexec := Some [] |>) with called.
      match goal with |- context [rest ?q] => pose proof (Hrest q) as Hr; destruct (rest q) as [[[]|e] q'] end; cbn [snd] in Hr.
      all: exists called; split; [done|]; split; [by right|]; split; [by rewrite <- Hf|done].
    + exists id. split; [done|]. split; [by left|]. by rewrite Hid.
  - exists id. split; [done|]. split; [by left|]. rewrite Hid. change (skip p) with (Ret tt, p).
    pose proof (Hrest p) as Hr. by destruct (rest p) as [[[]|e] q'].
Qed.
Lemma below_set doc i f p p' : roots p' = map (set_attributes i f) (roots p) -> below doc p' = map (at_id i f) (below doc p).
Proof.
  unfold below. intros ->. rewrite find_in_set. destruct (find_in doc (roots p)) as [[j a l]|]; [|done].
  apply flatten_all_set.
Qed.

Lemma refreshing_at i f x :
  (forall a, has_class "refreshnow" (className (f a)) = true -> has_class "refreshnow" (className a) = true) ->
  refreshing (at_id i f x) -> refreshing x.
Proof. intros Hf. unfold refreshing, at_id. cbn. destruct (decide (i = x.1)); [apply Hf|done]. Qed.

Lemma nothing_waits_set i f p p' :
  roots p' = map (set_attributes i f) (roots p) ->
  (forall a, has_class "refreshnow" (className (f a)) = true -> has_class "refreshnow" (className a) = true) ->
  nothing_waits p -> nothing_waits p'.
Proof.
  intros Hr Hf Hp x. rewrite Hr, flatten_all_set. intros Hx Hb. apply list_elem_of_fmap in Hx as (y & -> & Hy).
  apply (Hp y Hy). by apply (refreshing_at i f).
Qed.

(** A change of attributes that keeps what waits, unless it is of the changed element. *)
Lemma waits_set doc i f p p' :
  roots p' = map (set_attributes i f) (roots p) ->
  (forall a, has_class "refreshnow" (className (f a)) = has_class "refreshnow" (className a))
  \/ (forall a, has_class "refreshnow" (className (f a)) = false) ->
  waits_below doc p -> waits_below doc p'.
Proof.
  intros Hr Hf Hp x. rewrite Hr, flatten_all_set, (below_set doc i f p p' Hr). intros Hx Hb.
  apply list_elem_of_fmap in Hx as (x0 & -> & Hx0).
  assert (Hb0 : refreshing x0).
  { apply (refreshing_at i f); [|done]. intros a. destruct Hf as [->|Hf]; [done|]. by rewrite Hf. }
  destruct (Hp x0 Hx0 Hb0) as (y & Hy & Hyb & E). exists (at_id i f y). split; [by apply list_elem_of_fmap_2|].
  split; [|exact E]. unfold refreshing, at_id in *. cbn in *. rewrite E. destruct (decide (i = x0.1)); [|done].
  destruct Hf as [Hf|Hf]; [by rewrite Hf|by rewrite Hf in Hb].
Qed.

Definition waiting doc p : list nat := getElementsByClassName "refreshnow" doc p.

Lemma waiting_set doc i f p p' :
  roots p' = map (set_attributes i f) (roots p) -> (forall a, className (f a) = className a) -> waiting doc p' = waiting doc p.
Proof.
  intros Hr Hf. unfold waiting, getElementsByClassName. rewrite (below_set doc i f p p' Hr).
  induction (below doc p) as [|x l IH]; [done|]. cbn. unfold at_id at 1. cbn.
  replace (className (if decide (i = x.1) then f x.2 else x.2)) with (className x.2) by (by destruct (decide _)).
  destruct (has_class "refreshnow" (className x.2)); [|exact IH]. cbn. by f_equal.
Qed.

Lemma waiting_drop doc i l p p' :
  roots p' = map (set_attributes i drop_refreshnow) (roots p) -> waiting doc p = i :: l ->
  (length (waiting doc p') <= length l)%nat.
Proof.
  intros Hr. unfold waiting, getElementsByClassName. rewrite (below_set doc i _ p p' Hr).
  set (keep := fun x : nat * attributes => has_class "refreshnow" (className x.2)).
  assert (Hk : forall x, keep (at_id i drop_refreshnow x) = if decide (i = x.1) then false else keep x).
  { intros x. unfold keep, at_id. cbn. destruct (decide _); [apply refreshnow_removed|done]. }
  assert (Hle : forall m, (length (List.filter keep (map (at_id i drop_refreshnow) m)).*1 <= length (List.filter keep m).*1)%nat).
  { induction m as [|x m IH]; [done|]. cbn [map List.filter]. rewrite Hk.
    destruct (decide (i = x.1)), (keep x); cbn [fmap list_fmap length] in *; lia. }
  induction (below doc p) as [|x m IH]; [done|]. cbn [map List.filter]. rewrite Hk. destruct (decide (i = x.1)) as [Hi|Hi].
  - destruct (keep x); [intros [= _ <-]; apply Hle|exact IH].
  - destruct (keep x); [intros [= E _]; by destruct Hi|exact IH].
Qed.

(** The loop goes on until nothing waits. *)
Lemma onload_loop_ends fuel doc p :
  (length (waiting doc p) <= fuel)%nat -> waits_below doc p ->
  nothing_waits (onload_loop fuel doc p).2 /\ (onload_loop fuel doc p).1 = Ret tt.
Proof.
  assert (Hnil : forall p, waiting doc p = [] -> waits_below doc p -> nothing_waits p).
  { intros q Hq Hw x Hx Hb. destruct (Hw x Hx Hb) as (y & Hy & Hyb & _). unfold waiting, getElementsByClassName in Hq.
    apply fmap_nil_inv in Hq. apply (not_elem_of_nil y). rewrite <- Hq. apply list_elem_of_In, filter_In.
    split; [by apply list_elem_of_In|exact Hyb]. }
  revert p. induction fuel as [|fuel IH]; intros p Hf Hw.
  { split; [|done]. apply (Hnil p); [|done]. apply nil_length_inv. lia. }
  cbn [Pages.onload_loop]. rewrite bind_run, gets_run. fold (waiting doc p). destruct (waiting doc p) as [|i l] eqn:E; [by auto|].
  unfold change. rewrite bind_run, modify_run, bind_run.
  set (p1 := p <| roots := map (set_attributes i drop_refreshnow) (roots p) |>).
  destruct (page_fetch_roots i p1) as (f & Hfc & _ & Hr & Ho). destruct (page_fetch i p1) as [o p2]. cbn [fst snd] in *. subst o.
  assert (H1 : waits_below doc p1) by (apply (waits_set doc i drop_refreshnow p); [done|right; apply refreshnow_removed|done]).
  apply IH.
  - rewrite (waiting_set doc i f p1 p2 Hr (fun a => proj1 (Hfc a))). pose proof (waiting_drop doc i l p p1 eq_refl E). cbn in Hf. lia.
  - apply (waits_set doc i f p1); [done| |done]. left. intros a. by rewrite (proj1 (Hfc a)).
Qed.

Lemma page_updater_onload_ends doc p : waits_below doc p -> nothing_waits (page_updater_onload doc p).2.
Proof. intros Hw. unfold Pages.page_updater_onload. rewrite bind_run, gets_run. by apply onload_loop_ends. Qed.

Lemma nothing_waits_roots p p' : roots p' = roots p -> nothing_waits p -> nothing_waits p'.
Proof. unfold nothing_waits. by intros ->. Qed.

Lemma flatten_all_app l l' : flatten_all (l ++ l') = flatten_all l ++ flatten_all l'.
Proof. unfold flatten_all. by rewrite map_app, concat_app. Qed.

(** The old children of an element are in the page. *)
Lemma old_flatten el l x :
  x ∈ flatten_all (match find_in el l with Some (Element _ _ c) => c | None => [] end) -> x ∈ flatten_all l.
Proof.
  unfold flatten_all at 2. induction l as [|e l IH]; cbn; [by intros ?%elem_of_nil|]. rewrite elem_of_app.
  destruct (find_element el e) as [[i a c]|] eqn:E; [|by auto]. intros Hx. left. apply (find_flatten el e _ x E). by right.
Qed.

Lemma response_ends el url t p :
  after_last 46 url url <> codes "js" -> nothing_waits p -> nothing_waits (response el url t p).2.
Proof.
  intros Hu Hp. unfold Pages.response. rewrite bind_run, gets_run. cbn [id]. cbv zeta.
  set (old := match find_in el (roots p) with Some (Element _ _ l) => l | None => [] end).
  assert (Hold : forall x, x ∈ flatten_all old -> ~ refreshing x) by (intros x Hx; apply Hp; by apply (old_flatten el)).
  rewrite decide_False by done. rewrite bind_run, modify_run. destruct (number _ _) as [span next]. rewrite bind_run.
  set (p1 := setf _ _ _). assert (Hw : waits_below el p1).
  { intros x. change (roots p1) with (map (set_children el [span]) (roots p) ++ old). rewrite flatten_all_app, elem_of_app.
    intros [Hx|Hx] Hb; [|by destruct (Hold x Hx)].
    destruct (flatten_all_new _ _ _ _ Hx) as [Hx'|[Hx' Hs]]; [by destruct (Hp x Hx')|].
    exists x. split; [|done]. unfold below. change (roots p1) with (map (set_children el [span]) (roots p) ++ old).
    rewrite find_in_app, find_in_new. destruct Hs as [[i a c] ->]. exact Hx'. }
  pose proof (page_updater_onload_ends el p1 Hw) as H. destruct (page_updater_onload el p1) as [[[]|e] p2]; [|exact H].
  eapply nothing_waits_roots; [apply run_exec_roots|exact H].
Qed.

Lemma fetch_all_ends l p : nothing_waits p -> nothing_waits (fetch_all is_function window_function l p).2.
Proof.
  revert p. induction l as [|e l IH]; intros p Hp; [done|]. cbn [fetch_all]. rewrite bind_run.
  destruct (page_fetch_roots e p) as (f & Hf & _ & Hr & Ho). destruct (page_fetch e p) as [o p']. cbn [fst snd] in *. subst o.
  apply IH. apply (nothing_waits_set e f p); [done| |done]. intros a. by rewrite (proj1 (Hf a)).
Qed.

(** No script arrives. *)
Definition no_script p (i : input) : Prop :=
  forall n t el url, i = IResponse n t -> fetches p !! n = Some (Some (el, url)) -> after_last 46 url url <> codes "js".

Lemma handle_ends i p : no_script p i -> nothing_waits p -> nothing_waits (handle i p).2.
Proof.
  intros Hi Hp. unfold Pages.handle. rewrite bind_run, gets_run. cbn [id]. destruct i as [|n t|n|]; [| |done|done].
  - unfold when. destruct (page_timer p); [|done]. unfold page_updater. rewrite bind_run, gets_run. by apply fetch_all_ends.
  - destruct (fetches p !! n) as [[[el url]|]|] eqn:En; [|done|done]. rewrite bind_run, modify_run. unfold catch.
    match goal with |- context [response _ _ _ ?q] => pose proof (response_ends el url t q (Hi n t el url eq_refl En) Hp) as H;
      destruct (response el url t q) as [[[]|e] p'] end; exact H.
Qed.

(** *** What is asked for *)

(** The request of an element. *)
Definition request_of (i : nat) (a : option attributes) : list (option (nat * text)) :=
  match a ≫= a_src with Some ((_ :: _) as url) => [Some (i, url)] | _ => [] end.

Lemma run_function_fetches f el p : exists p', run_function f el p = (Ret tt, p') /\ roots p' = roots p /\ fetches p' = fetches p.
Proof.
  unfold Pages.run_function. rewrite Hnone. by eexists.
Qed.

Lemma attributes_set i j f p : attributes_at i (p <| roots := map (set_attributes j f) (roots p) |>)
  = (fun a => if decide (j = i) then f a else a) <$> attributes_at i p.
Proof.
  unfold attributes_at. change (roots (p <| roots := ?r |>)) with r. rewrite find_in_set.
  destruct (find_in i (roots p)) as [e|] eqn:E; [|done].
  assert (id_of e = i) as <-; [|by destruct e]. revert E. generalize (roots p). induction l as [|x l IH]; [done|]. cbn.
  destruct (find_element i x) eqn:Ex; [|exact IH]. intros [= ->]. by apply find_id in Ex.
Qed.

Lemma page_fetch_fetches i p : fetches (page_fetch i p).2 = fetches p ++ request_of i (attributes_at i p).
Proof.
  assert (Hrest : forall q, request_of i (attributes_at i q) = request_of i (attributes_at i p) -> fetches q = fetches p ->
    exists q', (a ← get_attributes i;
      match a ≫= a_src with
      | Some ((_ :: _) as url) => modify (fun p => p <| fetches := fetches p ++ [Some (i, url)] |>)
      | _ => run_exec i
      end) q = (Ret tt, q') /\ fetches q' = fetches p ++ request_of i (attributes_at i p)).
  { intros q <- <-. assert (Hex : exists q', run_exec i q = (Ret tt, q') /\ fetches q' = fetches q).
    { unfold Pages.run_exec. rewrite bind_run, get_attributes_run. destruct (_ ≫= a_exec) as [f|]; [|by eexists].
      destruct (run_function_fetches f i q) as (q' & -> & _ & Hf). by exists q'. }
    rewrite bind_run, get_attributes_run. unfold request_of.
    destruct (_ ≫= a_src) as [[|c url]|]; [|by eexists|]; rewrite app_nil_r; exact Hex. }
  unfold Pages.page_fetch. set (rest := (a ← get_attributes i; _) : M page unit) in *.
  unfold catch. rewrite bind_run, get_attributes_run, bind_run. destruct (_ ≫= a_preexec) as [f|].
  - rewrite bind_run. destruct (run_function_fetches f i p) as (q & -> & Hr & Hf). unfold change. rewrite modify_run.
    set (g := fun a => a <| a_preexec := Some [] |>).
    match goal with |- context [rest ?q] => destruct (Hrest q) as (q' & -> & H) end; [|exact Hf|exact H].
    rewrite (attributes_set i i g q). unfold attributes_at. rewrite Hr. destruct (find_in i (roots p)); [|done]. cbn.
    by rewrite decide_True.
  - change (skip p) with (Ret tt, p). destruct (Hrest p) as (q' & -> & H); [done|done|exact H].
Qed.

Definition ids doc p : list nat := (below doc p).*1.

(** The first that waits is taken away from those that wait. *)
Lemma waiting_next doc i l p p' :
  roots p' = map (set_attributes i drop_refreshnow) (roots p) -> NoDup (ids doc p) -> waiting doc p = i :: l -> waiting doc p' = l.
Proof.
  intros Hr. unfold waiting, getElementsByClassName, ids. rewrite (below_set doc i _ p p' Hr).
  set (keep := fun x : nat * attributes => has_class "refreshnow" (className x.2)).
  assert (Hk : forall x, keep (at_id i drop_refreshnow x) = if decide (i = x.1) then false else keep x).
  { intros x. unfold keep, at_id. cbn. destruct (decide _); [apply refreshnow_removed|done]. }
  assert (Hother : forall m, i ∉ m.*1 -> (List.filter keep (map (at_id i drop_refreshnow) m)).*1 = (List.filter keep m).*1).
  { induction m as [|x m IH]; [done|]. cbn [fmap list_fmap map List.filter]. intros [Hx Hm]%not_elem_of_cons. rewrite Hk, decide_False by done.
    destruct (keep x); [|by apply IH]. cbn. f_equal. by apply IH. }
  induction (below doc p) as [|x m IH]; [done|]. cbn [fmap list_fmap map List.filter]. rewrite NoDup_cons. intros [Hx Hm]. rewrite Hk.
  destruct (keep x) eqn:Ek.
  - intros [= Ei El]. rewrite decide_True by done. rewrite <- El. apply Hother. by rewrite <- Ei.
  - intros E. rewrite <- (IH Hm E). by destruct (decide (i = x.1)).
Qed.

Lemma ids_set doc i f p p' : roots p' = map (set_attributes i f) (roots p) -> ids doc p' = ids doc p.
Proof. intros Hr. unfold ids. rewrite (below_set doc i f p p' Hr). by induction (below doc p) as [|x m IH]; cbn; f_equal. Qed.

Lemma request_set i j f p :
  (forall a, a_src (f a) = a_src a) -> request_of i (attributes_at i (p <| roots := map (set_attributes j f) (roots p) |>))
    = request_of i (attributes_at i p).
Proof.
  intros Hf. rewrite attributes_set. unfold request_of. destruct (attributes_at i p) as [a|]; [|done]. cbn.
  destruct (decide _); [by rewrite Hf|done].
Qed.

Lemma onload_loop_fetches fuel doc p :
  (length (waiting doc p) <= fuel)%nat -> NoDup (ids doc p) ->
  fetches (onload_loop fuel doc p).2 = fetches p ++ concat (map (fun i => request_of i (attributes_at i p)) (waiting doc p)).
Proof.
  revert p. induction fuel as [|fuel IH]; intros p Hf Hn.
  { rewrite (nil_length_inv (waiting doc p)) by lia. by rewrite app_nil_r. }
  cbn [Pages.onload_loop]. rewrite bind_run, gets_run. fold (waiting doc p). destruct (waiting doc p) as [|i l] eqn:E;
    [by rewrite app_nil_r|].
  unfold change. rewrite bind_run, modify_run, bind_run.
  set (p1 := p <| roots := map (set_attributes i drop_refreshnow) (roots p) |>).
  pose proof (page_fetch_fetches i p1) as Hfetch. destruct (page_fetch_roots i p1) as (f & Hfc & _ & Hr & Ho).
  destruct (page_fetch i p1) as [o p2]. cbn [fst snd] in *. subst o.
  assert (E1 : waiting doc p1 = l) by (by apply (waiting_next doc i l p p1)).
  assert (E2 : waiting doc p2 = l) by (by rewrite (waiting_set doc i f p1 p2 Hr (fun a => proj1 (Hfc a)))).
  assert (Hsrc : forall j, request_of j (attributes_at j p2) = request_of j (attributes_at j p)).
  { intros j. transitivity (request_of j (attributes_at j p1)).
    - unfold attributes_at at 1. rewrite Hr. exact (request_set j i f p1 (fun a => proj2 (Hfc a))).
    - exact (request_set j i drop_refreshnow p (fun a => eq_refl)). }
  rewrite IH.
  - rewrite Hfetch, E2, <- app_assoc. cbn [map concat]. change (fetches p1) with (fetches p). do 2 f_equal.
    + exact (request_set i i drop_refreshnow p (fun a => eq_refl)).
    + f_equal. apply map_ext. exact Hsrc.
  - rewrite E2. cbn in Hf. lia.
  - rewrite (ids_set doc i f p1 p2 Hr), (ids_set doc i drop_refreshnow p p1 eq_refl). exact Hn.
Qed.

Lemma load_fetches l next :
  NoDup (flatten_all l).*1 -> 0%nat ∉ (flatten_all l).*1 ->
  fetches (load is_function window_function l next)
  = concat (map (fun x => if has_class "refreshnow" (className x.2) then request_of x.1 (Some x.2) else []) (flatten_all l)).
Proof.
  intros Hn H0. set (p0 := Page [Element 0 no_attributes l] next [] [] [] [] false).
  assert (Hb : below 0 p0 = flatten_all l) by done.
  unfold load, onload. fold p0. rewrite bind_run. unfold Pages.page_updater_onload. rewrite bind_run, gets_run. fold (waiting 0 p0).
  assert (Hw : waits_below 0 p0).
  { intros x. change (flatten_all (roots p0)) with ((0%nat, no_attributes) :: flatten_all l ++ []). rewrite app_nil_r.
    intros [->|Hx]%elem_of_cons Hr; [by vm_compute in Hr|]. exists x. by rewrite Hb. }
  pose proof (onload_loop_ends _ 0 p0 (Nat.le_refl _) Hw) as [_ Ho].
  pose proof (onload_loop_fetches _ 0 p0 (Nat.le_refl _) ltac:(unfold ids; by rewrite Hb)) as Hf.
  destruct (onload_loop _ 0 p0) as [o p]. cbn [fst snd] in *. subst o. rewrite modify_run. cbn [snd].
  change (fetches (p <| page_timer := true |>)) with (fetches p). rewrite Hf. cbn [fetches p0 app].
  unfold waiting, getElementsByClassName. rewrite Hb.
  assert (Hat : forall x, x ∈ flatten_all l -> attributes_at x.1 p0 = Some x.2).
  { intros [i a] Hx. unfold attributes_at, p0. cbn [roots fst snd].
    pose proof (find_unique i a (Element 0 no_attributes l)) as H. cbn [find_in]. destruct (find_element i _); apply H; cbn;
      try (by right); by apply NoDup_cons. }
  revert Hat. generalize (flatten_all l). clear. intros m.
  induction m as [|x m IH]; intros Hat; [done|]. cbn [List.filter map concat].
  rewrite <- IH by (intros y Hy; apply Hat; by right). destruct (has_class "refreshnow" (className x.2)); [|done].
  cbn [fmap list_fmap map concat]. by rewrite Hat by (by left).
Qed.

Lemma load_ends l next : nothing_waits (load is_function window_function l next).
Proof.
  unfold load, onload. rewrite bind_run. set (p0 := Page _ _ _ _ _ _ _).
  pose proof (page_updater_onload_ends 0 p0) as H. destruct (page_updater_onload 0 p0) as [[[]|e] p]; apply H.
  all: intros x; change (flatten_all (roots p0)) with ((0%nat, no_attributes) :: flatten_all l ++ []); rewrite app_nil_r.
  all: intros [->|Hx]%elem_of_cons Hr; [by vm_compute in Hr|]; by exists x.
Qed.

End Loading.

(** ** Pages that name no function

    Where the attributes of a page name no function of the window it does as if
    there were none. *)

Section Plain.
Import Pages.
Context (is_function : text -> bool) (window_function : text -> nat -> M page unit).
Context (run_script : text -> M page unit) (parse : text -> list html).
Context (Hempty : is_function [] = false).
Implicit Types (p : page) (a : attributes).
Abbreviation none := (fun _ : text => false).

Definition plain a : Prop :=
  (forall f, a_preexec a = Some f -> is_function f = false) /\ (forall f, a_exec a = Some f -> is_function f = false).
Definition plain_page p : Prop := Forall (fun x => plain x.2) (flatten_all (roots p)).

Fixpoint html_attributes (h : html) : list attributes := let 'Html a l := h in a :: concat (map html_attributes l).

Lemma html_ind' (P : html -> Prop) : (forall a l, Forall P l -> P (Html a l)) -> forall h, P h.
Proof. intros H. fix IH 1. intros [a l]. apply H. induction l as [|h l IHl]; constructor; [apply IH|exact IHl]. Qed.

Lemma number_attributes h n : (flatten (number n h).1).*2 = html_attributes h.
Proof.
  revert n. induction h as [a l IH] using html_ind'. intros n. cbn [number html_attributes].
  set (go := fix go n l := match l with [] => ([], n) | h :: l => let '(e, n) := number n h in let '(l, n) := go n l in (e :: l, n) end).
  assert (H : forall n, (flatten_all (go n l).1).*2 = concat (map html_attributes l)).
  { unfold flatten_all. induction IH as [|h l Hh _ IHl]; intros m; [done|]. cbn. specialize (Hh m). destruct (number m h) as [e k].
    specialize (IHl k). fold go. destruct (go k l) as [l' k']. cbn in *. by rewrite fmap_app, Hh, IHl. }
  specialize (H (S n)). destruct (go (S n) l) as [l' m]. cbn in *. by f_equal.
Qed.

(** The same, and the page stays plain. *)
Definition agrees {A} (m m0 : M page A) : Prop := forall p, plain_page p -> m p = m0 p /\ plain_page (m0 p).2.

Lemma agrees_same {A} (m : M page A) : keeps plain_page m -> agrees m m.
Proof. intros H p Hp. split; [done|by apply H]. Qed.

Lemma agrees_roots {A} (m : M page A) : (forall p, roots (m p).2 = roots p) -> agrees m m.
Proof. intros H. apply agrees_same. intros p Hp. unfold plain_page. by rewrite H. Qed.

Lemma agrees_bind {A B} (m m0 : M page A) (k k0 : A -> M page B) :
  agrees m m0 -> (forall x, agrees (k x) (k0 x)) -> agrees (m ≫= k) (m0 ≫= k0).
Proof.
  intros Hm Hk p Hp. destruct (Hm p Hp) as [E H]. rewrite !bind_run, E. destruct (m0 p) as [[x|e] p']; [by apply Hk|done].
Qed.

Lemma agrees_catch {A} (m m0 : M page A) h : agrees m m0 -> (forall e, keeps plain_page (h e)) -> agrees (catch m h) (catch m0 h).
Proof.
  intros Hm Hh p Hp. destruct (Hm p Hp) as [E H]. unfold catch. rewrite E. destruct (m0 p) as [[x|e] p']; [done|].
  split; [done|by apply Hh].
Qed.

Lemma attributes_plain i p a : plain_page p -> attributes_at i p = Some a -> plain a.
Proof.
  unfold attributes_at. intros Hp E. destruct (find_in i (roots p)) as [e|] eqn:Ee; [|done]. injection E as <-.
  apply find_in_flatten in Ee. unfold plain_page in Hp. rewrite Forall_forall in Hp. exact (Hp _ Ee).
Qed.

Lemma plain_set i f p p' :
  roots p' = map (set_attributes i f) (roots p) -> (forall a, plain a -> plain (f a)) -> plain_page p -> plain_page p'.
Proof.
  unfold plain_page. intros -> Hf Hp. rewrite flatten_all_set. apply Forall_fmap. eapply Forall_impl; [exact Hp|].
  intros x Hx. unfold compose, at_id. cbn. destruct (decide _); auto.
Qed.

Lemma plain_called a : plain a -> plain (called a).
Proof. intros [H1 H2]. split; [by intros f [= <-]|exact H2]. Qed.

Lemma run_function_eq f el p :
  is_function f = false -> run_function is_function window_function f el p = run_function none window_function f el p.
Proof. unfold run_function. by intros ->. Qed.

Lemma run_exec_agrees el : agrees (run_exec is_function window_function el) (run_exec none window_function el).
Proof.
  intros p Hp. split; [|unfold plain_page; by rewrite (run_exec_roots none window_function (fun _ => eq_refl))].
  unfold run_exec. rewrite !bind_run, get_attributes_run. destruct (attributes_at el p) as [a|] eqn:Ea; [|done].
  cbn [mbind option_bind]. destruct (a_exec a) as [f|] eqn:Ef; [|done]. apply run_function_eq.
  by apply (attributes_plain el p a Hp Ea).
Qed.

Lemma page_fetch_agrees el : agrees (page_fetch is_function window_function el) (page_fetch none window_function el).
Proof.
  intros p Hp. split.
  2: { destruct (page_fetch_roots none window_function (fun _ => eq_refl) el p) as (f & _ & Hf & Hr & _).
    apply (plain_set el f p); [done| |done]. destruct Hf as [->| ->]; [done|apply plain_called]. }
  assert (Hrest : agrees
    (a ← get_attributes el; match a ≫= a_src with
      | Some ((_ :: _) as url) => modify (fun p => p <| fetches := fetches p ++ [Some (el, url)] |>)
      | _ => run_exec is_function window_function el end)
    (a ← get_attributes el; match a ≫= a_src with
      | Some ((_ :: _) as url) => modify (fun p => p <| fetches := fetches p ++ [Some (el, url)] |>)
      | _ => run_exec none window_function el end)).
  { apply agrees_bind; [by apply agrees_roots|]. intros a. destruct (a ≫= a_src) as [[|c url]|];
      [apply run_exec_agrees|by apply agrees_roots|apply run_exec_agrees]. }
  unfold page_fetch, catch. rewrite !bind_run, !get_attributes_run, !bind_run.
  destruct (attributes_at el p ≫= a_preexec) as [f|] eqn:Ef.
  - rewrite !bind_run. destruct (attributes_at el p) as [a|] eqn:Ea; [|done]. cbn in Ef.
    rewrite run_function_eq by (exact (proj1 (attributes_plain el p a Hp Ea) f Ef)).
    unfold run_function, change. rewrite !modify_run.
    match goal with |- context [_ (?q <| roots := ?r |>)] => destruct (Hrest (q <| roots := r |>)) as [-> _]; [|done] end.
    by apply (plain_set el called p); [|apply plain_called|].
  - change (skip p) with (Ret tt, p). by destruct (Hrest p Hp) as [-> _].
Qed.

Lemma plain_drop a : plain a -> plain (drop_refreshnow a).
Proof. by intros [H1 H2]. Qed.

Lemma onload_loop_agrees fuel doc :
  agrees (onload_loop is_function window_function fuel doc) (onload_loop none window_function fuel doc).
Proof.
  induction fuel as [|fuel IH]; [by apply agrees_roots|]. cbn [onload_loop].
  apply agrees_bind; [by apply agrees_roots|]. intros [|i l]; [by apply agrees_roots|].
  apply agrees_bind; [|intros _; apply agrees_bind; [apply page_fetch_agrees|done]].
  apply agrees_same, keeps_modify. intros p Hp. by apply (plain_set i drop_refreshnow p); [|apply plain_drop|].
Qed.

Lemma updater_onload_agrees doc :
  agrees (page_updater_onload is_function window_function doc) (page_updater_onload none window_function doc).
Proof. apply agrees_bind; [by apply agrees_roots|]. intros l. apply onload_loop_agrees. Qed.

Lemma fetch_all_agrees l : agrees (fetch_all is_function window_function l) (fetch_all none window_function l).
Proof.
  induction l as [|e l IH]; [by apply agrees_roots|]. apply agrees_bind; [apply page_fetch_agrees|done].
Qed.

(** A page of plain elements, and what may come to it: no script, and HTML of plain
    elements. *)
Definition quiet p (i : input) : Prop :=
  no_script p i /\ forall n t, i = IResponse n t -> Forall plain (concat (map html_attributes (parse t))).

Lemma plain_new el p span next :
  Forall plain (flatten span).*2 -> plain_page p ->
  plain_page (p <| roots := map (set_children el [span]) (roots p)
    ++ match find_in el (roots p) with Some (Element _ _ l) => l | None => [] end |> <| next_id := next |>).
Proof.
  unfold plain_page. intros Hs Hp. rewrite Forall_forall in Hp |- *. intros x.
  match goal with |- x ∈ flatten_all (roots ?q) -> _ => change (roots q) with (map (set_children el [span]) (roots p)
    ++ match find_in el (roots p) with Some (Element _ _ l) => l | None => [] end) end.
  rewrite flatten_all_app, elem_of_app. intros [Hx|Hx]; [|by apply Hp, (old_flatten el)].
  destruct (flatten_all_new _ _ _ _ Hx) as [Hx'|[Hx' _]]; [by apply Hp|].
  cbn in Hx'. rewrite app_nil_r in Hx'. rewrite Forall_fmap, Forall_forall in Hs. by apply Hs.
Qed.

Lemma handle_agrees i p :
  quiet p i -> plain_page p ->
  handle is_function window_function run_script parse i p = handle none window_function run_script parse i p
  /\ plain_page (handle none window_function run_script parse i p).2.
Proof.
  intros [Hi Hh] Hp. unfold handle. rewrite !bind_run, !gets_run. cbn [id]. destruct i as [|n t|n|]; [| |done|done].
  - unfold when. destruct (page_timer p); [|done]. unfold page_updater. rewrite !bind_run, !gets_run. by apply fetch_all_agrees.
  - destruct (fetches p !! n) as [[[el url]|]|] eqn:En; [|done|done]. rewrite !bind_run, !modify_run.
    set (p1 := setf _ _ _). assert (Hp1 : plain_page p1) by done. revert p1 Hp1. intros p1 Hp1.
    specialize (Hh n t eq_refl). specialize (Hi n t el url eq_refl En).
    enough (H : agrees (response is_function window_function run_script parse el url t)
      (response none window_function run_script parse el url t)) by (by exact (agrees_catch _ _ (fun _ => skip) H (fun _ q Hq => Hq) p1 Hp1)).
    clear p p1 Hp Hp1 En. intros p Hp. unfold response. rewrite !bind_run, !gets_run. cbn [id]. cbv zeta. rewrite !decide_False by done.
    rewrite !bind_run, !modify_run. pose proof (number_attributes (Html no_attributes (parse t)) (next_id p)) as Hn.
    destruct (number _ _) as [span next]. cbn [fst] in Hn.
    assert (Hs : Forall plain (flatten span).*2) by (rewrite Hn; constructor; [done|exact Hh]).
    pose proof (plain_new el p span next Hs Hp) as Hp1. revert Hp1. set (p1 := setf _ _ _). intros Hp1.
    assert (H : agrees (page_updater_onload is_function window_function el;; run_exec is_function window_function el)
      (page_updater_onload none window_function el;; run_exec none window_function el)).
    { apply agrees_bind; [apply updater_onload_agrees|]. intros _. apply run_exec_agrees. }
    exact (H p1 Hp1).
Qed.

Lemma load_agrees l next :
  Forall (fun x => plain x.2) (flatten_all l) ->
  load is_function window_function l next = load none window_function l next /\ plain_page (load none window_function l next).
Proof.
  intros Hl. unfold load. set (p0 := Page _ _ _ _ _ _ _).
  assert (Hp : plain_page p0).
  { unfold plain_page. change (flatten_all (roots p0)) with ((0%nat, no_attributes) :: flatten_all l ++ []). rewrite app_nil_r.
    by constructor. }
  assert (H : agrees (onload is_function window_function) (onload none window_function)).
  { apply agrees_bind; [apply updater_onload_agrees|]. intros _. by apply agrees_roots. }
  by destruct (H p0 Hp) as [-> ?].
Qed.

(** Steps in which only such responses come. *)
Definition quiet_step p p' : Prop :=
  exists i, quiet p i /\ p' = (handle is_function window_function run_script parse i p).2.

End Plain.

(** ** Properties *)

Section Properties.
Import Pages.
Context (is_function : text -> bool) (window_function : text -> nat -> M page unit).
Context (run_script : text -> M page unit) (parse : text -> list html).

(** [C37] Loading, of a page without code of its own: no attribute [preexec] or [exec],
    of the page or of what comes with a response, names a function of the window, and
    no address with a response ends in ".js" (such code could do anything; the pages
    of the server have none).  When the page has been loaded, each element of class
    "refreshnow" with an address has been asked for exactly once, in the order of the
    document; and from then on, whatever responses come in whatever order, with
    whatever elements, and however often the timer runs, no element is left waiting:
    not in the document, nor in what was taken out of it. *)
Theorem refreshed_once (l : list element) (next : nat) :
  is_function [] = false -> Forall (fun x => plain is_function x.2) (flatten_all l) ->
  NoDup (flatten_all l).*1 -> 0%nat ∉ (flatten_all l).*1 ->
  fetches (load is_function window_function l next)
    = concat (map (fun x => if has_class "refreshnow" (className x.2) then request_of x.1 (Some x.2) else []) (flatten_all l))
  /\ forall p, rtc (quiet_step is_function window_function run_script parse) (load is_function window_function l next) p ->
       nothing_waits p.
Proof.
  intros He Hl Hn H0. destruct (load_agrees is_function window_function He l next Hl) as [-> Hp]. split; [by apply load_fetches|].
  intros p Hs. pose proof (load_ends (fun _ => false) window_function (fun _ => eq_refl) l next) as H. revert Hp H.
  induction Hs as [p|p p' p'' (i & Hi & ->) _ IH]; intros Hp H; [done|].
  destruct (handle_agrees is_function window_function run_script parse He i p Hi Hp) as [E Hp']. rewrite E in IH.
  apply IH; [exact Hp'|]. apply handle_ends; [done|exact (proj1 Hi)|exact H].
Qed.

End Properties.

(** ** Examples *)

Section Examples.
Import Pages.

(** The page desktop.php, with a second element in its place. *)
Definition sessions (i : nat) (preexec : option text) : element :=
  Element i (Attributes (codes "autorefresh refreshnow") preexec (Some (codes "sessions.php")) None) [].
Definition desktop : list element :=
  [Element 1 no_attributes [sessions 2 None]; Element 3 (Attributes (codes "refreshnow") None (Some (codes "a.js")) None) []].
Abbreviation after := (fold_left (fun p i => (handle (fun _ => false) (fun _ _ => skip) (fun _ => skip)
  (fun t => [Html (Attributes (codes "x refreshnow") None (Some t) None) []]) i p).2)).
Abbreviation load := (load (fun _ => false) (fun _ _ => skip)).

Lemma refreshed_once_witness :
  fetches (load desktop 4) = [Some (2%nat, codes "sessions.php"); Some (3%nat, codes "a.js")].
Proof.
  rewrite (proj1 (refreshed_once (fun _ => false) (fun _ _ => skip) (fun _ => skip) (fun _ => []) desktop 4
    eq_refl ltac:(by repeat constructor) ltac:(by apply (bool_decide_unpack _)) ltac:(by apply (bool_decide_unpack _)))).
  vm_compute. reflexivity.
Defined.

(** Responses are taken as they come: an old one replaces a newer. *)
Example stale_response :
  let p := after [ITimer; IResponse 2 (codes "new.html"); IResponse 0 (codes "old.html")] (load desktop 4) in
  fetches p = [None; Some (3%nat, codes "a.js"); None; Some (5%nat, codes "new.html"); Some (7%nat, codes "old.html")]
  /\ (id_of <$> find_in 7 (roots p)) = Some 7%nat
  /\ (map id_of <$> (children_of <$> find_in 2 (roots p))) = Some [6%nat].
Proof. vm_compute. done. Qed.

(** A function that was called before the first load is looked up again, by an empty
    name, at each refresh. *)
Example empty_name :
  not_found (after [ITimer; ITimer] (load [sessions 1 (Some (codes "prepare"))] 2)) = [codes "prepare"; []; []].
Proof. vm_compute. reflexivity. Qed.

(** A tablet with Android says that it is Linux. *)
Example android : getOS (codes "Mozilla/5.0 (Linux; Android 9)") (codes "Linux armv8l") = Some "Android"%string.
Proof. vm_compute. reflexivity. Qed.

(** "refreshnow" is taken out of other names too. *)
Example class_names : className (drop_refreshnow (Attributes (codes "x-refreshnow refreshnow refreshnows") None None None))
  = codes "x-  refreshnows".
Proof. vm_compute. reflexivity. Qed.

End Examples.
