(* ===== verification/Rfb.v ===== *)
(** * The RFB session of noVNC
    (src/ControlServer/web/www/novnc/core/rfb.js and encodings.js)

    The record [rfb] holds the fields of an [RFB] object and, in [r_dec], its
    socket, display and decoders.  Every method is a method in [M (rfb ZS)].  What
    the page around it sees is logged in [r_events]; the DOM is the flags
    [r_attached] and [r_grabbed].  The [action]s are what can happen to the
    object: timers, socket events, input and calls of its public methods. *)

From S2P Require Import Prelude Websock Messages Display Decoders Strings Keys Des.

Module Rfb.
Import Websock Messages Display Decoders Strings Keys Des.
Local Open Scope js_scope.

(** ** encodings.js *)

Definition encodingRaw : Z := 0.
Definition encodingCopyRect : Z := 1.
Definition encodingRRE : Z := 2.
Definition encodingHextile : Z := 5.
Definition encodingTight : Z := 7.
Definition encodingTightPNG : Z := -260.
Definition pseudoEncodingQualityLevel0 : Z := -32.
Definition pseudoEncodingDesktopSize : Z := -223.
Definition pseudoEncodingLastRect : Z := -224.
Definition pseudoEncodingCursor : Z := -239.
Definition pseudoEncodingQEMUExtendedKeyEvent : Z := -258.
Definition pseudoEncodingExtendedDesktopSize : Z := -308.
Definition pseudoEncodingXvp : Z := -309.
Definition pseudoEncodingFence : Z := -312.
Definition pseudoEncodingContinuousUpdates : Z := -313.
Definition pseudoEncodingCompressLevel0 : Z := -256.

(** ** State *)

(** [_rfb_connection_state]; [New] is the empty string. *)
Inductive conn := New | Connecting | Connected | Disconnecting | Disconnected.
#[export] Instance conn_eq_dec : EqDecision conn.
Proof. solve_decision. Defined.

(** [_rfb_init_state]; [NoInit] is the empty string. *)
Inductive init_state := NoInit | ProtocolVersion | Security | Authentication | SecurityResult
  | SecurityReason | ClientInitialisation | ServerInitialisation.
#[export] Instance init_state_eq_dec : EqDecision init_state.
Proof. solve_decision. Defined.

(** What the object dispatches. *)
Inductive event :=
  | EConnect
  | EDisconnect (clean : bool)
  | ESecurityFailure (status : Z) (reason : option (list Z))
  | ECredentialsRequired (types : list string)
  | EDesktopName (name : list Z)
  | EClipboard (text : list Z)
  | EBell
  | ECapabilities (power : bool).

(** [_FBU] *)
Record fbu := Fbu { u_rects : Z; u_x : Z; u_y : Z; u_width : Z; u_height : Z; u_encoding : option Z }.
#[export] Instance eta_fbu : Eta fbu := fun u =>
  Fbu (u_rects u) (u_x u) (u_y u) (u_width u) (u_height u) (u_encoding u).

Record cursor := Cursor { ci_rgba : list Z; ci_hotx : Z; ci_hoty : Z; ci_w : Z; ci_h : Z }.

(** [RFB.cursors] *)
Definition cursor_none : cursor := Cursor [] 0 0 0 0.
Definition cursor_dot : cursor := Cursor
  [ 255; 255; 255; 255;   0;   0;   0; 255; 255; 255; 255; 255;
      0;   0;   0; 255;   0;   0;   0;   0;   0;   0;   0; 255;
    255; 255; 255; 255;   0;   0;   0; 255; 255; 255; 255; 255 ] 1 1 3 3.

Record mouse := Mouse {
  m_buttonMask : Z; m_viewportDragging : bool; m_viewportDragPos : double * double;
  m_viewportHasMoved : bool }.
#[export] Instance eta_mouse : Eta mouse := fun m =>
  Mouse (m_buttonMask m) (m_viewportDragging m) (m_viewportDragPos m) (m_viewportHasMoved m).

(** The options and properties the owner sets; a credential that is missing is
    the empty string. *)
Record options := Options {
  o_viewOnly : bool; o_clipViewport : bool; o_scaleViewport : bool; o_resizeSession : bool;
  o_showDotCursor : bool; o_dragViewport : bool; o_shared : bool; o_repeaterID : list Z;
  o_username : list Z; o_password : list Z; o_cred_target : list Z }.
#[export] Instance eta_options : Eta options := fun o =>
  Options (o_viewOnly o) (o_clipViewport o) (o_scaleViewport o) (o_resizeSession o)
    (o_showDotCursor o) (o_dragViewport o) (o_shared o) (o_repeaterID o)
    (o_username o) (o_password o) (o_cred_target o).

(** [_rfb_version] is kept in tenths: 33, 37 or 38. *)
Record rfb (ZS : Type) := Rfb {
  r_dec : decoding ZS;
  r_conn : conn;
  r_init : init_state;
  r_auth_scheme : Z;
  r_clean_disconnect : bool;
  r_version : Z;
  r_max_version : Z;
  r_tightvnc : bool;
  r_xvp_ver : Z;
  r_fb_width : Z;
  r_fb_height : Z;
  r_fb_depth : Z;
  r_fb_name : list Z;
  r_power : bool;
  r_supportsFence : bool;
  r_supportsContinuousUpdates : bool;
  r_enabledContinuousUpdates : bool;
  r_supportsSetDesktopSize : bool;
  r_screen_id : screen_field;
  r_screen_flags : screen_field;
  r_qemuExtKeyEventSupported : bool;
  r_flushing : bool;
  r_FBU : fbu;
  r_mouse : mouse;
  r_options : options;
  r_security_status : Z;
  r_disconnTimer : bool;
  r_resizeTimeout : bool;
  r_frames : nat;               (* animation frames asked for *)
  r_initTimers : nat;           (* timers that call _init_msg *)
  r_on_open : bool;             (* the handlers of the socket's events *)
  r_on_message : bool;
  r_on_close : bool;
  r_attached : bool;            (* _screen is in the page, the listeners are on *)
  r_grabbed : bool;             (* keyboard and mouse *)
  r_cursor_target : bool;       (* the cursor object has a target *)
  r_cursorImage : cursor;
  r_cursor_shown : option cursor;
  r_events : list event }.
Arguments Rfb {ZS}.
Arguments r_dec {ZS} _.
Arguments r_conn {ZS} _.
Arguments r_init {ZS} _.
Arguments r_auth_scheme {ZS} _.
Arguments r_clean_disconnect {ZS} _.
Arguments r_version {ZS} _.
Arguments r_max_version {ZS} _.
Arguments r_tightvnc {ZS} _.
Arguments r_xvp_ver {ZS} _.
Arguments r_fb_width {ZS} _.
Arguments r_fb_height {ZS} _.
Arguments r_fb_depth {ZS} _.
Arguments r_fb_name {ZS} _.
Arguments r_power {ZS} _.
Arguments r_supportsFence {ZS} _.
Arguments r_supportsContinuousUpdates {ZS} _.
Arguments r_enabledContinuousUpdates {ZS} _.
Arguments r_supportsSetDesktopSize {ZS} _.
Arguments r_screen_id {ZS} _.
Arguments r_screen_flags {ZS} _.
Arguments r_qemuExtKeyEventSupported {ZS} _.
Arguments r_flushing {ZS} _.
Arguments r_FBU {ZS} _.
Arguments r_mouse {ZS} _.
Arguments r_options {ZS} _.
Arguments r_security_status {ZS} _.
Arguments r_disconnTimer {ZS} _.
Arguments r_resizeTimeout {ZS} _.
Arguments r_frames {ZS} _.
Arguments r_initTimers {ZS} _.
Arguments r_on_open {ZS} _.
Arguments r_on_message {ZS} _.
Arguments r_on_close {ZS} _.
Arguments r_attached {ZS} _.
Arguments r_grabbed {ZS} _.
Arguments r_cursor_target {ZS} _.
Arguments r_cursorImage {ZS} _.
Arguments r_cursor_shown {ZS} _.
Arguments r_events {ZS} _.

#[export] Instance eta_rfb {ZS} : Eta (rfb ZS) := fun r =>
  Rfb (r_dec r) (r_conn r) (r_init r) (r_auth_scheme r) (r_clean_disconnect r) (r_version r)
    (r_max_version r) (r_tightvnc r) (r_xvp_ver r) (r_fb_width r) (r_fb_height r) (r_fb_depth r)
    (r_fb_name r) (r_power r) (r_supportsFence r) (r_supportsContinuousUpdates r)
    (r_enabledContinuousUpdates r) (r_supportsSetDesktopSize r) (r_screen_id r) (r_screen_flags r)
    (r_qemuExtKeyEventSupported r) (r_flushing r) (r_FBU r) (r_mouse r) (r_options r)
    (r_security_status r) (r_disconnTimer r) (r_resizeTimeout r) (r_frames r) (r_initTimers r)
    (r_on_open r) (r_on_message r) (r_on_close r) (r_attached r) (r_grabbed r) (r_cursor_target r) (r_cursorImage r)
    (r_cursor_shown r) (r_events r).

(** The socket, inside the decoders. *)
Definition r_sock {ZS} (r : rfb ZS) : sock := dc_sock (r_dec r).
#[export] Instance setter_r_sock {ZS} : Setter (r_sock (ZS := ZS)) := fun f r =>
  r <| r_dec := (r_dec r) <| dc_sock := f (r_sock r) |> |>.

Section Rfb.
(** The browser: image metadata, a software cursor, the size of the screen
    element, the drag threshold, keyboard events with codes, and the addresses
    [WebSocket] accepts; and pako. *)
Context (supportsImageMetadata useFallback : bool) (screenSize : double * double)
  (dragThreshold : double) (keyEventsHaveCode accepted : bool).
Context (ZS : Type) (inflateInit : ZS) (inflateReset : ZS -> ZS)
  (pako_inflate : ZS -> list Z -> Z -> ZS * list Z).

Abbreviation rfb := (rfb ZS).

Definition on_sock_ {A} (m : M sock A) : M rfb A := zoom r_sock m.
Definition on_dec {A} (m : M (decoding ZS) A) : M rfb A := zoom r_dec m.
Definition on_disp {A} (m : bool -> heap -> M display A) : M rfb A :=
  on_dec (on_display supportsImageMetadata ZS m).
Definition dispatchEvent (e : event) : M rfb unit := modify (fun r => r <| r_events := r_events r ++ [e] |>).
Definition option_ {A} (f : options -> A) : M rfb A := gets (fun r => f (r_options r)).

(** ** The cursor (util/cursor.js) *)

Definition cursor_clear : M rfb unit :=
  t ← gets r_cursor_target;
  if (t : bool) then modify (fun r => r <| r_cursor_shown := None |>) else throw TypeError.

Definition cursor_detach : M rfb unit :=
  t ← gets r_cursor_target;
  if useFallback && negb t then throw TypeError
  else modify (fun r => r <| r_cursor_target := false |>).

Definition cursor_attach : M rfb unit :=
  t ← gets r_cursor_target;
  when t cursor_detach;;
  modify (fun r => r <| r_cursor_target := true |>);;
  cursor_clear.

Definition cursor_change (c : cursor) : M rfb unit :=
  if (ci_w c =? 0) || (ci_h c =? 0) then cursor_clear
  else
    modify (fun r => r <| r_cursor_shown := Some c |>);;
    t ← gets r_cursor_target;
    if useFallback || t then skip else throw TypeError.

(** Is some pixel not fully transparent? *)
Fixpoint visible (rgba : list Z) : bool :=
  match rgba with
  | _ :: _ :: _ :: a :: rgba => negb (a =? 0) || visible rgba
  | _ => false
  end.

Definition shouldShowDotCursor (r : rfb) : bool :=
  if negb (o_showDotCursor (r_options r)) then false else negb (visible (ci_rgba (r_cursorImage r))).

Definition refreshCursor : M rfb unit :=
  r ← gets id; cursor_change (if shouldShowDotCursor r then cursor_dot else r_cursorImage r).

Definition updateCursor (c : cursor) : M rfb unit :=
  modify (fun r => r <| r_cursorImage := c |>);; refreshCursor.

(** ** Connection states *)

Definition allowed (oldstate state : conn) : bool :=
  match state with
  | Connected => bool_decide (oldstate = Connecting)
  | Disconnected => bool_decide (oldstate = Disconnecting)
  | Connecting => bool_decide (oldstate = New)
  | Disconnecting => bool_decide (oldstate = Connected) || bool_decide (oldstate = Connecting)
  | New => false
  end.

(** [_disconnect] *)
Definition disconnect_ : M rfb unit :=
  cursor_detach;;
  modify (fun r => r <| r_grabbed := false |>);;
  on_sock_ close;;
  modify (fun r => r <| r_attached := false |> <| r_resizeTimeout := false |>).

(** [_updateConnectionState]; [connect] is [_connect], which only the transition
    to 'connecting' reaches. *)
Definition transition (connect : M rfb unit) (state : conn) : M rfb unit :=
  oldstate ← gets r_conn;
  if decide (state = oldstate) then skip
  else if decide (oldstate = Disconnected) then skip
  else if negb (allowed oldstate state) then skip
  else
    modify (fun r => r <| r_conn := state |>);;
    timer ← gets r_disconnTimer;
    when (timer && negb (bool_decide (state = Disconnecting)))
      (modify (fun r => r <| r_disconnTimer := false |> <| r_on_close := false |>));;
    match state with
    | Connecting => connect
    | Connected => dispatchEvent EConnect
    | Disconnecting => disconnect_;; modify (fun r => r <| r_disconnTimer := true |>)
    | Disconnected => clean ← gets r_clean_disconnect; dispatchEvent (EDisconnect clean)
    | New => skip
    end.

(** [_fail], which answers [false] *)
Definition fail : M rfb bool :=
  modify (fun r => r <| r_clean_disconnect := false |>);;
  transition skip Disconnecting;;
  transition skip Disconnected;;
  mret false.

(** [_connect] *)
Definition connect_ : M rfb unit :=
  catch (on_sock_ (Websock.open accepted)) (fun _ => fail;; skip);;
  modify (fun r => r <| r_attached := true |>);;
  cursor_attach;;
  refreshCursor.

Definition updateConnectionState (state : conn) : M rfb unit := transition connect_ state.

(** ** The display *)

Definition updateClip : M rfb unit :=
  cur_clip ← gets (fun r => d_clipViewport (dc_display (r_dec r)));
  clip ← option_ o_clipViewport; scale ← option_ o_scaleViewport;
  let new_clip := if (scale : bool) then false else clip in
  when (negb (Bool.eqb cur_clip new_clip)) (on_disp (fun b h => set_clipViewport b h new_clip));;
  when new_clip
    (on_disp (fun b h => viewportChangeSize b h (dbl_floor screenSize.1) (dbl_floor screenSize.2))).

Definition updateScale : M rfb unit :=
  scale ← option_ o_scaleViewport;
  if negb scale then on_disp (fun _ _ => rescale (dbl_of_Z 1))
  else on_disp (fun _ _ => autoscale screenSize.1 screenSize.2).

Definition updateContinuousUpdates : M rfb unit :=
  r ← gets id;
  if negb (r_enabledContinuousUpdates r) then skip
  else on_sock_ (enableContinuousUpdates true 0 0 (r_fb_width r) (r_fb_height r)).

Definition resize_ (width height : Z) : M rfb unit :=
  modify (fun r => r <| r_fb_width := width |> <| r_fb_height := height |>);;
  on_disp (fun b h => Display.resize b h width height);;
  updateClip;;
  updateScale;;
  updateContinuousUpdates.

Definition requestRemoteResize : M rfb unit :=
  modify (fun r => r <| r_resizeTimeout := false |>);;
  r ← gets id;
  if negb (o_resizeSession (r_options r)) || o_viewOnly (r_options r) || negb (r_supportsSetDesktopSize r)
  then skip
  else on_sock_ (setDesktopSize (dbl_floor screenSize.1) (dbl_floor screenSize.2)
                   (r_screen_id r) (r_screen_flags r)).

(** ** Handshake

    The negotiation steps end in [_init_msg] again, [init_msg] here. *)

Section Handshake.
Context (init_msg : M rfb bool).

Definition set_init (i : init_state) : M rfb unit := modify (fun r => r <| r_init := i |>).

Inductive server_version := Repeater | Version (tenths : Z) | Unknown.

Definition parse_version (sversion : list Z) : server_version :=
  if decide (sversion = codes "000.000") then Repeater
  else if decide (sversion ∈ [codes "003.003"; codes "003.006"; codes "003.889"]) then Version 33
  else if decide (sversion = codes "003.007") then Version 37
  else if decide (sversion ∈ [codes "003.008"; codes "004.000"; codes "004.001"; codes "005.000"])
       then Version 38
  else Unknown.

Definition negotiate_protocol_version : M rfb bool :=
  wait ← on_sock_ (rQwait 12 0);
  if (wait : bool) then mret false
  else
    s ← on_sock_ (rQshiftStr (Some 12));
    match parse_version (take 7 (drop 4 s)) with
    | Unknown => fail
    | Repeater =>
        id ← option_ o_repeaterID;
        let repeaterID := codes "ID:" ++ id in
        on_sock_ (send_string (repeaterID ++ replicate (250 - length repeaterID) 0));;
        mret true
    | Version v =>
        modify (fun r => r <| r_version := if r_max_version r <? v then r_max_version r else v |>);;
        v ← gets r_version;
        on_sock_ (send_string
          (codes "RFB 00" ++ [48 + v / 10] ++ codes ".00" ++ [48 + v mod 10; 10]));;
        set_init Security;;
        mret false
    end.

Definition set_auth_scheme (n : Z) : M rfb unit := modify (fun r => r <| r_auth_scheme := n |>).

Definition negotiate_security : M rfb bool :=
  version ← gets r_version;
  if 37 <=? version then
    num_types ← on_sock_ rQshift8;
    wait ← on_sock_ (rQwait num_types 1);
    if (wait : bool) then mret false
    else if num_types =? 0 then
      set_init SecurityReason;;
      modify (fun r => r <| r_security_status := 1 |>);;
      init_msg
    else
      types ← on_sock_ (rQtake num_types);
      match find (fun t => bool_decide (t ∈ types)) [1; 22; 16; 2] with
      | None => fail
      | Some scheme =>
          set_auth_scheme scheme;;
          on_sock_ (send [scheme]);;
          set_init Authentication;;
          init_msg
      end
  else
    wait ← on_sock_ (rQwait 4 0);
    if (wait : bool) then mret false
    else
      scheme ← on_sock_ rQshift32;
      set_auth_scheme scheme;;
      if scheme =? 0 then
        set_init SecurityReason;;
        modify (fun r => r <| r_security_status := 1 |>);;
        init_msg
      else set_init Authentication;; init_msg.

Definition handle_security_reason : M rfb bool :=
  wait ← on_sock_ (rQwait 4 0);
  if (wait : bool) then mret false
  else
    strlen ← on_sock_ rQshift32;
    wait ← (if 0 <? strlen then on_sock_ (rQwait strlen 4) else mret false);
    if (wait : bool) then mret false
    else
      reason ← (if 0 <? strlen then on_sock_ (rQshiftStr (Some strlen)) else mret []);
      status ← gets r_security_status;
      dispatchEvent (ESecurityFailure status (match reason with [] => None | _ => Some reason end));;
      fail.

Definition negotiate_std_vnc_auth : M rfb bool :=
  wait ← on_sock_ (rQwait 16 0);
  if (wait : bool) then mret false
  else
    password ← option_ o_password;
    match password with
    | [] => dispatchEvent (ECredentialsRequired ["password"%string]);; mret false
    | _ =>
        challenge ← on_sock_ (rQtake 16);
        on_sock_ (send (genDES password challenge));;
        set_init SecurityResult;;
        mret true
    end.

(** It goes on as [_negotiate_authentication], whose scheme is now 2. *)
Definition negotiate_xvp_auth : M rfb bool :=
  o ← option_ id;
  match o_username o, o_password o, o_cred_target o with
  | _ :: _, _ :: _, _ :: _ =>
      on_sock_ (send_string ([zlen (o_username o); zlen (o_cred_target o)]
                             ++ o_username o ++ o_cred_target o));;
      set_auth_scheme 2;;
      negotiate_std_vnc_auth
  | _, _, _ =>
      dispatchEvent (ECredentialsRequired ["username"; "password"; "target"]%string);; mret false
  end.

(** The tunnel capabilities, by code; a later one with the same code counts. *)
Fixpoint read_tunnels (n : nat) (m : gmap Z (list Z * list Z)) : M rfb (gmap Z (list Z * list Z)) :=
  match n with
  | O => mret m
  | S n =>
      cap_code ← on_sock_ rQshift32;
      cap_vendor ← on_sock_ (rQshiftStr (Some 4));
      cap_signature ← on_sock_ (rQshiftStr (Some 8));
      read_tunnels n (<[cap_code := (cap_vendor, cap_signature)]> m)
  end.

Definition negotiate_tight_tunnels (numTunnels : Z) : M rfb bool :=
  m ← read_tunnels (Z.to_nat numTunnels) ∅;
  let m := if decide (m !! 1 = Some (codes "SICR", codes "SCHANNEL"))
           then <[0 := (codes "TGHT", codes "NOTUNNEL")]> m else m in
  match m !! 0 with
  | Some t =>
      if decide (t = (codes "TGHT", codes "NOTUNNEL"))
      then on_sock_ (send [0; 0; 0; 0]);; mret false
      else fail
  | None => fail
  end.

Fixpoint read_auths (n : nat) : M rfb (list (list Z)) :=
  match n with
  | O => mret []
  | S n =>
      on_sock_ rQshift32;;
      c ← on_sock_ (rQshiftStr (Some 12));
      l ← read_auths n; mret (c :: l)
  end.

Definition negotiate_tight_auth : M rfb bool :=
  tightvnc ← gets r_tightvnc;
  stop ← (if (tightvnc : bool) then mret false
          else
            wait ← on_sock_ (rQwait 4 0);
            if (wait : bool) then mret true
            else
              numTunnels ← on_sock_ rQshift32;
              wait ← (if 0 <? numTunnels then on_sock_ (rQwait (16 * numTunnels) 4) else mret false);
              if (wait : bool) then mret true
              else
                modify (fun r => r <| r_tightvnc := true |>);;
                if 0 <? numTunnels then negotiate_tight_tunnels numTunnels;; mret true
                else mret false);
  if (stop : bool) then mret false
  else
    wait ← on_sock_ (rQwait 4 0);
    if (wait : bool) then mret false
    else
      subAuthCount ← on_sock_ rQshift32;
      if subAuthCount =? 0 then set_init SecurityResult;; mret true
      else
        wait ← on_sock_ (rQwait (16 * subAuthCount) 4);
        if (wait : bool) then mret false
        else
          types ← read_auths (Z.to_nat subAuthCount);
          if decide (codes "STDVNOAUTH__" ∈ types) then
            on_sock_ (send [0; 0; 0; 1]);; set_init SecurityResult;; mret true
          else if decide (codes "STDVVNCAUTH_" ∈ types) then
            on_sock_ (send [0; 0; 0; 2]);; set_auth_scheme 2;; init_msg
          else fail.

Definition negotiate_authentication : M rfb bool :=
  scheme ← gets r_auth_scheme;
  if scheme =? 1 then
    version ← gets r_version;
    if 38 <=? version then set_init SecurityResult;; mret true
    else set_init ClientInitialisation;; init_msg
  else if scheme =? 22 then negotiate_xvp_auth
  else if scheme =? 2 then negotiate_std_vnc_auth
  else if scheme =? 16 then negotiate_tight_auth
  else fail.

Definition handle_security_result : M rfb bool :=
  wait ← on_sock_ (rQwait 4 0);
  if (wait : bool) then mret false
  else
    status ← on_sock_ rQshift32;
    if status =? 0 then set_init ClientInitialisation;; init_msg
    else
      version ← gets r_version;
      if 38 <=? version then
        set_init SecurityReason;;
        modify (fun r => r <| r_security_status := status |>);;
        init_msg
      else dispatchEvent (ESecurityFailure status None);; fail.

Definition sendEncodings : M rfb unit :=
  depth ← gets r_fb_depth;
  on_sock_ (clientEncodings
    ([encodingCopyRect]
     ++ (if depth =? 24 then [encodingTight; encodingTightPNG; encodingHextile; encodingRRE] else [])
     ++ [encodingRaw; pseudoEncodingQualityLevel0 + 6; pseudoEncodingCompressLevel0 + 2;
         pseudoEncodingDesktopSize; pseudoEncodingLastRect; pseudoEncodingQEMUExtendedKeyEvent;
         pseudoEncodingExtendedDesktopSize; pseudoEncodingXvp; pseudoEncodingFence;
         pseudoEncodingContinuousUpdates]
     ++ (if depth =? 24 then [pseudoEncodingCursor] else []))).

(** The pixel format the server offers: read, and only logged. *)
Definition read_pixel_format : M rfb unit :=
  on_sock_ rQshift8;; on_sock_ rQshift8;; on_sock_ rQshift8;; on_sock_ rQshift8;;
  on_sock_ rQshift16;; on_sock_ rQshift16;; on_sock_ rQshift16;;
  on_sock_ rQshift8;; on_sock_ rQshift8;; on_sock_ rQshift8;;
  on_sock_ (rQskipBytes 3).

(** The extension of TightVNC: skipped; must we wait for the rest of it? *)
Definition skip_tight_capabilities (name_length : Z) : M rfb bool :=
  wait ← on_sock_ (rQwait 8 (24 + name_length));
  if (wait : bool) then mret true
  else
    numServerMessages ← on_sock_ rQshift16;
    numClientMessages ← on_sock_ rQshift16;
    numEncodings ← on_sock_ rQshift16;
    on_sock_ (rQskipBytes 2);;
    let total := (numServerMessages + numClientMessages + numEncodings) * 16 in
    wait ← on_sock_ (rQwait total (32 + name_length));
    if (wait : bool) then mret true
    else
      on_sock_ (rQskipBytes (16 * numServerMessages));;
      on_sock_ (rQskipBytes (16 * numClientMessages));;
      on_sock_ (rQskipBytes (16 * numEncodings));;
      mret false.

(** Past the point where it could go back for more. *)
Definition server_init_done (width height : Z) : M rfb bool :=
  name ← gets r_fb_name;
  dispatchEvent (EDesktopName name);;
  resize_ width height;;
  viewOnly ← option_ o_viewOnly;
  when (negb viewOnly) (modify (fun r => r <| r_grabbed := true |>));;
  modify (fun r => r <| r_fb_depth := if decide (name = codes "Intel(r) AMT KVM") then 8 else 24 |>);;
  depth ← gets r_fb_depth;
  on_sock_ (pixelFormat depth true);;
  sendEncodings;;
  r ← gets id;
  on_sock_ (fbUpdateRequest false 0 0 (r_fb_width r) (r_fb_height r));;
  updateConnectionState Connected;;
  mret true.

Definition negotiate_server_init : M rfb bool :=
  wait ← on_sock_ (rQwait 24 0);
  if (wait : bool) then mret false
  else
    width ← on_sock_ rQshift16; height ← on_sock_ rQshift16;
    read_pixel_format;;
    name_length ← on_sock_ rQshift32;
    wait ← on_sock_ (rQwait name_length 24);
    if (wait : bool) then mret false
    else
      name ← on_sock_ (rQshiftStr (Some name_length));
      name ← lift (decodeUTF8 name);
      modify (fun r => r <| r_fb_name := name |>);;
      tightvnc ← gets r_tightvnc;
      wait ← (if (tightvnc : bool) then skip_tight_capabilities name_length else mret false);
      if (wait : bool) then mret false else server_init_done width height.

Definition init_msg_body : M rfb bool :=
  i ← gets r_init;
  match i with
  | ProtocolVersion => negotiate_protocol_version
  | Security => negotiate_security
  | Authentication => negotiate_authentication
  | SecurityResult => handle_security_result
  | SecurityReason => handle_security_reason
  | ClientInitialisation =>
      shared ← option_ o_shared;
      on_sock_ (send [if (shared : bool) then 1 else 0]);;
      set_init ServerInitialisation;;
      mret true
  | ServerInitialisation => negotiate_server_init
  | NoInit => fail
  end.

End Handshake.

(** [_init_msg]: each step that calls it again has moved on from Security, or from
    one scheme of Authentication to another, or from SecurityResult to one of the
    last steps, so that four calls are enough. *)
Fixpoint init_msg_fuel (n : nat) : M rfb bool :=
  match n with O => mret false | S n => init_msg_body (init_msg_fuel n) end.
Definition init_msg : M rfb bool := init_msg_fuel 4.

(** ** Input and public methods *)

Definition can_send (r : rfb) : bool :=
  bool_decide (r_conn r = Connected) && negb (o_viewOnly (r_options r)).

(** One key event; a keysym that is missing is 0. *)
Definition send_key (keysym : Z) (code : string) (down : bool) : M rfb unit :=
  r ← gets id;
  if negb (can_send r) then skip
  else
    match scancode code with
    | Some sc =>
        if r_qemuExtKeyEventSupported r && negb (sc =? 0)
        then on_sock_ (QEMUExtendedKeyEvent keysym down sc)
        else if keysym =? 0 then skip else on_sock_ (keyEvent keysym (b2z down))
    | None => if keysym =? 0 then skip else on_sock_ (keyEvent keysym (b2z down))
    end.

Definition sendKey (keysym : Z) (code : string) (down : option bool) : M rfb unit :=
  r ← gets id;
  if negb (can_send r) then skip
  else
    match down with
    | Some down => send_key keysym code down
    | None => send_key keysym code true;; send_key keysym code false
    end.

Definition sendCtrlAltDel : M rfb unit :=
  r ← gets id;
  if negb (can_send r) then skip
  else
    send_key XK_Control_L "ControlLeft" true;;
    send_key XK_Alt_L "AltLeft" true;;
    send_key XK_Delete "Delete" true;;
    send_key XK_Delete "Delete" false;;
    send_key XK_Alt_L "AltLeft" false;;
    send_key XK_Control_L "ControlLeft" false.

Definition xvpOp_ (ver op : Z) : M rfb unit :=
  v ← gets r_xvp_ver; if v <? ver then skip else on_sock_ (xvpOp ver op).
Definition machineShutdown : M rfb unit := xvpOp_ 1 2.
Definition machineReboot : M rfb unit := xvpOp_ 1 3.
Definition machineReset : M rfb unit := xvpOp_ 1 4.

(** [None] when the paste does not end in [fuel] rounds. *)
Definition clipboardPasteFrom (fuel : nat) (text : list Z) (r : rfb) : option (outcome unit * rfb) :=
  if negb (can_send r) then Some (Ret tt, r)
  else
    match clientCutText fuel text (r_sock r) with
    | Some (o, s) => Some (o, r <| r_sock := s |>)
    | None => None
    end.

Definition handleKeyEvent (keysym : Z) (code : string) (down : bool) : M rfb unit :=
  sendKey keysym code (Some down).

(** A pointer event at a place on the canvas. *)
Definition sendPointer (x y : double) (mask : Z) : M rfb unit :=
  ax ← on_disp (fun _ _ => absX x); ay ← on_disp (fun _ _ => absY y);
  on_sock_ (pointerEvent (dbl_trunc ax) (dbl_trunc ay) mask).

Definition set_mouse (f : mouse -> mouse) : M rfb unit := modify (fun r => r <| r_mouse := f (r_mouse r) |>).

(** The end of both mouse handlers. *)
Definition pointer_unless_viewOnly (x y : double) : M rfb unit :=
  r ← gets id;
  if o_viewOnly (r_options r) then skip
  else if negb (bool_decide (r_conn r = Connected)) then skip
  else sendPointer x y (m_buttonMask (r_mouse r)).

Definition handleMouseButton (x y : double) (down : bool) (bmask : Z) : M rfb unit :=
  set_mouse (fun m => m <| m_buttonMask := if down then m_buttonMask m |. bmask
                                           else m_buttonMask m &. js_not bmask |>);;
  r ← gets id;
  if o_dragViewport (r_options r) then
    if down && negb (m_viewportDragging (r_mouse r)) then
      set_mouse (fun m => m <| m_viewportDragging := true |> <| m_viewportDragPos := (x, y) |>
                            <| m_viewportHasMoved := false |>)
    else
      set_mouse (fun m => m <| m_viewportDragging := false |>);;
      if m_viewportHasMoved (r_mouse r) then skip
      else sendPointer x y bmask;; pointer_unless_viewOnly x y
  else pointer_unless_viewOnly x y.

Definition handleMouseMove (x y : double) : M rfb unit :=
  r ← gets id;
  let m := r_mouse r in
  if m_viewportDragging m then
    let deltaX := dbl_sub (m_viewportDragPos m).1 x in
    let deltaY := dbl_sub (m_viewportDragPos m).2 y in
    if m_viewportHasMoved m || dbl_lt dragThreshold (dbl_abs deltaX)
       || dbl_lt dragThreshold (dbl_abs deltaY)
    then
      set_mouse (fun m => m <| m_viewportHasMoved := true |> <| m_viewportDragPos := (x, y) |>);;
      on_disp (fun b h => viewportChangePos b h (dbl_floor deltaX) (dbl_floor deltaY))
    else skip
  else pointer_unless_viewOnly x y.

Definition set_options (f : options -> options) : M rfb unit :=
  modify (fun r => r <| r_options := f (r_options r) |>).

Definition set_viewOnly (viewOnly : bool) : M rfb unit :=
  set_options (fun o => o <| o_viewOnly := viewOnly |>);;
  c ← gets r_conn;
  when (bool_decide (c = Connecting) || bool_decide (c = Connected))
    (modify (fun r => r <| r_grabbed := negb viewOnly |>)).

Definition set_clipViewport_ (viewport : bool) : M rfb unit :=
  set_options (fun o => o <| o_clipViewport := viewport |>);; updateClip.

Definition set_scaleViewport (scale : bool) : M rfb unit :=
  set_options (fun o => o <| o_scaleViewport := scale |>);;
  clip ← option_ o_clipViewport;
  when (scale && clip) updateClip;;
  updateScale;;
  when (negb scale && clip) updateClip.

Definition set_resizeSession (resize : bool) : M rfb unit :=
  set_options (fun o => o <| o_resizeSession := resize |>);;
  when resize requestRemoteResize.

Definition set_showDotCursor (show : bool) : M rfb unit :=
  set_options (fun o => o <| o_showDotCursor := show |>);;
  refreshCursor.

(** A resized window: the animation frame asked for, and the timer of the request. *)
Definition windowResize : M rfb unit :=
  modify (fun r => r <| r_frames := S (r_frames r) |>);;
  resize ← option_ o_resizeSession;
  when resize (modify (fun r => r <| r_resizeTimeout := true |>)).

(** The animation frame. *)
Definition frame : M rfb unit :=
  n ← gets r_frames;
  match n with
  | O => skip
  | S n => modify (fun r => r <| r_frames := n |>);; updateClip;; updateScale
  end.

Definition disconnect : M rfb unit :=
  updateConnectionState Disconnecting;;
  modify (fun r => r <| r_on_message := false |> <| r_on_open := false |>).

(** [_init_msg] follows from a timer, [init_timer]. *)
Definition sendCredentials (username password target : list Z) : M rfb unit :=
  set_options (fun o => o <| o_username := username |> <| o_password := password |>
                          <| o_cred_target := target |>);;
  modify (fun r => r <| r_initTimers := S (r_initTimers r) |>).

Definition init_timer : M rfb unit :=
  n ← gets r_initTimers;
  match n with
  | O => skip
  | S n => modify (fun r => r <| r_initTimers := n |>);; init_msg;; skip
  end.

(** ** Messages of the server *)

Definition handle_set_colour_map_msg : M rfb bool := fail.

Definition handle_server_cut_text : M rfb bool :=
  wait ← on_sock_ (rQwait 7 1);
  if (wait : bool) then mret false
  else
    on_sock_ (rQskipBytes 3);;
    length ← on_sock_ rQshift32;
    wait ← on_sock_ (rQwait length 8);
    if (wait : bool) then mret false
    else
      text ← on_sock_ (rQshiftStr (Some length));
      viewOnly ← option_ o_viewOnly;
      when (negb viewOnly) (dispatchEvent (EClipboard text));;
      mret true.

Definition handle_server_fence_msg : M rfb bool :=
  wait ← on_sock_ (rQwait 8 1);
  if (wait : bool) then mret false
  else
    on_sock_ (rQskipBytes 3);;
    flags ← on_sock_ rQshift32;
    length ← on_sock_ rQshift8;
    wait ← on_sock_ (rQwait length 9);
    if (wait : bool) then mret false
    else
      payload ← on_sock_ (rQshiftStr (Some (if 64 <? length then 64 else length)));
      modify (fun r => r <| r_supportsFence := true |>);;
      if flags &. (1 <<. 31) =? 0 then fail
      else
        on_sock_ (clientFence (flags &. ((1 <<. 0) |. (1 <<. 1))) payload);;
        mret true.

Definition handle_xvp_msg : M rfb bool :=
  wait ← on_sock_ (rQwait 3 1);
  if (wait : bool) then mret false
  else
    on_sock_ (rQskipBytes 1);;
    xvp_ver ← on_sock_ rQshift8;
    xvp_msg ← on_sock_ rQshift8;
    (if xvp_msg =? 0 then skip
     else if xvp_msg =? 1 then
       modify (fun r => r <| r_xvp_ver := xvp_ver |> <| r_power := true |>);;
       dispatchEvent (ECapabilities true)
     else fail;; skip);;
    mret true.

(** *** Framebuffer updates *)

Definition set_FBU (f : fbu -> fbu) : M rfb unit := modify (fun r => r <| r_FBU := f (r_FBU r) |>).

(** The cursor's pixels, with the bits of the mask as alpha. *)
Definition cursor_pixels (pixels mask : list Z) (w h : Z) : list Z :=
  let at_ l i := default 0 (aget l i) in
  concat (map (fun y => concat (map (fun x =>
      let x := Z.of_nat x in let y := Z.of_nat y in
      let pix_idx := 4 * (y * w + x) in
      let mask_idx := y * ((w + 7) / 8) + x / 8 in
      [ at_ pixels (pix_idx + 2); at_ pixels (pix_idx + 1); at_ pixels pix_idx;
        if (nint (aget mask mask_idx) <<. (x mod 8)) &. 0x80 =? 0 then 0 else 255 ])
    (seq 0 (Z.to_nat w)))) (seq 0 (Z.to_nat h))).

Definition handleCursor : M rfb bool :=
  u ← gets r_FBU;
  let w := u_width u in let h := u_height u in
  let pixelslength := w * h * 4 in let masklength := (w + 7) / 8 * h in
  wait ← on_sock_ (rQwait (pixelslength + masklength) 0);
  if (wait : bool) then mret false
  else
    pixels ← on_sock_ (rQtake pixelslength);
    mask ← on_sock_ (rQtake masklength);
    updateCursor (Cursor (cursor_pixels pixels mask w h) (u_x u) (u_y u) w h);;
    mret true.

(** The screens of an ExtendedDesktopSize rectangle. *)
Fixpoint read_screens (n : nat) (first : bool) : M rfb unit :=
  match n with
  | O => skip
  | S n =>
      (if first then
         id ← on_sock_ (rQshiftBytes (Some 4));
         modify (fun r => r <| r_screen_id := SView id |>);;
         on_sock_ (rQskipBytes 2);; on_sock_ (rQskipBytes 2);;
         on_sock_ (rQskipBytes 2);; on_sock_ (rQskipBytes 2);;
         flags ← on_sock_ (rQshiftBytes (Some 4));
         modify (fun r => r <| r_screen_flags := SView flags |>)
       else on_sock_ (rQskipBytes 16));;
      read_screens n false
  end.

Definition handleExtendedDesktopSize : M rfb bool :=
  wait ← on_sock_ (rQwait 4 0);
  if (wait : bool) then mret false
  else
    n ← on_sock_ rQpeek8;
    let number_of_screens := default 0 n in
    wait ← on_sock_ (rQwait (4 + number_of_screens * 16) 0);
    if (wait : bool) then mret false
    else
      supports ← gets r_supportsSetDesktopSize;
      modify (fun r => r <| r_supportsSetDesktopSize := true |>);;
      when (negb supports) requestRemoteResize;;
      on_sock_ (rQskipBytes 1);; on_sock_ (rQskipBytes 3);;
      read_screens (Z.to_nat number_of_screens) true;;
      u ← gets r_FBU;
      when (negb ((u_x u =? 1) && negb (u_y u =? 0)))
        (resize_ (u_width u) (u_height u));;
      mret true.

(** [_decoders[encoding]] *)
Definition decoder_of (encoding : Z) : option decoder :=
  if encoding =? encodingRaw then Some Raw
  else if encoding =? encodingCopyRect then Some CopyRect
  else if encoding =? encodingRRE then Some RRE
  else if encoding =? encodingHextile then Some Hextile_
  else if encoding =? encodingTight then Some Tight_
  else if encoding =? encodingTightPNG then Some TightPNG
  else None.

Definition handleDataRect : M rfb bool :=
  r ← gets id;
  let u := r_FBU r in
  match decoder_of (default 0 (u_encoding u)) with
  | None => fail
  | Some e =>
      catch (on_dec (decodeRect supportsImageMetadata ZS inflateInit inflateReset pako_inflate e
                       (u_x u) (u_y u) (u_width u) (u_height u) (r_fb_depth r)))
            (fun e => if decide (e = NaNIndex) then throw e else fail)
  end.

Definition handleRect : M rfb bool :=
  u ← gets r_FBU;
  let encoding := default 0 (u_encoding u) in
  if encoding =? pseudoEncodingLastRect then set_FBU (fun u => u <| u_rects := 1 |>);; mret true
  else if encoding =? pseudoEncodingCursor then handleCursor
  else if encoding =? pseudoEncodingQEMUExtendedKeyEvent then
    when keyEventsHaveCode (modify (fun r => r <| r_qemuExtKeyEventSupported := true |>));; mret true
  else if encoding =? pseudoEncodingDesktopSize then
    resize_ (u_width u) (u_height u);; mret true
  else if encoding =? pseudoEncodingExtendedDesktopSize then handleExtendedDesktopSize
  else handleDataRect.

(** The header of a rectangle: where it is and how it is encoded. *)
Definition rect_header (hdr : list Z) (u : fbu) : fbu :=
  let at_ i := nint (aget hdr i) in
  Fbu (u_rects u) ((at_ 0 <<. 8) + at_ 1) ((at_ 2 <<. 8) + at_ 3) ((at_ 4 <<. 8) + at_ 5)
    ((at_ 6 <<. 8) + at_ 7)
    (Some ((at_ 8 <<. 24) + (at_ 9 <<. 16) + (at_ 10 <<. 8) + at_ 11)).

(** The loop of [_framebufferUpdate], which ends after at most [_FBU.rects] rounds. *)
Fixpoint rect_loop (fuel : nat) : M rfb bool :=
  u ← gets r_FBU;
  if 0 <? u_rects u then
    match fuel with
    | O => mret false
    | S fuel =>
        wait ← (match u_encoding u with
                | Some _ => mret false
                | None =>
                    wait ← on_sock_ (rQwait 12 0);
                    if (wait : bool) then mret true
                    else hdr ← on_sock_ (rQtake 12); set_FBU (rect_header hdr);; mret false
                end);
        if (wait : bool) then mret false
        else
          ok ← handleRect;
          if (ok : bool) then
            set_FBU (fun u => u <| u_rects := u_rects u - 1 |> <| u_encoding := None |>);;
            rect_loop fuel
          else mret false
    end
  else on_disp (fun b h => flip b h);; mret true.

Definition framebufferUpdate : M rfb bool :=
  u ← gets r_FBU;
  stop ← (if u_rects u =? 0 then
            wait ← on_sock_ (rQwait 3 1);
            if (wait : bool) then mret true
            else
              on_sock_ (rQskipBytes 1);;
              rects ← on_sock_ rQshift16;
              set_FBU (fun u => u <| u_rects := rects |>);;
              pending ← on_disp (fun _ _ => pending);
              if (pending : bool) then
                modify (fun r => r <| r_flushing := true |>);;
                on_disp (fun _ _ => Display.flush);;
                mret true
              else mret false
          else mret false);
  if (stop : bool) then mret false
  else u ← gets r_FBU; rect_loop (Z.to_nat (u_rects u)).

(** *** The message loop *)

(** [Bell], by its number. *)
Definition normal_msg : M rfb bool :=
  u ← gets r_FBU;
  msg_type ← (if 0 <? u_rects u then mret 0 else on_sock_ rQshift8);
  if msg_type =? 0 then
    ret ← framebufferUpdate;
    r ← gets id;
    when (ret && negb (r_enabledContinuousUpdates r))
      (on_sock_ (fbUpdateRequest true 0 0 (r_fb_width r) (r_fb_height r)));;
    mret ret
  else if msg_type =? 1 then handle_set_colour_map_msg
  else if msg_type =? 2 then dispatchEvent EBell;; mret true
  else if msg_type =? 3 then handle_server_cut_text
  else if msg_type =? 150 then
    supports ← gets r_supportsContinuousUpdates;
    modify (fun r => r <| r_supportsContinuousUpdates := true |>
                       <| r_enabledContinuousUpdates := negb supports |>);;
    when (negb supports) updateContinuousUpdates;;
    mret true
  else if msg_type =? 248 then handle_server_fence_msg
  else if msg_type =? 250 then handle_xvp_msg
  else
    fail;;
    on_sock_ (rQslice 0 (Some 30));;
    mret true.

(** The loop of [_handle_message] when connected; [false] is out of fuel. *)
Fixpoint message_loop (fuel : nat) : M rfb bool :=
  match fuel with
  | O => mret false
  | S fuel =>
      flushing ← gets r_flushing;
      if (flushing : bool) then mret true
      else
        more ← normal_msg;
        n ← gets (fun r => rQlen (r_sock r));
        if negb more || (n =? 0) then mret true else message_loop fuel
  end.

(** Every message but the first takes at least a byte. *)
Definition handle_message : M rfb unit :=
  r ← gets id;
  let n := rQlen (r_sock r) in
  if n =? 0 then skip
  else
    match r_conn r with
    | Disconnected => skip
    | Connected => message_loop (Z.to_nat n + 2);; skip
    | _ => init_msg;; skip
    end.

Definition onFlush : M rfb unit :=
  modify (fun r => r <| r_flushing := false |>);;
  n ← gets (fun r => rQlen (r_sock r));
  when (0 <? n) handle_message.

(** ** Events of the socket, the display and the timers *)

Definition on_open : M rfb unit :=
  r ← gets id;
  if bool_decide (r_conn r = Connecting) && bool_decide (r_init r = NoInit)
  then set_init ProtocolVersion
  else fail;; skip.

Definition on_close : M rfb unit :=
  c ← gets r_conn;
  (match c with
   | Connected => updateConnectionState Disconnecting;; updateConnectionState Disconnected
   | Disconnecting => updateConnectionState Disconnected
   | _ => fail;; skip
   end);;
  modify (fun r => r <| r_on_close := false |>).

Definition set_websocket (st : ready_state) : M rfb unit :=
  on_sock_ (modify (fun s => s <| sk_websocket := Some st |>)).

(** An image of the display has loaded or failed; [onflush] follows if it is due. *)
Definition on_image (i : nat) (st : img_state) : M rfb unit :=
  before ← gets (fun r => d_onflush (dc_display (r_dec r)));
  on_disp (fun b h => image_event b h i st);;
  after ← gets (fun r => d_onflush (dc_display (r_dec r)));
  when (before <? after) onFlush.

Inductive action :=
  | AStart                                   (* the timer of the constructor *)
  | AOpen | AClose | AMessage (data : list Z)    (* the WebSocket *)
  | ADisconnTimeout | AResizeTimeout | AInitMsg  (* timers *)
  | AImage (i : nat) (st : img_state)
  | AWindowResize | AFrame
  | AKey (keysym : Z) (code : string) (down : bool)
  | AMouseButton (x y : double) (down : bool) (bmask : Z)
  | AMouseMove (x y : double)
  | ADisconnect
  | ASendCredentials (username password target : list Z)
  | ASendKey (keysym : Z) (code : string) (down : option bool)
  | ASendCtrlAltDel
  | AMachine (op : Z)
  | ASetViewOnly (b : bool) | ASetClip (b : bool) | ASetScale (b : bool) | ASetResize (b : bool)
  | ASetShowDot (b : bool) | ASetDrag (b : bool).

Definition perform (a : action) : M rfb unit :=
  r ← gets id;
  match a with
  | AStart => updateConnectionState Connecting
  | AOpen =>
      if decide (sk_websocket (r_sock r) = Some CONNECTING) then
        set_websocket OPEN;; when (r_on_open r) on_open
      else skip
  | AClose =>
      match sk_websocket (r_sock r) with
      | None | Some CLOSED => skip
      | Some _ => set_websocket CLOSED;; when (r_on_close r) on_close
      end
  | AMessage data =>
      when (sk_receiving (r_sock r))
        (recv_message r_sock (when (r_on_message r) handle_message) data)
  | ADisconnTimeout => when (r_disconnTimer r) (updateConnectionState Disconnected)
  | AResizeTimeout => when (r_resizeTimeout r) requestRemoteResize
  | AInitMsg => init_timer
  | AImage i st => on_image i st
  | AWindowResize => when (r_attached r) windowResize
  | AFrame => frame
  | AKey keysym code down => when (r_grabbed r) (handleKeyEvent keysym code down)
  | AMouseButton x y down bmask => when (r_grabbed r) (handleMouseButton x y down bmask)
  | AMouseMove x y => when (r_grabbed r) (handleMouseMove x y)
  | ADisconnect => disconnect
  | ASendCredentials u p t => sendCredentials u p t
  | ASendKey keysym code down => sendKey keysym code down
  | ASendCtrlAltDel => sendCtrlAltDel
  | AMachine op => xvpOp_ 1 op
  | ASetViewOnly b => set_viewOnly b
  | ASetClip b => set_clipViewport_ b
  | ASetScale b => set_scaleViewport b
  | ASetResize b => set_resizeSession b
  | ASetShowDot b => set_showDotCursor b
  | ASetDrag b => set_options (fun o => o <| o_dragViewport := b |>)
  end.

(** What happens to the object, one thing after the other; an exception ends
    the handler it was thrown in. *)
Inductive step : rfb -> rfb -> Prop :=
  | step_perform a r : step r (perform a r).2
  | step_paste fuel text r o r' : clipboardPasteFrom fuel text r = Some (o, r') -> step r r'.

(** [new RFB(target, url, options)] *)
Definition constructor (s : sock) (d : display) (o : options) : rfb := {|
  r_dec := new_decoding ZS inflateInit s (Display.clear supportsImageMetadata (sk_heap s) d).2;
  r_conn := New; r_init := NoInit; r_auth_scheme := -1; r_clean_disconnect := true; r_version := 0;
  r_max_version := 38; r_tightvnc := false; r_xvp_ver := 0; r_fb_width := 0; r_fb_height := 0;
  r_fb_depth := 0; r_fb_name := []; r_power := false; r_supportsFence := false;
  r_supportsContinuousUpdates := false; r_enabledContinuousUpdates := false;
  r_supportsSetDesktopSize := false; r_screen_id := SNumber 0; r_screen_flags := SNumber 0;
  r_qemuExtKeyEventSupported := false; r_flushing := false; r_FBU := Fbu 0 0 0 0 0 None;
  r_mouse := Mouse 0 false (dbl_of_Z 0, dbl_of_Z 0) false;
  r_options := o <| o_viewOnly := false |> <| o_clipViewport := false |>
                 <| o_scaleViewport := false |> <| o_resizeSession := false |>
                 <| o_dragViewport := false |>;
  r_security_status := 0; r_disconnTimer := false; r_resizeTimeout := false; r_frames := 0;
  r_initTimers := 0; r_on_open := true;
  r_on_message := true; r_on_close := true; r_attached := false; r_grabbed := false;
  r_cursor_target := false; r_cursorImage := cursor_none; r_cursor_shown := None; r_events := [] |}.

End Rfb.
End Rfb.
