(* ===== verification/Samples.v ===== *)
(** * Sessions for examples

    Small concrete sessions of Rfb.v at which the theorems of the files after this
    one are applied: a socket with some bytes to read, and a session on it. *)

From S2P Require Import Prelude Websock Messages Display Decoders Rfb.

Module Samples.
Import Websock Display Decoders Rfb.

(** An open socket that has received [q]. *)
Definition sock_with (q : list Z) : sock := {|
  sk_websocket := Some OPEN; sk_rQi := 0; sk_rQlen := zlen q; sk_rQbufferSize := 256;
  sk_rQmax := 32; sk_rQ := 0%nat; sk_sQbufferSize := 128; sk_sQlen := 0; sk_sQ := replicate 128 0;
  sk_heap := {[ 0%nat := q ++ replicate (256 - length q) 0 ]}; sk_receiving := true; sk_sent := [] |}.

Lemma sock_with_buf q : rQ_buf (sock_with q) = q ++ replicate (256 - length q) 0.
Proof. unfold rQ_buf, sock_with. cbn [sk_heap sk_rQ]. by rewrite lookup_singleton_eq. Qed.

Lemma sock_with_wf q : bytes q -> (length q <= 256)%nat -> ByteQueue.wf (sock_with q).
Proof.
  intros Hb Hl. split; rewrite ?sock_with_buf.
  - cbn [sk_heap sk_rQ sock_with]. apply lookup_singleton_eq.
  - unfold zlen. rewrite length_app, length_replicate. change (sk_rQbufferSize (sock_with q)) with 256. lia.
  - done.
  - cbn [sk_rQi sk_rQlen sk_rQbufferSize sock_with]. unfold zlen. lia.
  - apply Forall_app. split; [done|]. apply Forall_replicate. done.
Qed.

Lemma sock_with_unread q : ByteQueue.unread (sock_with q) = q.
Proof.
  unfold ByteQueue.unread. rewrite sock_with_buf. change (sk_rQi (sock_with q)) with 0.
  change (rQlen (sock_with q)) with (zlen q - 0). unfold slice, zlen. rewrite drop_0, Z.sub_0_r, Nat2Z.id.
  apply take_app_length.
Qed.

Definition defaults : options := Options false false false false false false true [] [] [] [].

(** A session in state [c] that has received [q]. *)
Definition session (c : conn) (q : list Z) : rfb unit :=
  (Rfb.constructor true unit tt (sock_with q) (blank 4 4 4 4) defaults)
    <| r_dec := new_decoding unit tt (sock_with q) (blank 4 4 4 4) |> <| r_conn := c |>.

(** A browser, and a decompressor that gives nothing. *)
Definition size : double * double := (dbl_of_Z 640, dbl_of_Z 480).
Definition no_inflate (z : unit) (data : list Z) (n : Z) : unit * list Z := (z, []).

End Samples.
