(* ===== verification/Lifecycle.v ===== *)
(** * The life of an RFB connection

    What holds of an [RFB] object whatever happens to it: the states it goes
    through, the events it dispatches, and its use of the socket's handlers. *)

From S2P Require Import Prelude Websock Messages Display Decoders Rfb Samples.

Module Lifecycle.
Import Websock Rfb.

(** The events that tell the owner of the connection's life, in order. *)
Definition is_life (e : event) : bool :=
  match e with EConnect | EDisconnect _ => true | _ => false end.
Definition life {ZS} (r : rfb ZS) : list event := filter (fun e => is_life e) (r_events r).

(** What a state tells of the events so far. *)
Definition coherent {ZS} (r : rfb ZS) : Prop :=
  match r_conn r with
  | New | Connecting => life r = []
  | Connected => life r = [EConnect]
  | Disconnecting => life r = [] \/ life r = [EConnect]
  | Disconnected => exists clean, life r = [EDisconnect clean] \/ life r = [EConnect; EDisconnect clean]
  end.

End Lifecycle.

(** ** Lemmas: what every method keeps *)

Section Keep.
Import Websock Messages Display Decoders Rfb Lifecycle.
Context (supports useFallback : bool) (screenSize : double * double) (dragThreshold : double)
  (keyEventsHaveCode accepted : bool).
Context (ZS : Type) (inflateInit : ZS) (inflateReset : ZS -> ZS)
  (pako_inflate : ZS -> list Z -> Z -> ZS * list Z).
Implicit Type r : rfb ZS.

(** A property that depends on the connection's state and events only, that
    other events do not touch, and that a transition keeps. *)
Context (P : rfb ZS -> Prop).
Context (P_frame : forall r r', r_conn r' = r_conn r -> r_events r' = r_events r -> P r -> P r').
Context (P_event : forall e r, is_life e = false -> P r -> P (r <| r_events := r_events r ++ [e] |>)).
Context (P_transition : forall connect state, keeps P connect ->
  keeps P (transition useFallback ZS connect state)).

Lemma keep_on_dec {A} (m : M (decoding ZS) A) : keeps P (on_dec ZS m).
Proof. apply keeps_zoom. intros r t. by apply P_frame; destruct r. Qed.

Lemma keep_on_disp {A} (m : bool -> heap -> M display A) : keeps P (on_disp supports ZS m).
Proof. apply keep_on_dec. Qed.

Lemma keep_on_sock {A} (m : M sock A) : keeps P (on_sock_ ZS m).
Proof. apply keeps_zoom. intros r t. by apply P_frame; destruct r. Qed.

Lemma keep_dispatch e : is_life e = false -> keeps P (dispatchEvent ZS e).
Proof. intros He. apply keeps_modify. intros r. by apply P_event. Qed.

Lemma keep_modify (f : rfb ZS -> rfb ZS) :
  (forall r, r_conn (f r) = r_conn r /\ r_events (f r) = r_events r) -> keeps P (modify f).
Proof. intros Hf. apply keeps_modify. intros r. apply P_frame; apply Hf. Qed.

(** The leaves: sockets and displays, changes of other fields, other events. *)
Ltac base _ :=
  lazymatch goal with
  | |- keeps _ (on_dec _ _) => apply keep_on_dec
  | |- keeps _ (on_disp _ _ _) => apply keep_on_disp
  | |- keeps _ (on_sock_ _ _) => apply keep_on_sock
  | |- keeps _ (zoom r_sock _) => apply keep_on_sock
  | |- keeps _ (dispatchEvent _ _) => apply keep_dispatch; reflexivity
  | |- keeps _ (modify _) => apply keep_modify; intros ?; split; reflexivity
  | |- keeps _ (set_init _ _) => apply keep_modify; intros ?; split; reflexivity
  | |- keeps _ (set_auth_scheme _ _) => apply keep_modify; intros ?; split; reflexivity
  | |- keeps _ (set_FBU _ _) => apply keep_modify; intros ?; split; reflexivity
  | |- keeps _ (option_ _ _) => apply keeps_gets
  | |- keeps _ (transition _ _ skip _) => apply P_transition; apply keeps_skip
  | |- keeps _ _ => first [assumption | solve [auto with keeps nocore]]
  end.
Ltac keep := keeps_by base.

Create HintDb keeps.

Lemma keep_cursor_change c : keeps P (cursor_change useFallback ZS c).
Proof. unfold cursor_change, cursor_clear. keep. Qed.

Lemma keep_refreshCursor : keeps P (refreshCursor useFallback ZS).
Proof. unfold refreshCursor. apply keeps_bind; [keep|intros r]. destruct (shouldShowDotCursor _ r); apply keep_cursor_change. Qed.
Hint Resolve keep_cursor_change keep_refreshCursor : keeps.

Lemma keep_fail : keeps P (fail useFallback ZS).
Proof. unfold fail. keep. Qed.
Hint Resolve keep_fail : keeps.

Lemma keep_connect : keeps P (connect_ useFallback accepted ZS).
Proof. unfold connect_, cursor_attach, cursor_detach, cursor_clear. keep. Qed.

Lemma keep_updateConnectionState st : keeps P (updateConnectionState useFallback accepted ZS st).
Proof. apply P_transition, keep_connect. Qed.
Hint Resolve keep_updateConnectionState : keeps.

Lemma keep_updateClip : keeps P (updateClip supports screenSize ZS).
Proof. unfold updateClip. keep. Qed.
Hint Resolve keep_updateClip : keeps.

Lemma keep_updateScale : keeps P (updateScale supports screenSize ZS).
Proof. unfold updateScale. keep. Qed.
Hint Resolve keep_updateScale : keeps.

Lemma keep_resize w h : keeps P (resize_ supports screenSize ZS w h).
Proof. unfold resize_, updateContinuousUpdates. keep. Qed.
Hint Resolve keep_resize : keeps.

Lemma keep_requestRemoteResize : keeps P (requestRemoteResize screenSize ZS).
Proof. unfold requestRemoteResize. keep. Qed.
Hint Resolve keep_requestRemoteResize : keeps.

(** *** The handshake *)

Lemma keep_read_tunnels n m : keeps P (read_tunnels ZS n m).
Proof. revert m. induction n as [|n IH]; intros m; cbn [read_tunnels]; keep. Qed.
Hint Resolve keep_read_tunnels : keeps.

Lemma keep_read_auths n : keeps P (read_auths ZS n).
Proof. induction n as [|n IH]; cbn [read_auths]; keep. Qed.
Hint Resolve keep_read_auths : keeps.

Lemma keep_std_vnc_auth : keeps P (negotiate_std_vnc_auth ZS).
Proof. unfold negotiate_std_vnc_auth. keep. Qed.
Hint Resolve keep_std_vnc_auth : keeps.

Lemma keep_tight_tunnels n : keeps P (negotiate_tight_tunnels useFallback ZS n).
Proof. unfold negotiate_tight_tunnels. keep. Qed.
Hint Resolve keep_tight_tunnels : keeps.

Lemma keep_security_reason : keeps P (handle_security_reason useFallback ZS).
Proof. unfold handle_security_reason. keep. Qed.
Hint Resolve keep_security_reason : keeps.

Lemma keep_protocol_version : keeps P (negotiate_protocol_version useFallback ZS).
Proof. unfold negotiate_protocol_version. keep. Qed.
Hint Resolve keep_protocol_version : keeps.

Lemma keep_server_init : keeps P (negotiate_server_init supports useFallback screenSize accepted ZS).
Proof. unfold negotiate_server_init, read_pixel_format, skip_tight_capabilities, server_init_done, sendEncodings. keep. Qed.
Hint Resolve keep_server_init : keeps.

Lemma keep_init_msg_body init_msg :
  keeps P init_msg -> keeps P (init_msg_body supports useFallback screenSize accepted ZS init_msg).
Proof.
  intros Hi. unfold init_msg_body, negotiate_security, negotiate_authentication, negotiate_xvp_auth,
    negotiate_tight_auth, handle_security_result. keep.
Qed.

Lemma keep_init_msg : keeps P (init_msg supports useFallback screenSize accepted ZS).
Proof.
  unfold init_msg. generalize 4%nat. induction n as [|n IH]; cbn [init_msg_fuel].
  - apply keeps_ret.
  - by apply keep_init_msg_body.
Qed.
Hint Resolve keep_init_msg : keeps.

(** *** Input *)

Lemma keep_send_key k c d : keeps P (send_key ZS k c d).
Proof. unfold send_key. keep. Qed.
Hint Resolve keep_send_key : keeps.

Lemma keep_sendKey k c d : keeps P (sendKey ZS k c d).
Proof. unfold sendKey. keep. Qed.
Hint Resolve keep_sendKey : keeps.

Lemma keep_sendCtrlAltDel : keeps P (sendCtrlAltDel ZS).
Proof. unfold sendCtrlAltDel. keep. Qed.
Hint Resolve keep_sendCtrlAltDel : keeps.

Lemma keep_mouseButton x y d m : keeps P (handleMouseButton supports ZS x y d m).
Proof. unfold handleMouseButton, pointer_unless_viewOnly, sendPointer, set_mouse. keep. Qed.
Hint Resolve keep_mouseButton : keeps.

Lemma keep_mouseMove x y : keeps P (handleMouseMove supports dragThreshold ZS x y).
Proof. unfold handleMouseMove, pointer_unless_viewOnly, sendPointer, set_mouse. keep. Qed.
Hint Resolve keep_mouseMove : keeps.

(** *** Messages *)

Lemma keep_read_screens n b : keeps P (read_screens ZS n b).
Proof. revert b. induction n as [|n IH]; intros b; cbn [read_screens]; keep. Qed.
Hint Resolve keep_read_screens : keeps.

Lemma keep_updateCursor c : keeps P (updateCursor useFallback ZS c).
Proof. unfold updateCursor. keep. Qed.
Hint Resolve keep_updateCursor : keeps.

Lemma keep_handleRect :
  keeps P (handleRect supports useFallback screenSize keyEventsHaveCode ZS inflateInit inflateReset pako_inflate).
Proof. unfold handleRect, handleCursor, handleExtendedDesktopSize, handleDataRect. keep. Qed.
Hint Resolve keep_handleRect : keeps.

Lemma keep_rect_loop n :
  keeps P (rect_loop supports useFallback screenSize keyEventsHaveCode ZS inflateInit inflateReset pako_inflate n).
Proof. induction n as [|n IH]; cbn [rect_loop]; keep. Qed.
Hint Resolve keep_rect_loop : keeps.

Lemma keep_normal_msg :
  keeps P (normal_msg supports useFallback screenSize keyEventsHaveCode ZS inflateInit inflateReset pako_inflate).
Proof.
  unfold normal_msg, framebufferUpdate, handle_set_colour_map_msg, handle_server_cut_text,
    handle_server_fence_msg, handle_xvp_msg, updateContinuousUpdates. keep.
Qed.
Hint Resolve keep_normal_msg : keeps.

Lemma keep_message_loop n :
  keeps P (message_loop supports useFallback screenSize keyEventsHaveCode ZS inflateInit inflateReset pako_inflate n).
Proof. induction n as [|n IH]; cbn [message_loop]; keep. Qed.
Hint Resolve keep_message_loop : keeps.

Abbreviation handle_message := (handle_message supports useFallback screenSize keyEventsHaveCode accepted ZS
  inflateInit inflateReset pako_inflate).

Lemma keep_handle_message : keeps P handle_message.
Proof. unfold Rfb.handle_message. keep. Qed.
Hint Resolve keep_handle_message : keeps.

(** *** Everything that can happen *)

Lemma keep_recv m data : keeps P m -> keeps P (recv_message r_sock m data).
Proof. intros Hm. unfold recv_message. keep. Qed.

Lemma keep_perform a :
  keeps P (perform supports useFallback screenSize dragThreshold keyEventsHaveCode accepted ZS
             inflateInit inflateReset pako_inflate a).
Proof.
  unfold perform. apply keeps_bind; [apply keeps_gets|intros r]. destruct a.
  all: unfold set_websocket, on_open, on_close, on_image, onFlush, windowResize, frame, init_timer, handleKeyEvent,
    disconnect, sendCredentials, xvpOp_, set_viewOnly, set_clipViewport_, set_scaleViewport,
    set_resizeSession, set_showDotCursor, set_options.
  all: keep.
  apply keep_recv. keep.
Qed.

Lemma keep_step r r' :
  step supports useFallback screenSize dragThreshold keyEventsHaveCode accepted ZS
    inflateInit inflateReset pako_inflate r r' -> P r -> P r'.
Proof.
  intros [a r0|fuel text r0 o r1 H] Hr; [by apply keep_perform|].
  unfold clipboardPasteFrom in H. destruct (negb (can_send ZS r0)); [by simplify_eq|].
  destruct (clientCutText fuel text (r_sock r0)) as [[o' s]|]; [|done]. injection H as <- <-.
  revert Hr. apply P_frame; by destruct r0.
Qed.

End Keep.

(** ** Lemmas: the transitions *)

Section Transitions.
Import Websock Rfb Lifecycle.
Context (useFallback : bool) {ZS : Type}.
Implicit Type r : rfb ZS.

Lemma life_other e r : is_life e = false -> life (r <| r_events := r_events r ++ [e] |>) = life r.
Proof.
  intros He. unfold life. destruct r. cbn. rewrite filter_app.
  rewrite (filter_cons_False _ e) by (intros Hx; by rewrite He in Hx). by rewrite filter_nil, app_nil_r.
Qed.

Lemma life_snoc e r : is_life e = true -> life (r <| r_events := r_events r ++ [e] |>) = life r ++ [e].
Proof.
  intros He. unfold life. destruct r. cbn. rewrite filter_app.
  by rewrite (filter_cons_True _ e) by (by rewrite He).
Qed.

Lemma coherent_frame r r' :
  r_conn r' = r_conn r -> r_events r' = r_events r -> coherent r -> coherent r'.
Proof. unfold coherent, life. by intros -> ->. Qed.

Lemma coherent_event e r :
  is_life e = false -> coherent r -> coherent (r <| r_events := r_events r ++ [e] |>).
Proof.
  intros He. unfold coherent. rewrite life_other by done. by destruct r.
Qed.

(** The disconnection itself neither changes the state nor tells anyone. *)
Lemma disconnect_frame r :
  r_conn (disconnect_ useFallback ZS r).2 = r_conn r
  /\ r_events (disconnect_ useFallback ZS r).2 = r_events r.
Proof.
  unfold disconnect_, cursor_detach, on_sock_. run_monad. destruct r. cbn.
  by destruct (useFallback && negb _).
Qed.

Lemma coherent_transition connect state :
  keeps coherent connect -> keeps coherent (transition useFallback ZS connect state).
Proof.
  intros Hc r Hr. unfold transition, mbind, M_bind, gets, skip, mret, M_ret.
  destruct (decide (state = r_conn r)) as [|Hne]; [done|].
  destruct (decide (r_conn r = Disconnected)) as [|Hnd]; [done|].
  destruct (allowed (r_conn r) state) eqn:Ha; cbn [negb]; [|done].
  unfold modify at 1. set (r1 := r <| r_conn := state |>).
  assert (Hl : life r1 = life r) by by destruct r.
  assert (H1 : r_conn r1 = state) by by destruct r.
  set (w := when _ _). assert (Hw : exists r2, w r1 = (Ret tt, r2) /\ r_conn r2 = state /\ life r2 = life r).
  { unfold w. destruct (_ && _); eexists; (split; [reflexivity|]); by destruct r. }
  destruct Hw as (r2 & -> & H2 & Hl2). unfold coherent in Hr. destruct state; cbn in Ha; try done.
  - apply bool_decide_eq_true in Ha. rewrite Ha in Hr. apply Hc. unfold coherent. by rewrite H2, Hl2.
  - apply bool_decide_eq_true in Ha. rewrite Ha in Hr. unfold coherent, dispatchEvent, modify. cbn [snd].
    rewrite life_snoc by done. rewrite Hl2, Hr. by destruct r2; cbn in *; subst.
  - pose proof (disconnect_frame r2) as [Hd1 Hd2].
    destruct (disconnect_ useFallback ZS r2) as [[u|e] r3]; cbn [snd] in *.
    all: unfold coherent, modify, life in *; cbn [snd]; rewrite ?Hd1, ?Hd2, ?H2, ?Hl2.
    + replace (r_conn (r3 <| r_disconnTimer := true |>)) with (r_conn r3) by by destruct r3.
      replace (r_events (r3 <| r_disconnTimer := true |>)) with (r_events r3) by by destruct r3.
      rewrite Hd1, H2, Hd2, Hl2.
      apply orb_true_iff in Ha as [Ha|Ha]; apply bool_decide_eq_true in Ha; rewrite Ha in Hr; auto.
    + apply orb_true_iff in Ha as [Ha|Ha]; apply bool_decide_eq_true in Ha; rewrite Ha in Hr; auto.
  - apply bool_decide_eq_true in Ha. rewrite Ha in Hr. unfold coherent, dispatchEvent, modify. cbn [snd].
    rewrite life_snoc by done. rewrite Hl2.
    replace (r_conn (r2 <| r_events := _ |>)) with (r_conn r2) by by destruct r2. rewrite H2.
    eexists. destruct Hr as [-> | ->]; [left|right]; reflexivity.
Qed.

(** The way of a connection: forward, and what has been told stays told. *)
Definition rank (c : conn) : nat :=
  match c with New => 0 | Connecting => 1 | Connected => 2 | Disconnecting => 3 | Disconnected => 4 end.
Definition past (n : nat) (l : list event) r : Prop := (n <= rank (r_conn r))%nat /\ l `prefix_of` life r.

Lemma past_frame n l r r' : r_conn r' = r_conn r -> r_events r' = r_events r -> past n l r -> past n l r'.
Proof. unfold past, life. by intros -> ->. Qed.

Lemma past_event n l e r : past n l r -> past n l (r <| r_events := r_events r ++ [e] |>).
Proof.
  intros [H1 H2]. split; [exact H1|]. unfold life. cbn [r_events]. etrans; [exact H2|].
  change (r_events (r <| r_events := r_events r ++ [e] |>)) with (r_events r ++ [e]). rewrite filter_app. by apply prefix_app_r.
Qed.

Lemma past_transition n l connect state : keeps (past n l) connect -> keeps (past n l) (transition useFallback ZS connect state).
Proof.
  intros Hc r [Hr Hl]. unfold transition, mbind, M_bind, gets, skip, mret, M_ret.
  destruct (decide (state = r_conn r)) as [|Hne]; [done|].
  destruct (decide (r_conn r = Disconnected)) as [|Hnd]; [done|].
  destruct (allowed (r_conn r) state) eqn:Ha; cbn [negb]; [|done].
  unfold modify at 1. set (r1 := r <| r_conn := state |>).
  assert (H1 : past n l r1).
  { split; [|exact Hl]. change (n <= rank state)%nat. etrans; [exact Hr|]. unfold allowed in Ha.
    destruct state; try done; rewrite ?orb_true_iff, ?bool_decide_eq_true in Ha.
    all: first [rewrite Ha; cbn; lia | destruct Ha as [-> | ->]; cbn; lia]. }
  set (w := when _ _). assert (Hw : exists r2, w r1 = (Ret tt, r2) /\ past n l r2).
  { unfold w. destruct (_ && _); eexists; (split; [reflexivity|exact H1]). }
  destruct Hw as (r2 & -> & H2). destruct state; [exact H2|by apply Hc| | |].
  - apply past_event, H2.
  - pose proof (disconnect_frame r2) as [Hd1 Hd2]. destruct (disconnect_ useFallback ZS r2) as [[u|e] r3]; cbn [snd] in *.
    all: by apply (past_frame n l r2).
  - apply past_event, H2.
Qed.

(** Once disconnected, nothing moves. *)
Definition ended (l : list event) r : Prop := r_conn r = Disconnected /\ life r = l.

Lemma ended_transition l connect state :
  keeps (ended l) connect -> keeps (ended l) (transition useFallback ZS connect state).
Proof.
  intros _ r [Hc Hl]. unfold transition, mbind, M_bind, gets. rewrite Hc.
  destruct (decide (state = Disconnected)); [by split|].
  by destruct (decide (Disconnected = Disconnected)).
Qed.

End Transitions.

(** ** Properties *)

Section Properties.
Import Websock Display Decoders Rfb Lifecycle.
Context (supports useFallback : bool) (screenSize : double * double) (dragThreshold : double)
  (keyEventsHaveCode accepted : bool).
Context (ZS : Type) (inflateInit : ZS) (inflateReset : ZS -> ZS)
  (pako_inflate : ZS -> list Z -> Z -> ZS * list Z).
Implicit Type r : rfb ZS.
Abbreviation step := (step supports useFallback screenSize dragThreshold keyEventsHaveCode accepted ZS
  inflateInit inflateReset pako_inflate).
Abbreviation constructor := (constructor supports ZS inflateInit).

Lemma past_steps r r' : rtc step r r' -> past (rank (r_conn r)) (life r) r'.
Proof.
  assert (H0 : past (rank (r_conn r)) (life r) r) by by split. revert H0.
  generalize (rank (r_conn r)) as n, (life r) as l. intros n l H0 H. induction H as [r1|r1 r2 r3 H _ IH]; [done|].
  apply IH. revert H0. eapply (keep_step supports useFallback screenSize dragThreshold keyEventsHaveCode accepted); [..|exact H].
  - apply past_frame.
  - intros e q _. apply past_event.
  - apply past_transition.
Qed.

(** [C1] The life of a connection: whatever the timers, the network, the user
    and the owner do, and in whatever order, the state only moves forward, from '' to
    'connecting', 'connected', 'disconnecting' and 'disconnected', and what the owner
    has been told is never taken back; the owner is told at most once that
    the connection is up and at most once that it is down, never up after down;
    told up exactly when the state has reached 'connected', told down exactly
    when it is 'disconnected'; and that state is permanent: nothing that happens
    later changes it or tells the owner again. *)
Theorem connection_lifecycle s d o r r' :
  rtc step (constructor s d o) r -> rtc step r r' ->
  coherent r
  /\ (rank (r_conn r) <= rank (r_conn r'))%nat /\ life r `prefix_of` life r'
  /\ (r_conn r = Disconnected -> r_conn r' = Disconnected /\ life r' = life r).
Proof.
  intros H1 H2. split; [|split_and!].
  - clear H2. assert (H0 : coherent (constructor s d o)) by done. revert H0.
    induction H1 as [r1|r1 r2 r3 H _ IH]; [done|]. intros Hc. apply IH. revert Hc.
    eapply (keep_step supports useFallback screenSize dragThreshold keyEventsHaveCode accepted); [..|exact H].
    + apply coherent_frame.
    + apply coherent_event.
    + apply coherent_transition.
  - apply (past_steps r r' H2).
  - apply (past_steps r r' H2).
  - clear H1. intros Hc. assert (He : ended (life r) r) by done. revert He. generalize (life r) as l. intros l.
    induction H2 as [r1|r1 r2 r3 H _ IH]; [done|]. intros He.
    assert (He2 : ended l r2).
    { revert He. eapply (keep_step supports useFallback screenSize dragThreshold keyEventsHaveCode accepted); [..|exact H].
      - unfold ended, life. by intros ? ? -> ->.
      - intros e r He [? ?]. split; [by destruct r|]. by rewrite life_other.
      - apply ended_transition. }
    apply IH; [apply He2|exact He2].
Qed.

End Properties.

(** ** Witness: a session that is started, disconnected and times out. *)

Section Example.
Import Websock Display Decoders Rfb Samples.

Definition started : rfb unit := Rfb.constructor true unit tt (sock_with []) (blank 4 4 4 4) defaults.

Definition perform_example := perform true false size (dbl_of_Z 7) true true unit tt id no_inflate.
Definition after (l : list action) : rfb unit := fold_left (fun r a => (perform_example a r).2) l started.

Lemma connection_lifecycle_witness :
  Lifecycle.coherent (after [AStart; ADisconnect; ADisconnTimeout]) /\
  r_conn (after [AStart; ADisconnect; ADisconnTimeout]) = Disconnected /\
  r_conn (after [AStart; ADisconnect; ADisconnTimeout; AStart]) = Disconnected.
Proof.
  pose proof (connection_lifecycle true false size (dbl_of_Z 7) true true unit tt id no_inflate
    (sock_with []) (blank 4 4 4 4) defaults
    (after [AStart; ADisconnect; ADisconnTimeout]) (after [AStart; ADisconnect; ADisconnTimeout; AStart])) as H.
  destruct H as (Hc & _ & _ & Hd).
  - apply (rtc_l _ _ (after [AStart])); [apply step_perform|].
    apply (rtc_l _ _ (after [AStart; ADisconnect])); [apply step_perform|].
    apply (rtc_l _ _ (after [AStart; ADisconnect; ADisconnTimeout])); [apply step_perform|].
    apply rtc_refl.
  - apply (rtc_l _ _ (after [AStart; ADisconnect; ADisconnTimeout; AStart])); [apply step_perform|].
    apply rtc_refl.
  - split; [exact Hc|]. assert (E : r_conn (after [AStart; ADisconnect; ADisconnTimeout]) = Disconnected) by reflexivity.
    split; [exact E|]. exact (proj1 (Hd E)).
Defined.

End Example.
