(* ===== verification/Session.v ===== *)
(** * Sessions: how the RFB object meets its owner and its server

    Opening, input, and the messages of a running session; each theorem is about
    the methods of Rfb.v as a whole. *)

From S2P Require Import Prelude Websock Messages Display Decoders Keys Rfb Samples Lifecycle.

(** ** Lemmas: methods of the parts, inside the object *)

Section Parts.
Import Websock ByteQueue Messages Display Decoders Rfb.
Context {ZS : Type}.
Implicit Type r : rfb ZS.

Lemma r_sock_run {A} (m : M sock A) r :
  on_sock_ ZS m r = let '(o, s) := m (r_sock r) in (o, r <| r_sock := s |>).
Proof. done. Qed.

Lemma r_sock_id r : r <| r_sock := r_sock r |> = r.
Proof. by destruct r as [[] ]. Qed.

(** Reading on in the socket of a session. *)
Definition r_advance (n : Z) r : rfb ZS := r <| r_sock := advance n (r_sock r) |>.

Lemma r_shift8 r b q :
  wf (r_sock r) -> unread (r_sock r) = b :: q ->
  on_sock_ ZS rQshift8 r = (Ret b, r_advance 1 r)
  /\ wf (r_sock (r_advance 1 r)) /\ unread (r_sock (r_advance 1 r)) = q.
Proof.
  intros Hw Hu. destruct (shift8 _ _ _ Hw Hu) as (E & _ & ? & ?). rewrite r_sock_run, E. done.
Qed.

Lemma transition_to useFallback connect state r :
  allowed (r_conn r) state = true ->
  transition useFallback ZS connect state r =
  (timer ← gets r_disconnTimer;
   when (timer && negb (bool_decide (state = Disconnecting)))
     (modify (fun r => r <| r_disconnTimer := false |> <| r_on_close := false |>));;
   match state with
   | Connecting => connect
   | Connected => dispatchEvent ZS EConnect
   | Disconnecting => disconnect_ useFallback ZS;; modify (fun r => r <| r_disconnTimer := true |>)
   | Disconnected => clean ← gets r_clean_disconnect; dispatchEvent ZS (EDisconnect clean)
   | New => skip
   end) (r <| r_conn := state |>).
Proof.
  intros Ha. unfold transition. rewrite bind_run, gets_run.
  rewrite decide_False by (intros E; rewrite <- E in Ha; destruct state; done).
  rewrite decide_False by (intros Hc; rewrite Hc in Ha; destruct state; done).
  rewrite Ha. cbn [negb]. rewrite bind_run, modify_run. done.
Qed.

(** [_disconnect] *)
Lemma disconnect_run useFallback r :
  useFallback = false \/ r_cursor_target r = true ->
  exists r', disconnect_ useFallback ZS r = (Ret tt, r')
    /\ r_conn r' = r_conn r /\ r_events r' = r_events r /\ r_FBU r' = r_FBU r
    /\ r_flushing r' = r_flushing r /\ r_sock r' = (close (r_sock r)).2
    /\ r_clean_disconnect r' = r_clean_disconnect r.
Proof.
  intros Ht. unfold disconnect_, cursor_detach. rewrite !bind_run, gets_run.
  replace (useFallback && negb (r_cursor_target r)) with false
    by (destruct Ht as [-> | ->]; [done|by rewrite andb_false_r]).
  rewrite modify_run, bind_run, modify_run, bind_run, r_sock_run.
  unfold close, modify. eexists. split; [reflexivity|]. done.
Qed.

(** [_fail] of a session that is up, or coming up. *)
Lemma fail_up useFallback r :
  r_conn r = Connected \/ r_conn r = Connecting -> useFallback = false \/ r_cursor_target r = true ->
  exists r', fail useFallback ZS r = (Ret false, r')
    /\ r_conn r' = Disconnected /\ r_events r' = r_events r ++ [EDisconnect false]
    /\ r_FBU r' = r_FBU r /\ r_flushing r' = r_flushing r /\ r_sock r' = (close (r_sock r)).2.
Proof.
  intros Hc Ht. unfold fail. rewrite bind_run, modify_run.
  set (r0 := r <| r_clean_disconnect := false |>).
  assert (Ha : allowed (r_conn r0) Disconnecting = true)
    by (change (r_conn r0) with (r_conn r); by destruct Hc as [-> | ->]).
  rewrite bind_run, transition_to by done. set (r1 := r0 <| r_conn := Disconnecting |>).
  rewrite bind_run, gets_run. rewrite (bool_decide_true (Disconnecting = Disconnecting)) by done.
  rewrite andb_false_r, bind_run. cbn [when]. unfold skip at 1, mret at 1, M_ret at 1. rewrite bind_run.
  destruct (disconnect_run useFallback r1) as (r2 & -> & Hc2 & He2 & Hf2 & Hl2 & Hs2 & Hcl2); [done|].
  rewrite modify_run, bind_run, transition_to by (change (allowed (r_conn r2) Disconnected = true); by rewrite Hc2).
  rewrite bind_run, gets_run, bind_run. set (r3 := r2 <| r_disconnTimer := true |> <| r_conn := Disconnected |>).
  change (r_disconnTimer r3) with true. cbn [andb]. rewrite bool_decide_false by done. cbn [negb when].
  rewrite modify_run, bind_run, gets_run. unfold dispatchEvent. rewrite modify_run.
  eexists. split; [reflexivity|]. split; [done|]. split; [|done].
  set (r4 := r3 <| r_disconnTimer := false |> <| r_on_close := false |>).
  change (r_events r4 ++ [EDisconnect (r_clean_disconnect r4)]
    = r_events r ++ [EDisconnect false]).
  change (r_events r4) with (r_events r2). change (r_clean_disconnect r4) with (r_clean_disconnect r2).
  by rewrite He2, Hcl2.
Qed.

Lemma close_queue s : wf s -> wf (close s).2 /\ unread (close s).2 = unread s
  /\ sk_rQi (close s).2 = sk_rQi s /\ rQ_buf (close s).2 = rQ_buf s.
Proof.
  intros [H1 H2 H3 H4 H5]. unfold close, modify. cbn [snd]. destruct (sk_websocket s); [|done].
  destruct s; done.
Qed.

End Parts.

(** ** Properties: opening *)

Section Opening.
Import Websock Display Decoders Rfb.
Context (supports useFallback : bool) (ZS : Type) (inflateInit : ZS).

(** When [WebSocket] refuses the address, the session ends in one of two
    wrong ways.  Where the browser shows the cursor itself, the owner is told,
    but [_connect] goes on and leaves the dead session's screen and listeners in
    the page.  Where the client draws the cursor (touch screens), the cursor is
    detached before it was ever attached: an exception escapes, the state stays
    'disconnecting', no timer runs, and the owner is never told. *)
Theorem failed_open s d o :
  let '(out, r) := updateConnectionState useFallback false ZS Connecting
                     (constructor supports ZS inflateInit s d o) in
  if useFallback
  then out = Throw TypeError /\ r_conn r = Disconnecting /\ r_events r = [] /\ r_disconnTimer r = false
  else out = Ret tt /\ r_conn r = Disconnected /\ r_events r = [EDisconnect false]
       /\ r_attached r = true.
Proof.
  destruct (updateConnectionState _ _ _ _ _) as [out r] eqn:E.
  assert (E1 : out = (updateConnectionState useFallback false ZS Connecting
                     (constructor supports ZS inflateInit s d o)).1) by by rewrite E.
  assert (E2 : r = (updateConnectionState useFallback false ZS Connecting
                     (constructor supports ZS inflateInit s d o)).2) by by rewrite E.
  clear E. subst. destruct useFallback, o as [? ? ? ? [|] ? ? ? ? ? ?]; repeat split.
Qed.

End Opening.

(** ** Properties: messages of a running session *)

Section Running.
Import Websock ByteQueue Messages Display Decoders Rfb.
Context (supports useFallback : bool) (screenSize : double * double) (dragThreshold : double)
  (keyEventsHaveCode accepted : bool).
Context (ZS : Type) (inflateInit : ZS) (inflateReset : ZS -> ZS)
  (pako_inflate : ZS -> list Z -> Z -> ZS * list Z).
Implicit Type r : rfb ZS.
Abbreviation normal_msg := (normal_msg supports useFallback screenSize keyEventsHaveCode ZS
  inflateInit inflateReset pako_inflate).
Abbreviation message_loop := (message_loop supports useFallback screenSize keyEventsHaveCode ZS
  inflateInit inflateReset pako_inflate).
Abbreviation handle_message := (handle_message supports useFallback screenSize keyEventsHaveCode accepted ZS
  inflateInit inflateReset pako_inflate).

(** The types of message the client knows. *)
Definition known_messages : list Z := [0; 1; 2; 3; 150; 248; 250].

Lemma normal_msg_type r t q :
  wf (r_sock r) -> unread (r_sock r) = t :: q -> u_rects (r_FBU r) = 0 ->
  (t = 2 -> normal_msg r = (Ret true, (r_advance 1 r) <| r_events := r_events r ++ [EBell] |>)) /\
  (t ∉ known_messages -> normal_msg r
     = (fail useFallback ZS ≫= fun _ => on_sock_ ZS (rQslice 0 (Some 30)) ≫= fun _ => mret true) (r_advance 1 r)).
Proof.
  intros Hw Hu H0. destruct (r_shift8 r t q Hw Hu) as (E & _ & _).
  unfold Rfb.normal_msg. rewrite bind_run, gets_run, H0, Z.ltb_irrefl, bind_run, E. split.
  - by intros ->.
  - intros Ht. unfold known_messages in Ht. rewrite !not_elem_of_cons in Ht.
    destruct Ht as (? & ? & ? & ? & ? & ? & ? & _).
    by rewrite !(proj2 (Z.eqb_neq _ _)) by done.
Qed.

(** A run of bells. *)
Lemma bells_loop n fuel r :
  wf (r_sock r) -> unread (r_sock r) = replicate (S n) 2 -> u_rects (r_FBU r) = 0 -> r_flushing r = false ->
  (n < fuel)%nat ->
  exists r', message_loop fuel r = (Ret true, r') /\ r_conn r' = r_conn r
    /\ r_events r' = r_events r ++ replicate (S n) EBell.
Proof.
  revert fuel r. induction n as [|n IH]; intros [|fuel] r Hw Hu H0 Hf Hn; try lia; cbn [Rfb.message_loop].
  all: rewrite bind_run, gets_run, Hf, bind_run;
    rewrite (proj1 (normal_msg_type r 2 _ Hw Hu H0) eq_refl);
    destruct (r_shift8 r 2 _ Hw Hu) as (_ & Hw1 & Hu1);
    set (r1 := (r_advance 1 r) <| r_events := _ |>);
    assert (E1 : r_sock r1 = r_sock (r_advance 1 r)) by done;
    assert (Hl : rQlen (r_sock r1) = zlen (unread (r_sock (r_advance 1 r)))) by (by rewrite E1, zlen_unread);
    rewrite bind_run, gets_run, Hl, Hu1.
  - exists r1. done.
  - cbn [negb orb]. rewrite (proj2 (Z.eqb_neq _ 0)) by (unfold zlen; cbn; lia).
    destruct (IH fuel r1) as (r' & E & Hc & He); [by rewrite E1|by rewrite E1|done|done|lia|].
    exists r'. split; [done|]. split; [by rewrite Hc|].
    rewrite He. change (r_events r1) with (r_events r ++ [EBell]). by rewrite <- app_assoc.
Qed.

(** A message of an unknown type is not the end of a session that has failed
    on it: the state is 'disconnected' and the owner has been told, and still the
    bytes behind it in the same message are taken for messages, here bells,
    whose events reach the owner after the disconnection. *)
Theorem unknown_message_continues r t n :
  wf (r_sock r) -> t ∉ known_messages -> unread (r_sock r) = t :: replicate (S n) 2 ->
  r_conn r = Connected -> u_rects (r_FBU r) = 0 -> r_flushing r = false ->
  useFallback = false \/ r_cursor_target r = true ->
  sk_rQi (r_sock r) + 31 <= zlen (rQ_buf (r_sock r)) ->
  let '(out, r') := handle_message r in
  out = Ret tt /\ r_conn r' = Disconnected
  /\ r_events r' = r_events r ++ EDisconnect false :: replicate (S n) EBell.
Proof.
  intros Hw Ht Hu Hc H0 Hf Hcur Hroom.
  assert (Hl : rQlen (r_sock r) = Z.of_nat (S (S n))).
  { rewrite <- zlen_unread, Hu by done. unfold zlen. cbn. rewrite length_replicate. done. }
  unfold Rfb.handle_message. rewrite bind_run, gets_run. cbn [id].
  rewrite Hl, (proj2 (Z.eqb_neq _ 0)), Hc by lia. rewrite bind_run.
  remember (S (S (S n))) as fuel eqn:Hfuel.
  replace (Z.to_nat (Z.of_nat (S (S n))) + 2)%nat with (S fuel) by lia.
  cbn [Rfb.message_loop]. rewrite bind_run, gets_run, Hf, bind_run.
  rewrite (proj2 (normal_msg_type r t _ Hw Hu H0) Ht).
  destruct (r_shift8 r t _ Hw Hu) as (_ & Hw1 & Hu1). rewrite bind_run.
  destruct (fail_up useFallback (r_advance 1 r)) as (r2 & -> & Hc2 & He2 & Hfb2 & Hfl2 & Hs2);
    [by left|done|].
  destruct (close_queue _ Hw1) as (Hw2 & Hu2 & Hi2 & Hb2). rewrite <- Hs2 in *.
  rewrite Hu1 in Hu2.
  assert (Hr : on_sock_ ZS (rQslice 0 (Some 30)) r2
    = (Ret (View (sk_rQ (r_sock r2)) (sk_rQi (r_sock r2) + 0) 30), r2)).
  { rewrite r_sock_run. unfold rQslice. rewrite bind_run, gets_run. cbn [id default from_option].
    pose proof Hw as [_ _ _ Ho _].
    assert (Hi : sk_rQi (r_sock r2) = sk_rQi (r_sock r) + 1) by (rewrite Hi2; unfold r_advance, advance; by destruct (r_sock r)).
    assert (Hb : rQ_buf (r_sock r2) = rQ_buf (r_sock r)) by (rewrite Hb2; apply rQ_buf_advance).
    rewrite rQview_in by (rewrite ?Hi, ?Hb; lia). by rewrite r_sock_id. }
  rewrite bind_run, Hr. unfold mret, M_ret.
  assert (Hl2 : rQlen (r_sock r2) = Z.of_nat (S n)).
  { rewrite <- zlen_unread, Hu2 by done. unfold zlen. cbn. by rewrite length_replicate. }
  rewrite bind_run, gets_run, Hl2. cbn [negb orb]. rewrite (proj2 (Z.eqb_neq _ 0)) by lia.
  destruct (bells_loop n fuel r2) as (r3 & -> & Hc3 & He3); [done|done| | |lia|].
  { by rewrite Hfb2. }
  { by rewrite Hfl2. }
  split; [done|]. split; [congruence|]. rewrite He3, He2. by rewrite <- app_assoc.
Qed.

End Running.

(** ** Properties: input *)

Section Input.
Import Websock ByteQueue Messages RfbFormat Display Decoders Keys Rfb.
Context (supports useFallback : bool) (screenSize : double * double) (dragThreshold : double)
  (keyEventsHaveCode accepted : bool).
Context (ZS : Type) (inflateInit : ZS) (inflateReset : ZS -> ZS)
  (pako_inflate : ZS -> list Z -> Z -> ZS * list Z).
Implicit Type r : rfb ZS.
Abbreviation perform := (perform supports useFallback screenSize dragThreshold keyEventsHaveCode accepted ZS
  inflateInit inflateReset pako_inflate).

Lemma disp_gets {A} (f : display -> A) r :
  on_disp supports ZS (fun _ _ => gets f) r = (Ret (f (dc_display (r_dec r))), r).
Proof. by destruct r as [[]]. Qed.

(** A message of at most 12 bytes on an idle connection. *)
Definition r_idle r : Prop := idle (r_sock r) /\ 12 <= sk_sQbufferSize (r_sock r).

Lemma push_r l r :
  r_idle r -> 0 < zlen l <= 12 ->
  exists r', on_sock_ ZS (push l) r = (Ret tt, r') /\ r_idle r'
    /\ sk_sent (r_sock r') = sk_sent (r_sock r) ++ [map toUint8 l]
    /\ (exists s, r' = r <| r_sock := s |>).
Proof.
  intros [Hi Hz] Hl. destruct (push_idle (r_sock r) l Hi ltac:(lia)) as (s & E & Hi' & Hz' & Hs).
  exists (r <| r_sock := s |>). rewrite r_sock_run, E. split; [done|]. split; [split; [done|]|].
  - change (r_sock (r <| r_sock := s |>)) with s. lia.
  - split; [done|eauto].
Qed.

(** A coordinate of the canvas in the session's picture. *)
Definition picture_at (scale x : double) (origin : Z) : Z :=
  dbl_trunc (if dbl_is0 scale then dbl_of_Z 0 else dbl_add (dbl_div x scale) (dbl_of_Z origin)).

Lemma sendPointer_at x y mask r :
  let d := dc_display (r_dec r) in
  r_idle r -> exists s, sendPointer supports ZS x y mask r = (Ret tt, r <| r_sock := s |>) /\ r_idle (r <| r_sock := s |>)
    /\ sk_sent s = sk_sent (r_sock r) ++ [layout (PointerEvent mask
         (picture_at (d_scale d) x (r_x (d_viewportLoc d))) (picture_at (d_scale d) y (r_y (d_viewportLoc d))))].
Proof.
  intros d Hi. unfold sendPointer, absX, absY. rewrite bind_run, disp_gets, bind_run, disp_gets.
  set (X := dbl_trunc _). set (Y := dbl_trunc _). unfold pointerEvent.
  destruct (push_r [5; mask; js_shr X 8; X; js_shr Y 8; Y] r Hi ltac:(unfold zlen; cbn; lia))
    as (r' & E & Hi' & Hs & Hr).
  destruct Hr as [s ->]. exists s. split; [done|]. split; [done|]. change (r_sock (r <| r_sock := s |>)) with s in Hs.
  rewrite Hs. do 2 f_equal. cbn [map layout u8 u16 app]. by rewrite !shr_byte by lia.
Qed.

Lemma sendPointer_run x y mask r :
  r_idle r -> exists r' X Y, sendPointer supports ZS x y mask r = (Ret tt, r') /\ r_idle r'
    /\ sk_sent (r_sock r') = sk_sent (r_sock r) ++ [layout (PointerEvent mask X Y)]
    /\ (exists s, r' = r <| r_sock := s |>).
Proof. intros Hi. destruct (sendPointer_at x y mask r Hi) as (s & E & Hi' & Hs). eauto 10. Qed.

(** [C25] What the owner forbids is not sent: without a running session, or in
    view-only mode, no key, no key sequence, no paste, no pointer motion and no
    pointer button (of a page that does not drag the viewport) reaches the
    socket. *)
Theorem input_gated r :
  can_send ZS r = false ->
  (forall keysym code down, perform (AKey keysym code down) r = (Ret tt, r)) /\
  (forall keysym code down, perform (ASendKey keysym code down) r = (Ret tt, r)) /\
  perform ASendCtrlAltDel r = (Ret tt, r) /\
  (forall fuel text, clipboardPasteFrom ZS fuel text r = Some (Ret tt, r)) /\
  (forall x y, r_sock (perform (AMouseMove x y) r).2 = r_sock r) /\
  (forall x y down bmask, o_dragViewport (r_options r) = false ->
     r_sock (perform (AMouseButton x y down bmask) r).2 = r_sock r).
Proof.
  intros Hc. assert (Hkey : forall keysym code down, sendKey ZS keysym code down r = (Ret tt, r)).
  { intros. unfold sendKey. rewrite bind_run, gets_run. cbn [id]. by rewrite Hc. }
  assert (Hptr : forall m x y, pointer_unless_viewOnly supports ZS x y (r <| r_mouse := m |>)
    = (Ret tt, r <| r_mouse := m |>)).
  { intros. unfold pointer_unless_viewOnly. rewrite bind_run, gets_run. cbn [id].
    change (r_options (r <| r_mouse := m |>)) with (r_options r).
    change (r_conn (r <| r_mouse := m |>)) with (r_conn r). unfold can_send in Hc.
    destruct (o_viewOnly (r_options r)); [done|]. rewrite andb_true_r in Hc. by rewrite Hc. }
  repeat split; intros; unfold Rfb.perform; rewrite ?bind_run, ?gets_run; cbn [id].
  - unfold handleKeyEvent. destruct (r_grabbed r); [apply Hkey|done].
  - apply Hkey.
  - unfold sendCtrlAltDel. rewrite bind_run, gets_run. cbn [id]. by rewrite Hc.
  - unfold clipboardPasteFrom. by rewrite Hc.
  - destruct (r_grabbed r); [|done]. cbn [when]. unfold handleMouseMove. rewrite bind_run, gets_run. cbn [id].
    destruct (m_viewportDragging _).
    + destruct (_ || _); [|done]. unfold set_mouse. rewrite bind_run, modify_run.
      unfold on_disp, on_dec, on_display, zoom. rewrite bind_run, gets_run. unfold zoom.
      destruct (viewportChangePos _ _ _ _ _) as [? ?]. by destruct r as [[]].
    + pose proof (Hptr (r_mouse r) x y) as H. replace (r <| r_mouse := r_mouse r |>) with r in H by by destruct r.
      by rewrite H.
  - destruct (r_grabbed r); [|done]. cbn [when]. unfold handleMouseButton, set_mouse.
    rewrite bind_run, modify_run, bind_run, gets_run. cbn [id].
    set (m := setf m_buttonMask _ _). change (r_options (r <| r_mouse := m |>)) with (r_options r).
    rewrite H. by rewrite Hptr.
Qed.

(** A click of a page that drags the viewport escapes that rule: in
    view-only mode, and even when the session is not running, pressing and
    releasing a button without moving sends a pointer event with the button
    down. *)
Theorem drag_click_sends r x y bmask :
  o_viewOnly (r_options r) = true -> o_dragViewport (r_options r) = true ->
  m_viewportDragging (r_mouse r) = false -> r_idle r ->
  exists r' X Y,
    (handleMouseButton supports ZS x y true bmask;; handleMouseButton supports ZS x y false bmask) r
      = (Ret tt, r')
    /\ sk_sent (r_sock r') = sk_sent (r_sock r) ++ [layout (PointerEvent bmask X Y)].
Proof.
  intros Hv Hd Hm Hi. rewrite bind_run. unfold handleMouseButton at 1, set_mouse.
  rewrite bind_run, modify_run, bind_run, gets_run. cbn [id]. set (r1 := r <| r_mouse := _ |>).
  change (r_options r1) with (r_options r). rewrite Hd.
  change (m_viewportDragging (r_mouse r1)) with (m_viewportDragging (r_mouse r)). rewrite Hm. cbn [negb andb].
  rewrite modify_run. set (r2 := r1 <| r_mouse := _ |>).
  unfold handleMouseButton, set_mouse. rewrite bind_run, modify_run, bind_run, gets_run. cbn [id].
  set (r3 := r2 <| r_mouse := _ |>). change (r_options r3) with (r_options r). rewrite Hd. cbn [andb].
  rewrite bind_run, modify_run. change (m_viewportHasMoved (r_mouse r3)) with false. cbv iota.
  set (r4 := r3 <| r_mouse := _ |>). rewrite bind_run.
  destruct (sendPointer_run x y bmask r4 Hi) as (r5 & X & Y & -> & _ & Hs & s & Hr5).
  unfold pointer_unless_viewOnly. rewrite bind_run, gets_run. cbn [id].
  replace (r_options r5) with (r_options r) by (rewrite Hr5; done). rewrite Hv.
  exists r5, X, Y. split; [done|]. exact Hs.
Qed.

(** The messages a key event becomes. *)
Definition key_messages (qemu : bool) (keysym : Z) (code : string) (down : bool) : list message :=
  let plain := if keysym =? 0 then [] else [KeyEvent (b2z down) keysym] in
  match scancode code with
  | Some sc => if qemu && negb (sc =? 0) then [QemuKeyEvent (b2z down) keysym (getRFBkeycode sc)] else plain
  | None => plain
  end.

Lemma send_key_run r keysym code down :
  can_send ZS r = true -> r_idle r ->
  exists s, send_key ZS keysym code down r = (Ret tt, r <| r_sock := s |>) /\ r_idle (r <| r_sock := s |>)
    /\ sk_sent s = sk_sent (r_sock r) ++ map layout (key_messages (r_qemuExtKeyEventSupported r) keysym code down).
Proof.
  intros Hc Hi. unfold send_key, key_messages. rewrite bind_run, gets_run. cbn [id]. rewrite Hc. cbn [negb]. cbv zeta.
  set (plain := if keysym =? 0 then [] else _).
  assert (Hplain : exists s, (if keysym =? 0 then skip else on_sock_ ZS (keyEvent keysym (b2z down))) r = (Ret tt, r <| r_sock := s |>)
    /\ r_idle (r <| r_sock := s |>) /\ sk_sent s = sk_sent (r_sock r) ++ map layout plain).
  { unfold plain. destruct (keysym =? 0); [exists (r_sock r); rewrite r_sock_id, app_nil_r; done|]. unfold keyEvent.
    destruct (push_r [4; b2z down; 0; 0; js_shr keysym 24; js_shr keysym 16; js_shr keysym 8; keysym] r Hi
      ltac:(unfold zlen; cbn; lia)) as (r' & E & Hi' & Hs & s & ->).
    exists s. split; [done|]. split; [done|]. change (r_sock (r <| r_sock := s |>)) with s in Hs. rewrite Hs. do 2 f_equal.
    cbn [map layout u8 u16 u32 app]. rewrite !shr_byte by lia. done. }
  destruct (scancode code) as [sc|]; [|done].
  destruct (r_qemuExtKeyEventSupported r && negb (sc =? 0)); [|done].
  unfold QEMUExtendedKeyEvent. set (kc := getRFBkeycode sc).
  destruct (push_r [255; 0; js_shr (b2z down) 8; b2z down; js_shr keysym 24; js_shr keysym 16; js_shr keysym 8;
    keysym; js_shr kc 24; js_shr kc 16; js_shr kc 8; kc] r Hi ltac:(unfold zlen; cbn; lia))
    as (r' & E & Hi' & Hs & s & ->).
  exists s. split; [done|]. split; [done|]. change (r_sock (r <| r_sock := s |>)) with s in Hs. rewrite Hs. do 2 f_equal.
  cbn [map layout u8 u16 u32 app]. rewrite !shr_byte by lia. done.
Qed.

(** A key reaches the server as one message: with the scan code of the
    physical key beside the keysym when the server takes it and the key is known,
    as a plain key event otherwise, and not at all when it has neither a scan
    code to send nor a keysym. *)
Theorem key_message r keysym code down :
  can_send ZS r = true -> r_idle r ->
  exists r', send_key ZS keysym code down r = (Ret tt, r')
    /\ sk_sent (r_sock r') = sk_sent (r_sock r) ++
         match scancode code with
         | Some sc =>
             if r_qemuExtKeyEventSupported r && negb (sc =? 0)
             then [layout (QemuKeyEvent (b2z down) keysym (getRFBkeycode sc))]
             else if keysym =? 0 then [] else [layout (KeyEvent (b2z down) keysym)]
         | None => if keysym =? 0 then [] else [layout (KeyEvent (b2z down) keysym)]
         end.
Proof.
  intros Hc Hi. destruct (send_key_run r keysym code down Hc Hi) as (s & E & _ & Hs). eexists. split; [exact E|].
  change (r_sock (r <| r_sock := s |>)) with s. rewrite Hs. f_equal. unfold key_messages.
  destruct (scancode code) as [sc|]; [destruct (_ && _); [done|]|]; by destruct (keysym =? 0).
Qed.

End Input.

(** ** Lemmas: reading a queue whose bytes are known *)

Section Known.
Import Websock ByteQueue Messages Canvas Rfb.
Implicit Type s : sock.

(** The socket is sound and its unread bytes are [q]. *)
Definition holds s (q : list Z) : Prop := wf s /\ unread s = q.

Lemma holds_len s q : holds s q -> rQlen s = zlen q.
Proof. intros [Hw <-]. by rewrite zlen_unread. Qed.

Lemma holds_skip s l q : holds s (l ++ q) -> rQskipBytes (zlen l) s = (Ret tt, advance (zlen l) s)
  /\ holds (advance (zlen l) s) q.
Proof.
  intros [Hw Hu]. destruct (view_unread s (zlen l) l q Hw Hu eq_refl) as (_ & _ & ? & ?). done.
Qed.

Lemma holds_8 s b q : holds s (b :: q) -> rQshift8 s = (Ret b, advance 1 s) /\ holds (advance 1 s) q /\ is_byte b.
Proof. intros [Hw Hu]. destruct (shift8 s b q Hw Hu) as (? & ? & ? & ?). done. Qed.

Lemma holds_16 s n q : u16 n -> holds s (be16 n ++ q) ->
  rQshift16 s = (Ret n, advance 2 s) /\ holds (advance 2 s) q.
Proof. intros Hn [Hw Hu]. destruct (shift16 s n q Hw Hn Hu) as (? & ? & ?). done. Qed.

Lemma holds_32 s n q : holds s (be_bytes n ++ q) ->
  rQshift32 s = (Ret (toInt32 n), advance 4 s) /\ holds (advance 4 s) q.
Proof.
  intros [Hw Hu]. destruct (view_unread s 4 (be_bytes n) q Hw Hu eq_refl) as (_ & _ & ? & ?).
  split; [|done]. unfold rQshift32. unfold be_bytes in Hu. cbn [app] in Hu.
  by rewrite (rQshift_four s _ _ _ _ _ Hw Hu), be32_be_bytes, toInt32_mod32.
Qed.

Lemma holds_str s l q : holds s (l ++ q) ->
  rQshiftStr (Some (zlen l)) s = (Ret l, advance (zlen l) s) /\ holds (advance (zlen l) s) q.
Proof.
  intros H. pose proof (holds_len _ _ H) as Hl. destruct (holds_skip _ _ _ H) as [_ H']. destruct H as [Hw Hu].
  rewrite zlen_app in Hl. pose proof (zlen_nonneg l). pose proof (zlen_nonneg q).
  split; [|done]. rewrite rQshiftStr_in by (done || lia). rewrite Hu. do 2 f_equal.
  unfold slice, zlen. by rewrite drop_0, Nat2Z.id, take_app_length.
Qed.

Lemma holds_take s l q : holds s (l ++ q) ->
  rQtake (zlen l) s = (Ret l, advance (zlen l) s) /\ holds (advance (zlen l) s) q.
Proof.
  intros H. pose proof (holds_len _ _ H) as Hl. destruct (holds_skip _ _ _ H) as [_ H']. destruct H as [Hw Hu].
  rewrite zlen_app in Hl. pose proof (zlen_nonneg l). pose proof (zlen_nonneg q).
  split; [|done]. rewrite rQtake_in by (done || lia). rewrite Hu. do 2 f_equal.
  unfold slice, zlen. by rewrite drop_0, Nat2Z.id, take_app_length.
Qed.

(** A view of the next bytes. *)
Lemma holds_view s l q : holds s (l ++ q) ->
  (exists v, rQshiftBytes (Some (zlen l)) s = (Ret v, advance (zlen l) s)) /\ holds (advance (zlen l) s) q.
Proof.
  intros H. destruct (holds_skip _ _ _ H) as [_ H']. destruct H as [Hw Hu].
  destruct (view_unread s (zlen l) l q Hw Hu eq_refl) as (_ & E & _). split; [by eexists|done].
Qed.

Lemma holds_wait s q n g : holds s q -> n <= zlen q -> rQwait n g s = (Ret false, s).
Proof.
  intros H Hn. unfold rQwait. rewrite bind_run, gets_run. cbn [id].
  by rewrite (holds_len _ _ H), (proj2 (Z.ltb_ge _ _)).
Qed.

(** Not enough: back to where the reading began. *)
Lemma holds_back s l q n : holds s (l ++ q) -> zlen q < n ->
  rQwait n (zlen l) (advance (zlen l) s) = (Ret true, s).
Proof.
  intros H Hn. destruct (holds_skip _ _ _ H) as [_ H']. unfold rQwait. rewrite bind_run, gets_run. cbn [id].
  rewrite (holds_len _ _ H'), (proj2 (Z.ltb_lt _ _)) by done. pose proof (zlen_nonneg l).
  destruct H as [[_ _ _ Ho _] _].
  destruct (Z.eqb_spec (zlen l) 0) as [->|]; rewrite bind_run.
  - unfold skip, mret, M_ret. f_equal. destruct s. unfold advance. cbn. by rewrite Z.add_0_r.
  - rewrite (proj2 (Z.ltb_ge (sk_rQi (advance (zlen l) s)) _)) by (destruct s; cbn in *; lia).
    unfold rQskipBytes. rewrite modify_run. unfold mret, M_ret. f_equal. destruct s. unfold advance. cbn. f_equal. lia.
Qed.

(** Sending does not touch what is to be read. *)
Lemma push_unread l s : unread (push l s).2 = unread s /\ (wf s -> wf (push l s).2).
Proof.
  assert (H : forall x, x = (push l s).2 ->
    x = s <| sk_sQ := sk_sQ x |> <| sk_sQlen := sk_sQlen x |> <| sk_sent := sk_sent x |>).
  { intros x ->. unfold push, sQ_write, Websock.flush. rewrite bind_run, modify_run, bind_run, gets_run. cbn [id].
    destruct s as [ws i len size mx q sbs sl sq h rc sent]. cbn.
    destruct (0 <? _); [|done]. destruct ws as [[]|]; try done. by destruct (_ <? _). }
  rewrite (H _ eq_refl). split; [by destruct s|]. intros [? ? ? ? ?]. by destruct s.
Qed.

Context {ZS : Type}.
Implicit Type r : rfb ZS.

Lemma to_sock {A} (m : M (rfb ZS) A) r : m r = m (r <| r_sock := r_sock r |>).
Proof. by rewrite r_sock_id. Qed.

Lemma r_sock_step {A B} (m : M sock A) (f : A -> M (rfb ZS) B) r s s' a :
  m s = (Ret a, s') -> (on_sock_ ZS m ≫= f) (r <| r_sock := s |>) = f a (r <| r_sock := s' |>).
Proof. intros E. unfold on_sock_, zoom, mbind, M_bind. change (r_sock (r <| r_sock := s |>)) with s. by rewrite E. Qed.

End Known.

(** ** Properties: messages that are answered *)

Section Answers.
Import Websock ByteQueue Messages RfbFormat Canvas Display Decoders Rfb.
Context (useFallback : bool) (screenSize : double * double) (ZS : Type).
Implicit Type r : rfb ZS.

Lemma request_bit f3 f2 f1 f0 :
  is_byte f3 -> is_byte f2 -> is_byte f1 -> is_byte f0 -> 128 <= f3 ->
  js_and (toInt32 (be32 f3 f2 f1 f0)) (js_shl 1 31) <> 0
  /\ js_and (toInt32 (be32 f3 f2 f1 f0)) (js_or (js_shl 1 0) (js_shl 1 1)) = f0 mod 4.
Proof.
  intros H3 H2 H1 H0 Hr. unfold is_byte in *. set (n := toInt32 _).
  assert (Hn : n = be32 f3 f2 f1 f0 - 2 ^ 32).
  { unfold n, toInt32, be32. rewrite Z.mod_small by lia. by rewrite (proj2 (Z.ltb_ge _ _)) by lia. }
  assert (Hs : toInt32 n = n) by (apply toInt32_small, toInt32_range). unfold js_and. rewrite Hs. split.
  - change (toInt32 (js_shl 1 31)) with (- 2 ^ 31). intros Hz.
    assert (Hb : Z.testbit (Z.land n (- 2 ^ 31)) 31 = false) by (rewrite Hz; apply Z.bits_0).
    rewrite Z.land_spec in Hb. change (Z.testbit (- 2 ^ 31) 31) with true in Hb. rewrite andb_true_r in Hb.
    rewrite Z.testbit_eqb, Z.eqb_neq in Hb by lia. apply Hb. rewrite Hn. unfold be32.
    change (2 ^ 31) with 2147483648. change (2 ^ 32) with 4294967296. change (2 ^ 24) with 16777216.
    change (2 ^ 16) with 65536. change (2 ^ 8) with 256. zlia.
  - change (toInt32 (js_or (js_shl 1 0) (js_shl 1 1))) with (Z.ones 2). rewrite Z.land_ones by lia.
    rewrite Hn. unfold be32. change (2 ^ 2) with 4. change (2 ^ 32) with 4294967296. change (2 ^ 24) with 16777216.
    change (2 ^ 16) with 65536. change (2 ^ 8) with 256. zlia.
Qed.

(** A fence request is answered at once, in one message, with the two flags
    the client supports and the first 64 bytes of its payload.  When the payload
    is longer, the bytes past the 64th are answered to nobody and are not read
    either: they are what the client takes for its next messages. *)
Theorem fence_echo r pad f3 f2 f1 f0 payload rest :
  idle (r_sock r) -> 128 <= sk_sQbufferSize (r_sock r) -> 128 <= f3 -> zlen pad = 3 -> zlen payload < 256 ->
  holds (r_sock r) (pad ++ [f3; f2; f1; f0; zlen payload] ++ payload ++ rest) ->
  exists r', handle_server_fence_msg useFallback ZS r = (Ret true, r')
    /\ sk_sent (r_sock r') = sk_sent (r_sock r) ++ [layout (ClientFence (f0 mod 4) (take 64 payload))]
    /\ unread (r_sock r') = drop 64 payload ++ rest
    /\ r_supportsFence r' = true.
Proof.
  intros Hi Hz Hf Hpad Hp H. pose proof (zlen_nonneg payload) as Hn1. pose proof (zlen_nonneg rest) as Hn2.
  rewrite (to_sock _ r). unfold handle_server_fence_msg.
  rewrite (r_sock_step _ _ _ _ _ _ (holds_wait _ _ 8 1 H ltac:(rewrite !zlen_app; unfold zlen in *; cbn; lia))).
  destruct (holds_skip _ _ _ H) as [E1 H1]. rewrite Hpad in E1, H1. rewrite (r_sock_step _ _ _ _ _ _ E1).
  set (s1 := advance 3 (r_sock r)) in *. cbn [app] in H1. pose proof H1 as [Hw1 Hu1].
  assert (Hb : bytes [f3; f2; f1; f0]).
  { pose proof (unread_bytes _ Hw1) as Hb. rewrite Hu1 in Hb. by apply (Forall_app is_byte [f3; f2; f1; f0] _) in Hb as [? _]. }
  rewrite !Forall_cons in Hb. destruct Hb as (Hb3 & Hb2 & Hb1 & Hb0 & _).
  pose proof (rQshift_four s1 _ _ _ _ _ Hw1 Hu1) as E2. fold rQshift32 in E2.
  rewrite (r_sock_step rQshift32 _ _ _ _ _ E2).
  destruct (holds_skip s1 [f3; f2; f1; f0] _ H1) as [_ H2]. change (zlen [f3; f2; f1; f0]) with 4 in H2.
  destruct (holds_8 _ _ _ H2) as (E3 & H3 & _). rewrite (r_sock_step _ _ _ _ _ _ E3).
  rewrite (r_sock_step _ _ _ _ _ _ (holds_wait _ _ (zlen payload) 9 H3 ltac:(rewrite zlen_app; lia))).
  set (s3 := advance 1 (advance 4 s1)) in *.
  assert (Hlen : (if 64 <? zlen payload then 64 else zlen payload) = zlen (take 64 payload)).
  { unfold zlen in *. rewrite length_take. destruct (Z.ltb_spec 64 (Z.of_nat (length payload))); lia. }
  rewrite <- (take_drop 64 payload), <- app_assoc in H3. rewrite Hlen.
  destruct (holds_str _ _ _ H3) as [E4 H4]. rewrite (r_sock_step _ _ _ _ _ _ E4).
  set (s4 := advance (zlen (take 64 payload)) s3) in *. rewrite bind_run, modify_run.
  destruct (request_bit f3 f2 f1 f0 Hb3 Hb2 Hb1 Hb0 Hf) as [Hreq Hflags].
  rewrite (proj2 (Z.eqb_neq _ 0) Hreq), Hflags. unfold clientFence. set (fl := f0 mod 4). set (pl := take 64 payload).
  assert (Hs4 : sk_sent s4 = sk_sent (r_sock r) /\ idle s4 /\ sk_sQbufferSize s4 = sk_sQbufferSize (r_sock r)).
  { unfold s4, s3, s1, advance, idle in *. by destruct (r_sock r). }
  destruct Hs4 as (Hsent & Hidle & Hsize).
  assert (Hpl : zlen pl <= 64) by (unfold pl, zlen; rewrite length_take; lia).
  destruct (push_idle s4 ([248; 0; 0; 0; js_shr fl 24; js_shr fl 16; js_shr fl 8; fl; zlen pl] ++ pl) Hidle) as (s5 & E5 & _ & _ & Hs5).
  { rewrite zlen_app, Hsize. unfold zlen in *. cbn. lia. }
  rewrite bind_run, r_sock_run. change (r_sock (r <| r_sock := s4 |> <| r_supportsFence := true |>)) with s4.
  rewrite E5. eexists. split; [reflexivity|]. split; [|split; [|done]].
  - change (sk_sent s5 = sk_sent (r_sock r) ++ [layout (ClientFence fl pl)]).
    rewrite Hs5, Hsent. do 2 f_equal. cbn [layout u8 u16 u32 app map].
    rewrite !shr_byte by lia. done.
  - change (unread s5 = drop 64 payload ++ rest). destruct H4 as [_ <-].
    match type of E5 with push ?l _ = _ => pose proof (push_unread l s4) as Hpu end.
    rewrite E5 in Hpu. exact (proj1 Hpu).
Qed.

End Answers.

(** ** Properties: framebuffer updates *)

Section Updates.
Import Websock ByteQueue Messages RfbFormat Canvas Display Decoders Rfb.
Context (supports useFallback : bool) (screenSize : double * double) (keyEventsHaveCode : bool).
Context (ZS : Type) (inflateInit : ZS) (inflateReset : ZS -> ZS)
  (pako_inflate : ZS -> list Z -> Z -> ZS * list Z).
Implicit Type r : rfb ZS.
Abbreviation rect_loop := (rect_loop supports useFallback screenSize keyEventsHaveCode ZS
  inflateInit inflateReset pako_inflate).
Abbreviation normal_msg := (normal_msg supports useFallback screenSize keyEventsHaveCode ZS
  inflateInit inflateReset pako_inflate).

(** A rectangle copied from another place. *)
Record copy := Copy { cp_x : Z; cp_y : Z; cp_w : Z; cp_h : Z; cp_from_x : Z; cp_from_y : Z }.

Definition copy_ok (c : copy) : Prop :=
  u16 (cp_x c) /\ u16 (cp_y c) /\ u16 (cp_w c) /\ u16 (cp_h c) /\ u16 (cp_from_x c) /\ u16 (cp_from_y c).

Definition copy_header (c : copy) : list Z :=
  be16 (cp_x c) ++ be16 (cp_y c) ++ be16 (cp_w c) ++ be16 (cp_h c) ++ be_bytes encodingCopyRect.
Definition encode_copy (c : copy) : list Z :=
  copy_header c ++ be16 (cp_from_x c) ++ be16 (cp_from_y c).

Definition draw_copy (c : copy) : draw :=
  DCopy (cp_from_x c) (cp_from_y c) (cp_x c) (cp_y c) (cp_w c) (cp_h c).

Lemma header_u16 n : u16 n -> js_shl (nint (Some (n / 256))) 8 + nint (Some (n mod 256)) = n.
Proof.
  intros Hn. unfold u16, nint in *. cbn [default from_option id].
  rewrite !toInt32_small by zlia. rewrite js_shl_byte by (unfold is_byte; zlia).
  rewrite toInt32_small by zlia. change (2 ^ 8) with 256. zlia.
Qed.

Lemma rect_header_bytes b0 b1 b2 b3 b4 b5 b6 b7 b8 b9 b10 b11 u :
  let at_ b := nint (Some b) in
  rect_header [b0; b1; b2; b3; b4; b5; b6; b7; b8; b9; b10; b11] u =
  Fbu (u_rects u) (js_shl (at_ b0) 8 + at_ b1) (js_shl (at_ b2) 8 + at_ b3) (js_shl (at_ b4) 8 + at_ b5)
    (js_shl (at_ b6) 8 + at_ b7)
    (Some (js_shl (at_ b8) 24 + js_shl (at_ b9) 16 + js_shl (at_ b10) 8 + at_ b11)).
Proof. done. Qed.

Lemma rect_header_copy c u :
  copy_ok c -> rect_header (copy_header c) u
    = Fbu (u_rects u) (cp_x c) (cp_y c) (cp_w c) (cp_h c) (Some encodingCopyRect).
Proof.
  intros (H1 & H2 & H3 & H4 & _ & _). unfold copy_header, be16, be_bytes. cbn [app].
  rewrite rect_header_bytes, !header_u16 by done. done.
Qed.

Lemma copyrect_run c x y w h depth (dec : decoding ZS) q :
  holds (dc_sock dec) (be16 (cp_from_x c) ++ be16 (cp_from_y c) ++ q) -> copy_ok c ->
  d_renderQ (dc_display dec) = [] -> coherent (dc_display dec) ->
  exists d', decodeRect supports ZS inflateInit inflateReset pako_inflate CopyRect x y w h depth dec
      = (Ret true, dec <| dc_sock := advance 4 (dc_sock dec) |> <| dc_display := d' |>)
    /\ holds (advance 4 (dc_sock dec)) q
    /\ step_ok (dc_display dec) d' [DCopy (cp_from_x c) (cp_from_y c) x y w h].
Proof.
  intros H (_ & _ & _ & _ & H5 & H6) Hq Hc. destruct dec as [s d L sub hx t tp]. cbn [dc_sock dc_display] in *.
  destruct (holds_16 _ _ _ H5 H) as [E1 H1]. destruct (holds_16 _ _ _ H6 H1) as [E2 H2].
  rewrite advance_advance in *. change (2 + 2) with 4 in *.
  destruct (copy_now_spec (cp_from_x c) (cp_from_y c) x y w h d Hc) as (d' & Ed & Hs).
  exists d'. split; [|done]. cbn [decodeRect]. unfold copyrect_decodeRect, on_display, mbind, M_bind.
  rewrite on_sock_run. cbn [dc_sock]. rewrite (holds_wait _ _ 4 0 H) by (rewrite !zlen_app; pose proof (zlen_nonneg q); unfold zlen; cbn; lia).
  rewrite on_sock_run, with_sock_eq. cbn [dc_sock]. rewrite E1.
  rewrite on_sock_run, with_sock_eq. cbn [dc_sock]. rewrite E2. rewrite with_sock_eq.
  unfold gets, zoom. cbn [dc_display dc_sock]. unfold copyImage, queued, mbind, M_bind, gets. rewrite Hq.
  cbn [bool_decide decide]. rewrite bool_decide_true by done. cbn [negb]. rewrite Ed. done.
Qed.

(** One rectangle of the update. *)
Lemma rect_one fuel r c q k :
  copy_ok c -> holds (r_sock r) (encode_copy c ++ q) -> u_rects (r_FBU r) = k -> u_encoding (r_FBU r) = None ->
  0 < k -> d_renderQ (dc_display (r_dec r)) = [] -> coherent (dc_display (r_dec r)) ->
  exists dec u, rect_loop (S fuel) r = rect_loop fuel (r <| r_dec := dec |> <| r_FBU := u |>)
    /\ u_rects u = k - 1 /\ u_encoding u = None /\ holds (dc_sock dec) q
    /\ sk_sent (dc_sock dec) = sk_sent (r_sock r) /\ sk_sQ (dc_sock dec) = sk_sQ (r_sock r)
    /\ sk_sQlen (dc_sock dec) = sk_sQlen (r_sock r) /\ sk_websocket (dc_sock dec) = sk_websocket (r_sock r)
    /\ sk_sQbufferSize (dc_sock dec) = sk_sQbufferSize (r_sock r)
    /\ step_ok (dc_display (r_dec r)) (dc_display dec) [draw_copy c].
Proof.
  intros Hok H Hu1 Hu2 Hk Hq Hc. cbn [Rfb.rect_loop]. rewrite bind_run, gets_run, Hu1, (proj2 (Z.ltb_lt 0 k)), Hu2 by done.
  assert (Hz : zlen (copy_header c) = 12) by done.
  unfold encode_copy in H. rewrite <- !app_assoc in H.
  destruct (holds_take _ _ _ H) as [Et Ht]. rewrite Hz in *.
  rewrite bind_run, bind_run, r_sock_run.
  rewrite (holds_wait _ _ 12 0 H) by (rewrite !zlen_app, Hz; pose proof (zlen_nonneg q); unfold zlen; cbn; lia).
  rewrite r_sock_id, bind_run, r_sock_run, Et. unfold set_FBU. rewrite bind_run, modify_run.
  change (r_FBU (r <| r_sock := advance 12 (r_sock r) |>)) with (r_FBU r).
  rewrite rect_header_copy, Hu1 by done. set (u := Fbu k _ _ _ _ _).
  set (r1 := r <| r_sock := _ |> <| r_FBU := u |>). unfold mret at 1, M_ret at 1. cbv iota. rewrite bind_run.
  unfold handleRect. rewrite bind_run, gets_run. change (u_encoding (r_FBU r1)) with (Some encodingCopyRect).
  cbn [default from_option id]. change (r_FBU r1) with u.
  change (encodingCopyRect =? pseudoEncodingLastRect) with false.
  change (encodingCopyRect =? pseudoEncodingCursor) with false.
  change (encodingCopyRect =? pseudoEncodingQEMUExtendedKeyEvent) with false.
  change (encodingCopyRect =? pseudoEncodingDesktopSize) with false.
  change (encodingCopyRect =? pseudoEncodingExtendedDesktopSize) with false. cbv iota.
  unfold handleDataRect. rewrite bind_run, gets_run. cbn [id]. change (r_FBU r1) with u.
  change (decoder_of (default 0 (u_encoding u))) with (Some CopyRect). cbv iota.
  destruct (copyrect_run c (u_x u) (u_y u) (u_width u) (u_height u) (r_fb_depth r1) (r_dec r1) q) as (d' & Ed & Hh & Hs);
    [exact Ht|done|exact Hq|exact Hc|].
  unfold catch, on_dec, zoom. rewrite Ed. rewrite bind_run, modify_run.
  eexists _, _. split; [reflexivity|].
  assert (Hadv : forall s n, sk_sent (advance n s) = sk_sent s /\ sk_sQ (advance n s) = sk_sQ s
    /\ sk_sQlen (advance n s) = sk_sQlen s /\ sk_websocket (advance n s) = sk_websocket s
    /\ sk_sQbufferSize (advance n s) = sk_sQbufferSize s) by (by intros []).
  destruct (Hadv (r_sock r1) 4) as (A1 & A2 & A3 & A4 & A5).
  destruct (Hadv (r_sock r) 12) as (B1 & B2 & B3 & B4 & B5).
  change (dc_sock (r_dec r1)) with (advance 12 (r_sock r)) in *. change (r_sock r1) with (advance 12 (r_sock r)) in *.
  split; [cbn; lia|]. split; [done|]. split; [exact Hh|].
  split; [exact (eq_trans A1 B1)|]. split; [exact (eq_trans A2 B2)|]. split; [exact (eq_trans A3 B3)|].
  split; [exact (eq_trans A4 B4)|]. split; [exact (eq_trans A5 B5)|].
  exact Hs.
Qed.

(** The loop over the rest of the update, and the flip. *)
Lemma rects_copied l fuel r q :
  Forall copy_ok l -> holds (r_sock r) (concat (map encode_copy l) ++ q) ->
  u_rects (r_FBU r) = zlen l -> u_encoding (r_FBU r) = None -> (length l <= fuel)%nat ->
  d_renderQ (dc_display (r_dec r)) = [] -> coherent (dc_display (r_dec r)) ->
  exists r' dec u, rect_loop fuel r = (Ret true, r') /\ r' = r <| r_dec := dec |> <| r_FBU := u |>
    /\ u_rects u = 0 /\ u_encoding u = None /\ holds (dc_sock dec) q
    /\ sk_sent (dc_sock dec) = sk_sent (r_sock r) /\ (idle (r_sock r) -> idle (dc_sock dec))
    /\ sk_sQbufferSize (dc_sock dec) = sk_sQbufferSize (r_sock r)
    /\ step_ok (dc_display (r_dec r)) (dc_display dec) (map draw_copy l ++ [DFlip]).
Proof.
  intros Hok. revert fuel r. induction Hok as [|c l Hc Hl IH]; intros fuel r H Hn He Hf Hq Hd.
  - exists (on_disp supports ZS (fun b h => flip b h) r).2.
    destruct (flip_now_spec (dc_display (r_dec r)) Hd) as (d' & Ed & Hs).
    assert (Ef : on_disp supports ZS (fun b h => flip b h) r
      = (Ret tt, r <| r_dec := (r_dec r) <| dc_display := d' |> |>)).
    { unfold on_disp, on_dec, on_display, zoom. rewrite bind_run, gets_run. unfold zoom.
      assert (E0 : flip supports (sk_heap (dc_sock (r_dec r))) (dc_display (r_dec r)) = (Ret tt, d')).
      { unfold flip, queued. rewrite bind_run, gets_run, Hq. rewrite bool_decide_true by done. exact Ed. }
      by rewrite E0. }
    rewrite Ef. exists ((r_dec r) <| dc_display := d' |>), (r_FBU r).
    destruct fuel as [|fuel]; cbn [Rfb.rect_loop];
      rewrite bind_run, gets_run, Hn; change (0 <? zlen []) with false; cbv iota; rewrite bind_run, Ef;
      (split; [reflexivity|]); (split; [by destruct r|]); done.
  - destruct fuel as [|fuel]; [cbn in Hf; lia|]. cbn [map concat] in H. rewrite <- app_assoc in H.
    rewrite zlen_cons in Hn. pose proof (zlen_nonneg l).
    destruct (rect_one fuel r c _ (1 + zlen l) Hc H Hn He ltac:(lia) Hq Hd)
      as (dec & u & E & Hu1 & Hu2 & Hh & S1 & S2 & S3 & S4 & S5 & Hs).
    set (r1 := r <| r_dec := dec |> <| r_FBU := u |>) in *.
    destruct (IH fuel r1) as (r' & dec' & u' & E' & -> & Hu1' & Hu2' & Hh' & T1 & T2 & T3 & Hs');
      [exact Hh|change (u_rects u = zlen l); lia|exact Hu2|cbn in Hf; lia|
       change (d_renderQ (dc_display dec) = []); by rewrite (so_queue _ _ _ Hs)|exact (so_style _ _ _ Hs)|].
    change (r_sock r1) with (dc_sock dec) in *. change (r_dec r1) with dec in *.
    exists (r <| r_dec := dec' |> <| r_FBU := u' |>), dec', u'.
    split; [by rewrite E, E'|]. split; [done|]. split; [done|]. split; [done|]. split; [done|].
    split; [congruence|]. split.
    { intros (I1 & I2 & I3). apply T2. unfold idle. rewrite S2, S3, S4, S5. done. }
    split; [congruence|]. destruct Hs as [? ? ? ? ? D1], Hs' as [? ? ? ? ? D2].
    split; try congruence. rewrite D2, D1. by rewrite <- app_assoc.
Qed.

(** The message from its type to the number of its rectangles. *)
Lemma copy_update_header r n pad rest :
  u_rects (r_FBU r) = 0 -> d_renderQ (dc_display (r_dec r)) = [] -> 0 <= n < 65536 ->
  holds (r_sock r) ([0; pad] ++ be16 n ++ rest) ->
  exists s3,
    normal_msg r = (ret ← rect_loop (Z.to_nat n); r ← gets id;
                    when (ret && negb (r_enabledContinuousUpdates r))
                      (on_sock_ ZS (fbUpdateRequest true 0 0 (r_fb_width r) (r_fb_height r)));; mret ret)
                   (r <| r_sock := s3 |> <| r_FBU := (r_FBU r) <| u_rects := n |> |>)
    /\ holds s3 rest /\ sk_sent s3 = sk_sent (r_sock r) /\ (idle (r_sock r) -> idle s3)
    /\ sk_sQbufferSize s3 = sk_sQbufferSize (r_sock r).
Proof.
  intros H0 Hq Hn H. cbn [app] in H.
  unfold Rfb.normal_msg. rewrite bind_run, gets_run, H0, Z.ltb_irrefl, bind_run.
  destruct (holds_8 _ _ _ H) as (E1 & H1 & _). rewrite r_sock_run, E1. cbn [Z.eqb].
  set (s1 := advance 1 (r_sock r)) in *. set (r1 := r <| r_sock := s1 |>).
  assert (Hx : forall s n, sk_sent (advance n s) = sk_sent s /\ (idle s -> idle (advance n s))
    /\ sk_sQbufferSize (advance n s) = sk_sQbufferSize s) by (by intros []).
  rewrite bind_run. unfold framebufferUpdate. rewrite bind_run, gets_run.
  change (r_FBU r1) with (r_FBU r). rewrite H0. change (0 =? 0) with true. cbv iota.
  rewrite bind_run, bind_run. unfold r1. rewrite (r_sock_run (rQwait 3 1)). change (r_sock (r <| r_sock := s1 |>)) with s1.
  rewrite (holds_wait s1 _ 3 1 H1) by (rewrite zlen_cons, zlen_app; pose proof (zlen_nonneg rest); unfold zlen at 1; cbn; lia).
  change (r <| r_sock := s1 |> <| r_sock := s1 |>) with (r <| r_sock := s1 |>).
  destruct (holds_skip s1 [pad] _ H1) as [E2 H2]. change (zlen [pad]) with 1 in *. set (s2 := advance 1 s1) in *.
  rewrite (r_sock_step _ _ _ _ _ _ E2).
  destruct (holds_16 s2 n _ ltac:(unfold u16; lia) H2) as [E3 H3]. set (s3 := advance 2 s2) in *.
  rewrite (r_sock_step _ _ _ _ _ _ E3). unfold set_FBU. rewrite bind_run, modify_run.
  change (r_FBU (r <| r_sock := s3 |>)) with (r_FBU r).
  set (r3 := r <| r_sock := s3 |> <| r_FBU := _ |>).
  rewrite bind_run. unfold pending, queued. rewrite disp_gets.
  change (dc_display (r_dec r3)) with (dc_display (r_dec r)). rewrite Hq. rewrite bool_decide_true by done.
  cbn [negb]. cbv iota. unfold mret at 1, M_ret at 1. rewrite bind_run, gets_run.
  exists s3. split; [by rewrite bind_run|].
  destruct (Hx s2 2) as (X1 & X2 & X3), (Hx s1 1) as (Y1 & Y2 & Y3), (Hx (r_sock r) 1) as (Z1 & Z2 & Z3).
  fold s1 in Z1, Z2, Z3. fold s2 in Y1, Y2, Y3. fold s3 in X1, X2, X3.
  split; [done|]. split; [congruence|]. split; [auto|congruence].
Qed.

(** The request of the next update. *)
Lemma update_requested r w h q :
  r_idle ZS r -> holds (r_sock r) q ->
  exists s', on_sock_ ZS (fbUpdateRequest true 0 0 w h) r = (Ret tt, r <| r_sock := s' |>) /\ holds s' q
    /\ sk_sent s' = sk_sent (r_sock r) ++ [layout (UpdateRequest 1 0 0 w h)].
Proof.
  intros Hi Hh. unfold fbUpdateRequest.
  match goal with |- context [push ?l] => destruct (push_r ZS l r Hi) as (r5 & E5 & _ & Hsent & s5 & Hr5); [unfold zlen; cbn; lia|];
    pose proof (push_unread l (r_sock r)) as Hp end.
  rewrite E5, Hr5. exists s5. split; [done|]. split.
  - revert E5. rewrite r_sock_run. destruct (push _ _) as [o s']. cbn [snd] in Hp. intros E5. injection E5 as -> E5.
    assert (s' = s5) as -> by (rewrite Hr5 in E5; by apply (f_equal (r_sock (ZS := ZS))) in E5).
    destruct Hp as [Hp1 Hp2], Hh as [Hh1 Hh2]. split; [by apply Hp2|]. rewrite Hp1. exact Hh2.
  - change s5 with (r_sock (r <| r_sock := s5 |>)). rewrite <- Hr5, Hsent. do 2 f_equal.
    cbn [map layout u8 RfbFormat.u16 app]. rewrite !toUint8_shr_mask, !toUint8_mask. done.
Qed.

(** [C15] A framebuffer update of CopyRect rectangles that has arrived whole, on a
    display with nothing queued: every rectangle is copied, in order, each from
    its own source to its place, and then all is shown; the message is consumed to its last byte; then
    the next incremental update is requested, of the whole framebuffer, unless
    the server sends updates continuously. *)
Theorem copyrect_update r l pad q :
  Forall copy_ok l -> 0 < zlen l < 65536 -> r_idle ZS r ->
  u_rects (r_FBU r) = 0 -> u_encoding (r_FBU r) = None ->
  d_renderQ (dc_display (r_dec r)) = [] -> coherent (dc_display (r_dec r)) ->
  holds (r_sock r) ([0; pad] ++ be16 (zlen l) ++ concat (map encode_copy l) ++ q) ->
  exists r', normal_msg r = (Ret true, r')
    /\ d_draw (dc_display (r_dec r')) = d_draw (dc_display (r_dec r)) ++ map draw_copy l ++ [DFlip]
    /\ holds (r_sock r') q /\ u_rects (r_FBU r') = 0 /\ u_encoding (r_FBU r') = None
    /\ sk_sent (r_sock r') = sk_sent (r_sock r)
         ++ (if r_enabledContinuousUpdates r then []
             else [layout (UpdateRequest 1 0 0 (r_fb_width r) (r_fb_height r))]).
Proof.
  intros Hok Hlen [Hidle Hsize] H0 He Hq Hd H.
  destruct (copy_update_header r (zlen l) pad _ H0 Hq ltac:(lia) H) as (s3 & -> & H3 & X1 & X2 & X3).
  set (r3 := r <| r_sock := s3 |> <| r_FBU := (r_FBU r) <| u_rects := zlen l |> |>).
  destruct (rects_copied l (Z.to_nat (zlen l)) r3 q Hok H3 eq_refl He ltac:(unfold zlen; lia) Hq Hd)
    as (r4 & dec & u & E4 & -> & Hu1 & Hu2 & Hh & Hs1 & Hs2 & Hs3 & Hstep).
  rewrite bind_run, E4, bind_run, gets_run. cbn [id andb].
  set (r4 := r3 <| r_dec := dec |> <| r_FBU := u |>). change (r_sock r3) with s3 in *.
  change (r_enabledContinuousUpdates r4) with (r_enabledContinuousUpdates r).
  change (r_fb_width r4) with (r_fb_width r). change (r_fb_height r4) with (r_fb_height r).
  destruct (r_enabledContinuousUpdates r); cbn [negb when].
  - exists r4. split; [done|]. split; [exact (so_draw _ _ _ Hstep)|]. split; [exact Hh|]. split; [exact Hu1|].
    split; [exact Hu2|]. rewrite app_nil_r. change (r_sock r4) with (dc_sock dec). congruence.
  - assert (Hi4 : r_idle ZS r4).
    { split; [change (idle (dc_sock dec)); auto|]. change (12 <= sk_sQbufferSize (dc_sock dec)). by rewrite Hs3, X3. }
    destruct (update_requested r4 (r_fb_width r) (r_fb_height r) q Hi4 Hh) as (s5 & E5 & Hs5 & Hsent).
    rewrite bind_run, E5. exists (r4 <| r_sock := s5 |>). split; [done|]. split; [exact (so_draw _ _ _ Hstep)|].
    split; [exact Hs5|]. split; [exact Hu1|]. split; [exact Hu2|].
    change (sk_sent s5 = sk_sent (r_sock r) ++ [layout (UpdateRequest 1 0 0 (r_fb_width r) (r_fb_height r))]).
    rewrite Hsent. change (r_sock r4) with (dc_sock dec). congruence.
Qed.

End Updates.

(** ** Witnesses *)

Section Examples.
Import Websock ByteQueue Messages RfbFormat Canvas Display Decoders Rfb Samples.

Lemma session_holds c q : bytes q -> (length q <= 256)%nat -> holds (r_sock (session c q)) q.
Proof. intros Hb Hl. split; [by apply sock_with_wf|apply sock_with_unread]. Qed.

Lemma session_idle c q : r_idle unit (session c q).
Proof. repeat split. discriminate. Qed.

Lemma unknown_message_continues_witness :
  r_events (handle_message true false size true true unit tt id no_inflate (session Connected [99; 2; 2])).2
    = [EDisconnect false; EBell; EBell].
Proof.
  pose proof (session_holds Connected [99; 2; 2] ltac:(by repeat constructor) ltac:(cbn; lia)) as [Hw Hu].
  pose proof (unknown_message_continues true false size true true unit tt id no_inflate
    (session Connected [99; 2; 2]) 99 1 Hw) as H.
  destruct (handle_message _ _ _ _ _ _ _ _ _ _) as [out r'].
  apply H; [by unfold known_messages; rewrite !not_elem_of_cons; repeat split; try discriminate; apply not_elem_of_nil|exact Hu|done|done|done|by left|].
  vm_compute. discriminate.
Defined.

Lemma input_gated_witness :
  perform true false size (dbl_of_Z 7) true true unit tt id no_inflate (ASendKey 97 "KeyA" (Some true)) (session Connecting [])
    = (Ret tt, session Connecting []).
Proof.
  apply (proj1 (proj2 (input_gated true false size (dbl_of_Z 7) true true unit tt id no_inflate (session Connecting []) eq_refl))).
Defined.

Lemma drag_click_sends_witness :
  exists r' X Y, sk_sent (r_sock (r' : rfb unit)) = [layout (PointerEvent 1 X Y)].
Proof.
  pose (r := (session Disconnected []) <| r_options := defaults <| o_viewOnly := true |> <| o_dragViewport := true |> |>).
  destruct (drag_click_sends true unit r (dbl_of_Z 1) (dbl_of_Z 2) 1) as (r' & X & Y & _ & H); [done..|exact (session_idle Disconnected [])|].
  exists r', X, Y. exact H.
Defined.

(** The key "a", down, on a plain server. *)
Lemma key_message_witness :
  exists r', send_key unit 97 "KeyA" true (session Connected []) = (Ret tt, r')
    /\ sk_sent (r_sock r') = [[4; 1; 0; 0; 0; 0; 0; 97]].
Proof.
  destruct (key_message unit (session Connected []) 97 "KeyA" true) as (r' & E & H); [done|apply session_idle|].
  exists r'. split; [exact E|]. rewrite H. vm_compute. reflexivity.
Defined.

(** A payload of 66 bytes: the last two stay, in front of what follows. *)
Lemma fence_echo_witness :
  exists r', handle_server_fence_msg false unit
      (session Connected ([0; 0; 0] ++ [128; 0; 0; 3; 66] ++ replicate 66 5 ++ [2])) = (Ret true, r')
    /\ unread (r_sock r') = [5; 5; 2].
Proof.
  destruct (fence_echo false unit (session Connected ([0; 0; 0] ++ [128; 0; 0; 3; 66] ++ replicate 66 5 ++ [2]))
    [0; 0; 0] 128 0 0 3 (replicate 66 5) [2]) as (r' & E & _ & H & _); [done|done|lia|done|done| |].
  { apply session_holds; [by repeat constructor|cbn; lia]. }
  exists r'. split; [exact E|]. rewrite H. reflexivity.
Defined.

(** Two rectangles, and the next update is asked for. *)
Lemma copyrect_update_witness :
  let l := [Copy 0 0 2 2 2 2; Copy 1 1 2 2 0 0] in
  exists r', normal_msg true false size true unit tt id no_inflate
      (session Connected ([0; 0] ++ be16 2 ++ concat (map encode_copy l) ++ [2])) = (Ret true, r')
    /\ d_draw (dc_display (r_dec r')) = [DCopy 2 2 0 0 2 2; DCopy 0 0 1 1 2 2; DFlip]
    /\ unread (r_sock r') = [2]
    /\ sk_sent (r_sock r') = [[3; 1; 0; 0; 0; 0; 0; 0; 0; 0]].
Proof.
  intros l. assert (Hok : Forall copy_ok l).
  { repeat constructor; cbn; lia. }
  destruct (copyrect_update true false size true unit tt id no_inflate
    (session Connected ([0; 0] ++ be16 2 ++ concat (map encode_copy l) ++ [2])) l 0 [2])
    as (r' & E & Hd & [_ Hh] & _ & _ & Hs); [done|done|apply session_idle|done|done|done|by left| |].
  { apply session_holds; [by repeat constructor|cbn; lia]. }
  exists r'. split; [exact E|]. split; [exact Hd|]. split; [exact Hh|]. exact Hs.
Defined.

End Examples.
