(* ===== verification/Handshake.v ===== *)
(** * The RFB handshake

    The negotiation of Rfb.v, message by message, against the protocol: what the
    client answers to each message of the server and when the session is up. *)

From S2P Require Import Prelude Websock Messages Display Decoders Strings Rfb Samples Session.

(** ** Lemmas: code that cannot throw *)

Section Returns.
Import Websock Display.

Definition returns {S A} (m : M S A) : Prop := forall s, exists a s', m s = (Ret a, s').

Lemma returns_bind {S A B} (m : M S A) (f : A -> M S B) :
  returns m -> (forall a, returns (f a)) -> returns (m ≫= f).
Proof.
  intros Hm Hf s. destruct (Hm s) as (a & s' & E). unfold mbind, M_bind. rewrite E. apply Hf.
Qed.

Lemma returns_ret {S A} (a : A) : returns (mret (M := M S) a).
Proof. intros s. by exists a, s. Qed.

Lemma returns_gets {S A} (f : S -> A) : returns (gets f).
Proof. intros s. by eexists _, _. Qed.

Lemma returns_modify {S} (f : S -> S) : returns (modify f).
Proof. intros s. by eexists _, _. Qed.

Lemma returns_when {S} b (m : M S unit) : returns m -> returns (when b m).
Proof. destruct b; [done|]. intros _. apply returns_ret. Qed.

Ltac returns_step :=
  repeat first
    [ assumption
    | match goal with
      | |- returns (mbind _ _) => apply returns_bind; [|intros ?]
      | |- returns (mret _) => apply returns_ret
      | |- returns skip => apply returns_ret
      | |- returns (gets _) => apply returns_gets
      | |- returns (modify _) => apply returns_modify
      | |- returns (when _ _) => apply returns_when
      | |- returns (if ?b then _ else _) => destruct b
      | |- returns (match ?x with _ => _ end) => destruct x
      | |- returns (let '_ := ?x in _) => destruct x
      end
    | progress cbv zeta ].

Context (supports : bool) (h : heap).

Lemma returns_flip : returns (flip supports h).
Proof.
  intros d. unfold flip, queued. rewrite bind_run, gets_run.
  destruct (bool_decide_reflect (d_renderQ d = [])) as [Hq|Hq]; cbn [negb].
  - apply returns_modify.
  - unfold renderQ_push. rewrite bind_run, modify_run, bind_run, gets_run.
    replace (length _ =? 1)%nat with false; [by eexists _, _|]. symmetry. apply Nat.eqb_neq.
    change (length (d_renderQ d ++ [AFlip]) <> 1%nat). rewrite length_app. destruct (d_renderQ d); [done|]. cbn. lia.
Qed.

Lemma returns_changePos x y : returns (viewportChangePos supports h x y).
Proof. unfold viewportChangePos, damage. pose proof returns_flip. returns_step. Qed.

Lemma returns_changeSize w hh : returns (viewportChangeSize supports h w hh).
Proof.
  unfold viewportChangeSize, damage, rescale. pose proof returns_flip. pose proof (returns_changePos 0 0). returns_step.
Qed.

Lemma returns_resize w hh : returns (resize supports h w hh).
Proof.
  unfold resize, log_draw. pose proof (returns_changePos 0 0). returns_step. all: apply returns_changeSize.
Qed.

Lemma returns_set_clip b : returns (set_clipViewport supports h b).
Proof.
  unfold set_clipViewport. pose proof (returns_changePos 0 0). returns_step. all: apply returns_changeSize.
Qed.

Lemma returns_autoscale w hh : returns (autoscale w hh).
Proof. unfold autoscale, rescale. returns_step. Qed.

End Returns.

(** ** Lemmas: the sending side of the socket *)

Section Sending.
Import Websock ByteQueue Messages Canvas Rfb.
Implicit Type s : sock.

(** The connection is open and can take a message of 128 bytes. *)
Definition ready s : Prop :=
  idle s /\ sk_receiving s = true /\ 128 <= sk_sQbufferSize s.

(** What does not concern reading. *)
Definition sending s := (sk_websocket s, sk_sQbufferSize s, sk_sQlen s, sk_sQ s, sk_receiving s, sk_sent s).

Lemma ready_sending s s' : sending s' = sending s -> ready s -> ready s'.
Proof. unfold sending, ready, idle. intros [= -> -> -> -> -> _]. done. Qed.

Lemma sent_sending s s' : sending s' = sending s -> sk_sent s' = sk_sent s.
Proof. by intros [= _ _ _ _ _ ->]. Qed.

Lemma sending_advance n s : sending (advance n s) = sending s.
Proof. by destruct s. Qed.

Lemma push_ready l s :
  ready s -> 0 < zlen l <= 128 ->
  exists s', push l s = (Ret tt, s') /\ ready s' /\ sk_sent s' = sk_sent s ++ [map toUint8 l]
    /\ (forall q, holds s q -> holds s' q).
Proof.
  intros (Hi & Hr & Hz) Hl. destruct (push_idle s l Hi ltac:(lia)) as (s' & E & Hi' & Hz' & Hs).
  exists s'. split; [done|]. pose proof (push_unread l s) as Hp. rewrite E in Hp. cbn [snd] in Hp.
  split; [split; [done|split; [|lia]]|split; [done|]].
  - assert (Hrec : sk_receiving (push l s).2 = sk_receiving s).
    { unfold push, sQ_write, Websock.flush. rewrite bind_run, modify_run, bind_run, gets_run. cbn [id].
      destruct s as [ws i len size mx q sbs sl sq h rc sent]. cbn.
      destruct (0 <? _); [|done]. destruct ws as [[]|]; try done. by destruct (_ <? _). }
    rewrite E in Hrec. cbn [snd] in Hrec. congruence.
  - intros q [Hw Hu]. split; [by apply Hp|]. by rewrite (proj1 Hp).
Qed.

(** [send] of a connection with nothing queued writes as the messages do. *)
Lemma send_push l s : idle s -> zlen l <= sk_sQbufferSize s -> send l s = push l s.
Proof.
  intros (Hw & Hq & Hz) Hl. unfold send, push, sQ_write. rewrite bind_run, gets_run. cbn [id].
  rewrite (proj2 (Z.ltb_ge _ _)) by lia. rewrite !bind_run, !modify_run.
  rewrite buff_write_splice by lia. done.
Qed.

Lemma send_ready l s :
  ready s -> 0 < zlen l <= 128 ->
  exists s', send l s = (Ret tt, s') /\ ready s' /\ sk_sent s' = sk_sent s ++ [map toUint8 l]
    /\ (forall q, holds s q -> holds s' q).
Proof.
  intros Hr Hl. destruct (push_ready l s Hr Hl) as (s' & E & H). exists s'. split; [|done].
  destruct Hr as (Hi & _ & Hz). by rewrite send_push by (done || lia).
Qed.

(** A message from the server and the compaction after it leave the sending side alone. *)
Lemma sending_keeps x :
  (forall u8, keeps (fun s => sending s = x) (decode_message u8)) /\ keeps (fun s => sending s = x) compact.
Proof.
  assert (Hm : forall f, (forall s, sending (f s) = sending s) -> keeps (fun s => sending s = x) (modify f)).
  { intros f Hf. apply keeps_modify. intros s. by rewrite Hf. }
  assert (He : forall n, keeps (fun s => sending s = x) (expand_compact_rQ n)).
  { intros n. unfold expand_compact_rQ, resize_rQ, repack_rQ, realloc_rQ.
    keeps_by ltac:(fun _ => apply Hm; by intros []). }
  split; [intros u8|].
  - unfold decode_message, rQ_set. keeps_by ltac:(fun _ => first [apply He | apply Hm; by intros []]).
  - unfold compact. keeps_by ltac:(fun _ => first [apply He | apply Hm; by intros []]).
Qed.

(** A message that arrives at an empty queue, and its handler, [base] being what
    the handler leaves beside the socket. *)
Lemma message_run {ZS} (m : M (rfb ZS) unit) r data (Q : rfb ZS -> Prop) sent :
  ready (r_sock r) -> holds (r_sock r) [] -> bytes data -> 0 < zlen data <= MAX_RQ_GROW_SIZE ->
  (forall s, ready s -> holds s data -> sk_sent s = sk_sent (r_sock r) ->
     exists base s', m (r <| r_sock := s |>) = (Ret tt, base <| r_sock := s' |>) /\ Q base
       /\ ready s' /\ holds s' [] /\ sk_sent s' = sk_sent s ++ sent) ->
  exists base s', recv_message r_sock m data r = (Ret tt, base <| r_sock := s' |>) /\ Q base
    /\ ready s' /\ holds s' [] /\ sk_sent s' = sk_sent (r_sock r) ++ sent.
Proof.
  intros Hr [Hw Hu] Hb Hz Hm.
  destruct (decode_message_spec (r_sock r) data Hw Hb) as (s & E & Hws & Hus); [rewrite Hu; unfold zlen in *; cbn; lia|].
  rewrite Hu in Hus. assert (Hs : sending s = sending (r_sock r)).
  { pose proof (proj1 (sending_keeps (sending (r_sock r))) data (r_sock r) eq_refl) as H. by rewrite E in H. }
  destruct (Hm s (ready_sending _ _ Hs Hr) (conj Hws Hus) (sent_sending _ _ Hs)) as (base & s1 & Em & HQ & Hr1 & [Hw1 Hu1] & Hs1).
  destruct (compact_spec s1 Hw1) as (s' & E' & Hws' & Hus').
  assert (Hs' : sending s' = sending s1).
  { pose proof (proj2 (sending_keeps (sending s1)) _ eq_refl) as H. by rewrite E' in H. }
  exists base, s'. split.
  - unfold recv_message. rewrite bind_run. unfold zoom. rewrite E, bind_run, gets_run.
    change (r_sock (r <| r_sock := s |>)) with s. rewrite <- zlen_unread, Hus by done.
    cbn [app]. rewrite (proj2 (Z.ltb_lt _ _)) by lia. rewrite bind_run, Em.
    change (r_sock (base <| r_sock := s1 |>)) with s1. by rewrite E'.
  - split; [done|]. split; [by apply (ready_sending s1)|]. split; [split; [done|congruence]|].
    by rewrite (sent_sending _ _ Hs'), Hs1, (sent_sending _ _ Hs).
Qed.

End Sending.

(** ** The handshake of protocol 3.8 without authentication *)

Section Handshake.
Import Websock ByteQueue Messages RfbFormat Canvas Display Decoders Strings Rfb.
Context (supports useFallback : bool) (screenSize : double * double) (dragThreshold : double)
  (keyEventsHaveCode accepted : bool).
Context (ZS : Type) (inflateInit : ZS) (inflateReset : ZS -> ZS)
  (pako_inflate : ZS -> list Z -> Z -> ZS * list Z).
Implicit Type r : rfb ZS.
Abbreviation init_msg := (init_msg supports useFallback screenSize accepted ZS).
Abbreviation perform := (perform supports useFallback screenSize dragThreshold keyEventsHaveCode accepted ZS
  inflateInit inflateReset pako_inflate).

Lemma step_in {A B} (m : M sock A) (f : A -> M (rfb ZS) B) r s s' a :
  r_sock r = s -> m s = (Ret a, s') -> (on_sock_ ZS m ≫= f) r = f a (r <| r_sock := s' |>).
Proof. intros <- E. by rewrite bind_run, r_sock_run, E. Qed.

Lemma sock_in {A} (m : M sock A) r s s' a :
  m s = (Ret a, s') -> on_sock_ ZS m (r <| r_sock := s |>) = (Ret a, r <| r_sock := s' |>).
Proof. intros E. rewrite r_sock_run. change (r_sock (r <| r_sock := s |>)) with s. by rewrite E. Qed.

Lemma gets_in {A B} (f : rfb ZS -> A) (k : A -> M (rfb ZS) B) r a : f r = a -> (gets f ≫= k) r = k a r.
Proof. by intros <-. Qed.

Lemma modify_in {B} (f : rfb ZS -> rfb ZS) (k : unit -> M (rfb ZS) B) r r' : f r = r' -> (modify f ≫= k) r = k tt r'.
Proof. by intros <-. Qed.

Ltac sock_step E := rewrite (fun H => step_in _ _ _ _ _ _ H E) by reflexivity.

Lemma disp_run {A} (m : bool -> heap -> M display A) r :
  (forall h, returns (m supports h)) ->
  exists a d, on_disp supports ZS m r = (Ret a, r <| r_dec := (r_dec r) <| dc_display := d |> |>).
Proof.
  intros Hm. unfold on_disp, on_dec, on_display, zoom. rewrite bind_run, gets_run. unfold zoom.
  destruct (Hm (sk_heap (dc_sock (r_dec r))) (dc_display (r_dec r))) as (a & d & E). exists a, d. by rewrite E.
Qed.

(** A new display under the same session. *)
Definition with_display r (d : display) : rfb ZS := r <| r_dec := (r_dec r) <| dc_display := d |> |>.

Lemma resize_run w h r :
  r_enabledContinuousUpdates r = false ->
  exists d, resize_ supports screenSize ZS w h r
    = (Ret tt, with_display (r <| r_fb_width := w |> <| r_fb_height := h |>) d).
Proof.
  intros Hc. unfold resize_. rewrite bind_run, modify_run. set (r0 := r <| r_fb_width := w |> <| r_fb_height := h |>).
  destruct (disp_run (fun b h0 => Display.resize b h0 w h) r0) as ([] & d1 & E1); [intros; apply returns_resize|].
  rewrite bind_run, E1. fold (with_display r0 d1).
  assert (Hclip : forall r, exists d, updateClip supports screenSize ZS r = (Ret tt, with_display r d)).
  { clear. intros r. unfold updateClip, option_. rewrite !bind_run, gets_run, bind_run, gets_run, bind_run, gets_run, bind_run.
    set (clip := if (o_scaleViewport _ : bool) then _ else _).
    assert (H1 : exists d, when (negb (Bool.eqb (d_clipViewport (dc_display (r_dec r))) clip))
      (on_disp supports ZS (fun b h => set_clipViewport b h clip)) r = (Ret tt, with_display r d)).
    { destruct (negb _); [|exists (dc_display (r_dec r)); by destruct r as [[]]].
      destruct (disp_run (fun b h => set_clipViewport b h clip) r) as ([] & d & E); [intros; apply returns_set_clip|].
      exists d. exact E. }
    destruct H1 as [d1 ->]. destruct clip; [|exists d1; done].
    destruct (disp_run (fun b h => viewportChangeSize b h (dbl_floor screenSize.1) (dbl_floor screenSize.2)) (with_display r d1))
      as ([] & d & E); [intros; apply returns_changeSize|].
    exists d. exact E. }
  destruct (Hclip (with_display r0 d1)) as [d2 E2]. rewrite bind_run, E2.
  change (with_display (with_display r0 d1) d2) with (with_display r0 d2).
  assert (Hscale : exists d, updateScale supports screenSize ZS (with_display r0 d2) = (Ret tt, with_display r0 d)).
  { unfold updateScale, option_. rewrite bind_run, gets_run. destruct (negb _).
    - destruct (disp_run (fun _ _ => rescale (dbl_of_Z 1)) (with_display r0 d2)) as ([] & d & E);
        [intros; apply returns_modify|]. exists d. exact E.
    - destruct (disp_run (fun _ _ => autoscale screenSize.1 screenSize.2) (with_display r0 d2)) as ([] & d & E);
        [intros; apply returns_autoscale|]. exists d. exact E. }
  destruct Hscale as [d3 E3]. rewrite bind_run, E3. unfold updateContinuousUpdates. rewrite bind_run, gets_run. cbn [id].
  change (r_enabledContinuousUpdates (with_display r0 d3)) with (r_enabledContinuousUpdates r). rewrite Hc. by exists d3.
Qed.

(** *** One step each *)

Definition newline : list Z := [10].

Lemma version_step r s :
  r_init r = ProtocolVersion -> r_max_version r = 38 -> ready s ->
  holds s (codes "RFB 003.008" ++ newline) ->
  exists s', init_msg (r <| r_sock := s |>)
      = (Ret false, r <| r_version := 38 |> <| r_init := Security |> <| r_sock := s' |>)
    /\ ready s' /\ holds s' [] /\ sk_sent s' = sk_sent s ++ [codes "RFB 003.008" ++ newline].
Proof.
  intros Hi Hm Hr H. set (line := codes "RFB 003.008" ++ newline) in *.
  rewrite <- (app_nil_r line) in H. destruct (holds_str _ _ _ H) as [E1 H1]. change (zlen line) with 12 in *.
  assert (Hr1 : ready (advance 12 s)) by (apply (ready_sending s); [apply sending_advance|done]).
  destruct (send_ready line (advance 12 s) Hr1) as (s2 & E2 & Hr2 & Hs2 & Hh2); [split; [done|discriminate]|].
  exists s2. split; [|split; [done|split; [by apply Hh2|rewrite Hs2; by rewrite (sent_sending _ _ (sending_advance 12 s))]]].
  unfold Rfb.init_msg. cbn [init_msg_fuel]. unfold init_msg_body at 1. rewrite (gets_in r_init _ _ ProtocolVersion) by exact Hi. unfold negotiate_protocol_version.
  sock_step (holds_wait s _ 12 0 H ltac:(discriminate)). cbv iota.
  sock_step E1. change (parse_version (take 7 (drop 4 line))) with (Version 38). cbv iota.
  set (r1 := r <| r_sock := advance 12 s |>).
  rewrite (modify_in _ _ _ (r1 <| r_version := 38 |>)) by (change (r1 <| r_version := (if r_max_version r <? 38 then r_max_version r else 38) |> = r1 <| r_version := 38 |>); by rewrite Hm).
  rewrite (gets_in r_version _ _ 38) by done.
  change (codes "RFB 00" ++ [48 + 38 / 10] ++ codes ".00" ++ [48 + 38 mod 10; 10]) with line.
  sock_step (E2 : send_string line _ = _). unfold set_init. rewrite bind_run, modify_run. done.
Qed.

Lemma security_step r s types :
  r_init r = Security -> r_version r = 38 -> ready s -> 1 ∈ types -> zlen types < 256 ->
  holds s (zlen types :: types) ->
  exists s', init_msg (r <| r_sock := s |>)
      = (Ret true, r <| r_auth_scheme := 1 |> <| r_init := SecurityResult |> <| r_sock := s' |>)
    /\ ready s' /\ holds s' [] /\ sk_sent s' = sk_sent s ++ [[1]].
Proof.
  intros Hi Hv Hr Hin Hz H. destruct (holds_8 _ _ _ H) as (E1 & H1 & _).
  assert (Hpos : 0 < zlen types) by (destruct types; [by apply not_elem_of_nil in Hin|rewrite zlen_cons; pose proof (zlen_nonneg types); lia]).
  pose proof (holds_wait _ _ (zlen types) 1 H1 ltac:(lia)) as E2.
  rewrite <- (app_nil_r types) in H1. destruct (holds_take _ _ _ H1) as [E3 H3].
  set (s3 := advance (zlen types) (advance 1 s)) in *.
  assert (Hs3 : sending s3 = sending s) by (unfold s3; by rewrite !sending_advance).
  assert (Hr3 : ready s3) by (by apply (ready_sending s)).
  destruct (send_ready [1] s3 Hr3) as (s4 & E4 & Hr4 & Hs4 & Hh4); [split; [done|discriminate]|].
  exists s4. split; [|split; [done|split; [by apply Hh4|by rewrite Hs4, (sent_sending _ _ Hs3)]]].
  unfold Rfb.init_msg. cbn [init_msg_fuel]. unfold init_msg_body at 1. rewrite (gets_in r_init _ _ Security) by exact Hi. unfold negotiate_security.
  rewrite (gets_in r_version _ _ 38) by exact Hv.
  change (37 <=? 38) with true. cbv iota.
  sock_step E1. sock_step E2. cbv iota.
  rewrite (proj2 (Z.eqb_neq _ 0)) by lia. sock_step E3.
  cbn [find]. rewrite bool_decide_true by done. unfold set_auth_scheme. rewrite bind_run, modify_run.
  sock_step E4.
  unfold set_init at 1. rewrite bind_run, modify_run. unfold init_msg_body at 1.
  rewrite (gets_in r_init _ _ Authentication) by done. unfold negotiate_authentication.
  rewrite (gets_in r_auth_scheme _ _ 1) by done. change (1 =? 1) with true. cbv iota.
  rewrite (gets_in r_version _ _ 38) by exact Hv. change (38 <=? 38) with true. cbv iota.
  unfold set_init. rewrite bind_run, modify_run. done.
Qed.

Lemma result_step r s :
  r_init r = SecurityResult -> ready s -> holds s (be_bytes 0) ->
  exists s', init_msg (r <| r_sock := s |>) = (Ret true, r <| r_init := ServerInitialisation |> <| r_sock := s' |>)
    /\ ready s' /\ holds s' [] /\ sk_sent s' = sk_sent s ++ [[b2z (o_shared (r_options r))]].
Proof.
  intros Hi Hr H. pose proof (holds_wait _ _ 4 0 H ltac:(discriminate)) as E1.
  rewrite <- (app_nil_r (be_bytes 0)) in H. destruct (holds_32 _ _ _ H) as [E2 H2].
  assert (Hr2 : ready (advance 4 s)) by (apply (ready_sending s); [apply sending_advance|done]).
  destruct (send_ready [b2z (o_shared (r_options r))] (advance 4 s) Hr2) as (s3 & E3 & Hr3 & Hs3 & Hh3); [split; [done|discriminate]|].
  exists s3. split; [|split; [done|split; [by apply Hh3|]]].
  2:{ rewrite Hs3, (sent_sending _ _ (sending_advance 4 s)). by destruct (o_shared _). }
  unfold Rfb.init_msg. cbn [init_msg_fuel]. unfold init_msg_body at 1. rewrite (gets_in r_init _ _ SecurityResult) by exact Hi. unfold handle_security_result.
  sock_step E1. cbv iota. sock_step E2.
  change (toInt32 0 =? 0) with true. cbv iota. unfold set_init at 1. rewrite bind_run, modify_run.
  unfold init_msg_body at 1. rewrite (gets_in r_init _ _ ClientInitialisation) by done.
  unfold option_. rewrite (gets_in (fun r => o_shared (r_options r)) _ _ (o_shared (r_options r))) by done.
  replace (if o_shared (r_options r) then 1 else 0) with (b2z (o_shared (r_options r))) by by destruct (o_shared _).
  sock_step E3. unfold set_init. rewrite bind_run, modify_run. done.
Qed.

(** A message of the server while the session is coming up. *)
Lemma init_message r data ok (Q : rfb ZS -> Prop) sent :
  r_conn r = Connecting -> r_on_message r = true ->
  ready (r_sock r) -> holds (r_sock r) [] -> bytes data -> 0 < zlen data <= MAX_RQ_GROW_SIZE ->
  (forall s, ready s -> holds s data -> sk_sent s = sk_sent (r_sock r) ->
     exists base s', init_msg (r <| r_sock := s |>) = (Ret ok, base <| r_sock := s' |>) /\ Q base
       /\ ready s' /\ holds s' [] /\ sk_sent s' = sk_sent s ++ sent) ->
  exists base s', perform (AMessage data) r = (Ret tt, base <| r_sock := s' |>) /\ Q base
    /\ ready s' /\ holds s' [] /\ sk_sent s' = sk_sent (r_sock r) ++ sent.
Proof.
  intros Hc Hon Hr Hh Hb Hz Hm. unfold Rfb.perform. rewrite bind_run, gets_run. cbn [id].
  rewrite (proj1 (proj2 Hr)), Hon. cbn [when].
  destruct (message_run (handle_message supports useFallback screenSize keyEventsHaveCode accepted ZS
    inflateInit inflateReset pako_inflate) r data Q sent Hr Hh Hb Hz) as (base & s' & E & H); [|by exists base, s'].
  intros s Hrs Hhs Hss. destruct (Hm s Hrs Hhs Hss) as (base & s' & E & H). exists base, s'. split; [|done].
  unfold handle_message. rewrite (gets_in id _ _ (r <| r_sock := s |>)) by done.
  change (r_sock (r <| r_sock := s |>)) with s. rewrite (holds_len _ _ Hhs), (proj2 (Z.eqb_neq _ 0)) by lia.
  change (r_conn (r <| r_sock := s |>)) with (r_conn r). rewrite Hc. by rewrite bind_run, E.
Qed.

(** *** ServerInit *)

Lemma shift16_bytes s b0 b1 q :
  holds s (b0 :: b1 :: q) -> (exists n, rQshift16 s = (Ret n, advance 2 s)) /\ holds (advance 2 s) q.
Proof.
  intros H. pose proof H as [Hw Hu]. pose proof (unread_bytes _ Hw) as Hb. rewrite Hu, !Forall_cons in Hb.
  destruct Hb as (H0 & H1 & _). unfold is_byte in *.
  destruct (holds_16 s (256 * b0 + b1) q) as [E H2]; [unfold Canvas.u16; lia| |eauto].
  unfold be16. replace ((256 * b0 + b1) / 256) with b0 by zlia. by replace ((256 * b0 + b1) mod 256) with b1 by zlia.
Qed.

Ltac byte H := let E := fresh "E" in let H' := fresh "H" in
  destruct (holds_8 _ _ _ H) as (E & H' & _); clear H; rename H' into H; rewrite (r_sock_step _ _ _ _ _ _ E); clear E.
Ltac short H := let E := fresh "E" in let H' := fresh "H" in let n := fresh "n" in
  destruct (shift16_bytes _ _ _ _ H) as [[n E] H']; clear H; rename H' into H; rewrite (r_sock_step _ _ _ _ _ _ E); clear E.

(** The pixel format of the server is read and forgotten. *)
Lemma pixel_format_run r s pf q :
  holds s (pf ++ q) -> length pf = 16%nat ->
  exists s', read_pixel_format ZS (r <| r_sock := s |>) = (Ret tt, r <| r_sock := s' |>)
    /\ holds s' q /\ sending s' = sending s.
Proof.
  intros H Hl. do 16 (destruct pf as [|? pf]; [done|]). destruct pf; [|done]. cbn [app] in H.
  unfold read_pixel_format.
  byte H. byte H. byte H. byte H. short H. short H. short H. byte H. byte H. byte H.
  match type of H with holds _ (?a :: ?b :: ?c :: ?q) => change (a :: b :: c :: q) with ([a; b; c] ++ q) in H end.
  destruct (holds_skip _ _ _ H) as [E H']. change (zlen [_; _; _]) with 3 in *.
  eexists. split; [apply (sock_in _ _ _ _ _ E)|]. split; [done|]. by rewrite !sending_advance.
Qed.

(** The sending side of the last step: format, encodings, first request. *)
Definition encodings_wanted (depth : Z) : list Z :=
  if depth =? 24
  then [1; 7; -260; 5; 2; 0; -26; -254; -223; -224; -258; -308; -309; -312; -313; -239]
  else [1; 0; -26; -254; -223; -224; -258; -308; -309; -312; -313].

Definition depth_of (name : list Z) : Z := if decide (name = codes "Intel(r) AMT KVM") then 8 else 24.

Definition format_of (depth : Z) : message :=
  if depth =? 24 then SetPixelFormat 32 24 1 255 16 8 0 else SetPixelFormat 8 8 1 3 4 2 0.

Definition opening (name : list Z) (w h : Z) : list (list Z) :=
  [ layout (format_of (depth_of name)); layout (SetEncodings (encodings_wanted (depth_of name)));
    layout (UpdateRequest 0 0 0 w h) ].

(** What the session is once it is up. *)
Definition session_up r (name : list Z) (w h : Z) r' : Prop :=
  r_conn r' = Connected /\ r_fb_name r' = name /\ r_fb_width r' = w /\ r_fb_height r' = h
  /\ r_fb_depth r' = depth_of name
  /\ r_grabbed r' = (negb (o_viewOnly (r_options r)) || r_grabbed r)
  /\ r_events r' = r_events r ++ [EDesktopName name; EConnect].

Ltac push_step H :=
  let s := fresh "s" in let E := fresh "E" in let Hr := fresh "Hr" in let Hs := fresh "Hs" in let Hh := fresh "Hh" in
  match goal with
  | |- context [push ?l] =>
      destruct (push_ready l _ H) as (s & E & Hr & Hs & Hh); [unfold zlen; cbn; lia|];
      rewrite (fun H => step_in _ _ _ _ _ _ H E) by reflexivity
  end.

(** *** After the resize *)
Lemma announce_run (depth : Z) r s (f : unit -> M (rfb ZS) bool) :
  depth = 24 \/ depth = 8 -> r_fb_depth r = depth -> ready s -> holds s [] ->
  exists s', (on_sock_ ZS (pixelFormat depth true) ≫= fun _ => sendEncodings ZS ≫= fun _ =>
      gets id ≫= fun r => on_sock_ ZS (fbUpdateRequest false 0 0 (r_fb_width r) (r_fb_height r)) ≫= f)
      (r <| r_sock := s |>) = f tt (r <| r_sock := s' |>)
    /\ ready s' /\ holds s' []
    /\ sk_sent s' = sk_sent s ++ [ layout (format_of depth); layout (SetEncodings (encodings_wanted depth));
         layout (UpdateRequest 0 0 0 (r_fb_width r) (r_fb_height r)) ].
Proof.
  intros Hd Hdr Hr Hh.
  assert (Hp : forall l s, ready s -> holds s [] -> 0 < zlen l <= 128 -> exists s',
    push l s = (Ret tt, s') /\ ready s' /\ holds s' [] /\ sk_sent s' = sk_sent s ++ [map toUint8 l]).
  { clear. intros l s Hr Hh Hl. destruct (push_ready l s Hr Hl) as (s' & ? & ? & ? & H). exists s'. auto. }
  assert (H1 : exists s1, pixelFormat depth true s = (Ret tt, s1) /\ ready s1 /\ holds s1 []
    /\ sk_sent s1 = sk_sent s ++ [layout (format_of depth)]).
  { destruct Hd as [-> | ->]; apply Hp; done. }
  destruct H1 as (s1 & E1 & Hr1 & Hh1 & Hs1).
  assert (H2 : exists s2, clientEncodings (encodings_wanted depth) s1 = (Ret tt, s2) /\ ready s2 /\ holds s2 []
    /\ sk_sent s2 = sk_sent s1 ++ [layout (SetEncodings (encodings_wanted depth))]).
  { destruct Hd as [-> | ->]; apply Hp; done. }
  destruct H2 as (s2 & E2 & Hr2 & Hh2 & Hs2).
  set (w := r_fb_width r). set (h := r_fb_height r).
  destruct (Hp [3; b2z false; js_and (js_shr 0 8) 0xFF; js_and 0 0xFF; js_and (js_shr 0 8) 0xFF; js_and 0 0xFF;
      js_and (js_shr w 8) 0xFF; js_and w 0xFF; js_and (js_shr h 8) 0xFF; js_and h 0xFF] s2 Hr2 Hh2 ltac:(done))
    as (s3 & E3 & Hr3 & Hh3 & Hs3).
  exists s3. split; [|split; [done|split; [done|]]].
  - rewrite (r_sock_step _ _ _ _ _ _ E1). unfold sendEncodings. rewrite bind_run, (gets_in r_fb_depth _ _ depth) by exact Hdr.
    match goal with |- context [clientEncodings ?l] => replace l with (encodings_wanted depth) by by destruct Hd as [-> | ->] end.
    rewrite (sock_in _ _ _ _ _ E2).
    rewrite (gets_in id _ _ (r <| r_sock := s2 |>)) by done.
    change (r_fb_width (r <| r_sock := s2 |>)) with w. change (r_fb_height (r <| r_sock := s2 |>)) with h.
    by rewrite (r_sock_step _ _ _ _ _ _ (E3 : fbUpdateRequest false 0 0 w h s2 = _)).
  - rewrite Hs3, Hs2, Hs1, <- !app_assoc. do 2 f_equal. cbn [app]. do 2 f_equal.
    cbn [map layout u8 RfbFormat.u16 app]. by rewrite !toUint8_shr_mask, !toUint8_mask.
Qed.

Lemma server_init_done_run r s name w h :
  r_conn r = Connecting -> r_fb_name r = name -> r_enabledContinuousUpdates r = false -> r_disconnTimer r = false ->
  ready s -> holds s [] ->
  exists base s', server_init_done supports useFallback screenSize accepted ZS w h (r <| r_sock := s |>)
      = (Ret true, base <| r_sock := s' |>)
    /\ session_up r name w h base /\ ready s' /\ holds s' []
    /\ sk_sent s' = sk_sent s ++ opening name w h.
Proof.
  intros Hc Hn He Ht Hr Hh. unfold server_init_done.
  rewrite (gets_in r_fb_name _ _ name) by exact Hn. unfold dispatchEvent at 1. rewrite bind_run, modify_run.
  set (r1 := r <| r_sock := s |> <| r_events := _ |>).
  destruct (resize_run w h r1 He) as [d E]. rewrite bind_run, E. unfold option_.
  set (r2 := with_display _ d). rewrite (gets_in (fun r => o_viewOnly (r_options r)) _ _ (o_viewOnly (r_options r))) by done.
  set (vo := o_viewOnly (r_options r)).
  assert (H3 : when (negb vo) (modify (fun r => r <| r_grabbed := true |>)) r2
    = (Ret tt, r2 <| r_grabbed := negb vo || r_grabbed r |>)).
  { destruct vo; [|done]. cbn [negb when orb]. unfold skip, mret, M_ret. f_equal. }
  rewrite bind_run, H3. set (r3 := r2 <| r_grabbed := _ |>). set (r4 := r3 <| r_fb_depth := depth_of name |>).
  rewrite (modify_in _ _ _ r4) by (unfold r4; rewrite <- Hn; done).
  assert (Hd4 : r_fb_depth r4 = depth_of name) by done.
  rewrite (gets_in r_fb_depth _ _ (depth_of name)) by exact Hd4.
  rewrite (to_sock _ r4). change (r_sock r4) with s.
  destruct (announce_run (depth_of name) r4 s (fun _ => updateConnectionState useFallback accepted ZS Connected ≫= fun _ => mret true))
    as (s' & E' & Hr' & Hh' & Hs'); [unfold depth_of; destruct (decide _); auto|done|done|done|].
  rewrite E'. set (r5 := r4 <| r_sock := s' |>). rewrite bind_run. unfold updateConnectionState.
  rewrite transition_to by (change (r_conn r5) with (r_conn r); by rewrite Hc).
  rewrite (gets_in r_disconnTimer _ _ false) by exact Ht. cbn [andb when]. unfold dispatchEvent.
  rewrite bind_run. unfold skip, mret at 1, M_ret at 1. rewrite modify_run.
  exists (r5 <| r_conn := Connected |> <| r_events := r_events r5 ++ [EConnect] |>), s'.
  split; [done|]. split; [|done]. split; [done|]. split; [exact Hn|]. split; [done|]. split; [done|]. split; [exact Hd4|].
  split; [done|]. change ((r_events r ++ [EDesktopName name]) ++ [EConnect] = r_events r ++ [EDesktopName name; EConnect]).
  by rewrite <- app_assoc.
Qed.

(** The message ServerInit. *)
Definition server_init_bytes (w h : Z) (pf name : list Z) : list Z :=
  be16 w ++ be16 h ++ pf ++ be_bytes (zlen name) ++ name.

Lemma server_init_step r s w h pf name text :
  r_init r = ServerInitialisation -> r_conn r = Connecting -> r_tightvnc r = false ->
  r_enabledContinuousUpdates r = false -> r_disconnTimer r = false -> ready s ->
  Canvas.u16 w -> Canvas.u16 h -> length pf = 16%nat -> zlen name < 2 ^ 31 -> decodeUTF8 name = Ret text ->
  holds s (server_init_bytes w h pf name) ->
  exists base s', init_msg (r <| r_sock := s |>) = (Ret true, base <| r_sock := s' |>)
    /\ session_up r text w h base /\ ready s' /\ holds s' [] /\ sk_sent s' = sk_sent s ++ opening text w h.
Proof.
  intros Hi Hc Ht He Hd Hr Hw Hh Hp Hn Hu H. unfold server_init_bytes in H. pose proof (zlen_nonneg name).
  unfold Rfb.init_msg. cbn [init_msg_fuel]. unfold init_msg_body at 1. rewrite (gets_in r_init _ _ ServerInitialisation) by exact Hi.
  unfold negotiate_server_init.
  rewrite (r_sock_step _ _ _ _ _ _ (holds_wait s _ 24 0 H ltac:(rewrite !zlen_app; unfold zlen in *; cbn; lia))). cbv iota.
  destruct (holds_16 _ _ _ Hw H) as [E1 H1]. rewrite (r_sock_step _ _ _ _ _ _ E1).
  destruct (holds_16 _ _ _ Hh H1) as [E2 H2]. rewrite (r_sock_step _ _ _ _ _ _ E2). set (s2 := advance 2 (advance 2 s)) in *.
  destruct (pixel_format_run r s2 _ _ H2 Hp) as (s3 & E3 & H3 & S3). rewrite bind_run, E3.
  destruct (holds_32 _ _ _ H3) as [E4 H4]. rewrite toInt32_small in E4 by lia. rewrite (r_sock_step _ _ _ _ _ _ E4).
  rewrite (r_sock_step _ _ _ _ _ _ (holds_wait _ _ (zlen name) 24 H4 ltac:(lia))). cbv iota.
  rewrite <- (app_nil_r name) in H4. destruct (holds_str _ _ _ H4) as [E5 H5]. rewrite app_nil_r in H4.
  rewrite (r_sock_step _ _ _ _ _ _ E5), Hu. set (s5 := advance (zlen name) (advance 4 s3)) in *.
  unfold lift. rewrite bind_run, bind_run, modify_run.
  rewrite (gets_in r_tightvnc _ _ false) by exact Ht. rewrite bind_run. unfold mret at 1, M_ret at 1. cbv iota.
  assert (S5 : sending s5 = sending s) by (unfold s5; rewrite !sending_advance, S3; unfold s2; by rewrite !sending_advance).
  rewrite <- (sent_sending _ _ S5).
  set (r6 := r <| r_fb_name := text |>). assert (H6 : r_fb_name r6 = text) by done.
  exact (server_init_done_run r6 s5 text w h Hc H6 He Hd (ready_sending _ _ S5 Hr) H5).
Qed.

(** Actions one after the other. *)
Fixpoint performs (l : list action) : M (rfb ZS) unit :=
  match l with [] => skip | a :: l => perform a;; performs l end.

(** [C2] The whole handshake of protocol 3.8 with a server that takes clients
    without authentication, from its first message to its fourth: its version;
    any list of security types with type 1 (None) in it; the result OK; ServerInit
    with any size, pixel format and UTF-8 name.  The session comes up with that
    size and name, tells its owner the name and then that it is connected, takes
    the keyboard unless it is view-only, and has sent exactly: the version 3.8,
    the choice of None, the shared flag, the pixel format it wants, its
    encodings, and the request for the first whole picture. *)
Theorem handshake_none r types w h pf name text :
  r_conn r = Connecting -> r_init r = ProtocolVersion -> r_max_version r = 38 -> r_tightvnc r = false ->
  r_enabledContinuousUpdates r = false -> r_disconnTimer r = false -> r_on_message r = true ->
  ready (r_sock r) -> holds (r_sock r) [] ->
  bytes types -> 1 ∈ types -> zlen types < 256 ->
  Canvas.u16 w -> Canvas.u16 h -> bytes pf -> length pf = 16%nat -> bytes name -> zlen name < 2 ^ 20 ->
  decodeUTF8 name = Ret text ->
  exists r', performs [ AMessage (codes "RFB 003.008" ++ newline); AMessage (zlen types :: types);
      AMessage (be_bytes 0); AMessage (server_init_bytes w h pf name) ] r = (Ret tt, r')
    /\ session_up r text w h r'
    /\ sk_sent (r_sock r') = sk_sent (r_sock r)
         ++ [codes "RFB 003.008" ++ newline] ++ [[1]] ++ [[b2z (o_shared (r_options r))]] ++ opening text w h.
Proof.
  intros Hc Hi Hm Ht He Hd Hon Hr Hh Hbt Hin Hlt Hw Hhh Hbp Hlp Hbn Hln Hu.
  pose proof (zlen_nonneg types) as Hn0. pose proof (zlen_nonneg name) as Hn1.
  assert (Hsi : zlen (server_init_bytes w h pf name) = 24 + zlen name).
  { unfold server_init_bytes. rewrite !zlen_app. unfold zlen in *. cbn. lia. }
  cbn [performs].
  destruct (init_message r (codes "RFB 003.008" ++ newline) false
    (eq (r <| r_version := 38 |> <| r_init := Security |>)) [codes "RFB 003.008" ++ newline])
    as (b1 & s1 & E1 & <- & Hr1 & Hh1 & Hs1); [done|done|done|done|by repeat constructor|done| |].
  { intros s Hrs Hhs _. destruct (version_step r s Hi Hm Hrs Hhs) as (s' & E & H). by eexists _, s'. }
  set (r1 := _ <| r_sock := s1 |>) in E1. rewrite bind_run, E1.
  destruct (init_message r1 (zlen types :: types) true
    (eq (r1 <| r_auth_scheme := 1 |> <| r_init := SecurityResult |>)) [[1]])
    as (b2 & s2 & E2 & <- & Hr2 & Hh2 & Hs2);
    [done|done|done|done|by constructor; [unfold is_byte; lia|]|rewrite zlen_cons; unfold MAX_RQ_GROW_SIZE; lia| |].
  { intros s Hrs Hhs _. destruct (security_step r1 s types) as (s' & E & H); [done..|]. by eexists _, s'. }
  set (r2 := _ <| r_sock := s2 |>) in E2. rewrite bind_run, E2.
  destruct (init_message r2 (be_bytes 0) true
    (eq (r2 <| r_init := ServerInitialisation |>)) [[b2z (o_shared (r_options r))]])
    as (b3 & s3 & E3 & <- & Hr3 & Hh3 & Hs3); [done|done|done|done|by repeat constructor|done| |].
  { intros s Hrs Hhs _. destruct (result_step r2 s) as (s' & E & H); [done..|]. by eexists _, s'. }
  set (r3 := _ <| r_sock := s3 |>) in E3. rewrite bind_run, E3.
  destruct (init_message r3 (server_init_bytes w h pf name) true (session_up r3 text w h) (opening text w h))
    as (b4 & s4 & E4 & Hup & Hr4 & Hh4 & Hs4); [done|done|done|done| | | |].
  { unfold server_init_bytes. unfold Canvas.u16 in *. rewrite !Forall_app. split; [|split; [|split; [done|split; [|done]]]].
    all: repeat constructor; unfold is_byte; zlia. }
  { unfold MAX_RQ_GROW_SIZE. lia. }
  { intros s Hrs Hhs _. by apply (server_init_step r3 s w h pf name text); try done; lia. }
  rewrite bind_run, E4. eexists. split; [reflexivity|]. split; [exact Hup|].
  change (r_sock (b4 <| r_sock := s4 |>)) with s4. change (r_sock r3) with s3 in Hs4. change (r_sock r2) with s2 in Hs3.
  change (r_sock r1) with s1 in Hs2. by rewrite Hs4, Hs3, Hs2, Hs1, <- !app_assoc.
Qed.

End Handshake.

(** ** Witness: a server with types 2 and 1 and the name "pc" *)

Section Example.
Import Websock Messages Display Decoders Strings Rfb Samples.

Lemma handshake_none_witness :
  exists r', performs true false size (dbl_of_Z 7) true true unit tt id no_inflate
      [ AMessage (codes "RFB 003.008" ++ [10]); AMessage [2; 2; 1]; AMessage [0; 0; 0; 0];
        AMessage ([2; 128; 1; 224] ++ replicate 16 0 ++ [0; 0; 0; 2; 112; 99]) ]
      ((session Connecting []) <| r_init := ProtocolVersion |>) = (Ret tt, r')
    /\ r_conn r' = Connected /\ r_fb_width r' = 640 /\ r_fb_height r' = 480
    /\ r_events r' = [EDesktopName [112; 99]; EConnect] /\ length (sk_sent (r_sock r')) = 6%nat.
Proof.
  destruct (handshake_none true false size (dbl_of_Z 7) true true unit tt id no_inflate
    ((session Connecting []) <| r_init := ProtocolVersion |>) [2; 1] 640 480 (replicate 16 0) [112; 99] [112; 99])
    as (r' & E & (Hc & Hn & Hw & Hh & _ & _ & He) & Hs);
    [reflexivity..| | | | | | | | | | | | |].
  - split; [by repeat split|]. split; [done|]. discriminate.
  - apply (session_holds Connecting []); [by constructor|cbn; lia].
  - by repeat constructor.
  - by right; left.
  - reflexivity.
  - by split.
  - by split.
  - by repeat constructor.
  - reflexivity.
  - by repeat constructor.
  - reflexivity.
  - reflexivity.
  - exists r'. split; [exact E|]. split; [exact Hc|]. split; [exact Hw|]. split; [exact Hh|]. split; [exact He|].
    rewrite Hs. reflexivity.
Defined.

End Example.
