(* ===== verification/Input.v ===== *)
(** * The keyboard and the session together
    (src/ControlServer/web/www/novnc/core/rfb.js and input/keyboard.js)

    An [RFB] object owns a [Keyboard] and is the handler of its [onkeyevent].  Here
    the two are one state, [seat]; each report of the keyboard goes through the
    session's [handleKeyEvent] as it is made. *)

From S2P Require Import Prelude Websock Messages Display Decoders Keys Keysyms KeyInput Keyboard Rfb Samples Lifecycle Session.

Module Input.
Import Websock Messages KeyInput Keyboard Rfb.

Section Input.
Context (isMac isIE isEdge isIOS isWindows isFirefox : bool) (toUpperCase : Z -> list Z).
Context {ZS : Type}.

Record seat := Seat { st_rfb : rfb ZS; st_keyboard : keyboard }.

(** [this._keyboard.onkeyevent = this._handleKeyEvent.bind(this)]; a keysym that is
    missing is sent as 0. *)
Fixpoint deliver (l : list report) (r : rfb ZS) : rfb ZS :=
  match l with
  | [] => r
  | Report keysym code down :: l =>
      deliver l (handleKeyEvent ZS (default 0 keysym) code down r).2
  end.

(** An event of the keyboard; its new reports reach the session. *)
Definition keyboard_input (i : input) (s : seat) : seat :=
  let k := (handle isMac isIE isEdge isIOS isWindows toUpperCase i (st_keyboard s)).2 in
  Seat (deliver (drop (length (k_reported (st_keyboard s))) (k_reported k)) (st_rfb s)) k.

(** [set viewOnly] *)
Definition set_viewOnly (viewOnly : bool) (s : seat) : seat :=
  let r := (Rfb.set_viewOnly ZS viewOnly (st_rfb s)).2 in
  if bool_decide (r_conn r = Connecting) || bool_decide (r_conn r = Connected)
  then keyboard_input (if viewOnly then IUngrab else IGrab) (Seat r (st_keyboard s))
  else Seat r (st_keyboard s).

End Input.
Arguments seat : clear implicits.
End Input.

(** ** Lemmas *)

Section Lemmas.
Import Websock Messages RfbFormat KeyInput Keyboard Rfb Input.
Context (isMac isIE isEdge isIOS isWindows isFirefox : bool) (toUpperCase : Z -> list Z).
Context {ZS : Type}.
Implicit Types (r : rfb ZS) (k : keyboard).

Definition report_messages (qemu : bool) (p : report) : list message :=
  key_messages qemu (default 0 (p_keysym p)) (p_code p) (p_down p).

Lemma r_sock_twice r a b : r <| r_sock := a |> <| r_sock := b |> = r <| r_sock := b |>.
Proof. done. Qed.

Lemma deliver_run l r :
  can_send ZS r = true -> r_idle ZS r ->
  exists s, deliver l r = r <| r_sock := s |> /\ r_idle ZS (r <| r_sock := s |>)
    /\ sk_sent s = sk_sent (r_sock r) ++ map layout (concat (map (report_messages (r_qemuExtKeyEventSupported r)) l)).
Proof.
  revert r. induction l as [|[keysym code down] l IH]; intros r Hc Hi.
  { exists (r_sock r). rewrite r_sock_id, app_nil_r. done. }
  destruct (send_key_run ZS r (default 0 keysym) code down Hc Hi) as (s1 & E1 & Hi1 & Hs1).
  cbn [deliver]. unfold handleKeyEvent, sendKey. rewrite bind_run, gets_run. cbn [id]. rewrite Hc. cbn [negb]. rewrite E1. cbn [snd].
  set (r1 := r <| r_sock := s1 |>) in *. assert (Hc1 : can_send ZS r1 = true) by done.
  destruct (IH r1 Hc1 Hi1) as (s2 & E2 & Hi2 & Hs2). unfold r1 in E2, Hi2. rewrite r_sock_twice in E2, Hi2. exists s2. split; [exact E2|]. split; [exact Hi2|].
  change (r_sock r1) with s1 in Hs2. change (r_qemuExtKeyEventSupported r1) with (r_qemuExtKeyEventSupported r) in Hs2.
  rewrite Hs2, Hs1, <- app_assoc. cbn [map concat]. by rewrite map_app.
Qed.

Lemma deliver_gated l r : can_send ZS r = false -> deliver l r = r.
Proof.
  intros Hc. induction l as [|[keysym code down] l IH]; [done|]. cbn [deliver]. unfold handleKeyEvent, sendKey.
  rewrite bind_run, gets_run. cbn [id]. rewrite Hc. cbn [negb]. exact IH.
Qed.

(** Reports are only ever added. *)
Lemma handle_grows i k :
  exists l, k_reported (handle isMac isIE isEdge isIOS isWindows toUpperCase i k).2 = k_reported k ++ l.
Proof.
  set (rs := k_reported k). set (P := fun k => exists l, k_reported k = rs ++ l).
  assert (Hsend : forall keysym code down, keeps P (sendKeyEvent keysym code down)).
  { intros keysym code down k' [l H]. rewrite send_run. cbn [snd]. destruct (_ && _); [by exists l|].
    exists (l ++ [Report keysym code down]). change (k_reported k' ++ [Report keysym code down] = rs ++ l ++ [Report keysym code down]).
    by rewrite H, app_assoc. }
  assert (Hall : forall l, keeps P (release_all l)).
  { induction l as [|c l IH]; cbn [release_all]; keeps_by ltac:(fun _ => first [apply Hsend | apply IH]). }
  enough (keeps P (handle isMac isIE isEdge isIOS isWindows toUpperCase i)) as H.
  { apply (H k). exists []. by rewrite app_nil_r. }
  unfold handle, handleKeyDown, handleKeyPress, handleKeyUp, handleKeyPressTimeout, handleAltGrTimeout, abort_altGr,
    resolve_altGr, tap, set_pendingKey, allKeysUp, grab, ungrab, allKeysUp.
  keeps_by ltac:(fun _ => first [apply Hsend | apply Hall | apply keeps_modify; by intros ? ?]).
Qed.

Lemma keyboard_input_run i s :
  can_send ZS (st_rfb s) = true -> r_idle ZS (st_rfb s) ->
  exists new sock', keyboard_input isMac isIE isEdge isIOS isWindows toUpperCase i s
      = Seat ((st_rfb s) <| r_sock := sock' |>) (handle isMac isIE isEdge isIOS isWindows toUpperCase i (st_keyboard s)).2
    /\ k_reported (handle isMac isIE isEdge isIOS isWindows toUpperCase i (st_keyboard s)).2 = k_reported (st_keyboard s) ++ new
    /\ r_idle ZS ((st_rfb s) <| r_sock := sock' |>)
    /\ sk_sent sock' = sk_sent (r_sock (st_rfb s))
         ++ map layout (concat (map (report_messages (r_qemuExtKeyEventSupported (st_rfb s))) new)).
Proof.
  intros Hc Hi. destruct (handle_grows i (st_keyboard s)) as [new E]. unfold keyboard_input. rewrite E, drop_app_length.
  destruct (deliver_run new (st_rfb s) Hc Hi) as (sock' & -> & Hi' & Hs). by exists new, sock'.
Qed.

End Lemmas.

(** ** Properties *)

Section Properties.
Import Websock Messages RfbFormat KeyInput Keyboard Receiver Rfb Input.
Context (isMac isIE isEdge isIOS isWindows isFirefox : bool) (toUpperCase : Z -> list Z).
Context {ZS : Type}.
Implicit Types (r : rfb ZS) (k : keyboard).
Abbreviation keyboard_input := (keyboard_input isMac isIE isEdge isIOS isWindows toUpperCase (ZS := ZS)).
Abbreviation step := (Keyboard.step isMac isIE isEdge isIOS isWindows isFirefox toUpperCase).

(** [C5] Typing, end to end: whatever happens to the keyboard of a running session,
    the socket is given exactly the messages of the reports the keyboard made, all of
    them and in order; the session is otherwise unchanged; and the server, which
    believes those reports, has down exactly the keys the keyboard believes down. *)
Theorem typing_reaches_server l r :
  can_send ZS r = true -> r_idle ZS r ->
  let s := fold_left (fun s i => keyboard_input i s) l (Seat r Keyboard.constructor) in
  let reports := k_reported (st_keyboard s) in
  st_keyboard s = fold_left (fun k i => (handle isMac isIE isEdge isIOS isWindows toUpperCase i k).2) l Keyboard.constructor
  /\ exists sock',
    st_rfb s = r <| r_sock := sock' |>
    /\ sk_sent sock' = sk_sent (r_sock r)
         ++ map layout (concat (map (report_messages (r_qemuExtKeyEventSupported r)) reports))
    /\ receive_all reports [] = Some (k_keyDownList (st_keyboard s)).
Proof.
  intros Hc Hi. cbv zeta.
  assert (H : exists sock',
    st_rfb (fold_left (fun s i => keyboard_input i s) l (Seat r Keyboard.constructor)) = r <| r_sock := sock' |>
    /\ r_idle ZS (r <| r_sock := sock' |>)
    /\ sk_sent sock' = sk_sent (r_sock r) ++ map layout (concat (map (report_messages (r_qemuExtKeyEventSupported r))
         (k_reported (st_keyboard (fold_left (fun s i => keyboard_input i s) l (Seat r Keyboard.constructor))))))
    /\ rtc step Keyboard.constructor (st_keyboard (fold_left (fun s i => keyboard_input i s) l (Seat r Keyboard.constructor)))).
  { induction l as [|i l IH] using rev_ind.
    - exists (r_sock r). cbn [fold_left st_rfb st_keyboard Keyboard.constructor k_reported map concat]. rewrite r_sock_id, app_nil_r.
      split; [done|]. split; [done|]. split; [done|]. apply rtc_refl.
    - rewrite fold_left_app. cbn [fold_left].
      set (s := fold_left (fun s i => keyboard_input i s) l (Seat r Keyboard.constructor)) in *.
      destruct IH as (sock1 & E1 & Hi1 & Hs1 & Hr1).
      destruct (keyboard_input_run isMac isIE isEdge isIOS isWindows toUpperCase i s) as (new & sock2 & E2 & En & Hi2 & Hs2).
      { by rewrite E1. }
      { by rewrite E1. }
      rewrite E2. cbn [st_rfb st_keyboard]. rewrite En. rewrite E1 in Hi2, Hs2 |- *. rewrite r_sock_twice in Hi2 |- *.
      exists sock2. split; [done|]. split; [done|]. split.
      + change (r_sock (r <| r_sock := sock1 |>)) with sock1 in Hs2. rewrite Hs2, Hs1, <- app_assoc. f_equal.
        by rewrite <- map_app, <- concat_app, <- map_app.
      + eapply rtc_r; [exact Hr1|]. apply step_handle. }
  destruct H as (sock' & E & _ & Hs & Hr). split.
  { clear. generalize Keyboard.constructor as k, r as r0. induction l as [|i l IH]; intros k r0; [done|]. apply IH. }
  exists sock'. split; [exact E|]. split; [exact Hs|].
  apply (g_told isMac isIOS). by eapply good_reachable.
Qed.

(** Making a running session view-only leaves keys stuck: the keyboard
    releases every key that is down, but the session, view-only already, sends
    none of it, so that the server goes on believing them down. *)
Theorem viewOnly_sticks_keys (s : seat ZS) :
  rtc step Keyboard.constructor (st_keyboard s) -> r_conn (st_rfb s) = Connected ->
  let s' := Input.set_viewOnly isMac isIE isEdge isIOS isWindows toUpperCase true s in
  k_keyDownList (st_keyboard s') = [] /\ r_sock (st_rfb s') = r_sock (st_rfb s).
Proof.
  intros Hr Hc. cbv zeta. unfold Input.set_viewOnly. set (r := (Rfb.set_viewOnly ZS true (st_rfb s)).2).
  assert (E : r = (st_rfb s) <| r_options := (r_options (st_rfb s)) <| o_viewOnly := true |> |> <| r_grabbed := false |>).
  { unfold r, Rfb.set_viewOnly, set_options. rewrite bind_run, modify_run, bind_run, gets_run.
    match goal with |- context [r_conn ?x] => change (r_conn x) with (r_conn (st_rfb s)) end.
    rewrite Hc. rewrite (bool_decide_true (Connected = Connected)) by done. by rewrite orb_true_r. }
  assert (Hcr : r_conn r = Connected) by (by rewrite E).
  rewrite Hcr, (bool_decide_true (Connected = Connected)), orb_true_r by done.
  unfold Input.keyboard_input. cbn [st_rfb st_keyboard]. rewrite deliver_gated; cbn [st_rfb st_keyboard].
  - split; [|by rewrite E].
    destruct (ungrab_run isMac isIE isEdge isIOS isWindows toUpperCase (st_keyboard s)) as (k' & -> & _ & Hl & _); [|exact Hl].
    by eapply good_reachable.
  - assert (Hv : o_viewOnly (r_options r) = true) by (by rewrite E). unfold can_send. rewrite Hv. apply andb_false_r.
Qed.

End Properties.

(** ** Witnesses: "a" is typed in a running session, and held *)

Section Examples.
Import Websock Messages RfbFormat KeyInput Keyboard Receiver Rfb Samples Input.

Definition type_a : list input := [IGrab; a_down].

Lemma typing_reaches_server_witness :
  let s := fold_left (fun s i => keyboard_input false false false false false (fun c => [c]) i s) type_a
    (Seat (session Connected []) Keyboard.constructor) in
  sk_sent (r_sock (st_rfb s)) = map layout (concat (map (report_messages false) (k_reported (st_keyboard s)))) /\
    receive_all (k_reported (st_keyboard s)) [] = Some [("KeyA"%string, Some 97)].
Proof.
  destruct (typing_reaches_server false false false false false false (fun c => [c]) type_a (session Connected []))
    as (_ & sock' & E & Hs & H); [reflexivity|apply session_idle|]. cbv zeta.
  split; [rewrite E; exact Hs|]. rewrite H. vm_compute. reflexivity.
Defined.

Lemma viewOnly_sticks_keys_witness :
  let s := Seat (session Connected []) (inputs linux type_a) in
  k_keyDownList (st_keyboard s) = [("KeyA"%string, Some 97)] /\
  sk_sent (r_sock (st_rfb (Input.set_viewOnly false false false false false (fun c => [c]) true s))) = [].
Proof.
  intros s. split; [vm_compute; reflexivity|].
  destruct (viewOnly_sticks_keys false false false false false false (fun c => [c]) s) as [_ E].
  - eapply rtc_l; [apply (step_handle _ _ _ _ _ _ _ _ IGrab)|].
    eapply rtc_l; [apply (step_handle _ _ _ _ _ _ _ _ a_down)|]. apply rtc_refl.
  - reflexivity.
  - rewrite E. reflexivity.
Defined.

End Examples.
