(* ===== verification/Pointer.v ===== *)
(** * The mouse and the session together
    (src/ControlServer/web/www/novnc/core/rfb.js and input/mouse.js)

    An [RFB] object owns a [Mouse] and is the handler of its [onmousebutton] and
    [onmousemove].  Here the two are one state, [pad]; each report of the mouse goes
    through the session's handlers as it is made. *)

From S2P Require Import Prelude Doubles Websock Messages Display Decoders Mouse Rfb Samples Lifecycle Session.

Module Pointer.
Import Rfb.

Section Pointer.
Context (devicePixelRatio dragThreshold : double) (supports : bool) {ZS : Type}.

Record pad := Pad { pd_rfb : rfb ZS; pd_mouse : Mouse.mouse }.

(** [this._mouse.onmousebutton = this._handleMouseButton.bind(this)] and the same for
    [onmousemove] *)
Definition deliver_one (p : Mouse.report) : M (rfb ZS) unit :=
  match p with
  | Mouse.RButton pos down bmask => handleMouseButton supports ZS pos.1 pos.2 down bmask
  | Mouse.RMove pos => handleMouseMove supports dragThreshold ZS pos.1 pos.2
  end.

Fixpoint deliver (l : list Mouse.report) (r : rfb ZS) : rfb ZS :=
  match l with
  | [] => r
  | p :: l => deliver l (deliver_one p r).2
  end.

(** An event of the mouse; its new reports reach the session. *)
Definition mouse_input (i : Mouse.input) (s : pad) : pad :=
  let m := (Mouse.handle devicePixelRatio i (pd_mouse s)).2 in
  Pad (deliver (drop (length (Mouse.ms_reports (pd_mouse s))) (Mouse.ms_reports m)) (pd_rfb s)) m.

End Pointer.
Arguments pad : clear implicits.
End Pointer.

(** ** Lemmas *)

Section Lemmas.
Import Websock Messages RfbFormat Display Decoders Rfb Pointer.
Context (devicePixelRatio dragThreshold : double) (supports : bool) {ZS : Type}.
Implicit Types (r : rfb ZS) (p : Mouse.report).
Abbreviation deliver_one := (deliver_one dragThreshold supports (ZS := ZS)).
Abbreviation deliver := (deliver dragThreshold supports (ZS := ZS)).
Abbreviation mouse_input := (mouse_input devicePixelRatio dragThreshold supports (ZS := ZS)).

(** A running session that neither scales nor drags its viewport. *)
Record pointing r : Prop := {
  pt_can_send : can_send ZS r = true;
  pt_idle : r_idle ZS r;
  pt_noDrag : o_dragViewport (r_options r) = false;
  pt_notDragging : m_viewportDragging (r_mouse r) = false;
  pt_scale : d_scale (dc_display (r_dec r)) = dbl_of_Z 1 }.

(** The mask of the buttons after a report. *)
Definition mask_after (mask : Z) p : Z :=
  match p with
  | Mouse.RButton _ down bmask => if down then js_or mask bmask else js_and mask (js_not bmask)
  | Mouse.RMove _ => mask
  end.

(** Is a button down, to one who believes the reports?  The last report about it says. *)
Definition held_after (b : Z) (held : bool) p : bool :=
  match p with
  | Mouse.RButton _ down bmask => if Z.testbit bmask b then down else held
  | Mouse.RMove _ => held
  end.
Definition held (b : Z) (l : list Mouse.report) : bool := fold_left (held_after b) l false.

Lemma mask_after_bit b mask p :
  0 <= b < 31 -> Z.testbit (mask_after mask p) b = held_after b (Z.testbit mask b) p.
Proof.
  intros Hb. destruct p as [pos [] bmask|pos]; cbn; [| |done]; unfold js_or, js_and, js_not.
  - rewrite Z.lor_spec, !toInt32_testbit, Z.min_l by lia. by destruct (Z.testbit bmask b); rewrite ?orb_true_r, ?orb_false_r.
  - rewrite Z.land_spec, !toInt32_testbit, Z.min_l, Z.lnot_spec, toInt32_testbit, Z.min_l by lia.
    by destruct (Z.testbit bmask b); rewrite ?andb_true_r, ?andb_false_r.
Qed.

(** The message of a report. *)
Definition pointer_message r p : message :=
  let vp := d_viewportLoc (dc_display (r_dec r)) in
  let pos := Mouse.report_pos p in
  PointerEvent (mask_after (m_buttonMask (r_mouse r)) p)
    (picture_at (dbl_of_Z 1) pos.1 (r_x vp)) (picture_at (dbl_of_Z 1) pos.2 (r_y vp)).

(** The session after it. *)
Definition pointed r p (s : sock) : rfb ZS :=
  r <| r_mouse := (r_mouse r) <| m_buttonMask := mask_after (m_buttonMask (r_mouse r)) p |> |> <| r_sock := s |>.

Lemma unless_viewOnly_run x y r :
  pointing r -> exists s,
  pointer_unless_viewOnly supports ZS x y r = (Ret tt, r <| r_sock := s |>) /\ r_idle ZS (r <| r_sock := s |>)
  /\ sk_sent s = sk_sent (r_sock r) ++ [layout (PointerEvent (m_buttonMask (r_mouse r))
       (picture_at (dbl_of_Z 1) x (r_x (d_viewportLoc (dc_display (r_dec r)))))
       (picture_at (dbl_of_Z 1) y (r_y (d_viewportLoc (dc_display (r_dec r))))))].
Proof.
  intros [Hc Hi _ _ Hs]. unfold pointer_unless_viewOnly. rewrite bind_run, gets_run. cbn [id].
  unfold can_send in Hc. apply andb_true_iff in Hc as [-> Hv]. apply negb_true_iff in Hv as ->. cbn [negb].
  rewrite <- Hs. by apply sendPointer_at.
Qed.

Lemma deliver_one_run p r :
  pointing r -> exists s, deliver_one p r = (Ret tt, pointed r p s) /\ pointing (pointed r p s)
    /\ sk_sent s = sk_sent (r_sock r) ++ [layout (pointer_message r p)].
Proof.
  intros H. pose (r1 := r <| r_mouse := (r_mouse r) <| m_buttonMask := mask_after (m_buttonMask (r_mouse r)) p |> |>).
  assert (H1 : pointing r1) by (destruct H; by constructor).
  destruct (unless_viewOnly_run (Mouse.report_pos p).1 (Mouse.report_pos p).2 r1 H1) as (s & E & Hi & Hs).
  exists s. split; [|split; [|exact Hs]].
  - destruct p as [pos down bmask|pos]; cbn [Pointer.deliver_one].
    + unfold handleMouseButton, set_mouse. rewrite bind_run, modify_run, bind_run, gets_run. cbn [id].
      match goal with |- context [o_dragViewport ?o] => change o with (r_options r) end.
      rewrite (pt_noDrag _ H). exact E.
    + unfold handleMouseMove. rewrite bind_run, gets_run. cbn [id]. rewrite (pt_notDragging _ H).
      assert (Er : r1 = r).
      { unfold r1. cbn [mask_after]. replace ((r_mouse r) <| m_buttonMask := _ |>) with (r_mouse r) by (by destruct (r_mouse r)).
        by destruct r. }
      rewrite Er in E. unfold pointed. fold r1. rewrite Er. exact E.
  - destruct H1; constructor; [done|exact Hi|done..].
Qed.

(** The messages of several reports. *)
Fixpoint pointer_messages (origin : Z * Z) (mask : Z) (l : list Mouse.report) : list message :=
  match l with
  | [] => []
  | p :: l =>
      let mask := mask_after mask p in
      PointerEvent mask (picture_at (dbl_of_Z 1) (Mouse.report_pos p).1 origin.1)
        (picture_at (dbl_of_Z 1) (Mouse.report_pos p).2 origin.2) :: pointer_messages origin mask l
  end.

Lemma pointer_messages_app o mask l l' :
  pointer_messages o mask (l ++ l') = pointer_messages o mask l ++ pointer_messages o (fold_left mask_after l mask) l'.
Proof. revert mask. induction l as [|p l IH]; intros mask; [done|]. cbn. by rewrite IH. Qed.

Definition origin r : Z * Z :=
  let vp := d_viewportLoc (dc_display (r_dec r)) in (r_x vp, r_y vp).

(** Only the mask and the socket change. *)
Definition pointed_by r (l : list Mouse.report) (s : sock) : rfb ZS :=
  r <| r_mouse := (r_mouse r) <| m_buttonMask := fold_left mask_after l (m_buttonMask (r_mouse r)) |> |> <| r_sock := s |>.

Lemma pointed_by_nil r : pointed_by r [] (r_sock r) = r.
Proof.
  unfold pointed_by. cbn [fold_left]. replace ((r_mouse r) <| m_buttonMask := _ |>) with (r_mouse r) by (by destruct (r_mouse r)).
  by destruct r as [[]].
Qed.

Lemma pointed_by_app r l l' s s' : pointed_by (pointed_by r l s) l' s' = pointed_by r (l ++ l') s'.
Proof.
  unfold pointed_by. cbn. by rewrite fold_left_app.
Qed.

Lemma delivered_run l r :
  pointing r -> exists s, deliver l r = pointed_by r l s /\ pointing (pointed_by r l s)
    /\ sk_sent s = sk_sent (r_sock r) ++ map layout (pointer_messages (origin r) (m_buttonMask (r_mouse r)) l).
Proof.
  revert r. induction l as [|p l IH]; intros r H.
  { exists (r_sock r). rewrite pointed_by_nil, app_nil_r. done. }
  destruct (deliver_one_run p r H) as (s1 & E1 & H1 & Hs1). cbn [Pointer.deliver]. rewrite E1. cbn [snd].
  destruct (IH _ H1) as (s2 & E2 & H2 & Hs2). change (pointed r p s1) with (pointed_by r [p] s1) in *.
  rewrite pointed_by_app in E2, H2. exists s2. split; [exact E2|]. split; [exact H2|].
  change (r_sock (pointed_by r [p] s1)) with s1 in Hs2. rewrite Hs2, Hs1, <- app_assoc. done.
Qed.

(** Reports are only ever added. *)
Lemma mouse_grows i (m : Mouse.mouse) :
  exists l, Mouse.ms_reports (Mouse.handle devicePixelRatio i m).2 = Mouse.ms_reports m ++ l.
Proof.
  set (rs := Mouse.ms_reports m). set (P := fun m => exists l, Mouse.ms_reports m = rs ++ l).
  assert (Hadd : forall f q, (forall m, Mouse.ms_reports (f m) = Mouse.ms_reports m ++ q) -> keeps P (modify f)).
  { intros f q Hf. apply keeps_modify. intros m' [l Hl]. exists (l ++ q). by rewrite Hf, Hl, app_assoc. }
  enough (keeps P (Mouse.handle devicePixelRatio i)) as H.
  { apply (H m). exists []. by rewrite app_nil_r. }
  unfold Mouse.handle, Mouse.handleMouseDown, Mouse.handleMouseUp, Mouse.handleMouseMove, Mouse.handleMouseWheel,
    Mouse.handleMouseButton, Mouse.touch_pos, Mouse.generateWheelStepX, Mouse.generateWheelStepY, Mouse.wheel_click,
    Mouse.onmousebutton, Mouse.onmousemove, Mouse.resetWheelStepTimers, Mouse.updateMousePosition, Mouse.get_pos,
    Mouse.handleMouseDisable, Mouse.resetDoubleClickTimer, Mouse.grab, Mouse.ungrab.
  keeps_by ltac:(fun _ => first [apply keeps_pos_event
    | eapply Hadd; intros ?; reflexivity
    | apply (Hadd _ []); intros ?; cbn; by rewrite app_nil_r]).
Qed.

Lemma mouse_input_run i (s : pad ZS) :
  pointing (pd_rfb s) ->
  exists new sock',
    mouse_input i s = Pad (pointed_by (pd_rfb s) new sock') (Mouse.handle devicePixelRatio i (pd_mouse s)).2
    /\ Mouse.ms_reports (Mouse.handle devicePixelRatio i (pd_mouse s)).2 = Mouse.ms_reports (pd_mouse s) ++ new
    /\ pointing (pointed_by (pd_rfb s) new sock')
    /\ sk_sent sock' = sk_sent (r_sock (pd_rfb s))
         ++ map layout (pointer_messages (origin (pd_rfb s)) (m_buttonMask (r_mouse (pd_rfb s))) new).
Proof.
  intros H. destruct (mouse_grows i (pd_mouse s)) as [new E]. unfold Pointer.mouse_input. rewrite E, drop_app_length.
  destruct (delivered_run new _ H) as (sock' & -> & H' & Hs). by exists new, sock'.
Qed.

(** Events of the mouse, one after the other. *)
Definition mouse_inputs (l : list Mouse.input) (s : pad ZS) : pad ZS := fold_left (fun s i => mouse_input i s) l s.

Lemma mouse_inputs_run l r :
  pointing r ->
  exists sock',
    mouse_inputs l (Pad r Mouse.constructor)
      = Pad (pointed_by r (Mouse.ms_reports (inputs devicePixelRatio l Mouse.constructor)) sock') (inputs devicePixelRatio l Mouse.constructor)
    /\ pointing (pointed_by r (Mouse.ms_reports (inputs devicePixelRatio l Mouse.constructor)) sock')
    /\ sk_sent sock' = sk_sent (r_sock r) ++ map layout (pointer_messages (origin r) (m_buttonMask (r_mouse r))
         (Mouse.ms_reports (inputs devicePixelRatio l Mouse.constructor))).
Proof.
  intros H. induction l as [|i l IH] using rev_ind.
  { exists (r_sock r). cbn [inputs fold_left Mouse.ms_reports Mouse.constructor mouse_inputs].
    rewrite pointed_by_nil, app_nil_r. done. }
  unfold mouse_inputs, inputs in *. rewrite !fold_left_app. cbn [fold_left].
  destruct IH as (s1 & E1 & H1 & Hs1). set (m := fold_left _ l Mouse.constructor) in *. rewrite E1.
  destruct (mouse_input_run i (Pad (pointed_by r (Mouse.ms_reports m) s1) m) H1) as (new & s2 & E2 & En & H2 & Hs2).
  cbn [pd_rfb pd_mouse] in *. rewrite E2, En. rewrite pointed_by_app in H2 |- *. exists s2. split; [done|]. split; [exact H2|].
  rewrite Hs2, pointer_messages_app, map_app. change (r_sock (pointed_by r _ s1)) with s1.
  rewrite Hs1, <- app_assoc. done.
Qed.

(** A place inside the canvas, in the picture. *)
Lemma picture_at_Z x o : - 2 ^ 51 < x < 2 ^ 51 -> - 2 ^ 51 < o < 2 ^ 51 -> picture_at (dbl_of_Z 1) (dbl_of_Z x) o = x + o.
Proof.
  intros Hx Ho. unfold picture_at. replace (dbl_is0 (dbl_of_Z 1)) with false by reflexivity.
  rewrite dbl_div_1 by (unfold exact; lia). rewrite dbl_add_Z, dbl_trunc_Z by (unfold exact; lia). done.
Qed.

Lemma pointer_messages_lookup o mask l n p :
  l !! n = Some p ->
  pointer_messages o mask l !! n = Some (PointerEvent (fold_left mask_after (take (S n) l) mask)
    (picture_at (dbl_of_Z 1) (Mouse.report_pos p).1 o.1) (picture_at (dbl_of_Z 1) (Mouse.report_pos p).2 o.2)).
Proof.
  revert mask n. induction l as [|q l IH]; intros mask [|n] Hp; try done.
  - by injection Hp as ->.
  - cbn in Hp |- *. by rewrite (IH _ n Hp).
Qed.

Lemma pointer_messages_length o mask l : length (pointer_messages o mask l) = length l.
Proof. revert mask. induction l as [|q l IH]; intros mask; [done|]. cbn. by rewrite IH. Qed.

Lemma mask_bits b l : 0 <= b < 31 -> Z.testbit (fold_left mask_after l 0) b = held b l.
Proof.
  intros Hb. unfold held. rewrite <- (Z.testbit_0_l b). generalize 0. induction l as [|p l IH]; intros mask; [done|].
  cbn [fold_left]. by rewrite IH, mask_after_bit.
Qed.

End Lemmas.

(** ** Properties *)

Section Properties.
Import Websock Messages RfbFormat Display Decoders Rfb Pointer.
Context (devicePixelRatio dragThreshold : double) (supports : bool) {ZS : Type}.
Implicit Types (r : rfb ZS).

(** [C6] Pointing, end to end: whatever mouse, touch and wheel events hit a canvas that
    stays where it is, at integral places of the screen, in a running session that
    neither scales nor drags, the server is sent exactly one pointer event for each
    report of the mouse, in order and complete.  Its place is the pixel of the picture
    under the pointer of the event that made the report (of the last event for the
    wheel's timer, of the first of two touches for the start of the second if it is
    soon after and close by), kept on the part the canvas shows; each button of its
    mask is down exactly when the last report about that button was a press; and the
    session is otherwise unchanged. *)
Theorem pointing_reaches_server (x y w h : Z) (l : list Mouse.input) r :
  let vp := d_viewportLoc (dc_display (r_dec r)) in
  - 2 ^ 50 < x < 2 ^ 50 -> - 2 ^ 50 < y < 2 ^ 50 -> 0 < w < 2 ^ 50 -> 0 < h < 2 ^ 50 ->
  - 2 ^ 50 < r_x vp < 2 ^ 50 -> - 2 ^ 50 < r_y vp < 2 ^ 50 ->
  Forall (placed x y w h) l -> pointing r -> m_buttonMask (r_mouse r) = 0 ->
  let s := mouse_inputs devicePixelRatio dragThreshold supports l (Pad r Mouse.constructor) in
  let reports := Mouse.ms_reports (pd_mouse s) in
  let places := expected_places devicePixelRatio x y w h l in
  exists sock' messages,
    pd_rfb s = pointed_by r reports sock'
    /\ sk_sent sock' = sk_sent (r_sock r) ++ map layout messages
    /\ length messages = length reports /\ length places = length reports
    /\ forall n p px py, reports !! n = Some p -> places !! n = Some (px, py) -> exists mask,
         messages !! n = Some (PointerEvent mask (px + r_x vp) (py + r_y vp))
         /\ Mouse.report_pos p = (dbl_of_Z px, dbl_of_Z py) /\ 0 <= px < w /\ 0 <= py < h
         /\ forall b, 0 <= b < 8 -> Z.testbit mask b = held b (take (S n) reports).
Proof.
  intros vp Hx Hy Hw Hh Hvx Hvy Hl Hr Hm s reports places. unfold reports, s.
  destruct (mouse_inputs_run devicePixelRatio dragThreshold supports l r Hr) as (sock' & E & _ & Hs).
  rewrite E. cbn [pd_rfb pd_mouse].
  pose proof (reports_expected devicePixelRatio x y w h Hw Hh Hx Hy l Hl) as Hpl. fold places in Hpl.
  set (reps := Mouse.ms_reports _) in *.
  eexists sock', _. split; [done|]. split; [exact Hs|]. split; [apply pointer_messages_length|].
  split; [by rewrite <- (length_map doubles), <- Hpl, length_map|].
  intros n p px py Hp Hq. pose proof (expected_within devicePixelRatio x y w h Hw Hh l) as Hin. fold places in Hin.
  destruct (proj1 (Forall_lookup _ _) Hin n _ Hq) as [Hpx Hpy]. cbn [fst snd] in Hpx, Hpy.
  assert (Ep : Mouse.report_pos p = (dbl_of_Z px, dbl_of_Z py)).
  { apply (f_equal (fun l => l !! n)) in Hpl. rewrite !list_lookup_fmap, Hp, Hq in Hpl. by injection Hpl. }
  rewrite (pointer_messages_lookup _ _ _ _ _ Hp), Ep, Hm.
  change (origin r) with (r_x vp, r_y vp). cbn [fst snd]. rewrite !picture_at_Z by lia.
  eexists. split; [done|]. split; [done|]. split; [done|]. split; [done|].
  intros b Hb. apply mask_bits. lia.
Qed.

End Properties.

(** ** Witness: a click outside the canvas and a little scrolling *)

Section Examples.
Import Websock Messages RfbFormat Display Decoders Rfb Samples Pointer.

Definition pad_of (r : rfb unit) : pad unit :=
  mouse_inputs (dbl_of_Z 1) (dbl_of_Z 10) true (click_and_scroll ++ [Mouse.IWheelYTimeout]) (Pad r Mouse.constructor).

(** A 4 by 4 picture on a canvas of that size. *)
Definition in_session : rfb unit :=
  (session Connected []) <| r_dec := new_decoding unit tt (sock_with []) (Display.constructor 4 4 4 4) |>.

Lemma in_session_points : pointing in_session.
Proof. constructor; [reflexivity|exact (session_idle Connected [])|reflexivity..]. Qed.

Lemma pointing_reaches_server_witness :
  exists sock' messages,
    pd_rfb (pad_of in_session) = pointed_by in_session (Mouse.ms_reports (pd_mouse (pad_of in_session))) sock'
    /\ sk_sent sock' = map layout messages /\ length messages = 4%nat.
Proof.
  destruct (pointing_reaches_server (dbl_of_Z 1) (dbl_of_Z 10) true 10 20 640 480
    (click_and_scroll ++ [Mouse.IWheelYTimeout]) in_session) as (sock' & messages & E & Hs & Hn & _);
    [vm_compute; split; reflexivity..|apply Forall_app; split; [apply click_and_scroll_placed|by repeat constructor]
    |apply in_session_points|reflexivity|].
  exists sock', messages. split; [exact E|]. split; [exact Hs|]. rewrite Hn. vm_compute. reflexivity.
Defined.

Lemma pointing_sends :
  sk_sent (r_sock (pd_rfb (pad_of in_session)))
  = [[5; 1; 0; 0; 1; 223]; [5; 0; 2; 127; 0; 10]; [5; 16; 0; 5; 0; 5]; [5; 0; 0; 5; 0; 5]].
Proof. vm_compute. reflexivity. Qed.

End Examples.
