(* ===== verification/Ui.v ===== *)
(** * The user interface of noVNC
    (src/ControlServer/web/www/novnc/app/ui.js)

    [UI] is one object; its state here is that object and the page it drives: the
    classes of the elements, the controls of the settings, the texts it shows and the
    timers it has set.  The session is seen from outside, as a record of the properties
    [UI] reads and writes, and the calls of its methods are logged in order.  What the
    page knows of the browser, and the translation of texts, are parameters. *)

From S2P Require Import Prelude Strings Localization Settings Keysyms.
From stdpp Require Import pretty.
Local Open Scope Z_scope.

Module Ui.
Import Localization Settings Logging.
Local Open Scope js_scope.

(** *** State *)

Inductive kind := Checkbox | Select (options : list text) | Field.
Record control := Control {
  c_kind : kind; c_checked : bool; c_selectedIndex : nat; c_value : text; c_disabled : bool;
  c_label_disabled : bool }.
#[export] Instance eta_control : Eta control := fun c =>
  Control (c_kind c) (c_checked c) (c_selectedIndex c) (c_value c) (c_disabled c) (c_label_disabled c).

(** How far the session is: an [RFB] object moves from one to the next. *)
Inductive phase := Connecting | Connected | Disconnecting.
#[export] Instance phase_eq_dec : EqDecision phase.
Proof. solve_decision. Defined.

Record remote := Remote {
  u_phase : phase;
  u_url : text; u_shared : value; u_repeaterID : value; u_password : option text;
  u_showDotCursor : bool; u_clipViewport : bool; u_scaleViewport : bool; u_resizeSession : bool;
  u_dragViewport : bool; u_viewOnly : bool; u_touchButton : Z; u_focusOnClick : bool; u_power : bool }.
#[export] Instance eta_remote : Eta remote := fun r =>
  Remote (u_phase r) (u_url r) (u_shared r) (u_repeaterID r) (u_password r) (u_showDotCursor r) (u_clipViewport r)
    (u_scaleViewport r) (u_resizeSession r) (u_dragViewport r) (u_viewOnly r) (u_touchButton r) (u_focusOnClick r) (u_power r).

Inductive call :=
  | CNew (url : text)
  | CDisconnect
  | CSendKey (keysym : Z) (code : option string) (down : option bool)
  | CSendCtrlAltDel
  | CPaste (t : text)
  | CCredentials (password : text)
  | CFocus
  | CMachineShutdown | CMachineReboot | CMachineReset.

Inductive task :=
  | THideStatus | TIdleControlbar | TCloseControlbar | TReconnect | TFocusPassword | TFocusKeyboard | TScroll.
#[export] Instance task_eq_dec : EqDecision task.
Proof. solve_decision. Defined.

Record ui := UI {
  connected : bool;
  desktopName : text;
  statusTimeout : option nat;
  idleControlbarTimeout : option nat;
  closeControlbarTimeout : option nat;
  controlbarGrabbed : bool;
  controlbarDrag : bool;
  controlbarMouseDownClientY : double;
  controlbarMouseDownOffsetY : double;
  lastKeyboardinput : option text;
  inhibit_reconnect : bool;
  reconnect_callback : option nat;
  reconnect_password : option text;
  rfb : option remote;
  (* the page *)
  classes : gset (string * string);
  controls : gmap string control;
  store_ : store;
  logging_ : logging;
  statusText : text;
  transitionText : text;
  clipboardText : text;
  passwordInput : text;
  title : text;
  keyboardValue : text;
  keyboardFocused : bool;
  dragButtonDisabled : bool;
  handleTransform : double;
  bells : nat;
  timers : gmap nat (task * option Z);   (* their delay in ms, NaN is none *)
  nextTimer : nat;
  calls : list call }.
#[export] Instance eta_ui : Eta ui := fun u =>
  UI (connected u) (desktopName u) (statusTimeout u) (idleControlbarTimeout u) (closeControlbarTimeout u)
    (controlbarGrabbed u) (controlbarDrag u) (controlbarMouseDownClientY u) (controlbarMouseDownOffsetY u)
    (lastKeyboardinput u) (inhibit_reconnect u) (reconnect_callback u) (reconnect_password u) (rfb u)
    (classes u) (controls u) (store_ u) (logging_ u) (statusText u) (transitionText u) (clipboardText u)
    (passwordInput u) (title u) (keyboardValue u) (keyboardFocused u) (dragButtonDisabled u) (handleTransform u)
    (bells u) (timers u) (nextTimer u) (calls u).

Definition defaultKeyboardinputLen : Z := 100.

(** *** The page *)

Definition contains (id class : string) (u : ui) : bool := bool_decide ((id, class) ∈ classes u).
Definition addClass (id class : string) : M ui unit := modify (fun u => u <| classes := {[(id, class)]} ∪ classes u |>).
Definition removeClass (id class : string) : M ui unit := modify (fun u => u <| classes := classes u ∖ {[(id, class)]} |>).

Definition setTimeout (t : task) (delay : option Z) : M ui nat :=
  n ← gets nextTimer;
  modify (fun u => u <| timers := <[n := (t, delay)]> (timers u) |> <| nextTimer := S n |>);;
  mret n.
Definition clearTimeout (timer : option nat) : M ui unit :=
  match timer with
  | Some n => modify (fun u => u <| timers := delete n (timers u) |>)
  | None => skip
  end.

Definition log (c : call) : M ui unit := modify (fun u => u <| calls := calls u ++ [c] |>).

(** [UI.rfb], of which a property is used *)
Definition get_rfb : M ui remote :=
  r ← gets rfb; match r with Some r => mret r | None => throw TypeError end.
Definition set_rfb (f : remote -> remote) : M ui unit := modify (fun u => u <| rfb := f <$> rfb u |>).
(** [UI.rfb.method(...)] *)
Definition call_rfb (c : call) : M ui unit := get_rfb;; log c.

(** [if (!UI.rfb) return;] *)
Definition with_rfb (m : M ui unit) : M ui unit :=
  r ← gets rfb; match r with Some _ => m | None => skip end.

Definition truthy (v : value) : bool :=
  match v with
  | VUndefined | VNull => false
  | VBool b => b
  | VNumber n => negb (n =? 0)
  | VString s => negb (bool_decide (s = []))
  end.

(** [document.getElementById('noVNC_setting_' + name)], of which a property is used *)
Definition get_control (name : string) : M ui control :=
  cs ← gets controls; match cs !! name with Some c => mret c | None => throw TypeError end.
Definition set_control (name : string) (f : control -> control) : M ui unit :=
  get_control name;; modify (fun u => u <| controls := alter f name (controls u) |>).

Section Ui.
Context (tr : text -> text) (toLowerCase : text -> text).
Context (href hash hostname : text) (port : option text) (protocol : text).
Context (isTouchDevice isIOS isAndroid : bool) (console : bool).

(** *** Settings *)

(** [parseInt(s)]; NaN is none. *)
Fixpoint digits_value (base acc : Z) (s : text) : Z :=
  match s with
  | [] => acc
  | c :: s =>
      match hex_value c with
      | Some d => if d <? base then digits_value base (acc * base + d) s else acc
      | None => acc
      end
  end.
Definition starts_digit (base : Z) (s : text) : bool :=
  match s with c :: _ => match hex_value c with Some d => d <? base | None => false end | [] => false end.
Definition parseInt (s : text) : option Z :=
  let s := trimStart s in
  let '(sign, s) := match s with 45 :: s => (-1, s) | 43 :: s => (1, s) | s => (1, s) end in
  let '(base, s) := match s with
                    | 48 :: 120 :: s => (16, s) | 48 :: 88 :: s => (16, s) | s => (10, s) end in
  if starts_digit base s then Some (sign * digits_value base 0 s) else None.

Definition getSetting (name : string) : M ui value :=
  v ← zoom store_ (readSetting name VUndefined);
  ctrl ← get_control name;
  mret match v, c_kind ctrl with
       | (VUndefined | VNull), _ => v
       | _, Checkbox => VBool (negb (bool_decide (toLowerCase (to_string v)
                                   ∈ map codes ["0"; "no"; "false"; "constructor"; "__proto__"])))
       | _, _ => v
       end.

(** [selectedIndex] is set to that of the first option of this value, if there is one. *)
Definition select_option (options : list text) (v : value) (c : control) : control :=
  match list_find (fun o => v = VString o) options with
  | Some (i, _) => c <| c_selectedIndex := i |>
  | None => c
  end.

Definition updateSetting (name : string) : M ui unit :=
  v ← getSetting name;
  ctrl ← get_control name;
  set_control name (fun c =>
    match c_kind ctrl with
    | Checkbox => c <| c_checked := truthy v |>
    | Select options => select_option options v c
    | Field => c <| c_value := if decide (v = VNull) then [] else to_string v |>
    end).

Definition initSetting (name : string) (defVal : value) : M ui value :=
  v ← lift (getConfigVar href hash (codes name) None);
  v ← match v with
      | None => zoom store_ (readSetting name defVal)
      | Some t => mret (VString t)
      end;
  zoom store_ (setSetting name v);;
  updateSetting name;;
  mret v.

Definition disableSetting (name : string) : M ui unit :=
  set_control name (fun c => c <| c_disabled := true |> <| c_label_disabled := true |>).
Definition enableSetting (name : string) : M ui unit :=
  set_control name (fun c => c <| c_disabled := false |> <| c_label_disabled := false |>).

Definition forceSetting (name : string) (v : value) : M ui unit :=
  zoom store_ (setSetting name v);; updateSetting name;; disableSetting name.

(** The value of a control; a drop-down list of which nothing is selected has none. *)
Definition control_value (c : control) : outcome value :=
  match c_kind c with
  | Checkbox => Ret (VBool (c_checked c))
  | Select options => match options !! c_selectedIndex c with Some o => Ret (VString o) | None => Throw TypeError end
  | Field => Ret (VString (c_value c))
  end.

Definition saveSetting (name : string) : M ui value :=
  ctrl ← get_control name;
  v ← lift (control_value ctrl);
  zoom store_ (writeSetting name v);;
  mret v.

Definition updateLogging : M ui unit :=
  level ← getSetting "logging";
  (* the level is a text or, of a page with no setting, null *)
  zoom logging_ (fun l => init_logging console href (Some (to_string level)) l).

(** *** Status *)

Definition hideStatus : M ui unit :=
  t ← gets statusTimeout; clearTimeout t;; removeClass "noVNC_status" "noVNC_open".

Definition visible_status (u : ui) : string :=
  if contains "noVNC_status" "noVNC_open" u then
    if contains "noVNC_status" "noVNC_status_error" u then "error"
    else if contains "noVNC_status" "noVNC_status_warn" u then "warn" else "normal"
  else "none".

Definition set_status_class (status_type : string) : M ui unit :=
  if decide (status_type = "error") then
    removeClass "noVNC_status" "noVNC_status_warn";; removeClass "noVNC_status" "noVNC_status_normal";;
    addClass "noVNC_status" "noVNC_status_error"
  else if decide (status_type = "warning" \/ status_type = "warn") then
    removeClass "noVNC_status" "noVNC_status_error";; removeClass "noVNC_status" "noVNC_status_normal";;
    addClass "noVNC_status" "noVNC_status_warn"
  else
    removeClass "noVNC_status" "noVNC_status_error";; removeClass "noVNC_status" "noVNC_status_warn";;
    addClass "noVNC_status" "noVNC_status_normal".

(** The time is 1.5 seconds if the caller gives none, and no caller does. *)
Definition showStatus (t : text) (status_type : string) (time : option Z) : M ui unit :=
  timer ← gets statusTimeout; clearTimeout timer;;
  visible ← gets visible_status;
  if bool_decide (visible = "error") || bool_decide (visible = "warn" /\ status_type = "normal") then skip
  else
    set_status_class status_type;;
    modify (fun u => u <| statusText := t |>);;
    addClass "noVNC_status" "noVNC_open";;
    when (negb (bool_decide (status_type = "error")))
      (n ← setTimeout THideStatus (Some (default 1500 time)); modify (fun u => u <| statusTimeout := Some n |>)).

(** *** Control bar *)

Definition idleControlbar : M ui unit := addClass "noVNC_control_bar_anchor" "noVNC_idle".
Definition activateControlbar : M ui unit :=
  t ← gets idleControlbarTimeout; clearTimeout t;;
  removeClass "noVNC_control_bar_anchor" "noVNC_idle";;
  n ← setTimeout TIdleControlbar (Some 2000);
  modify (fun u => u <| idleControlbarTimeout := Some n |>).
Definition keepControlbar : M ui unit := t ← gets closeControlbarTimeout; clearTimeout t.
Definition openControlbar : M ui unit := addClass "noVNC_control_bar" "noVNC_open".

(** *** Panels *)

Definition close_panel (panel button : string) : M ui unit :=
  removeClass panel "noVNC_open";; removeClass button "noVNC_selected".
Definition show_panel (panel button : string) : M ui unit :=
  addClass panel "noVNC_open";; addClass button "noVNC_selected".

Definition closeSettingsPanel : M ui unit := close_panel "noVNC_settings" "noVNC_settings_button".
Definition closePowerPanel : M ui unit := close_panel "noVNC_power" "noVNC_power_button".
Definition closeClipboardPanel : M ui unit := close_panel "noVNC_clipboard" "noVNC_clipboard_button".
Definition closeExtraKeys : M ui unit := close_panel "noVNC_modifiers" "noVNC_toggle_extra_keys_button".
Definition closeAllPanels : M ui unit :=
  closeSettingsPanel;; closePowerPanel;; closeClipboardPanel;; closeExtraKeys.

Definition closeControlbar : M ui unit :=
  closeAllPanels;; removeClass "noVNC_control_bar" "noVNC_open".
Definition toggleControlbar : M ui unit :=
  b ← gets (contains "noVNC_control_bar" "noVNC_open"); if b : bool then closeControlbar else openControlbar.

Fixpoint updateSettings (names : list string) : M ui unit :=
  match names with [] => skip | n :: names => updateSetting n;; updateSettings names end.

Definition openSettingsPanel : M ui unit :=
  closeAllPanels;; openControlbar;;
  updateSettings ["encrypt"; "view_clip"; "resize"; "shared"; "view_only"; "path"; "repeaterID"; "logging"; "reconnect";
                  "reconnect_delay"];;
  show_panel "noVNC_settings" "noVNC_settings_button".
Definition toggleSettingsPanel : M ui unit :=
  b ← gets (contains "noVNC_settings" "noVNC_open"); if b : bool then closeSettingsPanel else openSettingsPanel.

Definition openPowerPanel : M ui unit :=
  closeAllPanels;; openControlbar;; show_panel "noVNC_power" "noVNC_power_button".
Definition togglePowerPanel : M ui unit :=
  b ← gets (contains "noVNC_power" "noVNC_open"); if b : bool then closePowerPanel else openPowerPanel.

Definition updatePowerButton : M ui unit :=
  c ← gets connected;
  shown ← (if c : bool then r ← get_rfb; mret (u_power r && negb (u_viewOnly r)) else mret false);
  if shown : bool then removeClass "noVNC_power_button" "noVNC_hidden"
  else addClass "noVNC_power_button" "noVNC_hidden";; closePowerPanel.

Definition openClipboardPanel : M ui unit :=
  closeAllPanels;; openControlbar;; show_panel "noVNC_clipboard" "noVNC_clipboard_button".
Definition toggleClipboardPanel : M ui unit :=
  b ← gets (contains "noVNC_clipboard" "noVNC_open"); if b : bool then closeClipboardPanel else openClipboardPanel.
Definition clipboardReceive (t : text) : M ui unit := modify (fun u => u <| clipboardText := t |>).
Definition clipboardClear : M ui unit :=
  modify (fun u => u <| clipboardText := [] |>);; call_rfb (CPaste []).
Definition clipboardSend : M ui unit := t ← gets clipboardText; call_rfb (CPaste t).

Definition openExtraKeys : M ui unit :=
  closeAllPanels;; openControlbar;; show_panel "noVNC_modifiers" "noVNC_toggle_extra_keys_button".
Definition toggleExtraKeys : M ui unit :=
  b ← gets (contains "noVNC_modifiers" "noVNC_open"); if b : bool then closeExtraKeys else openExtraKeys.

(** *** The handle of the control bar *)

(** Of the display of the bar, only the position of the handle is kept. *)
Definition toggleControlbarSide : M ui unit :=
  right ← gets (contains "noVNC_control_bar_anchor" "noVNC_right");
  (if right : bool then
     zoom store_ (writeSetting "controlbar_pos" (VString (codes "left")));;
     removeClass "noVNC_control_bar_anchor" "noVNC_right"
   else
     zoom store_ (writeSetting "controlbar_pos" (VString (codes "right")));;
     addClass "noVNC_control_bar_anchor" "noVNC_right");;
  modify (fun u => u <| controlbarDrag := true |>).

Definition showControlbarHint (show : bool) : M ui unit :=
  if show then addClass "noVNC_control_bar_hint" "noVNC_active"
  else removeClass "noVNC_control_bar_hint" "noVNC_active".

Definition margin : double := dbl_of_Z 10.

(** Where the handle goes in a bar of this top and height. *)
Definition handle_position (viewportRelativeY handleHeight top height : double) : double :=
  let newY := viewportRelativeY in
  let lowest := dbl_sub (dbl_sub (dbl_add top height) handleHeight) margin in
  let newY := if dbl_lt newY (dbl_add top margin) then dbl_add top margin
              else if dbl_lt lowest newY then lowest else newY in
  let newY := if dbl_lt height (dbl_add handleHeight (dbl_mul margin (dbl_of_Z 2)))
              then dbl_add top (dbl_div (dbl_sub height handleHeight) (dbl_of_Z 2)) else newY in
  dbl_sub newY top.

Definition moveControlbarHandle (handleHeight top height viewportRelativeY : double) : M ui unit :=
  if dbl_is0 handleHeight || dbl_is0 height then skip
  else modify (fun u => u <| handleTransform := handle_position viewportRelativeY handleHeight top height |>).

(** 0.1 and 0.9 *)
Definition tenth : double := SpecFloat.S754_finite false 7205759403792794 (-56).
Definition nine_tenths : double := SpecFloat.S754_finite false 8106479329266893 (-53).

Definition dragControlbarHandle (dragThreshold clientX clientY innerWidth handleHeight top height : double) : M ui unit :=
  u ← gets id;
  if negb (controlbarGrabbed u) then skip
  else
    (if dbl_lt clientX (dbl_mul innerWidth tenth) then
       when (contains "noVNC_control_bar_anchor" "noVNC_right" u) toggleControlbarSide
     else if dbl_lt (dbl_mul innerWidth nine_tenths) clientX then
       when (negb (contains "noVNC_control_bar_anchor" "noVNC_right" u)) toggleControlbarSide
     else skip);;
    u ← gets id;
    let dragDistance := dbl_abs (dbl_sub clientY (controlbarMouseDownClientY u)) in
    if negb (controlbarDrag u) && dbl_lt dragDistance dragThreshold then skip
    else
      modify (fun u => u <| controlbarDrag := true |>);;
      let eventY := dbl_sub clientY (controlbarMouseDownOffsetY u) in
      moveControlbarHandle handleHeight top height eventY;;
      keepControlbar;; activateControlbar.

Definition updateControlbarHandle (handleTop handleHeight top height : double) : M ui unit :=
  moveControlbarHandle handleHeight top height handleTop.

(** A release of another button than the left one is ignored. *)
Definition controlbarHandleMouseUp (mouse : bool) (button : Z) : M ui unit :=
  if mouse && negb (button =? 0) then skip
  else
    u ← gets id;
    when (controlbarGrabbed u && negb (controlbarDrag u)) (toggleControlbar;; keepControlbar;; activateControlbar);;
    modify (fun u => u <| controlbarGrabbed := false |>);;
    showControlbarHint false.

Definition controlbarHandleMouseDown (mouse : bool) (button : Z) (clientY handleTop : double) : M ui unit :=
  if mouse && negb (button =? 0) then skip
  else
    modify (fun u => u <| controlbarGrabbed := true |> <| controlbarDrag := false |>);;
    showControlbarHint true;;
    modify (fun u => u <| controlbarMouseDownClientY := clientY |>
                       <| controlbarMouseDownOffsetY := dbl_sub clientY handleTop |>);;
    keepControlbar;; activateControlbar.

(** The expanders of the page, by their number. *)
Definition toggleExpander (n : nat) : M ui unit :=
  let id := ("expander " ++ pretty n)%string in
  b ← gets (contains id "noVNC_open"); if b : bool then removeClass id "noVNC_open" else addClass id "noVNC_open".

(** *** View clipping and dragging *)

Definition updateViewDrag : M ui unit :=
  c ← gets connected;
  if negb c then skip
  else
    r ← get_rfb;
    when (negb (u_clipViewport r) && u_dragViewport r) (set_rfb (fun r => r <| u_dragViewport := false |>));;
    r ← get_rfb;
    (if u_dragViewport r then addClass "noVNC_view_drag_button" "noVNC_selected"
     else removeClass "noVNC_view_drag_button" "noVNC_selected");;
    if isTouchDevice then
      removeClass "noVNC_view_drag_button" "noVNC_hidden";;
      modify (fun u => u <| dragButtonDisabled := negb (u_clipViewport r) |>)
    else
      modify (fun u => u <| dragButtonDisabled := false |>);;
      if u_clipViewport r then removeClass "noVNC_view_drag_button" "noVNC_hidden"
      else addClass "noVNC_view_drag_button" "noVNC_hidden".

Definition toggleViewDrag : M ui unit :=
  with_rfb (set_rfb (fun r => r <| u_dragViewport := negb (u_dragViewport r) |>);; updateViewDrag).

Definition is_string (v : value) (s : string) : bool := bool_decide (v = VString (codes s)).

Definition updateViewClip : M ui unit :=
  with_rfb (
    v ← getSetting "resize";
    (if is_string v "scale" then
       forceSetting "view_clip" (VBool false);; set_rfb (fun r => r <| u_clipViewport := false |>)
     else if isIOS || isAndroid then
       forceSetting "view_clip" (VBool true);; set_rfb (fun r => r <| u_clipViewport := true |>)
     else
       enableSetting "view_clip";;
       v ← getSetting "view_clip"; set_rfb (fun r => r <| u_clipViewport := truthy v |>));;
    updateViewDrag).

Definition applyResizeMode : M ui unit :=
  with_rfb (
    v ← getSetting "resize"; set_rfb (fun r => r <| u_scaleViewport := is_string v "scale" |>);;
    v ← getSetting "resize"; set_rfb (fun r => r <| u_resizeSession := is_string v "remote" |>)).

(** *** Mouse buttons and view-only mode *)

Definition mouse_button (n : Z) : string :=
  "noVNC_mouse_button" ++ (if n =? 0 then "0" else if n =? 1 then "1" else if n =? 2 then "2" else "4").

Definition setMouseButton (num : Z) : M ui unit :=
  r ← get_rfb;
  let view_only := u_viewOnly r in
  when (negb view_only) (set_rfb (fun r => r <| u_touchButton := num |>));;
  let show b := if (b =? num) && negb view_only then removeClass (mouse_button b) "noVNC_hidden"
                else addClass (mouse_button b) "noVNC_hidden" in
  show 0;; show 1;; show 2;; show 4.

(** [touchButton] is one of the masks of [setMouseButton]. *)
Definition updateViewOnly : M ui unit :=
  with_rfb (
    v ← getSetting "view_only"; set_rfb (fun r => r <| u_viewOnly := truthy v |>);;
    r ← get_rfb;
    if u_viewOnly r then
      addClass "noVNC_keyboard_button" "noVNC_hidden";; addClass "noVNC_toggle_extra_keys_button" "noVNC_hidden";;
      addClass (mouse_button (u_touchButton r)) "noVNC_hidden"
    else
      removeClass "noVNC_keyboard_button" "noVNC_hidden";; removeClass "noVNC_toggle_extra_keys_button" "noVNC_hidden";;
      removeClass (mouse_button (u_touchButton r)) "noVNC_hidden").

Definition updateShowDotCursor : M ui unit :=
  with_rfb (v ← getSetting "show_dot"; set_rfb (fun r => r <| u_showDotCursor := truthy v |>)).

(** *** The state of the page *)

Definition connection_settings : list string := ["encrypt"; "shared"; "host"; "port"; "path"; "repeaterID"].
Fixpoint each (f : string -> M ui unit) (names : list string) : M ui unit :=
  match names with [] => skip | n :: names => f n;; each f names end.

(** The text and the class of a state, or nothing for a state there is not. *)
Definition show_state (state : string) : option (M ui unit) :=
  let shown t class :=
    modify (fun u => u <| transitionText := tr (codes t) |>);; addClass "html" class in
  if decide (state = "init") then Some skip
  else if decide (state = "connecting") then Some (shown "Connecting..." "noVNC_connecting")
  else if decide (state = "connected") then Some (addClass "html" "noVNC_connected")
  else if decide (state = "disconnecting") then Some (shown "Disconnecting..." "noVNC_disconnecting")
  else if decide (state = "disconnected") then Some skip
  else if decide (state = "reconnecting") then Some (shown "Reconnecting..." "noVNC_reconnecting")
  else None.

Definition updateVisualState (state : string) : M ui unit :=
  removeClass "html" "noVNC_connecting";; removeClass "html" "noVNC_connected";;
  removeClass "html" "noVNC_disconnecting";; removeClass "html" "noVNC_reconnecting";;
  match show_state state with
  | None => showStatus (tr (codes "Internal error")) "error" None
  | Some shown =>
      shown;;
      c ← gets connected;
      (if c : bool then
         updateViewClip;;
         each disableSetting connection_settings;;
         setMouseButton 1;;
         n ← setTimeout TCloseControlbar (Some 2000);
         modify (fun u => u <| closeControlbarTimeout := Some n |>)
       else
         each enableSetting connection_settings;;
         updatePowerButton;;
         keepControlbar);;
      removeClass "noVNC_password_dlg" "noVNC_open"
  end.

(** *** The connection *)

Definition openConnectPanel : M ui unit := addClass "noVNC_connect_dlg" "noVNC_open".
Definition closeConnectPanel : M ui unit := removeClass "noVNC_connect_dlg" "noVNC_open".

Definition server_url (encrypt host port path : value) : text :=
  codes (if truthy encrypt then "wss" else "ws") ++ codes "://" ++ to_string host
  ++ (if truthy port then codes ":" ++ to_string port else []) ++ codes "/" ++ to_string path.

(** [new RFB(...)] *)
Definition new_remote (url : text) (shared repeaterID : value) (showDotCursor : bool) (password : option text) : remote :=
  Remote Connecting url shared repeaterID password showDotCursor false false false false false 1 true false.

(** The password is undefined, null or a text. *)
Definition connect (password : option (option text)) : M ui unit :=
  u ← gets id;
  match rfb u with
  | Some _ => skip
  | None =>
      host ← getSetting "host"; port ← getSetting "port"; path ← getSetting "path";
      password ← match password with
                 | Some p => mret p
                 | None =>
                     p ← lift (getConfigVar href hash (codes "password") None);
                     modify (fun u => u <| reconnect_password := p |>);; mret p
                 end;
      hideStatus;;
      if negb (truthy host) then showStatus (tr (codes "Must set host")) "error" None
      else
        closeAllPanels;; closeConnectPanel;;
        updateVisualState "connecting";;
        encrypt ← getSetting "encrypt";
        let url := server_url encrypt host port path in
        shared ← getSetting "shared"; show_dot ← getSetting "show_dot"; repeaterID ← getSetting "repeaterID";
        log (CNew url);;
        modify (fun u => u <| rfb := Some (new_remote url shared repeaterID (truthy show_dot) password) |>);;
        v ← getSetting "view_clip"; set_rfb (fun r => r <| u_clipViewport := truthy v |>);;
        v ← getSetting "resize"; set_rfb (fun r => r <| u_scaleViewport := is_string v "scale" |>);;
        v ← getSetting "resize"; set_rfb (fun r => r <| u_resizeSession := is_string v "remote" |>);;
        updateViewOnly
  end.

Definition disconnect : M ui unit :=
  closeAllPanels;;
  call_rfb CDisconnect;; set_rfb (fun r => r <| u_phase := Disconnecting |>);;
  modify (fun u => u <| connected := false |> <| inhibit_reconnect := true |>);;
  updateVisualState "disconnecting".

Definition reconnect : M ui unit :=
  modify (fun u => u <| reconnect_callback := None |>);;
  u ← gets id;
  if inhibit_reconnect u then skip else connect (Some (reconnect_password u)).

Definition cancelReconnect : M ui unit :=
  t ← gets reconnect_callback;
  match t with
  | Some _ => clearTimeout t;; modify (fun u => u <| reconnect_callback := None |>)
  | None => skip
  end;;
  updateVisualState "disconnected";;
  openControlbar;; openConnectPanel.

(** The session has called: its phase is what it says. *)
Definition connectFinished : M ui unit :=
  modify (fun u => u <| connected := true |> <| inhibit_reconnect := false |>);;
  encrypt ← getSetting "encrypt";
  name ← gets desktopName;
  showStatus (tr (codes (if truthy encrypt then "Connected (encrypted) to " else "Connected (unencrypted) to ")) ++ name)
    "normal" None;;
  updateVisualState "connected";;
  call_rfb CFocus.

Definition disconnectFinished (clean : bool) : M ui unit :=
  wasConnected ← gets connected;
  modify (fun u => u <| connected := false |> <| rfb := None |>);;
  let finish := openControlbar;; openConnectPanel in
  if negb clean then
    updateVisualState "disconnected";;
    showStatus (tr (codes (if wasConnected : bool then "Something went wrong, connection is closed"
                           else "Failed to connect to server"))) "error" None;;
    finish
  else
    v ← getSetting "reconnect";
    u ← gets id;
    if bool_decide (v = VBool true) && negb (inhibit_reconnect u) then
      updateVisualState "reconnecting";;
      d ← getSetting "reconnect_delay";
      n ← setTimeout TReconnect (parseInt (to_string d));
      modify (fun u => u <| reconnect_callback := Some n |>)
    else
      updateVisualState "disconnected";;
      showStatus (tr (codes "Disconnected")) "normal" None;;
      finish.

Definition securityFailed (reason : option text) : M ui unit :=
  showStatus match reason with
             | Some r => tr (codes "New connection has been rejected with reason: ") ++ r
             | None => tr (codes "New connection has been rejected")
             end "error" None.

Definition credentials : M ui unit :=
  addClass "noVNC_password_dlg" "noVNC_open";;
  n ← setTimeout TFocusPassword (Some 100);
  showStatus (tr (codes "Password is required")) "warning" None.

Definition setPassword : M ui unit :=
  password ← gets passwordInput;
  modify (fun u => u <| passwordInput := [] |>);;
  call_rfb (CCredentials password);;
  modify (fun u => u <| reconnect_password := Some password |>);;
  removeClass "noVNC_password_dlg" "noVNC_open".

Definition updateDesktopName (name : text) : M ui unit :=
  modify (fun u => u <| desktopName := name |> <| title := name ++ codes " - noVNC" |>).

Definition bell : M ui unit :=
  v ← lift (getConfigVar href hash (codes "bell") (Some (codes "on")));
  when (bool_decide (v = Some (codes "on"))) (modify (fun u => u <| bells := S (bells u) |>)).

(** Whether the page fills the screen is the browser's to know; the requests to change
    it, one for each browser, are not kept. *)
Definition updateFullscreenButton (fullscreen : bool) : M ui unit :=
  if fullscreen then addClass "noVNC_fullscreen_button" "noVNC_selected"
  else removeClass "noVNC_fullscreen_button" "noVNC_selected".

(** *** The virtual keyboard *)

Definition onfocusVirtualKeyboard : M ui unit :=
  addClass "noVNC_keyboard_button" "noVNC_selected";; set_rfb (fun r => r <| u_focusOnClick := false |>).
Definition onblurVirtualKeyboard : M ui unit :=
  removeClass "noVNC_keyboard_button" "noVNC_selected";; set_rfb (fun r => r <| u_focusOnClick := true |>).

(** [input.focus()] and [input.blur()] of the keyboard input run its handlers. *)
Definition focus_input : M ui unit :=
  f ← gets keyboardFocused;
  when (negb f) (modify (fun u => u <| keyboardFocused := true |>);; onfocusVirtualKeyboard).
Definition blur_input : M ui unit :=
  f ← gets keyboardFocused;
  when f (modify (fun u => u <| keyboardFocused := false |>);; onblurVirtualKeyboard).

Definition showVirtualKeyboard : M ui unit := when isTouchDevice focus_input.
Definition hideVirtualKeyboard : M ui unit := when isTouchDevice blur_input.
Definition toggleVirtualKeyboard : M ui unit :=
  b ← gets (contains "noVNC_keyboard_button" "noVNC_selected"); if b : bool then hideVirtualKeyboard else showVirtualKeyboard.

(** Does a mouse button pressed on an element of this type (none, if it is of no form)
    leave the focus where it is? *)
Definition keepVirtualKeyboard (type : option string) : M ui bool :=
  f ← gets keyboardFocused;
  if negb f then mret false
  else mret match type with
            | Some t => negb (bool_decide (t ∈
                ["text"; "email"; "search"; "password"; "tel"; "url"; "textarea"; "select-one"; "select-multiple"]))
            | None => true
            end.

Definition keyboardinputReset : M ui unit :=
  let v := replicate (Z.to_nat (defaultKeyboardinputLen - 1)) 95 in
  modify (fun u => u <| keyboardValue := v |> <| lastKeyboardinput := Some v |>).

Definition keyEvent (keysym : Z) (code : string) (down : bool) : M ui unit :=
  with_rfb (log (CSendKey keysym (Some code) (Some down))).

(** The first of [n] places where the texts differ. *)
Fixpoint first_diff (n : nat) (new old : text) : option nat :=
  match n with
  | O => None
  | S n =>
      match new, old with
      | c :: new, d :: old => if c =? d then S <$> first_diff n new old else Some 0%nat
      | [], [] => S <$> first_diff n [] []
      | _, _ => Some 0%nat
      end
  end.

(** How many characters to delete and to type. *)
Definition key_changes (newValue oldValue : text) (newLen oldLen : Z) : Z * Z :=
  let inputs := newLen - oldLen in
  let backspaces := if inputs <? 0 then - inputs else 0 in
  match first_diff (Z.to_nat (Z.min oldLen newLen)) newValue oldValue with
  | Some i => (newLen - Z.of_nat i, oldLen - Z.of_nat i)
  | None => (inputs, backspaces)
  end.

Definition XK_BackSpace : Z := 0xff08.
Definition XK_Escape : Z := 0xff1b.
Definition XK_Tab : Z := 0xff09.
Definition XK_Control_L : Z := 0xffe3.
Definition XK_Super_L : Z := 0xffeb.
Definition XK_Alt_L : Z := 0xffe9.

(** [keysyms.lookup(newValue.charCodeAt(i))]; past the end, that is NaN. *)
Definition keysym_at (newValue : text) (i : Z) : Z :=
  match aget newValue i with Some c => Keysyms.lookup c | None => 0x01000000 end.

Fixpoint send_keys (l : list call) : M ui unit :=
  match l with [] => skip | c :: l => call_rfb c;; send_keys l end.

(** [selectionStart] is none where reading it throws. *)
Definition keyInput (newValue : text) (selectionStart : option Z) : M ui unit :=
  with_rfb (
    old ← gets lastKeyboardinput;
    when (match old with Some (_ :: _) => false | _ => true end) keyboardinputReset;;
    old ← gets lastKeyboardinput;
    let oldValue := default [] old in
    let newLen := match selectionStart with Some s => Z.max s (zlen newValue) | None => zlen newValue end in
    let oldLen := zlen oldValue in
    let '(inputs, backspaces) := key_changes newValue oldValue newLen oldLen in
    send_keys (replicate (Z.to_nat backspaces) (CSendKey XK_BackSpace (Some "Backspace"%string) None));;
    send_keys (map (fun i => CSendKey (keysym_at newValue i) None None) (seqZ (newLen - inputs) inputs));;
    if 2 * defaultKeyboardinputLen <? newLen then keyboardinputReset
    else if newLen <? 1 then
      keyboardinputReset;; blur_input;;
      n ← setTimeout TFocusKeyboard (Some 0); skip
    else modify (fun u => u <| lastKeyboardinput := Some newValue |>)).

(** *** Extra keys *)

Definition sendEsc : M ui unit := call_rfb (CSendKey XK_Escape (Some "Escape"%string) None).
Definition sendTab : M ui unit := call_rfb (CSendKey XK_Tab None None).
Definition sendCtrlAltDel : M ui unit := call_rfb CSendCtrlAltDel.

Definition toggle_modifier (button : string) (keysym : Z) (code : string) : M ui unit :=
  b ← gets (contains button "noVNC_selected");
  if b : bool then
    call_rfb (CSendKey keysym (Some code) (Some false));; removeClass button "noVNC_selected"
  else
    call_rfb (CSendKey keysym (Some code) (Some true));; addClass button "noVNC_selected".
Definition toggleCtrl : M ui unit := toggle_modifier "noVNC_toggle_ctrl_button" XK_Control_L "ControlLeft".
Definition toggleWindows : M ui unit := toggle_modifier "noVNC_toggle_windows_button" XK_Super_L "MetaLeft".
Definition toggleAlt : M ui unit := toggle_modifier "noVNC_toggle_alt_button" XK_Alt_L "AltLeft".

(** *** The start of the page *)

Definition addOption (name : string) (t : text) : M ui unit :=
  set_control name (fun c => match c_kind c with
                             | Select options => c <| c_kind := Select (options ++ [t]) |>
                             | _ => c
                             end).

(** The port of the address or that of its protocol. *)
Definition default_port : value :=
  match port with
  | Some ((_ :: _) as p) => VString p
  | _ =>
      if bool_decide (take 5 protocol = codes "https") then VNumber 443
      else if bool_decide (take 4 protocol = codes "http") then VNumber 80
      else VString (default [] port)
  end.

Fixpoint init_settings (l : list (string * value)) : M ui unit :=
  match l with [] => skip | (n, v) :: l => initSetting n v;; init_settings l end.

Definition initSettings : M ui unit :=
  each (fun l => addOption "logging" (codes l)) ["error"; "warn"; "info"; "debug"];;
  initSetting "logging" (VString (codes "warn"));;
  updateLogging;;
  init_settings [
    ("host", VString hostname); ("port", default_port);
    ("encrypt", VBool (bool_decide (protocol = codes "https:"))); ("view_clip", VBool false);
    ("resize", VString (codes "off")); ("shared", VBool true); ("view_only", VBool false); ("show_dot", VBool false);
    ("path", VString (codes "websockify")); ("repeaterID", VString []); ("reconnect", VBool false);
    ("reconnect_delay", VNumber 5000)]%string.

Definition initFullscreen (supported : bool) : M ui unit :=
  when supported (removeClass "noVNC_fullscreen_button" "noVNC_hidden").

(** But for the translation of the page, which is [Localization.translateDOM]. *)
Definition start (fullscreen : bool) : M ui unit :=
  initSettings;;
  when isTouchDevice (addClass "html" "noVNC_touch";; n ← setTimeout TScroll (Some 100); skip);;
  pos ← zoom store_ (readSetting "controlbar_pos" VUndefined);
  when (is_string pos "right") toggleControlbarSide;;
  initFullscreen fullscreen;;
  keyboardinputReset;;
  openControlbar;;
  updateVisualState "init";;
  removeClass "html" "noVNC_loading";;
  autoconnect ← lift (getConfigVar href hash (codes "autoconnect") None);
  if bool_decide (autoconnect = Some (codes "true")) || bool_decide (autoconnect = Some (codes "1"))
  then connect None
  else openConnectPanel.

(** Once the document is ready. *)
Definition prime (fullscreen : bool) : M ui unit := zoom store_ Settings.initSettings;; start fullscreen.

(** *** What can happen *)

(** The listeners of an event run one after the other, whatever one of them throws. *)
Fixpoint listeners (l : list (M ui unit)) : M ui unit :=
  match l with [] => skip | m :: l => catch m (fun _ => skip);; listeners l end.

(** [addControlbarHandlers] and the touch handlers of the control bar; the geometry is
    the browser's. *)
Inductive bar_event :=
  | BarMove | BarPress | BarRelease
  | HandlePress (mouse : bool) (button : Z) (clientY handleTop : double)
  | HandleRelease (mouse : bool) (button : Z)
  | HandleMove (dragThreshold clientX clientY innerWidth handleHeight top height : double)
  | WindowResize (handleTop handleHeight top height : double)
  | ClickExpander (n : nat)
  | ClickViewDrag.
Definition bar_handlers (e : bar_event) : list (M ui unit) :=
  match e with
  | BarMove | BarRelease => [activateControlbar]
  | BarPress => [activateControlbar; keepControlbar]
  | HandlePress mouse button y top => [controlbarHandleMouseDown mouse button y top]
  | HandleRelease mouse button => [controlbarHandleMouseUp mouse button]
  | HandleMove t x y w hh top h => [dragControlbarHandle t x y w hh top h]
  | WindowResize ht hh top h => [updateControlbarHandle ht hh top h]
  | ClickExpander n => [toggleExpander n]
  | ClickViewDrag => [toggleViewDrag]
  end.

(** [addTouchSpecificHandlers] *)
Inductive touch_event :=
  | ClickMouseButton (n : Z)
  | ClickKeyboard
  | KeyReport (keysym : Z) (code : string) (down : bool)
  | KeyboardInput (newValue : text) (selectionStart : option Z)
  | KeyboardFocus (focused : bool).
Definition next_mouse_button (n : Z) : Z := if n =? 0 then 1 else if n =? 1 then 2 else if n =? 2 then 4 else 0.
Definition touch_handlers (e : touch_event) : list (M ui unit) :=
  match e with
  | ClickMouseButton n => [setMouseButton (next_mouse_button n)]
  | ClickKeyboard => [toggleVirtualKeyboard]
  | KeyReport keysym code down => [keyEvent keysym code down]
  | KeyboardInput v s => [modify (fun u => u <| keyboardValue := v |>);; keyInput v s]
  | KeyboardFocus f => [if f then focus_input else blur_input]
  end.

(** [addExtraKeysHandlers], [addMachineHandlers], [addConnectionControlHandlers],
    [addClipboardHandlers], [addFullscreenHandlers] and the buttons of panels *)
Inductive button :=
  | BExtraKeys | BCtrl | BWindows | BAlt | BTab | BEsc | BCtrlAltDel
  | BShutdown | BReboot | BReset | BPower
  | BDisconnect | BConnect | BCancelReconnect | BPassword
  | BClipboard | BClipboardClear
  | BSettings | BStatus | BFullscreen (fullscreen : bool).
Definition button_handlers (b : button) : list (M ui unit) :=
  match b with
  | BExtraKeys => [toggleExtraKeys] | BCtrl => [toggleCtrl] | BWindows => [toggleWindows] | BAlt => [toggleAlt]
  | BTab => [sendTab] | BEsc => [sendEsc] | BCtrlAltDel => [sendCtrlAltDel]
  | BShutdown => [call_rfb CMachineShutdown] | BReboot => [call_rfb CMachineReboot] | BReset => [call_rfb CMachineReset]
  | BPower => [togglePowerPanel]
  | BDisconnect => [disconnect] | BConnect => [connect None] | BCancelReconnect => [cancelReconnect] | BPassword => [setPassword]
  | BClipboard => [toggleClipboardPanel] | BClipboardClear => [clipboardClear]
  | BSettings => [toggleSettingsPanel] | BStatus => [hideStatus] | BFullscreen f => [updateFullscreenButton f]
  end.

(** [addSettingsHandlers]: what hears a change of a control, in order. *)
Definition setting_handlers (name : string) : list (M ui unit) :=
  let save := saveSetting name;; skip in
  if decide (name = "resize") then [save; applyResizeMode; updateViewClip]
  else if decide (name = "view_clip") then [save; updateViewClip]
  else if decide (name = "view_only") then [save; updateViewOnly]
  else if decide (name = "show_dot") then [save; updateShowDotCursor]
  else if decide (name = "logging") then [save; updateLogging]
  else if decide (name ∈ ["encrypt"; "shared"; "host"; "port"; "path"; "repeaterID"; "reconnect"; "reconnect_delay"]) then [save]
  else [].

(** The events of the session that [connect] listens to. *)
Inductive session_event :=
  | SConnect | SDisconnect (clean : bool) | SCredentials | SSecurityFailure (reason : option text)
  | SCapabilities (power : bool) | SClipboard (t : text) | SBell | SDesktopName (name : text).
Definition session_handlers (e : session_event) : list (M ui unit) :=
  match e with
  | SConnect => [connectFinished]
  | SDisconnect clean => [disconnectFinished clean]
  | SCredentials => [credentials]
  | SSecurityFailure reason => [securityFailed reason]
  | SCapabilities power => [updatePowerButton]
  | SClipboard t => [clipboardReceive t]
  | SBell => [bell]
  | SDesktopName name => [updateDesktopName name]
  end.

(** What the session is like when it makes the event; [None] if it makes none such. *)
Definition session_at (e : session_event) (r : remote) : option remote :=
  match e with
  | SConnect => if decide (u_phase r = Connecting) then Some (r <| u_phase := Connected |>) else None
  | SCapabilities power => Some (r <| u_power := power |>)
  | _ => Some r
  end.

Definition run_task (t : task) : M ui unit :=
  match t with
  | THideStatus => hideStatus
  | TIdleControlbar => idleControlbar
  | TCloseControlbar => closeControlbar
  | TReconnect => reconnect
  | TFocusPassword => skip
  | TFocusKeyboard => focus_input
  | TScroll => skip
  end.

(** The user works a control. *)
Inductive edit := Check_ (checked : bool) | Choose (i : nat) | Type_ (t : text).
Definition edited (e : edit) (c : control) : control :=
  match e with
  | Check_ b => c <| c_checked := b |>
  | Choose i => c <| c_selectedIndex := i |>
  | Type_ t => c <| c_value := t |>
  end.

Inductive event :=
  | EBar (e : bar_event)
  | ETouch (e : touch_event)
  | EButton (b : button)
  | EClipboardChange (t : text)
  | EPasswordType (t : text)
  | ESetting (name : string) (e : edit)
  | ESession (e : session_event)
  | ETimer (n : nat).

Definition handle (e : event) : M ui unit :=
  match e with
  | EBar e => listeners (bar_handlers e)
  | ETouch e => listeners (touch_handlers e)
  | EButton b => listeners (button_handlers b)
  | EClipboardChange t => modify (fun u => u <| clipboardText := t |>);; listeners [clipboardSend]
  | EPasswordType t => modify (fun u => u <| passwordInput := t |>)
  | ESetting name e =>
      c ← get_control name;
      if c_disabled c then skip else set_control name (edited e);; listeners (setting_handlers name)
  | ESession e =>
      u ← gets id;
      match rfb u ≫= session_at e with
      | Some r => modify (fun u => u <| rfb := Some r |>);; listeners (session_handlers e)
      | None => skip
      end
  | ETimer n =>
      ts ← gets timers;
      match ts !! n with
      | Some (t, _) => modify (fun u => u <| timers := delete n (timers u) |>);; listeners [run_task t]
      | None => skip
      end
  end.

Definition step (u u' : ui) : Prop := exists e, u' = (handle e u).2.

End Ui.
End Ui.

(** The names of the parameters that the page looks for in its address. *)
Example names_literal :
  forallb (fun n => Settings.literal (codes n))
    ["logging"; "host"; "port"; "encrypt"; "view_clip"; "resize"; "shared"; "view_only"; "show_dot"; "path"; "repeaterID";
     "reconnect"; "reconnect_delay"; "autoconnect"; "password"; "bell"] = true.
Proof. vm_compute. reflexivity. Qed.
