(* ===== verification/Page.v ===== *)
(** * What the user interface promises

    Invariants of the page of [Ui], under any events in any order: which panels are
    open, which messages stay, when a session is started; and what the text of the
    virtual keyboard becomes for the server. *)

From S2P Require Import Prelude Doubles Strings Localization Settings Keysyms Ui.
From Stdlib Require Import SpecFloat.
From stdpp Require Import pretty.
Local Open Scope Z_scope.

(** ** Classes *)

(** Decide the equalities between names. *)
Ltac decide_names := repeat match goal with
  | |- context [bool_decide (?x = ?y)] =>
      let b := eval vm_compute in (bool_decide (x = y)) in
      lazymatch b with true => idtac | false => idtac end;
      change (bool_decide (x = y)) with b
  end.

Section Classes.
Import Ui.
Implicit Types (u : ui).

Lemma contains_add id class x u :
  contains id class (u <| classes := {[x]} ∪ classes u |>) = bool_decide ((id, class) = x) || contains id class u.
Proof.
  unfold contains. cbn. rewrite <- bool_decide_or. apply bool_decide_ext. set_solver.
Qed.

Lemma contains_remove id class x u :
  contains id class (u <| classes := classes u ∖ {[x]} |>) = negb (bool_decide ((id, class) = x)) && contains id class u.
Proof.
  unfold contains. cbn. rewrite <- bool_decide_not, <- bool_decide_and. apply bool_decide_ext. set_solver.
Qed.

(** The panels and their buttons. *)
Definition panels : list (string * string) :=
  [("noVNC_settings", "noVNC_settings_button"); ("noVNC_power", "noVNC_power_button");
   ("noVNC_clipboard", "noVNC_clipboard_button"); ("noVNC_modifiers", "noVNC_toggle_extra_keys_button")].

Definition opened u : list bool := map (fun p => contains p.1 "noVNC_open" u) panels.
Definition selected u : list bool := map (fun p => contains p.2 "noVNC_selected" u) panels.
Definition bar_open u : bool := contains "noVNC_control_bar" "noVNC_open" u.

(** The classes that are told apart. *)
Definition tracked : list (string * string) :=
  ("noVNC_control_bar", "noVNC_open") :: map (fun p => (p.1, "noVNC_open")) panels
  ++ map (fun p => (p.2, "noVNC_selected")) panels.

(** What is known of the panels. *)
Definition panel_state u : list bool * list bool * bool := (opened u, selected u, bar_open u).

(** At most one is open; its button, and no other, is selected; and it is seen. *)
Definition panels_ok (st : list bool * list bool * bool) : Prop :=
  let '(o, s, bar) := st in s = o /\ (length (List.filter (fun b : bool => b) o) <= 1)%nat /\ (true ∈ o -> bar = true).
Definition one_panel u : Prop := panels_ok (panel_state u).

Definition all_closed : list bool := [false; false; false; false].
Definition none_open u : Prop := exists bar, panel_state u = (all_closed, all_closed, bar).

Lemma none_one u : none_open u -> one_panel u.
Proof.
  intros [bar H]. unfold one_panel. rewrite H. split; [done|]. split; [cbn; lia|].
  intros Ht. repeat (apply elem_of_cons in Ht as [?|Ht]; [done|]). by apply elem_of_nil in Ht.
Qed.

Lemma add_other x u : x ∉ tracked -> panel_state (u <| classes := {[x]} ∪ classes u |>) = panel_state u.
Proof.
  intros Hx. unfold panel_state, opened, selected, bar_open. cbn [map panels fst snd]. rewrite !contains_add.
  rewrite !bool_decide_false; [done|intros <-; apply Hx; apply (bool_decide_unpack _); vm_compute; exact I..].
Qed.

Lemma remove_other x u : x ∉ tracked -> panel_state (u <| classes := classes u ∖ {[x]} |>) = panel_state u.
Proof.
  intros Hx. unfold panel_state, opened, selected, bar_open. cbn [map panels fst snd]. rewrite !contains_remove.
  rewrite !bool_decide_false; [done|intros <-; apply Hx; apply (bool_decide_unpack _); vm_compute; exact I..].
Qed.

Lemma close_panel_run panel button u :
  close_panel panel button u
  = (Ret tt, (u <| classes := classes u ∖ {[(panel, "noVNC_open"%string)]} |>)
       <| classes := classes (u <| classes := classes u ∖ {[(panel, "noVNC_open"%string)]} |>) ∖ {[(button, "noVNC_selected"%string)]} |>).
Proof. done. Qed.

(** Switch off one of the panels. *)
Lemma close_panel_state i panel button u :
  panels !! i = Some (panel, button) ->
  panel_state (close_panel panel button u).2 = (<[i := false]> (opened u), <[i := false]> (selected u), bar_open u).
Proof.
  intros Hi. rewrite close_panel_run. cbn [snd]. unfold panel_state, opened, selected, bar_open.
  destruct i as [|[|[|[|]]]]; [injection Hi as <- <-..|done]; cbn [map panels fst snd list_insert insert];
    rewrite !contains_remove; decide_names; cbn [negb andb]; done.
Qed.

Lemma show_panel_state i panel button u :
  panels !! i = Some (panel, button) ->
  panel_state (show_panel panel button u).2 = (<[i := true]> (opened u), <[i := true]> (selected u), bar_open u).
Proof.
  intros Hi. unfold show_panel, addClass. rewrite bind_run, modify_run, modify_run. cbn [snd].
  unfold panel_state, opened, selected, bar_open.
  destruct i as [|[|[|[|]]]]; [injection Hi as <- <-..|done]; cbn [map panels fst snd list_insert insert];
    rewrite !contains_add; decide_names; cbn [orb]; done.
Qed.

End Classes.

(** ** What all the code keeps *)

Section Frame.
Import Localization Settings Logging Ui.
Context (P : ui -> Prop).

Lemma keeps_each f l : (forall n, keeps P (f n)) -> keeps P (each f l).
Proof. intros Hf. induction l as [|n l IH]; [apply keeps_skip|]. by apply keeps_bind. Qed.

Lemma keeps_listeners l : Forall (keeps P) l -> keeps P (listeners l).
Proof.
  induction 1 as [|m l Hm _ IH]; [apply keeps_skip|]. apply keeps_bind; [|done].
  apply keeps_catch; [done|]. intros e. apply keeps_skip.
Qed.

Lemma keeps_send_keys l : Forall (fun c => keeps P (call_rfb c)) l -> keeps P (send_keys l).
Proof. induction 1 as [|c l Hc _ IH]; [apply keeps_skip|]. by apply keeps_bind. Qed.

Lemma keeps_store {A} (m : M store A) : (forall u s, P u -> P (u <| store_ := s |>)) -> keeps P (zoom store_ m).
Proof. intros H u Hu. unfold zoom. destruct (m (store_ u)) as [a s]. by apply H. Qed.

Lemma keeps_logging {A} (m : M logging A) : (forall u s, P u -> P (u <| logging_ := s |>)) -> keeps P (zoom logging_ m).
Proof. intros H u Hu. unfold zoom. destruct (m (logging_ u)) as [a s]. by apply H. Qed.

End Frame.

Ltac head_of t := lazymatch t with ?f _ => head_of f | _ => t end.

(** Code is taken apart, unfolding what [base] does not know. *)
Ltac ui_by base :=
  repeat first
    [ solve [base ()]
    | lazymatch goal with
      | |- keeps _ (Ui.each _ _) => apply keeps_each; intros ?
      | |- keeps _ (Ui.listeners _) => apply keeps_listeners
      | |- keeps _ (Ui.send_keys _) => apply keeps_send_keys
      | |- keeps _ (match ?x with _ => _ end) =>
          lazymatch x with Ui.show_state _ _ => unfold Ui.show_state; cbv zeta; repeat (case_decide; cbv iota) end
      | |- Forall _ [] => apply Forall_nil_2
      | |- Forall _ (_ :: _) => apply Forall_cons_2
      | |- Forall _ (replicate _ _) => apply Forall_replicate
      | |- Forall _ (map _ _) => apply Forall_fmap, Forall_true; intros ?; cbv beta delta [compose]
      | |- Forall _ (match ?x with _ => _ end) => destruct x
      | |- Forall _ ?l => let h := head_of l in progress unfold h; cbv zeta
      | |- keeps _ (zoom Ui.store_ _) => apply keeps_store; intros ? ? ?
      | |- keeps _ (zoom Ui.logging_ _) => apply keeps_logging; intros ? ? ?
      end
    | lazymatch goal with
      | |- keeps _ (mbind _ _) => apply keeps_bind; [|intros ?]
      | |- keeps _ (mret _) => apply keeps_ret
      | |- keeps _ (throw _) => apply keeps_throw
      | |- keeps _ (gets _) => apply keeps_gets
      | |- keeps _ (lift _) => apply keeps_lift
      | |- keeps _ skip => apply keeps_skip
      | |- keeps _ (when _ _) => apply keeps_when
      | |- keeps _ (match ?x with _ => _ end) => destruct x
      end
    | progress cbv zeta
    | lazymatch goal with |- keeps _ ?m => let h := head_of m in progress unfold h end ].

(** ** At most one panel *)

Section Panels.
Import Localization Settings Logging Ui.
Context (tr : text -> text) (toLowerCase : text -> text).
Context (href hash hostname : text) (port : option text) (protocol : text).
Context (isTouchDevice isIOS isAndroid : bool) (console : bool).
Implicit Types (u : ui).

(** From [P] code leads to [Q], even if it throws. *)
Definition leads {S A} (P : S -> Prop) (m : M S A) (Q : S -> Prop) : Prop := forall s, P s -> Q (m s).2.

Lemma leads_bind {S A B} (P Q R : S -> Prop) (m : M S A) (f : A -> M S B) :
  leads P m Q -> (forall s, Q s -> R s) -> (forall a, leads Q (f a) R) -> leads P (m ≫= f) R.
Proof.
  intros Hm HQ Hf s Hs. unfold mbind, M_bind. specialize (Hm s Hs). destruct (m s) as [[a|e] s']; [by apply Hf|by apply HQ].
Qed.

Lemma close_one i panel button :
  panels !! i = Some (panel, button) -> keeps one_panel (close_panel panel button).
Proof.
  intros Hi u (Hs & Hn & Hb). unfold one_panel. rewrite (close_panel_state i) by done. rewrite Hs. clear Hs.
  unfold opened, panels in *. revert Hn Hb. cbn [map fst snd]. generalize (bar_open u). intros bar.
  do 4 (match goal with |- context [contains ?a ?b u] => destruct (contains a b u) end);
    destruct i as [|[|[|[|]]]]; try discriminate Hi; cbn; intros Hn Hb; (split; [done|split; [lia|]]); intros Ht;
    apply Hb; set_solver.
Qed.

Lemma closed_all u : leads (fun u' => u' = u) closeAllPanels (fun u' => panel_state u' = (all_closed, all_closed, bar_open u)).
Proof.
  intros ? ->. unfold closeAllPanels, closeSettingsPanel, closePowerPanel, closeClipboardPanel, closeExtraKeys.
  rewrite !bind_run, !close_panel_run. cbv iota. rewrite !bind_run, !close_panel_run. cbv iota.
  rewrite !bind_run, !close_panel_run. cbv iota.
  set (u1 := setf _ _ (setf _ _ u)). set (u2 := setf _ _ (setf _ _ u1)). set (u3 := setf _ _ (setf _ _ u2)).
  pose proof (close_panel_state 0 _ _ u eq_refl) as H1. rewrite close_panel_run in H1. cbn [snd] in H1. fold u1 in H1.
  pose proof (close_panel_state 1 _ _ u1 eq_refl) as H2. rewrite close_panel_run in H2. cbn [snd] in H2. fold u2 in H2.
  pose proof (close_panel_state 2 _ _ u2 eq_refl) as H3. rewrite close_panel_run in H3. cbn [snd] in H3. fold u3 in H3.
  pose proof (close_panel_state 3 _ _ u3 eq_refl) as H4. rewrite close_panel_run in H4. cbn [snd] in H4 |- *.
  rewrite H4. change (opened u3) with (panel_state u3).1.1. change (selected u3) with (panel_state u3).1.2.
  change (bar_open u3) with (panel_state u3).2. rewrite H3. cbn [fst snd].
  change (opened u2) with (panel_state u2).1.1. change (selected u2) with (panel_state u2).1.2.
  change (bar_open u2) with (panel_state u2).2. rewrite H2. cbn [fst snd].
  change (opened u1) with (panel_state u1).1.1. change (selected u1) with (panel_state u1).1.2.
  change (bar_open u1) with (panel_state u1).2. rewrite H1. done.
Qed.

Lemma leads_closed : leads one_panel closeAllPanels none_open.
Proof. intros u _. exists (bar_open u). by apply closed_all. Qed.

(** Panels are opened with all others closed and the bar open. *)
Lemma open_panel i panel button (m : M ui unit) :
  panels !! i = Some (panel, button) ->
  keeps (fun u => panel_state u = (all_closed, all_closed, true)) m ->
  leads one_panel (closeAllPanels;; openControlbar;; m;; show_panel panel button) one_panel.
Proof.
  intros Hi Hm. eapply leads_bind; [apply leads_closed|apply none_one|]. intros [].
  apply (leads_bind _ (fun u => panel_state u = (all_closed, all_closed, true))).
  - intros u [bar H]. unfold openControlbar, addClass. rewrite modify_run. cbn [snd].
    assert (Ho : opened u = all_closed) by (change (opened u) with (panel_state u).1.1; by rewrite H).
    assert (Hs : selected u = all_closed) by (change (selected u) with (panel_state u).1.2; by rewrite H).
    unfold panel_state, opened, selected, bar_open in *. cbn [map panels fst snd] in *. rewrite !contains_add.
    injection Ho as -> -> -> ->. injection Hs as -> -> -> ->. by decide_names.
  - intros u H. apply none_one. by exists true.
  - intros []. apply (leads_bind _ (fun u => panel_state u = (all_closed, all_closed, true))); [exact Hm| |].
    { intros u H. apply none_one. by exists true. }
    intros [] u H. unfold one_panel. rewrite (show_panel_state i) by done.
    change (opened u) with (panel_state u).1.1. change (selected u) with (panel_state u).1.2.
    change (bar_open u) with (panel_state u).2. rewrite H. cbn [fst snd].
    destruct i as [|[|[|[|]]]]; [..|done]; (split; [done|split; [cbn; lia|done]]).
Qed.

(** Only the classes of panels count. *)
Lemma one_panel_add id class : (id, class) ∉ tracked -> keeps one_panel (addClass id class).
Proof. intros H. apply keeps_modify. intros u Hu. unfold one_panel. by rewrite add_other. Qed.

Lemma one_panel_remove id class : (id, class) ∉ tracked -> keeps one_panel (removeClass id class).
Proof. intros H. apply keeps_modify. intros u Hu. unfold one_panel. by rewrite remove_other. Qed.

Lemma open_bar : keeps one_panel openControlbar.
Proof.
  apply keeps_modify. intros u (Hs & Hn & Hb). unfold one_panel, panel_state, opened, selected, bar_open in *.
  cbn [map panels fst snd] in *. rewrite !contains_add. decide_names. cbn [orb]. by split_and!.
Qed.

Lemma untracked (x : string * string) : bool_decide (x ∈ tracked) = false -> x ∉ tracked.
Proof. apply bool_decide_eq_false_1. Qed.

Ltac same_panels := lazymatch goal with
  | |- keeps _ (addClass _ _) => apply one_panel_add, untracked; vm_compute; reflexivity
  | |- keeps _ (removeClass _ _) => apply one_panel_remove, untracked; vm_compute; reflexivity
  | |- keeps _ (modify _) => apply keeps_modify; intros ? ?; assumption
  | |- one_panel _ => assumption
  | |- keeps _ openControlbar => apply open_bar
  | |- keeps _ (updateSettings _ _ _) => assumption
  | H : forall x, keeps _ (?f x) |- keeps _ (?f _) => apply H
  end.
Ltac panels_by := ui_by ltac:(fun _ => same_panels).

Lemma updateSetting_keeps (P : ui -> Prop) name :
  (forall u s, P u -> P (u <| store_ := s |>)) -> (forall u f, P u -> P (u <| controls := f (controls u) |>)) ->
  keeps P (updateSetting toLowerCase name).
Proof.
  intros Hs Hc. ui_by ltac:(fun _ => lazymatch goal with
  | |- keeps _ (modify _) => apply keeps_modify; intros ? ?; by apply Hc
  | |- P _ => by apply Hs
  end).
Qed.

Lemma updateSettings_keeps (P : ui -> Prop) names :
  (forall u s, P u -> P (u <| store_ := s |>)) -> (forall u f, P u -> P (u <| controls := f (controls u) |>)) ->
  keeps P (updateSettings toLowerCase names).
Proof.
  intros Hs Hc. induction names as [|n names IH]; [apply keeps_skip|]. apply keeps_bind; [by apply updateSetting_keeps|done].
Qed.

Lemma untracked_class id class : class <> "noVNC_open"%string -> class <> "noVNC_selected"%string -> (id, class) ∉ tracked.
Proof.
  intros Ho Hs Hin. unfold tracked, panels in Hin. cbn [map app fst snd] in Hin.
  repeat (apply elem_of_cons in Hin as [[= _ ->]|Hin]; [done|]). by apply elem_of_nil in Hin.
Qed.

Lemma untracked_expander (n : nat) class : (("expander " ++ pretty n)%string, class) ∉ tracked.
Proof.
  intros Hin. unfold tracked, panels in Hin. cbn [map app fst snd] in Hin.
  repeat (apply elem_of_cons in Hin as [E|Hin]; [apply (f_equal fst) in E; discriminate E|]). by apply elem_of_nil in Hin.
Qed.

Lemma closeAll_one : keeps one_panel closeAllPanels.
Proof. intros u Hu. apply none_one. by apply (leads_closed u). Qed.

Lemma closeControlbar_one : keeps one_panel closeControlbar.
Proof.
  apply (leads_bind one_panel none_open); [apply leads_closed|apply none_one|]. intros [] u [bar H].
  unfold removeClass. rewrite modify_run. cbn [snd].
  assert (Ho : opened u = all_closed) by (change (opened u) with (panel_state u).1.1; by rewrite H).
  assert (Hs : selected u = all_closed) by (change (selected u) with (panel_state u).1.2; by rewrite H).
  apply none_one. exists false. unfold panel_state, opened, selected, bar_open in *. cbn [map panels fst snd] in *.
  rewrite !contains_remove. injection Ho as -> -> -> ->. injection Hs as -> -> -> ->. by decide_names.
Qed.

Lemma toggle_panel i panel button (m : M ui unit) :
  panels !! i = Some (panel, button) -> keeps (fun u => panel_state u = (all_closed, all_closed, true)) m ->
  keeps one_panel (b ← gets (contains panel "noVNC_open");
    if b : bool then close_panel panel button else closeAllPanels;; openControlbar;; m;; show_panel panel button).
Proof.
  intros Hi Hm. apply keeps_bind; [apply keeps_gets|]. intros [].
  - by apply (close_one i).
  - exact (open_panel i panel button m Hi Hm).
Qed.

(** The panels but for that of the settings open with nothing between. *)
Lemma toggle_simple i panel button :
  panels !! i = Some (panel, button) ->
  keeps one_panel (b ← gets (contains panel "noVNC_open");
    if b : bool then close_panel panel button else closeAllPanels;; openControlbar;; show_panel panel button).
Proof. intros Hi. exact (toggle_panel i panel button skip Hi (keeps_skip _)). Qed.

Lemma toggleSettingsPanel_one : keeps one_panel (toggleSettingsPanel toLowerCase).
Proof.
  apply (toggle_panel 0 "noVNC_settings" "noVNC_settings_button" (updateSettings toLowerCase _)); [reflexivity|].
  apply updateSettings_keeps; intros u ? H; exact H.
Qed.

Lemma togglePowerPanel_one : keeps one_panel togglePowerPanel.
Proof. by apply (toggle_simple 1 "noVNC_power" "noVNC_power_button"). Qed.

Lemma toggleClipboardPanel_one : keeps one_panel toggleClipboardPanel.
Proof. by apply (toggle_simple 2 "noVNC_clipboard" "noVNC_clipboard_button"). Qed.

Lemma toggleExtraKeys_one : keeps one_panel toggleExtraKeys.
Proof. by apply (toggle_simple 3 "noVNC_modifiers" "noVNC_toggle_extra_keys_button"). Qed.

Ltac panel_steps := first
  [ same_panels
  | lazymatch goal with
    | |- keeps _ (addClass _ _) => apply one_panel_add, untracked_class; discriminate
    | |- keeps _ (removeClass _ _) => apply one_panel_remove, untracked_class; discriminate
    | |- keeps _ (addClass _ _) => apply one_panel_add, untracked_expander
    | |- keeps _ closeAllPanels => apply closeAll_one
    | |- keeps _ closeControlbar => apply closeControlbar_one
    | |- keeps _ closeSettingsPanel => apply (close_one 0); reflexivity
    | |- keeps _ closePowerPanel => apply (close_one 1); reflexivity
    | |- keeps _ closeClipboardPanel => apply (close_one 2); reflexivity
    | |- keeps _ closeExtraKeys => apply (close_one 3); reflexivity
    | |- keeps _ (toggleSettingsPanel _) => apply toggleSettingsPanel_one
    | |- keeps _ togglePowerPanel => apply togglePowerPanel_one
    | |- keeps _ toggleClipboardPanel => apply toggleClipboardPanel_one
    | |- keeps _ toggleExtraKeys => apply toggleExtraKeys_one
    end
  | lazymatch goal with
    | |- keeps _ (addClass _ _) => apply one_panel_add, untracked_expander
    | |- keeps _ (removeClass _ _) => apply one_panel_remove, untracked_expander
    end ].

Ltac one_panel_by := ui_by ltac:(fun _ => panel_steps).

Lemma showStatus_one t ty time : keeps one_panel (showStatus t ty time).
Proof. one_panel_by. Qed.

Lemma getSetting_one name : keeps one_panel (getSetting toLowerCase name).
Proof. one_panel_by. Qed.

Lemma updateViewClip_one : keeps one_panel (updateViewClip toLowerCase isTouchDevice isIOS isAndroid).
Proof. one_panel_by. Qed.

Lemma setMouseButton_one n : keeps one_panel (setMouseButton n).
Proof. one_panel_by. Qed.

Lemma updateVisualState_one state : keeps one_panel (updateVisualState tr toLowerCase isTouchDevice isIOS isAndroid state).
Proof.
  ui_by ltac:(fun _ => lazymatch goal with
  | |- keeps _ (showStatus _ _ _) => apply showStatus_one
  | |- keeps _ (updateViewClip _ _ _ _) => apply updateViewClip_one
  | |- keeps _ (setMouseButton _) => apply setMouseButton_one
  | _ => panel_steps
  end).
Qed.

Ltac one_panel_known := lazymatch goal with
  | |- keeps _ (showStatus _ _ _) => apply showStatus_one
  | |- keeps _ (updateViewClip _ _ _ _) => apply updateViewClip_one
  | |- keeps _ (setMouseButton _) => apply setMouseButton_one
  | |- keeps _ (updateVisualState _ _ _ _ _ _) => apply updateVisualState_one
  | |- keeps _ (getSetting _ _) => apply getSetting_one
  | _ => panel_steps
  end.

Lemma connect_one_panel password : keeps one_panel (connect tr toLowerCase href hash isTouchDevice isIOS isAndroid password).
Proof. ui_by ltac:(fun _ => one_panel_known). Qed.

Ltac one_panel_event := (ui_by ltac:(fun _ => lazymatch goal with
  | |- keeps _ (connect _ _ _ _ _ _ _ _) => apply connect_one_panel
  | _ => one_panel_known
  end)).

Lemma bar_one_panel e : Forall (keeps one_panel) (bar_handlers isTouchDevice e).
Proof. one_panel_event. Qed.

Lemma touch_one_panel e : Forall (keeps one_panel) (touch_handlers isTouchDevice e).
Proof. one_panel_event. Qed.

Lemma button_one_panel b : Forall (keeps one_panel) (button_handlers tr toLowerCase href hash isTouchDevice isIOS isAndroid b).
Proof. one_panel_event. Qed.

Lemma setting_one_panel name : Forall (keeps one_panel) (setting_handlers toLowerCase href isTouchDevice isIOS isAndroid console name).
Proof. one_panel_event. Qed.

Lemma session_one_panel e : Forall (keeps one_panel) (session_handlers tr toLowerCase href hash isTouchDevice isIOS isAndroid e).
Proof. one_panel_event. Qed.

Lemma handle_one_panel e : keeps one_panel (handle tr toLowerCase href hash isTouchDevice isIOS isAndroid console e).
Proof.
  (ui_by ltac:(fun _ => lazymatch goal with
  | |- Forall _ (bar_handlers _ _) => apply bar_one_panel
  | |- Forall _ (touch_handlers _ _) => apply touch_one_panel
  | |- Forall _ (button_handlers _ _ _ _ _ _ _ _) => apply button_one_panel
  | |- Forall _ (setting_handlers _ _ _ _ _ _ _) => apply setting_one_panel
  | |- Forall _ (session_handlers _ _ _ _ _ _ _ _) => apply session_one_panel
  | |- keeps _ (connect _ _ _ _ _ _ _ _) => apply connect_one_panel
  | _ => one_panel_known
  end)).
Qed.

End Panels.

(** ** Messages *)

Section Messages.
Import Localization Settings Logging Ui.
Implicit Types (u : ui).

Definition status_open u : bool := contains "noVNC_status" "noVNC_open" u.
Definition error_shown u : bool := status_open u && contains "noVNC_status" "noVNC_status_error" u.
Definition warning_shown u : bool :=
  status_open u && contains "noVNC_status" "noVNC_status_warn" u && negb (contains "noVNC_status" "noVNC_status_error" u).

(** Does a timer that hides the message run? *)
Definition hide_pending u : Prop := exists n d, timers u !! n = Some (THideStatus, d).

(** Only the last one does, and none while an error is shown. *)
Definition status_ok u : Prop :=
  (forall n d, timers u !! n = Some (THideStatus, d) -> statusTimeout u = Some n)
  /\ (error_shown u = true -> ~ hide_pending u).

(** What is seen of the messages: it changes by no other class. *)
Lemma contains_other_add id class x u :
  id <> x.1 -> contains id class (u <| classes := {[x]} ∪ classes u |>) = contains id class u.
Proof. intros H. rewrite contains_add, bool_decide_false; [done|]. by intros <-. Qed.

Lemma contains_other_remove id class x u :
  id <> x.1 -> contains id class (u <| classes := classes u ∖ {[x]} |>) = contains id class u.
Proof. intros H. rewrite contains_remove, bool_decide_false; [done|]. by intros <-. Qed.

Lemma cleared u :
  (forall n d, timers u !! n = Some (THideStatus, d) -> statusTimeout u = Some n) ->
  exists u', clearTimeout (statusTimeout u) u = (Ret tt, u') /\ ~ hide_pending u'
    /\ classes u' = classes u /\ statusText u' = statusText u /\ statusTimeout u' = statusTimeout u.
Proof.
  intros H. unfold clearTimeout. destruct (statusTimeout u) as [n|] eqn:E.
  - eexists. rewrite modify_run. split; [done|]. split; [|done]. intros (m & d & Hm). cbn in Hm.
    destruct (decide (m = n)) as [->|Hn]; [by rewrite lookup_delete_eq in Hm|].
    rewrite lookup_delete_ne in Hm by done. specialize (H _ _ Hm). congruence.
  - exists u. split; [done|]. split; [|by rewrite E]. intros (m & d & Hm). specialize (H _ _ Hm). congruence.
Qed.

Lemma set_status_class_run ty u :
  exists c, set_status_class ty u = (Ret tt, u <| classes := c |>)
    /\ contains "noVNC_status" "noVNC_status_error" (u <| classes := c |>) = bool_decide (ty = "error"%string).
Proof.
  unfold set_status_class, addClass, removeClass. destruct (decide (ty = "error"%string)) as [He|He]; [|destruct (decide _)];
    rewrite !bind_run, !modify_run; eexists; (split; [reflexivity|]).
  - rewrite (bool_decide_true (ty = _)) by done. unfold contains. cbn. apply bool_decide_eq_true. set_solver.
  - rewrite (bool_decide_false (ty = _)) by done. unfold contains. cbn. apply bool_decide_eq_false. set_solver.
  - rewrite (bool_decide_false (ty = _)) by done. unfold contains. cbn. apply bool_decide_eq_false. set_solver.
Qed.

(** What [showStatus] does: nothing but to stop the timer, if something as important
    is shown; otherwise the message is shown, for a time unless it is an error. *)
Lemma showStatus_run t ty time u :
  status_ok u ->
  exists u', showStatus t ty time u = (Ret tt, u') /\ status_ok u'
    /\ if error_shown u || (warning_shown u && bool_decide (ty = "normal"%string))
       then classes u' = classes u /\ statusText u' = statusText u /\ ~ hide_pending u'
       else status_open u' = true /\ statusText u' = t
            /\ (error_shown u' = true <-> ty = "error"%string) /\ (hide_pending u' <-> ty <> "error"%string).
Proof.
  intros [Ht He]. unfold showStatus. rewrite bind_run, gets_run, bind_run.
  destruct (cleared u Ht) as (u1 & -> & Hn1 & Hc1 & Ht1 & Hs1). rewrite bind_run, gets_run.
  assert (Hcont : forall id class, contains id class u1 = contains id class u) by (intros; unfold contains; by rewrite Hc1).
  assert (Hskip : bool_decide (visible_status u1 = "error"%string) || bool_decide (visible_status u1 = "warn"%string /\ ty = "normal"%string)
    = error_shown u || (warning_shown u && bool_decide (ty = "normal"%string))).
  { unfold visible_status, error_shown, warning_shown, status_open. rewrite !Hcont.
    destruct (contains "noVNC_status" "noVNC_open" u), (contains "noVNC_status" "noVNC_status_error" u),
      (contains "noVNC_status" "noVNC_status_warn" u); cbn [andb negb orb]; try reflexivity.
    rewrite (bool_decide_false ("warn" = "error")%string) by discriminate. apply bool_decide_ext. naive_solver. }
  rewrite Hskip. clear Hskip. set (b := error_shown u || _). destruct b.
  { exists u1. split; [reflexivity|]. split; [|by split_and!]. split; [|by intros _]. intros n d H. destruct Hn1. by exists n, d. }
  rewrite bind_run. destruct (set_status_class_run ty u1) as (c & -> & Hc). rewrite bind_run, modify_run, bind_run.
  unfold addClass. rewrite modify_run.
  match goal with |- context [when _ _ ?x] => set (u2 := x) end.
  assert (Ho : status_open u2 = true) by (unfold status_open, u2; rewrite contains_add; by rewrite bool_decide_true).
  assert (Herr : error_shown u2 = bool_decide (ty = "error"%string)).
  { unfold error_shown. rewrite Ho. cbn [andb]. unfold u2. rewrite contains_add, bool_decide_false by discriminate. exact Hc. }
  assert (Hn2 : ~ hide_pending u2) by exact Hn1.
  destruct (bool_decide_reflect (ty = "error"%string)) as [E|E]; cbn [negb when].
  - exists u2. split; [reflexivity|]. split; [split; [|by intros _]|].
    + intros n d H. destruct Hn2. by exists n, d.
    + rewrite Ho, Herr. by split_and!.
  - unfold setTimeout. rewrite !bind_run, gets_run, bind_run, modify_run. unfold mret, M_ret. rewrite modify_run.
    match goal with |- context [(Ret tt, ?x)] => set (u3 := x) end.
    assert (Herr3 : error_shown u3 = false) by exact Herr.
    assert (Hp : hide_pending u3) by (eexists _, _; apply lookup_insert_eq).
    exists u3. split; [reflexivity|]. split; [split; [|by rewrite Herr3]|].
    + intros n d H. unfold u3 in H |- *. cbn in H |- *. destruct (decide (n = nextTimer u2)) as [->|Hn]; [done|].
      exfalso. rewrite lookup_insert_ne in H by done. apply Hn2. by exists n, d.
    + rewrite Herr3. split_and!; [exact Ho|done|done|done].
Qed.


Context (tr : text -> text) (toLowerCase : text -> text).
Context (href hash : text).
Context (isTouchDevice isIOS isAndroid : bool) (console : bool).
Abbreviation handle := (handle tr toLowerCase href hash isTouchDevice isIOS isAndroid console).

(** Code that leaves the message to [showStatus] and [hideStatus]. *)
Section Quiet.
Context (P : ui -> Prop).
Context (Hsame : forall u u', classes u' = classes u -> timers u' = timers u -> statusTimeout u' = statusTimeout u ->
                              statusText u' = statusText u -> P u -> P u').
Context (Hadd : forall id class, id <> "noVNC_status"%string -> keeps P (addClass id class)).
Context (Hremove : forall id class, id <> "noVNC_status"%string -> keeps P (removeClass id class)).
Context (Hset : forall t d, t <> THideStatus -> keeps P (setTimeout t d)).
Context (Hclear : forall t, keeps P (clearTimeout t)).
Context (Hshow : forall t ty time, keeps P (showStatus t ty time)).

Lemma mouse_button_name n : mouse_button n <> "noVNC_status"%string.
Proof. unfold mouse_button. by destruct (n =? 0), (n =? 1), (n =? 2). Qed.

Ltac quiet_step := lazymatch goal with
  | |- keeps _ (addClass (mouse_button _) _) => apply Hadd, mouse_button_name
  | |- keeps _ (removeClass (mouse_button _) _) => apply Hremove, mouse_button_name
  | |- keeps _ (addClass _ _) => apply Hadd; discriminate
  | |- keeps _ (removeClass _ _) => apply Hremove; discriminate
  | |- keeps _ (setTimeout _ _) => apply Hset; discriminate
  | |- keeps _ (clearTimeout _) => apply Hclear
  | |- keeps _ (showStatus _ _ _) => apply Hshow
  | |- keeps _ (modify _) =>
      let u := fresh in let Hu := fresh in apply keeps_modify; intros u Hu; apply (Hsame u); [reflexivity..|exact Hu]
  | Hu : P ?u |- P _ => apply (Hsame u); [reflexivity..|exact Hu]
  end.

Lemma quiet_updateSetting name : keeps P (updateSetting toLowerCase name).
Proof. ui_by ltac:(fun _ => quiet_step). Qed.

Lemma quiet_updateSettings l : keeps P (updateSettings toLowerCase l).
Proof. induction l as [|n l IH]; [apply keeps_skip|]. apply keeps_bind; [apply quiet_updateSetting|done]. Qed.

Lemma quiet_updateViewClip : keeps P (updateViewClip toLowerCase isTouchDevice isIOS isAndroid).
Proof. ui_by ltac:(fun _ => quiet_step). Qed.

Ltac quiet_known := lazymatch goal with
  | |- keeps _ (updateSetting _ _) => apply quiet_updateSetting
  | |- keeps _ (updateSettings _ _) => apply quiet_updateSettings
  | |- keeps _ (updateViewClip _ _ _ _) => apply quiet_updateViewClip
  | _ => quiet_step
  end.

Lemma quiet_visual state : keeps P (updateVisualState tr toLowerCase isTouchDevice isIOS isAndroid state).
Proof. ui_by ltac:(fun _ => quiet_known). Qed.

Ltac quiet_event := ui_by ltac:(fun _ => lazymatch goal with
  | |- keeps _ (updateVisualState _ _ _ _ _ _) => apply quiet_visual
  | _ => quiet_known
  end).

Lemma quiet_bar e : Forall (keeps P) (bar_handlers isTouchDevice e).
Proof. quiet_event. Qed.

Lemma quiet_touch e : Forall (keeps P) (touch_handlers isTouchDevice e).
Proof. quiet_event. Qed.

Lemma quiet_setting name : Forall (keeps P) (setting_handlers toLowerCase href isTouchDevice isIOS isAndroid console name).
Proof. quiet_event. Qed.

Lemma quiet_session e : Forall (keeps P) (session_handlers tr toLowerCase href hash isTouchDevice isIOS isAndroid e).
Proof. quiet_event. Qed.

(** With [hideStatus] too: *)
Lemma quiet_connect p :
  keeps P hideStatus -> keeps P (connect tr toLowerCase href hash isTouchDevice isIOS isAndroid p).
Proof.
  intros Hhide. ui_by ltac:(fun _ => lazymatch goal with
  | |- keeps _ hideStatus => exact Hhide
  | |- keeps _ (updateVisualState _ _ _ _ _ _) => apply quiet_visual
  | _ => quiet_known
  end).
Qed.

Lemma quiet_button b :
  keeps P hideStatus \/ (b <> BConnect /\ b <> BStatus) ->
  Forall (keeps P) (button_handlers tr toLowerCase href hash isTouchDevice isIOS isAndroid b).
Proof.
  intros Hb. destruct b; try (destruct Hb as [Hb|[? ?]]; [|done]); cbn [button_handlers];
    try (apply Forall_singleton; by apply quiet_connect); try (by apply Forall_singleton); quiet_event.
Qed.

Lemma calm_handle e u :
  keeps P hideStatus \/
    (e <> EButton BConnect /\ e <> EButton BStatus
     /\ forall n t d, e = ETimer n -> timers u !! n = Some (t, d) -> t <> TReconnect /\ t <> THideStatus) ->
  P u -> P (handle e u).2.
Proof.
  intros He Hu. unfold Ui.handle.
  destruct e as [e|e|b|t|t|name ed|e|n].
  - by apply (keeps_listeners P _ (quiet_bar e)).
  - by apply (keeps_listeners P _ (quiet_touch e)).
  - refine (keeps_listeners P _ (quiet_button b _) u Hu). destruct He as [?|(? & ? & _)]; [by left|right]. by split; congruence.
  - revert u He Hu. intros u _. revert u. change (keeps P (modify (fun u => u <| clipboardText := t |>);; listeners [clipboardSend])).
    quiet_event.
  - apply (Hsame u); [reflexivity..|exact Hu].
  - revert u He Hu. intros u _. revert u.
    match goal with |- forall u, P u -> P (?m u).2 => change (keeps P m) end.
    apply keeps_bind; [quiet_event|]. intros c. destruct (c_disabled c); [apply keeps_skip|].
    apply keeps_bind; [quiet_event|]. intros []. apply keeps_listeners, quiet_setting.
  - rewrite bind_run, gets_run. cbn [id]. destruct (rfb u ≫= session_at e) as [r|]; [|done].
    rewrite bind_run, modify_run. apply (keeps_listeners P _ (quiet_session e)). apply (Hsame u); [reflexivity..|exact Hu].
  - rewrite bind_run, gets_run. destruct (timers u !! n) as [[t d]|] eqn:E; [|done].
    rewrite bind_run. pose proof (Hclear (Some n) u Hu) as H1. cbn [clearTimeout] in H1.
    destruct (modify _ u) as [[[]|ex] u1] eqn:Em; [|exact H1]. cbn [snd] in H1. revert u1 H1 Em. intros u1 H1 _.
    refine (keeps_listeners P _ _ u1 H1). apply Forall_singleton.
    destruct He as [Hhide|(_ & _ & Hn)].
    + destruct t; cbn [run_task]; try (by apply keeps_skip); [exact Hhide|quiet_event|quiet_event| |quiet_event].
      unfold reconnect. apply keeps_bind; [quiet_event|intros []]. apply keeps_bind; [apply keeps_gets|]. intros u2.
      destruct (inhibit_reconnect _); [apply keeps_skip|by apply quiet_connect].
    + destruct (Hn n t d eq_refl E) as [H2 H3]. destruct t; try done; cbn [run_task]; try (by apply keeps_skip); quiet_event.
Qed.

End Quiet.

(** *** The invariant *)

Lemma status_ok_same u u' :
  classes u' = classes u -> timers u' = timers u -> statusTimeout u' = statusTimeout u -> status_ok u -> status_ok u'.
Proof.
  intros Hc Ht Hs [H1 H2]. unfold status_ok, error_shown, status_open, contains, hide_pending. by rewrite Hc, Ht, Hs.
Qed.

(** Other classes and other timers do not count. *)
Lemma status_ok_add id class : id <> "noVNC_status"%string -> keeps status_ok (addClass id class).
Proof.
  intros Hid. apply keeps_modify. intros u [H1 H2]. split; [exact H1|].
  unfold error_shown, status_open. rewrite !contains_other_add by done. exact H2.
Qed.

Lemma status_ok_remove id class : id <> "noVNC_status"%string -> keeps status_ok (removeClass id class).
Proof.
  intros Hid. apply keeps_modify. intros u [H1 H2]. split; [exact H1|].
  unfold error_shown, status_open. rewrite !contains_other_remove by done. exact H2.
Qed.

Lemma other_timer t d u m d' :
  t <> THideStatus -> timers (setTimeout t d u).2 !! m = Some (THideStatus, d') -> timers u !! m = Some (THideStatus, d').
Proof.
  intros Ht. unfold setTimeout. rewrite bind_run, gets_run, bind_run, modify_run. cbn.
  destruct (decide (m = nextTimer u)) as [->|Hn]; [rewrite lookup_insert_eq; congruence|by rewrite lookup_insert_ne].
Qed.

Lemma status_ok_set t d : t <> THideStatus -> keeps status_ok (setTimeout t d).
Proof.
  intros Ht u [H1 H2]. split.
  - intros m d' H. apply (other_timer t d u m d' Ht) in H. by apply (H1 _ _ H).
  - intros He (m & d' & H). apply (other_timer t d u m d' Ht) in H. apply H2; [exact He|by exists m, d'].
Qed.

Lemma less_timers t u m x : timers (clearTimeout t u).2 !! m = Some x -> timers u !! m = Some x.
Proof.
  destruct t as [n|]; [|done]. cbn. intros H. destruct (decide (m = n)) as [->|Hn]; [by rewrite lookup_delete_eq in H|].
  by rewrite lookup_delete_ne in H.
Qed.

Lemma status_ok_clear t : keeps status_ok (clearTimeout t).
Proof.
  intros u [H1 H2]. split.
  - intros m d H. apply less_timers in H. destruct t; exact (H1 _ _ H).
  - intros He (m & d & H). apply less_timers in H. apply H2; [by destruct t|by exists m, d].
Qed.

Lemma status_ok_show t ty time : keeps status_ok (showStatus t ty time).
Proof. intros u Hu. destruct (showStatus_run t ty time u Hu) as (u' & -> & H & _). exact H. Qed.

Lemma status_ok_hide : keeps status_ok hideStatus.
Proof.
  intros u [H1 H2]. unfold hideStatus. rewrite bind_run, gets_run, bind_run. destruct (cleared u H1) as (u1 & -> & Hn & Hc & _).
  unfold removeClass. rewrite modify_run. cbn [snd]. split.
  - intros m d H. destruct Hn. by exists m, d.
  - intros _. exact Hn.
Qed.

Lemma status_ok_handle e u : status_ok u -> status_ok (handle e u).2.
Proof.
  apply (calm_handle status_ok); try (intros; by eauto using status_ok_same, status_ok_add, status_ok_remove,
    status_ok_set, status_ok_clear, status_ok_show).
  left. apply status_ok_hide.
Qed.

(** An error that stays. *)
Definition shows_error (t : text) u : Prop := status_ok u /\ error_shown u = true /\ statusText u = t.

Lemma shows_error_handle t e u :
  e <> EButton BConnect -> e <> EButton BStatus ->
  (forall n d, e = ETimer n -> timers u !! n <> Some (TReconnect, d)) ->
  shows_error t u -> shows_error t (handle e u).2.
Proof.
  intros Hc Hs Ht Hu. refine (calm_handle (shows_error t) _ _ _ _ _ _ e u _ Hu).
  - intros v v' E1 E2 E3 E4 (H1 & H2 & H3). split; [by eapply status_ok_same|].
    unfold error_shown, status_open, contains. by rewrite E1, E4.
  - intros id class Hid v (H1 & H2 & H3). split; [by apply status_ok_add|]. split; [|exact H3].
    unfold addClass. rewrite modify_run. cbn [snd]. unfold error_shown, status_open. by rewrite !contains_other_add.
  - intros id class Hid v (H1 & H2 & H3). split; [by apply status_ok_remove|]. split; [|exact H3].
    unfold removeClass. rewrite modify_run. cbn [snd]. unfold error_shown, status_open. by rewrite !contains_other_remove.
  - intros k d Hk v (H1 & H2 & H3). split; [by apply status_ok_set|]. by split.
  - intros k v (H1 & H2 & H3). split; [by apply status_ok_clear|]. by destruct k.
  - intros t' ty time v (H1 & H2 & H3). destruct (showStatus_run t' ty time v H1) as (v' & -> & H4 & H5). rewrite H2 in H5.
    cbn [orb] in H5. destruct H5 as (E1 & E2 & _). split; [exact H4|]. cbn [snd]. rewrite E2. split; [|exact H3].
    unfold error_shown, status_open, contains. by rewrite E1.
  - right. split; [done|]. split; [done|]. intros n k d -> Hk. split; [intros ->; by apply (Ht n d eq_refl)|].
    intros ->. destruct Hu as ([_ He] & H2 & _). destruct (He H2). by exists n, d.
Qed.

End Messages.

(** ** The end of a session *)

Section Ending.
Import Localization Settings Logging Ui.
Context (tr : text -> text) (toLowerCase : text -> text).
Context (href hash : text).
Context (isTouchDevice isIOS isAndroid : bool) (console : bool).
Implicit Types (u : ui).
Abbreviation handle := (handle tr toLowerCase href hash isTouchDevice isIOS isAndroid console).

(** The sessions started so far. *)
Definition is_new (c : call) : bool := match c with CNew _ => true | _ => false end.
Definition started u : nat := length (List.filter is_new (calls u)).

(** No session is connected or will be, unless the user wants one. *)
Definition ended (n : nat) u : Prop :=
  connected u = false /\ inhibit_reconnect u = true /\ (forall r, rfb u = Some r -> u_phase r = Disconnecting) /\ started u = n.

Lemma ended_set_rfb n f : (forall r, u_phase (f r) = u_phase r) -> keeps (ended n) (set_rfb f).
Proof.
  intros Hf. apply keeps_modify. intros u (H1 & H2 & H3 & H4). split; [exact H1|]. split; [exact H2|]. split; [|exact H4].
  cbn. intros r Hr. destruct (rfb u) as [r0|]; [|done]. injection Hr as <-. rewrite Hf. by apply H3.
Qed.

Lemma ended_log n c : is_new c = false -> keeps (ended n) (log c).
Proof.
  intros Hc. apply keeps_modify. intros u (H1 & H2 & H3 & H4). split; [exact H1|]. split; [exact H2|]. split; [exact H3|].
  unfold started in *. cbn. by rewrite List.filter_app, length_app, H4, (eq_refl : List.filter is_new [c] = if is_new c then [c] else []), Hc, Nat.add_0_r.
Qed.

Ltac ended_step := lazymatch goal with
  | |- keeps _ (set_rfb _) => apply ended_set_rfb; intros ?; reflexivity
  | |- keeps _ (log _) => apply ended_log; reflexivity
  | |- keeps _ (modify _) => apply keeps_modify; intros ? ?; assumption
  | |- ended _ _ => assumption
  end.
Ltac ended_by := ui_by ltac:(fun _ => ended_step).

Lemma ended_updateSetting n name : keeps (ended n) (updateSetting toLowerCase name).
Proof. ended_by. Qed.

Lemma ended_updateSettings n l : keeps (ended n) (updateSettings toLowerCase l).
Proof. induction l as [|name l IH]; [apply keeps_skip|]. apply keeps_bind; [apply ended_updateSetting|done]. Qed.

Lemma ended_updateViewClip n : keeps (ended n) (updateViewClip toLowerCase isTouchDevice isIOS isAndroid).
Proof. ended_by. Qed.

Ltac ended_known := lazymatch goal with
  | |- keeps _ (updateSetting _ _) => apply ended_updateSetting
  | |- keeps _ (updateSettings _ _) => apply ended_updateSettings
  | |- keeps _ (updateViewClip _ _ _ _) => apply ended_updateViewClip
  | _ => ended_step
  end.

Lemma ended_visual n state : keeps (ended n) (updateVisualState tr toLowerCase isTouchDevice isIOS isAndroid state).
Proof. ui_by ltac:(fun _ => ended_known). Qed.

Ltac ended_event := ui_by ltac:(fun _ => lazymatch goal with
  | |- keeps _ (updateVisualState _ _ _ _ _ _) => apply ended_visual
  | _ => ended_known
  end).

Lemma ended_bar n e : Forall (keeps (ended n)) (bar_handlers isTouchDevice e).
Proof. ended_event. Qed.

Lemma ended_touch n e : Forall (keeps (ended n)) (touch_handlers isTouchDevice e).
Proof. ended_event. Qed.

Lemma ended_setting n name : Forall (keeps (ended n)) (setting_handlers toLowerCase href isTouchDevice isIOS isAndroid console name).
Proof. ended_event. Qed.

(** The end of a session is the end. *)
Lemma ended_disconnectFinished n clean :
  keeps (ended n) (disconnectFinished tr toLowerCase isTouchDevice isIOS isAndroid clean).
Proof.
  unfold disconnectFinished. apply keeps_bind; [apply keeps_gets|intros was]. apply keeps_bind.
  { apply keeps_modify. intros u (H1 & H2 & H3 & H4). by split_and!. }
  intros []. cbv zeta. destruct (negb clean); ended_event.
Qed.

Lemma ended_disconnect n : keeps (ended n) (disconnect tr toLowerCase isTouchDevice isIOS isAndroid).
Proof.
  unfold disconnect. apply keeps_bind; [ended_event|intros []]. apply keeps_bind; [ended_event|intros []].
  apply keeps_bind; [|intros []; apply keeps_bind; [|intros []; apply ended_visual]].
  - apply keeps_modify. intros u (H1 & H2 & H3 & H4). split_and!; [exact H1|exact H2| |exact H4].
    cbn. intros r Hr. destruct (rfb u); [|done]. by injection Hr as <-.
  - apply keeps_modify. intros u (H1 & H2 & H3 & H4). by split_and!.
Qed.

Lemma ended_session n e u :
  ended n u -> match rfb u ≫= session_at e with
               | Some r => ended n (listeners (session_handlers tr toLowerCase href hash isTouchDevice isIOS isAndroid e)
                                      (u <| rfb := Some r |>)).2
               | None => True
               end.
Proof.
  intros Hu. destruct (rfb u) as [r|] eqn:Er; [|done]. cbn [mbind option_bind].
  assert (Hr : u_phase r = Disconnecting) by (by apply Hu).
  assert (Hnew : forall r', u_phase r' = u_phase r -> ended n (u <| rfb := Some r' |>)).
  { intros r' E. destruct Hu as (H1 & H2 & H3 & H4). split_and!; [exact H1|exact H2| |exact H4]. cbn. intros r0 [= <-]. by rewrite E. }
  destruct e as [|clean| |reason|power|t| |name]; cbn [session_at].
  - rewrite decide_False by (by rewrite Hr). done.
  - apply (keeps_listeners (ended n)); [|by apply Hnew]. apply Forall_singleton, ended_disconnectFinished.
  - apply (keeps_listeners (ended n)); [|by apply Hnew]. ended_event.
  - apply (keeps_listeners (ended n)); [|by apply Hnew]. ended_event.
  - apply (keeps_listeners (ended n)); [|by apply Hnew]. ended_event.
  - apply (keeps_listeners (ended n)); [|by apply Hnew]. ended_event.
  - apply (keeps_listeners (ended n)); [|by apply Hnew]. ended_event.
  - apply (keeps_listeners (ended n)); [|by apply Hnew]. ended_event.
Qed.

Lemma ended_button n b :
  b <> BConnect -> Forall (keeps (ended n)) (button_handlers tr toLowerCase href hash isTouchDevice isIOS isAndroid b).
Proof.
  intros Hb. destruct b; try done; cbn [button_handlers];
    try (apply Forall_singleton, ended_disconnect); ended_event.
Qed.

Lemma ended_reconnect n : keeps (ended n) (reconnect tr toLowerCase href hash isTouchDevice isIOS isAndroid).
Proof.
  intros u Hu. unfold reconnect. rewrite bind_run, modify_run, bind_run, gets_run. cbn [id].
  assert (E : inhibit_reconnect (u <| reconnect_callback := None |>) = true) by apply Hu.
  rewrite E. exact Hu.
Qed.

Lemma ended_handle n e u : e <> EButton BConnect -> ended n u -> ended n (handle e u).2.
Proof.
  intros He Hu. unfold Ui.handle. destruct e as [e|e|b|t|t|name ed|e|m].
  - by apply (keeps_listeners _ _ (ended_bar n e)).
  - by apply (keeps_listeners _ _ (ended_touch n e)).
  - refine (keeps_listeners _ _ (ended_button n b _) u Hu). congruence.
  - revert u Hu. change (keeps (ended n) (modify (fun u => u <| clipboardText := t |>);; listeners [clipboardSend])). ended_event.
  - exact Hu.
  - revert u Hu. match goal with |- forall u, ended n u -> ended n (?m u).2 => change (keeps (ended n) m) end.
    apply keeps_bind; [ended_event|]. intros c. destruct (c_disabled c); [apply keeps_skip|].
    apply keeps_bind; [ended_event|]. intros []. apply keeps_listeners, ended_setting.
  - rewrite bind_run, gets_run. cbn [id]. pose proof (ended_session n e u Hu) as H.
    destruct (rfb u ≫= session_at e) as [r|]; [|exact Hu]. rewrite bind_run, modify_run. exact H.
  - rewrite bind_run, gets_run. destruct (timers u !! m) as [[t d]|]; [|exact Hu].
    rewrite bind_run, modify_run. refine (keeps_listeners (ended n) _ _ _ _); [|exact Hu].
    apply Forall_singleton. destruct t; cbn [run_task]; try apply keeps_skip; try apply ended_reconnect; ended_event.
Qed.

(** Where the user has pressed the button: *)
Lemma disconnect_ends u r : rfb u = Some r -> ended (started u) (handle (EButton BDisconnect) u).2.
Proof.
  intros Hr. set (P := fun v : ui => rfb v = Some r /\ started v = started u).
  assert (H : leads P (disconnect tr toLowerCase isTouchDevice isIOS isAndroid) (ended (started u))).
  { unfold disconnect. intros v Hv. rewrite bind_run.
    assert (Hc : keeps P closeAllPanels) by (ui_by ltac:(fun _ => lazymatch goal with
      | |- keeps _ (modify _) => apply keeps_modify; intros ? ?; assumption end)).
    specialize (Hc v Hv). assert (Ec : exists v1, closeAllPanels v = (Ret tt, v1)) by (eexists; reflexivity).
    destruct Ec as [v1 Ec]. rewrite Ec in Hc |- *. cbn [snd] in Hc. destruct Hc as [Hr1 Hs1].
    rewrite bind_run. unfold call_rfb, get_rfb. rewrite bind_run, bind_run, gets_run, Hr1. unfold mret at 1, M_ret at 1.
    unfold log. rewrite modify_run. unfold set_rfb. rewrite bind_run, modify_run, bind_run, modify_run.
    match goal with |- ended _ (updateVisualState _ _ _ _ _ _ ?w).2 => set (v2 := w) end.
    apply ended_visual. split; [reflexivity|]. split; [reflexivity|]. split.
    - intros r' Hr'. unfold v2 in Hr'. cbn in Hr'. rewrite Hr1 in Hr'. by injection Hr' as <-.
    - unfold started in *. unfold v2. cbn. by rewrite List.filter_app, length_app, Hs1, Nat.add_0_r. }
  assert (Hu : P u) by (split; [exact Hr|reflexivity]).
  cbn [Ui.handle button_handlers listeners]. unfold catch. rewrite bind_run. specialize (H u Hu).
  destruct (disconnect tr toLowerCase isTouchDevice isIOS isAndroid u) as [[[]|ex] u']; exact H.
Qed.

End Ending.

(** ** The virtual keyboard *)

Section Typing.
Import Localization Settings Logging Ui.
Implicit Types (u : ui) (new old : text).

Lemma first_diff_some n new old i :
  first_diff n new old = Some i -> (i < n)%nat /\ take i new = take i old.
Proof.
  revert new old i. induction n as [|n IH]; intros new old i; [done|].
  destruct new as [|c new], old as [|d old]; cbn [first_diff].
  - destruct (first_diff n [] []) as [j|] eqn:E; [|done]. intros [= <-]. apply IH in E as [Hj _]. split; [lia|done].
  - intros [= <-]. split; [lia|done].
  - intros [= <-]. split; [lia|done].
  - destruct (Z.eqb_spec c d) as [->|]; [|intros [= <-]; split; [lia|done]].
    destruct (first_diff n new old) as [j|] eqn:E; [|done]. intros [= <-]. apply IH in E as [Hj E]. split; [lia|].
    cbn. by rewrite E.
Qed.

Lemma first_diff_none n new old :
  (n <= length new)%nat -> first_diff n new old = None -> take n new = take n old.
Proof.
  revert new old. induction n as [|n IH]; intros new old Hn; [done|].
  destruct new as [|c new], old as [|d old]; cbn [first_diff]; try done.
  destruct (Z.eqb_spec c d) as [->|]; [|done]. destruct (first_diff n new old) eqn:E; [done|]. intros _.
  cbn. rewrite (IH new old); [done|cbn in Hn; lia|done].
Qed.

(** The change of a text is to delete its end, and to type another. *)
Lemma key_changes_spec new old :
  exists k : nat, (k <= length old)%nat /\ (k <= length new)%nat /\ take k new = take k old
  /\ let '(inputs, backspaces) := key_changes new old (zlen new) (zlen old) in
     Z.to_nat backspaces = (length old - k)%nat
     /\ seqZ (zlen new - inputs) inputs = seqZ (Z.of_nat k) (Z.of_nat (length new - k)).
Proof.
  unfold key_changes, zlen. destruct (first_diff _ new old) as [i|] eqn:E.
  - apply first_diff_some in E as [Hi E]. exists i. split; [lia|]. split; [lia|]. split; [exact E|]. split; [lia|]. f_equal; lia.
  - apply first_diff_none in E; [|lia]. destruct (Z.ltb_spec (Z.of_nat (length new) - Z.of_nat (length old)) 0) as [H|H].
    + exists (length new). split; [lia|]. split; [lia|].
      replace (Z.to_nat _) with (length new) in E by lia. split; [exact E|]. split; [lia|].
      rewrite Nat.sub_diag. unfold seqZ. by rewrite !Z2Nat.nonpos by lia.
    + exists (length old). split; [lia|]. split; [lia|].
      replace (Z.to_nat _) with (length old) in E by lia. split; [exact E|]. split; [lia|]. f_equal; lia.
Qed.

Lemma typed_keys new k :
  (k <= length new)%nat ->
  map (keysym_at new) (seqZ (Z.of_nat k) (Z.of_nat (length new - k))) = map Keysyms.lookup (drop k new).
Proof.
  intros Hk. apply list_eq. intros i. rewrite !list_lookup_fmap, lookup_drop.
  destruct (decide (i < length new - k)%nat) as [Hi|Hi].
  - rewrite lookup_seqZ_lt by lia. cbn [fmap option_fmap option_map]. unfold keysym_at, aget.
    destruct (lookup_lt_is_Some_2 new (k + i)%nat ltac:(lia)) as [c Hc].
    replace (Z.of_nat k + Z.of_nat i) with (Z.of_nat (k + i)) by lia. rewrite (proj2 (Z.ltb_ge _ 0)) by lia.
    by rewrite Nat2Z.id, Hc.
  - rewrite lookup_seqZ_ge by lia. by rewrite (lookup_ge_None_2 new) by lia.
Qed.

Lemma send_keys_run l u r :
  rfb u = Some r -> send_keys l u = (Ret tt, u <| calls := calls u ++ l |>).
Proof.
  revert u. induction l as [|c l IH]; intros u Hr.
  { cbn [send_keys]. rewrite app_nil_r. by destruct u. }
  cbn [send_keys]. rewrite bind_run. unfold call_rfb, get_rfb. rewrite bind_run, bind_run, gets_run, Hr.
  unfold mret at 1, M_ret at 1. unfold log. rewrite modify_run, IH by done. cbn.
  by rewrite <- app_assoc.
Qed.

(** The virtual keyboard types what its text becomes: for any old and new text of
    the keyboard input, the session is told to delete the end of the old one and then
    to type the end of the new one, such that the old text becomes the new one; it is
    told nothing else; and the new text is what the next change is compared with,
    unless it is empty or too long. *)
Lemma keyInput_run u r new old (selectionStart : option Z) :
  rfb u = Some r -> lastKeyboardinput u = Some old -> old <> [] ->
  (match selectionStart with Some s => s <= zlen new | None => True end) ->
  exists k u', keyInput new selectionStart u = (Ret tt, u')
  /\ (k <= length old)%nat /\ take k old ++ drop k new = new
  /\ calls u' = calls u ++ replicate (length old - k) (CSendKey XK_BackSpace (Some "Backspace"%string) None)
       ++ map (fun c => CSendKey (Keysyms.lookup c) None None) (drop k new)
  /\ (0 < zlen new <= 200 -> lastKeyboardinput u' = Some new).
Proof.
  intros Hr Hl Hold Hsel. unfold keyInput, with_rfb. rewrite bind_run, gets_run, Hr.
  rewrite bind_run, gets_run, Hl. rewrite bind_run. replace (match old with [] => true | _ :: _ => false end) with false by (by destruct old).
  destruct old as [|c0 old0]; [done|]. set (old := c0 :: old0) in *. cbn [when]. unfold skip, mret at 1, M_ret at 1.
  rewrite bind_run, gets_run, Hl. change (default [] (Some old)) with old.
  replace (match selectionStart with Some s => Z.max s (zlen new) | None => zlen new end) with (zlen new) by (destruct selectionStart; lia).
  destruct (key_changes_spec new old) as (k & Hk & Hk' & Ht & Hc).
  destruct (key_changes new old (zlen new) (zlen old)) as [inputs backspaces]. destruct Hc as [Hb Hs].
  rewrite bind_run, (send_keys_run _ u r Hr), bind_run.
  match goal with |- context [send_keys ?l ?v] => rewrite (send_keys_run l v r Hr) end. rewrite Hb, Hs.
  set (u1 := setf calls _ _). assert (Hcalls : calls u1 = calls u ++ replicate (length old - k) (CSendKey XK_BackSpace (Some "Backspace"%string) None)
       ++ map (fun c => CSendKey (Keysyms.lookup c) None None) (drop k new)).
  { unfold u1. cbn. rewrite <- app_assoc. do 2 f_equal.
    rewrite <- (map_map (keysym_at new) (fun s => CSendKey s None None)), typed_keys, map_map by done. done. }
  assert (Hend : exists u', (if 2 * defaultKeyboardinputLen <? zlen new then keyboardinputReset
      else if zlen new <? 1 then keyboardinputReset;; blur_input;; n ← setTimeout TFocusKeyboard (Some 0); skip
      else modify (fun u => u <| lastKeyboardinput := Some new |>)) u1 = (Ret tt, u') /\ calls u' = calls u1
      /\ (0 < zlen new <= 200 -> lastKeyboardinput u' = Some new)).
  { unfold defaultKeyboardinputLen. destruct (Z.ltb_spec (2 * 100) (zlen new)); [|destruct (Z.ltb_spec (zlen new) 1)].
    - eexists. split; [reflexivity|]. split; [done|]. lia.
    - unfold keyboardinputReset. rewrite bind_run, modify_run, bind_run. unfold blur_input. rewrite bind_run, gets_run.
      match goal with |- context [when ?b _ _] => destruct b end; (eexists; split; [reflexivity|split; [done|lia]]).
    - eexists. split; [reflexivity|]. by split. }
  destruct Hend as (u' & E & Ec & Hlast). exists k, u'. split; [exact E|]. split; [done|]. split; [by rewrite <- Ht, take_drop|].
  split; [by rewrite Ec|done].
Qed.

(** *** The handle of the control bar *)

Lemma dbl_10 : margin = dbl_of_Z 10. Proof. done. Qed.

Lemma handle_position_Z y hh top h :
  - 2 ^ 50 < y < 2 ^ 50 -> 0 < hh < 2 ^ 50 -> - 2 ^ 50 < top < 2 ^ 50 -> 0 < h < 2 ^ 50 -> hh + 20 <= h ->
  handle_position (dbl_of_Z y) (dbl_of_Z hh) (dbl_of_Z top) (dbl_of_Z h)
  = dbl_of_Z (Z.max 10 (Z.min (h - hh - 10) (y - top))).
Proof.
  intros Hy Hhh Ht Hh Hfit. unfold handle_position. rewrite dbl_10.
  change (dbl_mul (dbl_of_Z 10) (dbl_of_Z 2)) with (dbl_of_Z 20).
  repeat first [rewrite dbl_add_Z by (unfold exact; lia) | rewrite dbl_sub_Z by (unfold exact; lia)
    | rewrite dbl_lt_Z by (unfold exact; lia)].
  rewrite (proj2 (Z.ltb_ge h _)) by lia.
  destruct (Z.ltb_spec y (top + 10)); [|destruct (Z.ltb_spec (top + h - hh - 10) y)];
    rewrite dbl_sub_Z by (unfold exact; lia); f_equal; lia.
Qed.

End Typing.

(** ** Properties *)

Section Properties.
Import Localization Settings Logging Ui.
Context (tr : text -> text) (toLowerCase : text -> text).
Context (href hash : text).
Context (isTouchDevice isIOS isAndroid : bool) (console : bool).
Implicit Types (u : ui).
Abbreviation handle := (handle tr toLowerCase href hash isTouchDevice isIOS isAndroid console).
Abbreviation step := (step tr toLowerCase href hash isTouchDevice isIOS isAndroid console).
Definition events (l : list event) u : ui := fold_left (fun u e => (handle e u).2) l u.

(** [C12] The end the user wants is final: once the disconnect button was pressed in a
    session, whatever the user does except to press "connect", whatever the session
    still reports and whatever timers go off, automatic reconnection included, no
    session is started and none counts as connected. *)
Theorem disconnect_is_final u r (l : list event) :
  rfb u = Some r -> EButton BConnect ∉ l ->
  let u' := events l (handle (EButton BDisconnect) u).2 in
  started u' = started u /\ connected u' = false.
Proof.
  intros Hr Hl u'. assert (H : ended (started u) u').
  { unfold u', events. pose proof (disconnect_ends tr toLowerCase href hash isTouchDevice isIOS isAndroid console u r Hr) as H0.
    revert H0 Hl. generalize (handle (EButton BDisconnect) u).2. induction l as [|e l IH]; intros v Hv Hl; [done|].
    cbn [fold_left]. apply not_elem_of_cons in Hl as [He Hl]. apply IH; [|done]. by apply ended_handle. }
  by destruct H as (H1 & _ & _ & H4).
Qed.

(** [C18] An error stays until it is dismissed: whatever happens to the page, and whatever
    other messages are to be shown, an error that is shown is still shown, with its
    text, until the user clicks on it or presses "connect", or the timer of automatic
    reconnection starts a session; no other timer hides it.  (A press of "connect"
    without a host puts another error in its place.) *)
Theorem errors_stay (l1 l2 : list event) u0 :
  status_ok u0 ->
  let u := events l1 u0 in
  error_shown u = true ->
  (forall l e l', l2 = l ++ e :: l' ->
     e <> EButton BConnect /\ e <> EButton BStatus
     /\ forall n d, e = ETimer n -> timers (events l u) !! n <> Some (TReconnect, d)) ->
  error_shown (events l2 u) = true /\ statusText (events l2 u) = statusText u.
Proof.
  intros H0 u He Hl. assert (Hu : shows_error (statusText u) u).
  { split; [|done]. unfold u, events. clear -H0. revert u0 H0. induction l1 as [|e l IH]; intros u0 H0; [done|].
    cbn [fold_left]. apply IH. by apply status_ok_handle. }
  enough (shows_error (statusText u) (events l2 u)) as (_ & ? & ?) by done.
  induction l2 as [|e l IH] using rev_ind; [exact Hu|].
  unfold events in *. rewrite fold_left_app. cbn [fold_left]. destruct (Hl l e [] eq_refl) as (H1 & H2 & H3).
  apply shows_error_handle; [done..|]. apply IH. intros l' e' l'' ->. apply (Hl l' e' (l'' ++ [e])). by rewrite <- app_assoc.
Qed.

(** [C19] At most one panel: under any events, from any page that has this, at most one of
    the four panels of the control bar is open, the button that is selected is that of
    the open panel, and a panel is open only while the control bar is. *)
Theorem panels_exclusive u u' : one_panel u -> rtc step u u' -> one_panel u'.
Proof.
  intros Hu Hr. induction Hr as [|u1 u2 u3 [e ->] _ IH]; [done|]. apply IH. by apply handle_one_panel.
Qed.

(** A message shown while a warning is, and that is no warning or error, does not show;
    but the timer of the warning is stopped, so that the warning is never hidden. *)
Theorem warnings_stick t time u :
  status_ok u -> warning_shown u = true ->
  let u' := (showStatus t "normal" time u).2 in
  warning_shown u' = true /\ statusText u' = statusText u /\ ~ hide_pending u'.
Proof.
  intros Hu Hw u'. destruct (showStatus_run t "normal" time u Hu) as (v & E & _ & H).
  unfold u'. rewrite E. rewrite Hw, (bool_decide_true (_ = _)), orb_true_r in H by done. destruct H as (H1 & H2 & H3).
  split; [|by split]. unfold warning_shown, status_open, contains in *. cbn [snd]. by rewrite H1.
Qed.

(** The handle stays on the control bar: wherever it is dragged to, at integral
    places, it is put at the place below the pointer that is nearest to it among those
    at least 10 pixels from both ends of the bar; a bar without a height is left
    alone. *)
Theorem handle_in_bar (y hh top h : Z) u :
  - 2 ^ 50 < y < 2 ^ 50 -> 0 <= hh < 2 ^ 50 -> - 2 ^ 50 < top < 2 ^ 50 -> 0 <= h < 2 ^ 50 -> hh = 0 \/ h = 0 \/ hh + 20 <= h ->
  let u' := (moveControlbarHandle (dbl_of_Z hh) (dbl_of_Z top) (dbl_of_Z h) (dbl_of_Z y) u).2 in
  if (hh =? 0) || (h =? 0) then u' = u
  else exists p, handleTransform u' = dbl_of_Z p /\ 10 <= p /\ p + hh <= h - 10
       /\ forall q, 10 <= q /\ q + hh <= h - 10 -> Z.abs (p - (y - top)) <= Z.abs (q - (y - top)).
Proof.
  intros Hy Hhh Ht Hh Hfit u'. assert (E0 : forall n, 0 <= n < 2 ^ 50 -> dbl_is0 (dbl_of_Z n) = (n =? 0)).
  { intros n Hn. unfold dbl_is0. change (SpecFloat.S754_zero false) with (dbl_of_Z 0).
    unfold SFeqb. rewrite compare_Z by (unfold exact; lia). destruct (Z.compare_spec n 0), (Z.eqb_spec n 0); try lia; done. }
  unfold u', moveControlbarHandle. rewrite !E0 by done.
  destruct (Z.eqb_spec hh 0), (Z.eqb_spec h 0); cbn [orb]; try done. rewrite modify_run. cbn [snd].
  exists (Z.max 10 (Z.min (h - hh - 10) (y - top))).
  split_and!; [|lia|lia|intros q Hq; lia]. cbn. apply handle_position_Z; lia.
Qed.

End Properties.

(** ** Examples *)

Section Examples.
Import Localization Settings Logging Ui.

(** The page as vnc.html has it, opened in a browser without settings, at an address. *)
Definition checkbox : control := Control Checkbox false 0 [] false false.
Definition field (v : string) : control := Control Field false 0 (codes v) false false.
Definition select_ (l : list string) : control := Control (Select (map codes l)) false 0 [] false false.
Definition vnc_html : ui := UI false [] None None None false false (dbl_of_Z 0) (dbl_of_Z 0) None true None None None
  {[("html", "noVNC_loading"); ("noVNC_view_drag_button", "noVNC_hidden"); ("noVNC_fullscreen_button", "noVNC_hidden")]}%string
  (list_to_map [
    ("shared", checkbox); ("view_only", checkbox); ("view_clip", checkbox); ("resize", select_ ["off"; "scale"; "remote"]);
    ("repeaterID", field ""); ("encrypt", checkbox); ("host", field ""); ("port", field ""); ("path", field "websockify");
    ("reconnect", checkbox); ("reconnect_delay", field ""); ("show_dot", checkbox); ("logging", select_ [])]%string)
  (Store ∅ None ∅) Logging.constructor [] [] [] [] [] [] false false (dbl_of_Z 0) 0 ∅ 0 [].

Section Address.
Context (query : string).
Definition address : text := codes "https://host:6080/vnc.html" ++ codes query.
Definition started_page : outcome unit * ui :=
  prime id id address [] (codes "host") (Some (codes "6080")) (codes "https:") false false false true true vnc_html.
Definition on_page (l : list event) : ui := events id id address [] false false false true l started_page.2.
End Address.

Definition connect_events : list event := [EButton BConnect; ESession SConnect].

Lemma page_started : (started_page "").1 = Ret tt.
Proof. vm_compute. reflexivity. Qed.

(** It connects with the address of its server. *)
Lemma page_connects :
  calls (on_page "" connect_events) = [CNew (codes "wss://host:6080/websockify"); CFocus]
  /\ connected (on_page "" connect_events) = true.
Proof. by vm_compute. Qed.

(** With "reconnect" set, the server ends a session, and the user the one after it. *)
Definition again : list event := connect_events ++ [ESession (SDisconnect true); ETimer 2; ESession SConnect].

Lemma disconnect_is_final_witness :
  let a := address "?reconnect=1" in let u := on_page "?reconnect=1" again in
  let u' := events id id a [] false false false true [ESession (SDisconnect true); ETimer 3; ETimer 4; EButton BTab]
              (handle id id a [] false false false true (EButton BDisconnect) u).2 in
  started u = 2%nat /\ started u' = started u /\ connected u' = false.
Proof.
  intros a u u'. split; [vm_compute; reflexivity|].
  destruct (rfb u) as [r|] eqn:Er; [|exfalso; revert Er; vm_compute; discriminate].
  apply (disconnect_is_final id id a [] false false false true u r _ Er).
  intros H. repeat (apply elem_of_cons in H as [H|H]; [discriminate H|]). by apply elem_of_nil in H.
Defined.

Lemma page_status_ok : status_ok (started_page "").2.
Proof.
  split; [|intros H; exfalso; revert H; vm_compute; discriminate].
  intros n d H. exfalso. assert (E : timers (started_page "").2 = ∅) by (vm_compute; reflexivity).
  rewrite E, lookup_empty in H. discriminate H.
Qed.

(** The server is not there, and the user looks at the settings. *)
Lemma errors_stay_witness :
  let l1 := [EButton BConnect; ESession (SDisconnect false)] in
  error_shown (on_page "" l1) = true
  /\ error_shown (on_page "" (l1 ++ [EButton BSettings; ETimer 1])) = true
  /\ statusText (on_page "" (l1 ++ [EButton BSettings; ETimer 1])) = codes "Failed to connect to server".
Proof.
  intros l1. split; [vm_compute; reflexivity|]. unfold on_page.
  assert (Happ : forall l l' u, events id id (address "") [] false false false true (l ++ l') u
    = events id id (address "") [] false false false true l' (events id id (address "") [] false false false true l u))
    by (intros; apply fold_left_app).
  rewrite Happ.
  destruct (errors_stay id id (address "") [] false false false true l1 [EButton BSettings; ETimer 1] (started_page "").2 page_status_ok)
    as [H1 H2]; [vm_compute; reflexivity| |split; [exact H1|rewrite H2; vm_compute; reflexivity]].
  intros l e l' E. destruct l as [|e0 [|e1 [|e2 l]]]; injection E; intros; subst; try discriminate;
    (split; [discriminate|split; [discriminate|]]); intros n d En; try discriminate En.
  injection En as <-. vm_compute. discriminate.
Defined.

Lemma panels_exclusive_witness :
  one_panel (on_page "" [EButton BSettings; EButton BExtraKeys])
  /\ opened (on_page "" [EButton BSettings; EButton BExtraKeys]) = [false; false; false; true].
Proof.
  split; [|vm_compute; reflexivity].
  apply (panels_exclusive id id (address "") [] false false false true (started_page "").2).
  - unfold one_panel. assert (E : panel_state (started_page "").2 = (all_closed, all_closed, true)) by (vm_compute; reflexivity).
    rewrite E. split; [done|]. split; [cbn; lia|done].
  - eapply rtc_l; [by exists (EButton BSettings)|]. eapply rtc_l; [by exists (EButton BExtraKeys)|]. apply rtc_refl.
Defined.

Definition in_session_text (t : string) : ui :=
  (on_page "" connect_events) <| lastKeyboardinput := Some (codes t) |>.

Lemma handle_in_bar_witness :
  exists p, handleTransform (moveControlbarHandle (dbl_of_Z 50) (dbl_of_Z 100) (dbl_of_Z 400) (dbl_of_Z 700) vnc_html).2 = dbl_of_Z p
    /\ 10 <= p /\ p + 50 <= 390.
Proof.
  destruct (handle_in_bar 700 50 100 400 vnc_html) as (p & H1 & H2 & H3 & _); try lia. exists p. split_and!; [exact H1|exact H2|lia].
Defined.

(** A password that is typed at once: its warning stays for ever. *)
Definition password_typed : list event :=
  [EButton BConnect; ESession SCredentials; EPasswordType (codes "secret"); EButton BPassword; ESession SConnect].
Lemma warning_for_ever :
  let u := on_page "" (password_typed ++ map ETimer (seq 0 20)) in
  warning_shown u = true /\ statusText u = codes "Password is required" /\ connected u = true /\ timers u = ∅.
Proof. by vm_compute. Qed.

Lemma warnings_stick_witness :
  let u := on_page "" (take 4 password_typed) in
  warning_shown (showStatus (codes "Connected") "normal" None u).2 = true
  /\ ~ hide_pending (showStatus (codes "Connected") "normal" None u).2.
Proof.
  intros u. destruct (warnings_stick (codes "Connected") None u) as (H1 & _ & H2); [|vm_compute; reflexivity|by split].
  change u with (events id id (address "") [] false false false true (take 4 password_typed) (started_page "").2).
  unfold events. generalize page_status_ok. generalize (started_page "").2. induction (take 4 password_typed) as [|e l IH]; intros v Hv; [done|].
  apply IH. by apply status_ok_handle.
Defined.

(** A Ctrl key that is held when the session ends is not pressed in the next, but shown
    as if it were. *)
Lemma modifier_forgotten :
  let u := on_page "?reconnect=1" (connect_events ++ [EButton BCtrl; ESession (SDisconnect true); ETimer 2; ESession SConnect]) in
  contains "noVNC_toggle_ctrl_button" "noVNC_selected" u = true
  /\ drop 3 (calls u) = [CNew (codes "wss://host:6080/websockify"); CFocus].
Proof. by vm_compute. Qed.

(** A character outside the first plane is typed as its two surrogates. *)
Lemma emoji_typed :
  calls (keyInput [95; 0xD83D; 0xDE00] None (in_session_text "_")).2
  = calls (in_session_text "_") ++ [CSendKey 0x100d83d None None; CSendKey 0x100de00 None None].
Proof. by vm_compute. Qed.

(** A caret past the end of the text types a key that is none. *)
Lemma caret_past_end :
  calls (keyInput (codes "_") (Some 2) (in_session_text "_")).2
  = calls (in_session_text "_") ++ [CSendKey 0x1000000 None None].
Proof. by vm_compute. Qed.

(** A logging level in the address that is none stops the page from starting. *)
Lemma bad_logging_level : (started_page "?logging=verbose").1 = Throw (Error "invalid logging type").
Proof. by vm_compute. Qed.

(** Scaling replaces the user's choice to clip the view, also when it is over. *)
Lemma scaling_unclips :
  let u := on_page "?view_clip=1" (connect_events ++ [ESetting "resize" (Choose 1); ESetting "resize" (Choose 0)]) in
  (u_clipViewport <$> rfb (on_page "?view_clip=1" connect_events)) = Some true /\ (u_clipViewport <$> rfb u) = Some false.
Proof. by vm_compute. Qed.

End Examples.
