(* ===== verification/Client.v ===== *)
(** * The page and the session together
    (src/ControlServer/web/www/novnc/app/ui.js and core/rfb.js)

    The page of [Ui] logs what it asks of its session; here a session of [Rfb] does it,
    as it is asked.  Covered are the keys, the power of the machine and the end of the
    session; a paste, whose loop need not end, has its theorems in [Messages]. *)

From S2P Require Import Prelude Websock Messages Display Decoders Keys Keysyms Settings Ui Rfb Samples Lifecycle Session Page.

Module Client.
Import Ui.

Section Client.
Context (supportsImageMetadata useFallback : bool) {ZS : Type}.
Abbreviation rfb := (Rfb.rfb ZS).

Record client := Client_ { cl_ui : ui; cl_rfb : rfb }.

(** A missing code is undefined, and no scan code. *)
Definition obey (c : call) : M rfb unit :=
  match c with
  | CSendKey keysym code down => Rfb.sendKey ZS keysym (default "" code)%string down
  | CSendCtrlAltDel => Rfb.sendCtrlAltDel ZS
  | CMachineShutdown => Rfb.machineShutdown ZS
  | CMachineReboot => Rfb.machineReboot ZS
  | CMachineReset => Rfb.machineReset ZS
  | CDisconnect => Rfb.disconnect supportsImageMetadata useFallback ZS
  | CNew _ | CPaste _ | CCredentials _ | CFocus => skip
  end.

Fixpoint obey_all (l : list call) (r : rfb) : rfb :=
  match l with
  | [] => r
  | c :: l => obey_all l (obey c r).2
  end.

(** The page does [m]. *)
Definition page_does (m : M ui unit) (c : client) : client :=
  let u := (m (cl_ui c)).2 in
  Client_ u (obey_all (drop (length (calls (cl_ui c))) (calls u)) (cl_rfb c)).

End Client.
Arguments client : clear implicits.
End Client.

(** ** The text at the server *)

Module Editor.
Import Messages RfbFormat.

(** A text of keysyms, edited by the keys that go down. *)
Definition edit (t : list Z) (m : message) : list Z :=
  match m with
  | KeyEvent down keysym | QemuKeyEvent down keysym _ =>
      if down =? 0 then t else if keysym =? Ui.XK_BackSpace then removelast t else t ++ [keysym]
  | _ => t
  end.

(** The keysyms that are down. *)
Definition hold (l : list Z) (m : message) : list Z :=
  match m with
  | KeyEvent down keysym | QemuKeyEvent down keysym _ =>
      if down =? 0 then filter (.≠ keysym) l else keysym :: l
  | _ => l
  end.

End Editor.

(** ** Lemmas *)

Section Lemmas.
Import Websock Messages RfbFormat Rfb Ui Editor Client.
Context (supportsImageMetadata useFallback : bool) {ZS : Type}.
Implicit Types (r : Rfb.rfb ZS).
Abbreviation obey := (obey supportsImageMetadata useFallback (ZS := ZS)).
Abbreviation obey_all := (obey_all supportsImageMetadata useFallback (ZS := ZS)).

(** The messages of a key that is pressed and released, or one of these. *)
Definition key_call_messages (qemu : bool) (c : call) : list message :=
  match c with
  | CSendKey keysym code (Some down) => key_messages qemu keysym (default "" code)%string down
  | CSendKey keysym code None =>
      key_messages qemu keysym (default "" code)%string true ++ key_messages qemu keysym (default "" code)%string false
  | _ => []
  end.

Definition is_key (c : call) : Prop := exists keysym code down, c = CSendKey keysym code down.

Lemma key_call_run c r :
  is_key c -> Rfb.can_send ZS r = true -> r_idle ZS r ->
  exists s, obey c r = (Ret tt, r <| Rfb.r_sock := s |>) /\ r_idle ZS (r <| Rfb.r_sock := s |>)
    /\ sk_sent s = sk_sent (Rfb.r_sock r) ++ map layout (key_call_messages (Rfb.r_qemuExtKeyEventSupported r) c).
Proof.
  intros (keysym & code & down & ->) Hc Hi. cbn [Client.obey key_call_messages]. unfold Rfb.sendKey. rewrite bind_run, gets_run.
  cbn [id]. rewrite Hc. cbn [negb]. destruct down as [down|]; [by apply send_key_run|].
  destruct (send_key_run ZS r keysym (default "" code)%string true Hc Hi) as (s & E & Hi' & Hs).
  set (r1 := r <| Rfb.r_sock := s |>) in *.
  destruct (send_key_run ZS r1 keysym (default "" code)%string false Hc Hi') as (s' & E' & Hi2 & Hs').
  rewrite bind_run, E, E'. exists s'. split; [done|]. split; [exact Hi2|].
  change (Rfb.r_sock r1) with s in Hs'. change (Rfb.r_qemuExtKeyEventSupported r1) with (Rfb.r_qemuExtKeyEventSupported r) in Hs'.
  by rewrite Hs', Hs, map_app, app_assoc.
Qed.

Lemma key_calls_run l r :
  Forall is_key l -> Rfb.can_send ZS r = true -> r_idle ZS r ->
  exists s, obey_all l r = r <| Rfb.r_sock := s |> /\ r_idle ZS (r <| Rfb.r_sock := s |>)
    /\ sk_sent s = sk_sent (Rfb.r_sock r) ++ map layout (concat (map (key_call_messages (Rfb.r_qemuExtKeyEventSupported r)) l)).
Proof.
  intros Hl. revert r. induction Hl as [|c l Hk _ IH]; intros r Hc Hi.
  { exists (Rfb.r_sock r). rewrite r_sock_id, app_nil_r. done. }
  destruct (key_call_run c r Hk Hc Hi) as (s & E & Hi' & Hs). cbn [Client.obey_all]. rewrite E. cbn [snd].
  set (r1 := r <| Rfb.r_sock := s |>) in *. destruct (IH r1 Hc Hi') as (s' & E' & Hi2 & Hs').
  exists s'. split; [exact E'|]. split; [exact Hi2|]. change (Rfb.r_sock r1) with s in Hs'.
  change (Rfb.r_qemuExtKeyEventSupported r1) with (Rfb.r_qemuExtKeyEventSupported r) in Hs'.
  rewrite Hs', Hs, <- app_assoc. cbn [map concat]. by rewrite map_app.
Qed.

Lemma key_not_backspace c : 0 < c < 0x10000 -> Keysyms.lookup c <> 0 /\ Keysyms.lookup c <> XK_BackSpace.
Proof.
  intros Hc. split; [pose proof (lookup_bounds c ltac:(lia)); lia|]. unfold XK_BackSpace.
  assert (H : forallb (fun p => negb (p.2 =? 0xff08)) Keysyms.codepoints = true) by (vm_compute; reflexivity).
  rewrite forallb_forall in H. destruct (lookup_cases c ltac:(lia)) as [[? ->]|[[? Hin]| ->]]; [lia| |lia].
  apply list_elem_of_In in Hin. specialize (H _ Hin). cbn in H. rewrite negb_true_iff in H. by apply Z.eqb_neq in H.
Qed.

(** A character is one keysym more, and a backspace one less, with no key left down. *)
Lemma type_char qemu c t :
  0 < c < 0x10000 ->
  let m := key_call_messages qemu (CSendKey (Keysyms.lookup c) None None) in
  fold_left edit m t = t ++ [Keysyms.lookup c] /\ fold_left hold m [] = [].
Proof.
  intros Hc m. destruct (key_not_backspace c Hc) as [H0 Hb]. unfold m. cbn [key_call_messages default]. unfold key_messages.
  cbn. rewrite (proj2 (Z.eqb_neq _ 0) H0). cbn. rewrite (proj2 (Z.eqb_neq _ XK_BackSpace) Hb).
  split; [done|]. by rewrite decide_False by (by intros []).
Qed.

Lemma type_backspace qemu t :
  let m := key_call_messages qemu (CSendKey XK_BackSpace (Some "Backspace"%string) None) in
  fold_left edit m t = removelast t /\ fold_left hold m [] = [].
Proof. destruct qemu; (split; [reflexivity|vm_compute; reflexivity]). Qed.

Lemma type_chars qemu l t :
  Forall (fun c => 0 < c < 0x10000) l ->
  let m := concat (map (key_call_messages qemu) (map (fun c => CSendKey (Keysyms.lookup c) None None) l)) in
  fold_left edit m t = t ++ map Keysyms.lookup l /\ fold_left hold m [] = [].
Proof.
  intros Hl. revert t. induction Hl as [|c l Hc _ IH]; intros t; cbn [map concat]; cbv zeta; [by rewrite app_nil_r|].
  rewrite !fold_left_app. destruct (type_char qemu c t Hc) as [-> ->]. destruct (IH (t ++ [Keysyms.lookup c])) as [-> ->].
  by rewrite <- app_assoc.
Qed.

Lemma type_backspaces qemu n t t' :
  length t' = n ->
  let m := concat (map (key_call_messages qemu) (replicate n (CSendKey XK_BackSpace (Some "Backspace"%string) None))) in
  fold_left edit m (t ++ t') = t /\ fold_left hold m [] = [].
Proof.
  revert t'. induction n as [|n IH]; intros t' Hn; cbn [replicate map concat]; cbv zeta.
  { apply nil_length_inv in Hn as ->. by rewrite app_nil_r. }
  rewrite !fold_left_app. destruct (type_backspace qemu (t ++ t')) as [-> ->].
  destruct t' as [|x t'] using rev_ind; [done|]. rewrite length_app in Hn. cbn in Hn.
  rewrite app_assoc, removelast_last. apply IH. lia.
Qed.

End Lemmas.

(** ** Properties *)

Section Properties.
Import Websock Messages RfbFormat Rfb Ui Editor Client.
Context (supportsImageMetadata useFallback : bool) {ZS : Type}.

(** [C20] The virtual keyboard, end to end: for any old text that is not empty and any
    new text (of code units other than zero) of the keyboard input of a running
    session, the caret of the new text not behind its end (see [caret_past_end]), the
    socket is given key events, and nothing else, by which a text at the server that ends with the old text ends with the new one,
    all else of it unchanged, and no key is left down; the session is unchanged; and
    the new text is what the next change is compared with, unless it is empty or too
    long. *)
Theorem virtual_keyboard_edits (c : client ZS) (rem : remote) (new old : list Z) (selectionStart : option Z) :
  Ui.rfb (cl_ui c) = Some rem -> lastKeyboardinput (cl_ui c) = Some old -> old <> [] ->
  match selectionStart with Some s => s <= zlen new | None => True end ->
  Forall (fun x => 0 < x < 0x10000) new -> can_send ZS (cl_rfb c) = true -> r_idle ZS (cl_rfb c) ->
  let c' := page_does supportsImageMetadata useFallback (keyInput new selectionStart) c in
  exists messages sock',
    cl_rfb c' = (cl_rfb c) <| r_sock := sock' |>
    /\ sk_sent sock' = sk_sent (r_sock (cl_rfb c)) ++ map layout messages
    /\ (forall before, fold_left edit messages (before ++ map Keysyms.lookup old) = before ++ map Keysyms.lookup new)
    /\ fold_left hold messages [] = []
    /\ (0 < zlen new <= 200 -> lastKeyboardinput (cl_ui c') = Some new).
Proof.
  intros Hr Hold Hne Hsel Hchars Hc Hi c'.
  destruct (keyInput_run (cl_ui c) rem new old selectionStart Hr Hold Hne Hsel) as (k & u' & E & Hk & Ht & Hcalls & Hlast).
  set (back := replicate _ _) in Hcalls. set (chars := map _ _) in Hcalls.
  assert (Hkeys : Forall is_key (back ++ chars)).
  { apply Forall_app. split; [apply Forall_replicate; unfold is_key; eauto|]. apply Forall_map, Forall_true. unfold is_key; cbn; eauto. }
  destruct (key_calls_run supportsImageMetadata useFallback _ _ Hkeys Hc Hi) as (sock' & Es & _ & Hs).
  unfold c', page_does. rewrite E. cbn [snd cl_ui cl_rfb]. rewrite Hcalls, drop_app_length.
  eexists _, sock'. split; [exact Es|]. split; [exact Hs|]. rewrite map_app, concat_app.
  set (q := r_qemuExtKeyEventSupported _). pose proof (type_chars q (drop k new)) as Hty.
  specialize (fun t => Hty t (Forall_drop _ _ _ Hchars)). cbv zeta in Hty. fold chars in Hty.
  assert (Hb : forall t, _) by exact (fun t => type_backspaces q (length old - k) t (map Keysyms.lookup (drop k old))
    ltac:(by rewrite length_map, length_drop)).
  cbv zeta in Hb. fold back in Hb. split; [|split; [|exact Hlast]].
  - intros before. rewrite <- (take_drop k old) at 1. rewrite map_app, app_assoc, fold_left_app.
    rewrite (proj1 (Hb _)), (proj1 (Hty _)), <- app_assoc, <- map_app. by rewrite Ht.
  - rewrite fold_left_app. rewrite (proj2 (Hb [])). apply (Hty []).
Qed.

End Properties.

(** ** Examples *)

Section Examples.
Import Websock Messages RfbFormat Rfb Ui Editor Client Samples.

(** A word is corrected. *)
Definition correcting : client unit := Client_ (in_session_text "_tehir") (session Rfb.Connected []).

Lemma virtual_keyboard_edits_witness :
  exists messages,
    sk_sent (r_sock (cl_rfb (page_does true false (keyInput (codes "_their") (Some 6)) correcting))) = map layout messages
    /\ fold_left edit messages (codes "_tehir") = codes "_their".
Proof.
  destruct (Ui.rfb (cl_ui correcting)) as [rem|] eqn:Er; [|exfalso; revert Er; vm_compute; discriminate].
  destruct (virtual_keyboard_edits true false correcting rem (codes "_their") (codes "_tehir") (Some 6))
    as (messages & sock' & E & Hs & He & _); [exact Er|reflexivity|discriminate|vm_compute; discriminate| | |apply session_idle|].
  - change (codes "_their") with [95; 116; 104; 101; 105; 114]. repeat (apply Forall_cons_2; [lia|]). by apply Forall_nil_2.
  - reflexivity.
  - exists messages. split; [rewrite E; exact Hs|]. exact (He []).
Defined.

End Examples.
