(* ===== verification/Progress.v ===== *)
(** * Readers take what has arrived, and no more

    What the readers of the socket and the decoders do to the position of the
    reader, in triples: what has been waited for is there, every byte that is read
    counts, and a rectangle that is decoded leaves the decoders as the next one
    expects them. *)

From S2P Require Import Prelude Websock Messages Display Decoders.

(** ** Reading: what has been waited for is there to be read *)

Section Reading.
Import Websock.
Local Open Scope js_scope.
Implicit Type s : sock.

(** The reader stands at [i] or further, counted from the end of what has arrived,
    with [k] bytes before it that it may take. *)
Definition room (i k : Z) s : Prop :=
  i + sk_rQlen s <= sk_rQi s /\ 0 <= k /\ sk_rQi s + k <= sk_rQlen s /\ 0 <= sk_rQi s /\ bytes (rQ_buf s).

Lemma room_less i k k' s : 0 <= k' <= k -> room i k s -> room i k' s.
Proof. unfold room. intuition lia. Qed.

Lemma room_skip i k n s : 0 <= n <= k -> room i k s -> room (i + n) (k - n) (s <| sk_rQi := sk_rQi s + n |>).
Proof. intros Hn (H1 & H2 & H3 & H4 & H5). destruct s; cbn in *. unfold room; cbn. split_and!; first [done | lia]. Qed.

Lemma room_eq i i' k k' s : i = i' -> k = k' -> room i k s -> room i' k' s.
Proof. by intros -> ->. Qed.

Lemma skip_room i k n : 0 <= n <= k -> triple (room i k) (rQskipBytes n) (fun _ => room (i + n) (k - n)).
Proof. intros Hn s H. by apply room_skip. Qed.

(** What has been read of a message that is not there yet is put back. *)
Lemma wait_room i k n goback : 0 <= goback ->
  triple (room i k) (rQwait n goback) (fun wait s => if wait : bool then exists j, room j 0 s else room i (Z.max k n) s).
Proof.
  intros Hg s (H1 & H2 & H3 & H4 & H5). unfold rQwait, mbind, M_bind, gets. cbn [id]. destruct (Z.ltb_spec (rQlen s) n) as [Hl|Hl].
  - assert (H : forall g, 0 <= g <= sk_rQi s -> exists j, room j 0 (s <| sk_rQi := sk_rQi s - g |>)).
    { intros g Hgs. exists (sk_rQi s - g - sk_rQlen s). destruct s; cbn in *. unfold room; cbn. split_and!; first [done | lia]. }
    destruct (goback =? 0); cbn.
    + exists i. unfold room. split_and!; first [done | lia].
    + destruct (Z.ltb_spec (sk_rQi s) goback); [done|]. by apply H.
  - unfold rQlen in Hl. unfold room. split_and!; first [done | lia].
Qed.

Lemma shift_loop_room n i k res :
  Z.of_nat n <= k -> triple (room i k) (rQshift_loop n res) (fun _ => room (i + Z.of_nat n) (k - Z.of_nat n)).
Proof.
  revert i k res. induction n as [|n IH]; intros i k res Hn.
  - intros s H. cbn. by rewrite Z.add_0_r, Z.sub_0_r.
  - intros s H. assert (Hs : room (i + 1) (k - 1) (s <| sk_rQi := sk_rQi s + 1 |>)) by (apply room_skip; [lia|done]).
    specialize (IH (i + 1) (k - 1) (res + (nint (aget (rQ_buf s) (sk_rQi s)) <<. (Z.of_nat n * 8))) ltac:(lia) _ Hs).
    cbn [rQshift_loop]. unfold rQpeek8, rQskipBytes, mbind, M_bind, gets, modify.
    destruct (rQshift_loop n _ _) as [[v|e] s']; [|done]. revert IH. apply room_eq; lia.
Qed.

Lemma shift_room n i k :
  Z.of_nat n <= k -> triple (room i k) (rQshift n) (fun _ => room (i + Z.of_nat n) (k - Z.of_nat n)).
Proof. apply shift_loop_room. Qed.

Lemma view_keeps off len s :
  match rQview off len s with (Ret v, s') => s' = s /\ 0 <= len /\ v = View (sk_rQ s) off len | _ => True end.
Proof.
  unfold rQview, mbind, M_bind, gets. cbn [id]. destruct ((off <? 0) || (len <? 0)) eqn:E; cbn; [done|].
  destruct (_ <? off + len); cbn; [done|]. apply orb_false_iff in E as [_ E%Z.ltb_ge]. done.
Qed.

Lemma bytes_room i k n :
  n <= k -> triple (room i k) (rQshiftBytes (Some n)) (fun v s => 0 <= n /\ room (i + n) (k - n) s /\ v_buf v = sk_rQ s).
Proof.
  intros Hn s H. unfold rQshiftBytes, rQskipBytes, mbind, M_bind, gets, modify. cbn [default from_option id].
  set (s1 := s <| sk_rQi := sk_rQi s + n |>). pose proof (view_keeps (sk_rQi s1 - n) n s1) as Hv.
  destruct (rQview _ n s1) as [[v|e] s2]; [|done]. destruct Hv as (-> & Hn0 & ->). split; [done|]. split; [|done].
  by apply room_skip.
Qed.

Lemma take_room i k n :
  n <= k -> triple (room i k) (rQtake n) (fun l s => 0 <= n /\ room (i + n) (k - n) s /\ bytes l).
Proof.
  intros Hn. unfold rQtake. eapply triple_bind; [by apply bytes_room|]. intros v s (H0 & H & Hv).
  change (0 <= n /\ room (i + n) (k - n) s /\ bytes (view_bytes (sk_heap s) v)). split; [done|]. split; [done|].
  unfold view_bytes. rewrite Hv. apply bytes_slice. apply H.
Qed.

Lemma str_loop_room fuel i k j len str :
  0 <= j -> Z.max 0 (len - j) <= k -> triple (room i k) (rQshiftStr_loop fuel j len str) (fun _ s => room i 0 s).
Proof.
  revert i k j str. induction fuel as [|fuel IH]; intros i k j str Hj Hk.
  { intros s H. revert H. apply room_less. lia. }
  cbn [rQshiftStr_loop]. destruct (Z.ltb_spec j len).
  - eapply triple_bind; [apply take_room; lia|]. intros l.
    eapply triple_weaken; [|eapply (IH i (k - Z.min 4096 (len - j)))]; [|lia|lia].
    intros s (H0 & (H1 & H2 & H3 & H4 & H5) & _). unfold room. split_and!; first [done | lia].
  - intros s H'. revert H'. apply room_less. lia.
Qed.

Lemma str_room i k n : Z.max 0 n <= k -> triple (room i k) (rQshiftStr (Some n)) (fun _ s => room i 0 s).
Proof.
  intros Hn. unfold rQshiftStr. apply triple_gets. intros m. apply (triple_weaken _ (fun s => room i k s /\ m = n)).
  { intros s [H <-]. done. }
  intros s [H ->]. revert s H. apply str_loop_room; lia.
Qed.

Lemma to_room i k n target : n <= k -> triple (room i k) (rQshiftTo target (Some n)) (fun _ s => room i (k - n) s).
Proof.
  intros Hn s H. unfold rQshiftTo, mbind, M_bind, gets. cbn [default from_option id].
  pose proof (view_keeps (sk_rQi s) n s) as Hv. destruct (rQview _ n s) as [[v|e] s2]; [|done]. destruct Hv as (-> & Hn0 & _).
  destruct (zlen target <? n); [done|]. unfold rQskipBytes, modify.
  pose proof (room_skip i k n s ltac:(lia) H) as (H1 & H2 & H3 & H4 & H5). unfold room. split_and!; first [done | lia].
Qed.

(** Sending does not touch what is received. *)
Lemma flush_same s :
  sk_rQi (flush s).2 = sk_rQi s /\ sk_rQlen (flush s).2 = sk_rQlen s /\ rQ_buf (flush s).2 = rQ_buf s.
Proof.
  unfold flush, mbind, M_bind, gets. cbn [id]. destruct (0 <? sk_sQlen s); [|done].
  destruct (sk_websocket s) as [[]|]; try done. by destruct (_ <? _); destruct s.
Qed.

End Reading.

(** ** The decoders take what has arrived, and no more *)

Section Decoding.
Import Websock Display Decoders.
Context (supports : bool) (ZS : Type) (inflateInit : ZS) (inflateReset : ZS -> ZS)
  (pako_inflate : ZS -> list Z -> Z -> ZS * list Z).
Implicit Type d : decoding ZS.

(** No Hextile rectangle is half drawn. *)
Definition settled d : Prop := 0 <= dc_lines d /\ hx_tiles (dc_hextile d) = 0.
Definition D (i k : Z) d : Prop := room i k (dc_sock d) /\ settled d.
Definition resting d : Prop := exists i, D i 0 d.
(** Of an answer that says whether nothing is missing. *)
Definition done_ (i : Z) (b : bool) d : Prop := if b then D i 0 d else resting d.
Definition some_ {A} (i : Z) (o : option A) d : Prop :=
  match o with Some _ => D i 0 d | None => resting d end.

Lemma D_less i i' k k' d : i' <= i -> 0 <= k' <= k -> D i k d -> D i' k' d.
Proof. intros Hi Hk [(H1 & H2 & H3 & H4 & H5) H6]. split; [|done]. unfold room. split_and!; first [done | lia]. Qed.

Lemma D_end i i' k d : i' <= i -> D i k d -> D i' 0 d.
Proof. intros Hi H. apply (D_less i _ k); [done| |done]. destruct H as [(_ & ? & _) _]. lia. Qed.

Lemma D_sock {A B} i k (m : M sock A) (R : A -> sock -> Prop) (f : A -> M (decoding ZS) B) Q :
  triple (room i k) m R ->
  (forall a, triple (fun d => R a (dc_sock d) /\ settled d) (f a) Q) -> triple (D i k) (on_sock ZS m ≫= f) Q.
Proof.
  intros Hm Hf. eapply (triple_bind _ _ _ (fun a d => R a (dc_sock d) /\ settled d)); [|exact Hf].
  eapply (triple_zoom dc_sock); [|exact Hm|].
  - by intros d [H _].
  - by intros [] a t [_ H] Ha.
Qed.

Lemma D_rest i k d : D i k d -> resting d.
Proof. intros H. exists i. by apply (D_end i i k). Qed.

Lemma D_done i i' k b d : i <= i' -> D i' k d -> done_ i b d.
Proof. intros Hi H. destruct b; [by eapply D_end|by eapply D_rest]. Qed.

Lemma keeps_resting {A} (m : M (decoding ZS) A) : (forall i, keeps (D i 0) m) -> keeps resting m.
Proof. intros Hm d [i Hd]. exists i. by apply Hm. Qed.

Lemma D_wait {B} i k n g (f : bool -> M (decoding ZS) B) Q : 0 <= g ->
  triple resting (f true) Q -> triple (D i (Z.max k n)) (f false) Q -> triple (D i k) (on_sock ZS (rQwait n g) ≫= f) Q.
Proof.
  intros Hg H1 H2. eapply D_sock; [by apply wait_room|]. intros [].
  - eapply triple_weaken; [|exact H1]. intros d [[j H] ?]. by exists j.
  - eapply triple_weaken; [|exact H2]. intros d [H ?]. by split.
Qed.

Lemma D_skip {B} i k n (f : unit -> M (decoding ZS) B) Q :
  0 <= n <= k -> triple (D (i + n) (k - n)) (f tt) Q -> triple (D i k) (on_sock ZS (rQskipBytes n) ≫= f) Q.
Proof. intros Hn H. eapply D_sock; [by apply skip_room|]. by intros []. Qed.

Lemma D_shift {B} i k n (f : Z -> M (decoding ZS) B) Q :
  Z.of_nat n <= k -> (forall v, triple (D (i + Z.of_nat n) (k - Z.of_nat n)) (f v) Q) ->
  triple (D i k) (on_sock ZS (rQshift n) ≫= f) Q.
Proof. intros Hn H. eapply D_sock; [by apply shift_room|exact H]. Qed.

Lemma D_bytes {B} i k n (f : view -> M (decoding ZS) B) Q :
  n <= k -> (forall v, 0 <= n -> triple (D (i + n) (k - n)) (f v) Q) -> triple (D i k) (on_sock ZS (rQshiftBytes (Some n)) ≫= f) Q.
Proof. intros Hn H. eapply D_sock; [by apply bytes_room|]. intros v d [(H0 & Hr & _) Hl]. by apply (H v H0 d). Qed.

Lemma D_to {B} i k n target (f : list Z -> M (decoding ZS) B) Q :
  n <= k -> (forall v, triple (D i (k - n)) (f v) Q) -> triple (D i k) (on_sock ZS (rQshiftTo target (Some n)) ≫= f) Q.
Proof. intros Hn H. eapply D_sock; [by apply to_room|exact H]. Qed.

Lemma keep_display i k {A} (m : bool -> heap -> M display A) : keeps (D i k) (on_display supports ZS m).
Proof. unfold on_display. apply keeps_bind; [apply keeps_gets|intros h]. apply keeps_zoom. by intros []. Qed.

Lemma keep_peek i k : keeps (D i k) (on_sock ZS rQpeek8).
Proof. intros d H. by destruct d. Qed.

(** A field of a decoder that has no part in it. *)
Lemma keep_field i k (f : decoding ZS -> decoding ZS) :
  (forall d, dc_sock (f d) = dc_sock d /\ dc_lines (f d) = dc_lines d
    /\ hx_tiles (dc_hextile (f d)) = hx_tiles (dc_hextile d)) -> keeps (D i k) (modify f).
Proof.
  intros Hf d [H1 [H2 H3]]. destruct (Hf d) as (E1 & E2 & E3). unfold D, settled, modify. cbn [snd]. by rewrite E1, E2, E3.
Qed.

Ltac quiet := lazymatch goal with
  | |- keeps resting _ => apply keeps_resting; intros ?; quiet
  | |- keeps _ (on_display _ _ _) => apply keep_display
  | |- keeps _ (on_sock _ rQpeek8) => apply keep_peek
  | |- keeps _ (gets _) => apply keeps_gets
  | |- keeps _ (rQ_at _ _) => apply keeps_gets
  | |- keeps _ (rQ_view _) => apply keeps_gets
  | |- keeps _ (rQi _) => apply keeps_gets
  | |- keeps _ (view_now _ _) => apply keeps_gets
  | |- keeps _ (modify _) => apply keep_field; intros []; done
  | |- keeps _ (set_hextile _ _) => apply keep_field; intros []; done
  | |- keeps _ skip => apply keeps_skip
  end.

(** The end of a walk: a room at the place reached. *)
Ltac arrive := first
  [assumption | eapply D_done; [|eassumption]; lia | unfold some_; first [eapply D_end; [|eassumption]; lia | eapply D_rest; eassumption]].

Ltac walk := repeat (cbv beta iota zeta; lazymatch goal with
  | |- triple _ ((_ ≫= _) ≫= _) _ => apply triple_assoc
  | |- triple _ (mret _ ≫= _) _ => apply triple_ret_bind
  | |- triple _ (throw _ ≫= _) _ => apply triple_throw_bind
  | |- triple _ (throw _) _ => apply triple_throw
  | |- triple _ (mret _) _ => apply triple_ret; intros ? ?; arrive
  | |- triple _ ((if ?b then _ else _) ≫= _) _ => destruct b eqn:?
  | |- triple _ (if ?b then _ else _) _ => destruct b eqn:?
  | |- triple (D _ _) (on_sock _ (rQwait _ _) ≫= _) _ => apply D_wait; [lia| |]
  | |- triple (D _ _) (on_sock _ (rQskipBytes _) ≫= _) _ => apply D_skip; [lia|]
  | |- triple (D _ _) (on_sock _ (rQshift _) ≫= _) _ => apply D_shift; [lia|intros ?]
  | |- triple (D _ _) (on_sock _ rQshift8 ≫= _) _ => apply D_shift; [lia|intros ?]
  | |- triple (D _ _) (on_sock _ rQshift16 ≫= _) _ => apply D_shift; [lia|intros ?]
  | |- triple (D _ _) (on_sock _ rQshift32 ≫= _) _ => apply D_shift; [lia|intros ?]
  | |- triple (D _ _) (on_sock _ (rQshiftBytes (Some _)) ≫= _) _ => apply D_bytes; [lia|intros ? ?]
  | |- triple (D _ _) (on_sock _ (rQshiftTo _ (Some _)) ≫= _) _ => apply D_to; [lia|intros ?]
  | |- triple _ (_ ≫= _) _ => apply triple_keeps; [quiet|intros ?]
  end).

Lemma copyrect_room i x y w h : triple (D i 0) (copyrect_decodeRect supports ZS x y w h) (done_ i).
Proof. unfold copyrect_decodeRect. walk. Qed.

Lemma rre_loop_room fuel i i' k x y : i <= i' -> triple (D i' k) (rre_loop supports ZS fuel x y) (done_ i).
Proof.
  revert i' k. induction fuel as [|fuel IH]; intros i' k Hi; cbn [rre_loop]; walk. apply IH. lia.
Qed.

Lemma rre_room i x y w h : triple (D i 0) (rre_decodeRect supports ZS x y w h) (done_ i).
Proof. unfold rre_decodeRect. walk; apply rre_loop_room; lia. Qed.

(** *** Raw *)

Lemma raw_room i x y w h depth : 0 <= w -> 0 <= h -> triple (D i 0) (raw_decodeRect supports ZS x y w h depth) (done_ i).
Proof.
  intros Hw Hh. unfold raw_decodeRect. apply triple_keeps.
  { intros d [H1 [H2 H3]]. unfold modify. cbn [snd]. destruct (dc_lines d =? 0); [|done]. destruct d. by split. }
  intros []. cbv zeta. set (bpl := w * _). assert (Hb : 0 <= bpl) by (unfold bpl; destruct (depth =? 8); lia). clearbody bpl.
  apply D_wait; [lia|by walk|]. cbv iota.
  apply triple_gets. intros lines. apply triple_gets. intros avail.
  destruct ((bpl =? 0) && (avail =? 0)) eqn:Ez; [apply triple_gets; intros q; apply triple_throw|]. cbv zeta.
  set (n := if bpl =? 0 then lines else Z.min lines (avail / bpl)).
  set (P := fun d => (D i (Z.max 0 bpl) d /\ dc_lines d = lines) /\ rQlen (dc_sock d) = avail).
  assert (Kg : forall A (f : decoding ZS -> A), keeps P (gets f)) by (intros; apply keeps_gets).
  assert (Kd : forall A (m : bool -> heap -> M display A), keeps P (on_display supports ZS m)).
  { intros A m. unfold on_display. apply keeps_bind; [apply keeps_gets|intros hp]. apply keeps_zoom. by intros []. }
  apply (triple_keeps P); [apply Kg|intros data]. apply (triple_keeps P); [apply Kg|intros index].
  apply (triple_keeps P); [apply Kg|intros buf].
  apply (triple_keeps P); [destruct (depth =? 8); apply Kd|intros []].
  apply (triple_bind _ _ _ (fun _ d =>
    room i 0 (dc_sock d) /\ dc_lines d = lines /\ 0 <= lines /\ n <= lines /\ hx_tiles (dc_hextile d) = 0)).
  - intros d [[[(H1 & H2 & H3 & H4 & H5) [H6 H7]] <-] Ha]. unfold rQlen in Ha. unfold on_sock, zoom, rQskipBytes, modify.
    assert (Hn : 0 <= n * bpl <= avail /\ n <= dc_lines d).
    { unfold n. destruct (Z.eqb_spec bpl 0) as [->|]; [split; lia|].
      assert (0 <= avail / bpl) by (apply Z.div_pos; lia). pose proof (Z.mul_div_le avail bpl ltac:(lia)).
      split; [|lia]. split; [apply Z.mul_nonneg_nonneg; lia|]. nia. }
    destruct d as [s dd l sr hx t1 t2]. cbn [dc_sock dc_lines] in *. split; [|split; [done|split; [done|split; [lia|done]]]].
    destruct s. cbn in *. unfold room; cbn. split_and!; first [done | lia].
  - intros [] . apply (triple_bind _ _ _ (fun _ => D i 0)); [|intros []; walk].
    intros d (H1 & <- & H2 & H3 & H4). unfold modify. destruct d. split; [done|]. split; [|done]. cbn in *. lia.
Qed.

(** *** Hextile *)

(** [t] tiles of a rectangle of [w] by [h] are left. *)
Definition grid (w h t : Z) d : Prop :=
  hx_tiles (dc_hextile d) = t /\ hx_tiles_x (dc_hextile d) = (w + 15) / 16
  /\ hx_total_tiles (dc_hextile d) = (w + 15) / 16 * ((h + 15) / 16).

Section Hextile.
Context (w h t : Z).

Definition at_ (s : sock) d : Prop := dc_sock d = s /\ 0 <= dc_lines d /\ grid w h t d.

Lemma keep_display_at s {A} (m : bool -> heap -> M display A) : keeps (at_ s) (on_display supports ZS m).
Proof. unfold on_display. apply keeps_bind; [apply keeps_gets|intros hp]. apply keeps_zoom. by intros []. Qed.

Lemma keep_hextile_at s (f : hextile -> hextile) :
  (forall x, hx_tiles (f x) = hx_tiles x /\ hx_tiles_x (f x) = hx_tiles_x x /\ hx_total_tiles (f x) = hx_total_tiles x) ->
  keeps (at_ s) (set_hextile ZS f).
Proof.
  intros Hf. apply keeps_modify. intros d (H1 & H2 & H3 & H4 & H5). destruct (Hf (dc_hextile d)) as (E1 & E2 & E3).
  destruct d. unfold at_, grid. cbn in *. rewrite E1, E2, E3. done.
Qed.

Lemma at_rQi {B} s (f : Z -> M (decoding ZS) B) Q : triple (at_ s) (f (sk_rQi s)) Q -> triple (at_ s) (rQi ZS ≫= f) Q.
Proof. intros H. apply triple_gets. intros a d [[H1 H2] <-]. rewrite H1. by apply H. Qed.

Lemma at_rQ {B} s j (f : num -> M (decoding ZS) B) Q :
  triple (at_ s) (f (aget (rQ_buf s) j)) Q -> triple (at_ s) (rQ_at ZS j ≫= f) Q.
Proof. intros H. apply triple_gets. intros a d [[H1 H2] <-]. rewrite H1. by apply H. Qed.

Lemma triple_pure {A} P (phi : Prop) (m : M (decoding ZS) A) Q : (phi -> triple P m Q) -> triple (fun d => P d /\ phi) m Q.
Proof. intros H d [Hd Hp]. by apply H. Qed.

Ltac walk_at := repeat (cbv beta iota zeta; lazymatch goal with
  | |- triple _ ((_ ≫= _) ≫= _) _ => apply triple_assoc
  | |- triple _ (mret _ ≫= _) _ => apply triple_ret_bind
  | |- triple _ ((if ?b then _ else _) ≫= _) _ => destruct b eqn:?
  | |- triple _ (color4 _ _ ≫= _) _ => unfold color4
  | |- triple _ (rQi _ ≫= _) _ => apply at_rQi
  | |- triple _ (rQ_at _ _ ≫= _) _ => apply at_rQ
  | |- triple _ (skip ≫= _) _ => apply triple_keeps; [apply keeps_skip|intros ?]
  | |- triple _ (gets _ ≫= _) _ => apply triple_keeps; [apply keeps_gets|intros ?]
  | |- triple _ (rQ_view _ ≫= _) _ => apply triple_keeps; [apply keeps_gets|intros ?]
  | |- triple _ (on_display _ _ _ ≫= _) _ => apply triple_keeps; [apply keep_display_at|intros ?]
  | |- triple _ (set_hextile _ _ ≫= _) _ => apply triple_keeps; [apply keep_hextile_at; by intros []|intros ?]
  end).

Lemma subrects_at s k coloured j :
  triple (at_ s) (tile_subrects supports ZS k coloured j)
    (fun j' d => at_ s d /\ j' = j + Z.of_nat k * (if coloured then 6 else 2)).
Proof.
  revert j. induction k as [|k IH]; intros j; cbn [tile_subrects].
  - apply triple_ret. intros d H. split; [done|lia].
  - walk_at; (eapply triple_strong; [apply IH|]); intros j' d [H ->]; (split; [done|lia]).
Qed.

(** The bytes of a tile. *)
Definition tile_size (s : sock) (sub tw th : Z) : Z :=
  if negb (js_and sub 0x01 =? 0) then 1 + tw * th * 4
  else
    let b := 1 + (if js_and sub 0x02 =? 0 then 0 else 4) + (if js_and sub 0x04 =? 0 then 0 else 4) in
    if js_and sub 0x08 =? 0 then b
    else b + 1 + default 0 (aget (rQ_buf s) (sk_rQi s + b)) * (if js_and sub 0x10 =? 0 then 2 else 6).

(** A wait that puts nothing back. *)
Lemma wait_at {B} s n (f : bool -> M (decoding ZS) B) Q :
  triple (at_ s) (f true) Q -> (n <= rQlen s -> triple (at_ s) (f false) Q) -> triple (at_ s) (on_sock ZS (rQwait n 0) ≫= f) Q.
Proof.
  intros H1 H2. eapply (triple_bind _ _ _ (fun wait d => at_ s d /\ (wait = false -> n <= rQlen s))).
  - intros d (E & Hl & Hg). unfold on_sock, zoom. rewrite E. unfold rQwait, mbind, M_bind, gets. cbn [id].
    destruct (Z.ltb_spec (rQlen s) n); (split; [by destruct d; cbn in *; subst|]); [done|by intros _].
  - intros []; [eapply triple_weaken; [|exact H1]; by intros d [H _]|]. intros d [H Hn]. by apply (H2 (Hn eq_refl)).
Qed.

Lemma tile_bytes_room s sub tw th :
  triple (at_ s) (tile_bytes ZS sub tw th (sk_rQi s))
    (fun o d => at_ s d /\ forall bytes, o = Some bytes -> bytes = tile_size s sub tw th).
Proof.
  unfold tile_bytes, tile_size. destruct (negb (js_and sub 1 =? 0)).
  { apply triple_ret. intros d H. split; [done|]. by intros b [= <-]. }
  cbv zeta. destruct (js_and sub 8 =? 0). { apply triple_ret. intros d H. split; [done|]. by intros b [= <-]. }
  apply wait_at; [by apply triple_ret|intros _]. walk_at. apply triple_ret. intros d H. split; [done|].
  intros b [= <-]. do 4 f_equal; lia.
Qed.

Lemma tile_draw_room s i sub tx ty tw th :
  room i (tile_size s sub tw th) s ->
  triple (at_ s) (tile_draw supports ZS sub tx ty tw th (tile_size s sub tw th))
    (fun _ d => room (i + tile_size s sub tw th) 0 (dc_sock d) /\ 0 <= dc_lines d /\ grid w h (t - 1) d).
Proof.
  intros Hr. unfold tile_draw.
  assert (Hend : forall j, j = sk_rQi s + tile_size s sub tw th ->
    triple (at_ s) (on_sock ZS (modify (fun s => s <| sk_rQi := j |>));;
      set_hextile ZS (fun x => x <| hx_lastsubencoding := sub |> <| hx_tiles := hx_tiles x - 1 |>))
      (fun _ d => room (i + tile_size s sub tw th) 0 (dc_sock d) /\ 0 <= dc_lines d /\ grid w h (t - 1) d)).
  { intros j ->. apply (triple_bind _ _ _ (fun _ d => room (i + tile_size s sub tw th) 0 (dc_sock d) /\ 0 <= dc_lines d /\ grid w h t d)).
    - eapply (triple_zoom dc_sock _ (fun s' => s' = s) _ (fun _ => room (i + tile_size s sub tw th) 0)); [by intros d [? _]| |].
      + intros s' ->. destruct Hr as (H1 & H2 & H3 & H4 & H5). revert H1 H2 H3. generalize (tile_size s sub tw th). intros n H1 H2 H3.
        destruct s. cbn in *. unfold room; cbn. split_and!; first [done | lia].
      + intros d [] s' [_ Hl] Ht. by destruct d.
    - intros [] d (H1 & H2 & H3 & H4 & H5). destruct d as [? ? ? ? [] ? ?]. unfold grid. cbn in *. split; [done|].
      split; [done|]. split; [lia|done]. }
  destruct (Z.eqb_spec sub 0) as [->|Hs].
  { walk_at; try match goal with H : (_ =? 0) = _ |- _ => by vm_compute in H end.
    all: apply Hend; change (tile_size s 0 tw th) with 1; lia. }
  assert (Hsub : forall b j, (js_and sub 1 =? 0) = true ->
     b = 1 + (if js_and sub 0x02 =? 0 then 0 else 4) + (if js_and sub 0x04 =? 0 then 0 else 4) -> j = sk_rQi s + b ->
     (js_and sub 8 =? 0) = false ->
     j + 1 + Z.of_nat (Z.to_nat (default 0 (aget (rQ_buf s) j))) * (if negb (js_and sub 0x10 =? 0) then 6 else 2)
       = sk_rQi s + tile_size s sub tw th).
  { intros b j E1 -> -> E8. unfold tile_size. rewrite E1, E8. cbn [negb]. cbv zeta.
    set (b := 1 + _ + _). destruct Hr as (_ & _ & _ & _ & Hb).
    assert (Hv : 0 <= default 0 (aget (rQ_buf s) (sk_rQi s + b))).
    { unfold aget. destruct (_ <? 0); [done|]. destruct (rQ_buf s !! _) as [v|] eqn:E; [|done]. cbn.
      by destruct (Forall_lookup_1 _ _ _ _ Hb E). }
    destruct (js_and sub 16 =? 0); cbn [negb]; lia. }
  walk_at.
  all: repeat match goal with
    | H : negb _ = false |- _ => apply negb_false_iff in H | H : negb _ = true |- _ => apply negb_true_iff in H end.
  all: try (apply Hend; unfold tile_size; repeat match goal with H : (_ =? _) = _ |- _ => rewrite H end; cbn [negb]; lia).
  all: eapply triple_bind; [apply subrects_at|]; intros j; apply triple_pure; intros ->; walk_at; apply Hend.
  all: eapply Hsub; [first [reflexivity | eassumption]|reflexivity| |first [reflexivity | eassumption]].
  all: repeat match goal with H : (_ =? _) = _ |- _ => rewrite H end; lia.
Qed.

End Hextile.

(** The tile that comes next has a size. *)
Lemma tile_extent w h t x y :
  0 <= w -> 0 <= h -> 0 < t <= (w + 15) / 16 * ((h + 15) / 16) ->
  let curr := (w + 15) / 16 * ((h + 15) / 16) - t in
  0 < Z.min 16 ((x + w) - (x + curr mod ((w + 15) / 16) * 16))
  /\ 0 < Z.min 16 ((y + h) - (y + curr / ((w + 15) / 16) * 16)).
Proof.
  intros Hw Hh Ht. cbv zeta. set (tx := (w + 15) / 16) in *. set (ty := (h + 15) / 16) in *.
  assert (0 <= tx /\ 16 * tx <= w + 15) by (unfold tx; zlia). assert (0 <= ty /\ 16 * ty <= h + 15) by (unfold ty; zlia).
  assert (0 < tx) by nia. set (c := tx * ty - t). assert (Hc : 0 <= c < tx * ty) by (unfold c; lia). clearbody c.
  pose proof (Z.mod_pos_bound c tx ltac:(lia)). assert (c / tx < ty) by (apply Z.div_lt_upper_bound; lia). lia.
Qed.

Lemma tile_size_pos s sub tw th i k : 0 < tw -> 0 < th -> room i k s -> 0 < tile_size s sub tw th.
Proof.
  intros Hw Hh (_ & _ & _ & _ & Hb). unfold tile_size. destruct (negb (js_and sub 1 =? 0)); [nia|]. cbv zeta. set (b := 1 + _ + _).
  assert (Hp : 0 < b) by (unfold b; destruct (js_and sub 2 =? 0), (js_and sub 4 =? 0); lia). clearbody b.
  destruct (js_and sub 8 =? 0); [done|].
  assert (Hv : 0 <= default 0 (aget (rQ_buf s) (sk_rQi s + b))).
  { unfold aget. destruct (_ <? 0); [done|]. destruct (rQ_buf s !! _) as [v|] eqn:E; [|done]. cbn.
    by destruct (Forall_lookup_1 _ _ _ _ Hb E). }
  destruct (js_and sub 16 =? 0); lia.
Qed.

(** While the tiles are drawn. *)
Definition tiling (i w h : Z) d : Prop :=
  room i 0 (dc_sock d) /\ 0 <= dc_lines d /\ exists t, 0 <= t <= (w + 15) / 16 * ((h + 15) / 16) /\ grid w h t d.

(** Of an answer that says whether all tiles are drawn. *)
Definition tiled (i w h : Z) (b : bool) d : Prop := if b then D i 0 d else exists j, tiling j w h d.

Lemma at_tiled i w h t s d :
  room i 0 s -> 0 <= t <= (w + 15) / 16 * ((h + 15) / 16) -> at_ w h t s d -> tiled i w h false d.
Proof. intros Hr Ht (<- & Hl & Hg). exists i. split; [done|]. split; [done|]. by exists t. Qed.

Lemma hextile_loop_room fuel i i' x y w h :
  0 <= w -> 0 <= h -> i <= i' -> triple (tiling i' w h) (hextile_loop supports ZS fuel x y w h) (tiled i w h).
Proof.
  intros Hw Hh. revert i'. induction fuel as [|fuel IH]; intros i' Hi; cbn [hextile_loop]; intros d Hd;
    pose proof Hd as (Hr & Hl & t & Ht & Hg).
  all: unfold mbind at 1, M_bind at 1, gets; cbv beta iota; pose proof Hg as (G1 & G2 & G3);
    rewrite G1; destruct (Z.ltb_spec 0 t) as [Hpos|Hpos].
  2, 4: split; [revert Hr; unfold room; intuition lia|split; [done|lia]].
  { by exists i'. }
  rewrite G2, G3. destruct (tile_extent w h t x y Hw Hh ltac:(lia)) as [Htw Hth]. cbv zeta in Htw, Hth.
  set (s := dc_sock d) in *. assert (Ha : at_ w h t s d) by done. clearbody s. clear Hl G1 G2 G3 Hd Hg. revert d Ha.
  assert (Hend : forall d, at_ w h t s d -> tiled i w h false d).
  { intros d. apply at_tiled; [revert Hr; unfold room; intuition lia|lia]. }
  match goal with |- forall d, at_ _ _ _ _ d -> match ?m d with _ => _ end => change (triple (at_ w h t s) m (tiled i w h)) end.
  apply wait_at; [by apply triple_ret|intros _]. apply at_rQi, at_rQ. cbv zeta. destruct (30 <? _); [apply triple_throw|].
  eapply triple_bind; [apply tile_bytes_room|]. intros [bytes|]; [|apply triple_ret; intros d [Ha _]; by apply Hend].
  apply (triple_weaken _ (fun d => at_ w h t s d /\ bytes = tile_size s (default 0 (aget (rQ_buf s) (sk_rQi s)))
    (Z.min 16 ((x + w) - (x + ((w + 15) / 16 * ((h + 15) / 16) - t) mod ((w + 15) / 16) * 16)))
    (Z.min 16 ((y + h) - (y + ((w + 15) / 16 * ((h + 15) / 16) - t) / ((w + 15) / 16) * 16)))));
    [intros d [Ha Hb]; split; [done|by apply Hb]|].
  apply triple_pure. intros ->. pose proof (tile_size_pos s (default 0 (aget (rQ_buf s) (sk_rQi s))) _ _ i' 0 Htw Hth Hr) as Hn0.
  set (n := tile_size _ _ _ _) in *. apply wait_at; [by apply triple_ret|intros Hn].
  assert (Hroom : room i' n s) by (revert Hr Hn Hn0; unfold room, rQlen; clear; intuition lia).
  eapply triple_bind; [by apply tile_draw_room|]. intros []. eapply triple_weaken; [|apply (IH (i' + n)); lia].
  intros d (H1 & H2 & H3). split; [exact H1|]. split; [exact H2|]. exists (t - 1). split; [lia|exact H3].
Qed.

(** At its start, or in its midst. *)
Lemma hextile_room i x y w h :
  0 <= w -> 0 <= h ->
  triple (fun d => room i 0 (dc_sock d) /\ 0 <= dc_lines d /\ (hx_tiles (dc_hextile d) = 0 \/ tiling i w h d))
    (hextile_decodeRect supports ZS x y w h) (tiled i w h).
Proof.
  intros Hw Hh. unfold hextile_decodeRect. eapply (triple_bind _ _ _ (fun _ => tiling i w h)).
  - intros d (Hr & Hl & Hg). unfold set_hextile, modify. destruct d as [s dd l sr [t tx tt ls bg fg] t1 t2].
    cbn [dc_hextile hx_tiles dc_sock dc_lines] in *.
    destruct (Z.eqb_spec t 0) as [->|Ht].
    + split; [done|]. split; [done|]. exists ((w + 15) / 16 * ((h + 15) / 16)). split; [|done].
      assert (0 <= (w + 15) / 16) by zlia. assert (0 <= (h + 15) / 16) by zlia. nia.
    + destruct Hg as [?|Hg]; [done|]. exact Hg.
  - intros []. apply triple_keeps; [apply keeps_gets|intros n]. by apply hextile_loop_room.
Qed.

(** *** Tight *)

Section TightRoom.
Context (self : decoding ZS -> tight ZS) `{!Setter self} (png : bool).
Context (Hself : forall d v, dc_sock (d <| self := v |>) = dc_sock d /\ dc_lines (d <| self := v |>) = dc_lines d
  /\ dc_hextile (d <| self := v |>) = dc_hextile d).

Lemma keep_tight i k f : keeps (D i k) (set_tight ZS self f).
Proof. apply keep_field. intros d. destruct (Hself d (f (self d))) as (E1 & E2 & E3). by rewrite E1, E2, E3. Qed.

Lemma tight_call {B} i i' k (m : M (decoding ZS) bool) (f : bool -> M (decoding ZS) B) Q :
  triple (D i' k) m (done_ i) -> triple (D i 0) (f true) Q -> triple resting (f false) Q -> triple (D i' k) (m ≫= f) Q.
Proof.
  intros Hm H1 H2. eapply triple_bind; [exact Hm|]. intros []; [exact H1|exact H2].
Qed.

Lemma tight_option {A B} i i' k (m : M (decoding ZS) (option A)) (f : option A -> M (decoding ZS) B) Q :
  triple (D i' k) m (some_ i) -> (forall a, triple (D i 0) (f (Some a)) Q) -> triple resting (f None) Q ->
  triple (D i' k) (m ≫= f) Q.
Proof.
  intros Hm H1 H2. eapply triple_bind; [exact Hm|]. intros [a|]; [exact (H1 a)|exact H2].
Qed.

Ltac quiet_tight := lazymatch goal with
  | |- keeps resting _ => apply keeps_resting; intros ?; quiet_tight
  | |- keeps _ (set_tight _ _ _) => apply keep_tight
  | |- keeps _ (get_tight _ _ _) => apply keeps_gets
  | |- keeps _ (when ?b _) => apply keeps_when; quiet_tight
  | |- _ => quiet
  end.

Ltac walk_tight := repeat (cbv beta iota zeta; lazymatch goal with
  | |- triple _ (set_tight _ _ _ ≫= _) _ => apply triple_keeps; [quiet_tight|intros ?]
  | |- triple _ (get_tight _ _ _ ≫= _) _ => apply triple_keeps; [quiet_tight|intros ?]
  | |- triple _ (when _ _ ≫= _) _ => apply triple_keeps; [quiet_tight|intros ?]
  | |- triple _ (match ?x with Some _ => mret _ | None => _ end ≫= _) _ => destruct x
  | |- triple _ (let '(_, _) := ?x in _) _ => destruct x
  | |- triple _ _ _ => progress walk
  end).

Lemma triple_last {A} i i' k (m : M (decoding ZS) A) : i <= i' -> keeps (D i' k) m -> triple (D i' k) m (fun _ => D i 0).
Proof. intros Hi Hm. apply triple_kept; [exact Hm|]. intros _ d. by apply D_end. Qed.

Lemma readLength_room i k : 3 <= k -> triple (D i k) (readLength ZS self) (fun _ => D i 0).
Proof.
  intros Hk. unfold readLength. walk_tight; (apply triple_last; [lia|]); first [apply keeps_skip | apply keep_tight].
Qed.

Lemma readData_room i k : triple (D i k) (readData ZS self) (some_ i).
Proof.
  unfold readData. walk_tight. eapply triple_bind; [apply readLength_room; lia|]. intros []. walk_tight.
Qed.

Lemma fillRect_room i x y w h : triple (D i 0) (tight_fillRect supports ZS x y w h) (done_ i).
Proof. unfold tight_fillRect. walk_tight. Qed.

Lemma imageRect_room i mime x y : triple (D i 0) (tight_imageRect supports ZS self mime x y) (done_ i).
Proof. unfold tight_imageRect. eapply tight_option; [apply readData_room|intros v|]; walk_tight. Qed.

Lemma pngRect_room i x y : triple (D i 0) (tight_pngRect supports ZS self png x y) (done_ i).
Proof. unfold tight_pngRect. destruct png; [apply imageRect_room|apply triple_throw]. Qed.

Abbreviation tight_data := (tight_data ZS inflateInit pako_inflate self).

Lemma data_room i k n stream : triple (D i k) (tight_data stream n) (some_ i).
Proof.
  unfold Decoders.tight_data. destruct (n <? 12); [walk_tight|].
  eapply tight_option; [apply readData_room|intros v|]; walk_tight.
Qed.

Lemma copyFilter_room i k stream x y w h :
  triple (D i k) (copyFilter supports ZS inflateInit pako_inflate self stream x y w h) (done_ i).
Proof. unfold copyFilter. eapply tight_option; [apply data_room|intros v|]; walk_tight. Qed.

Lemma paletteFilter_room i k stream x y w h :
  triple (D i k) (paletteFilter supports ZS inflateInit pako_inflate self stream x y w h) (done_ i).
Proof.
  unfold paletteFilter, to_scratch. walk_tight.
  all: (eapply tight_option; [apply data_room|intros ?|]); walk_tight.
Qed.

Lemma basicRect_room i ctl x y w h :
  triple (D i 0) (basicRect supports ZS inflateInit pako_inflate self png ctl x y w h) (done_ i).
Proof.
  unfold basicRect. destruct png; [apply triple_throw|]. walk_tight.
  all: repeat match goal with |- triple _ ((match ?x with _ => _ end) ≫= _) _ => destruct x end; try apply triple_throw_bind.
  all: (eapply tight_call; [first [apply copyFilter_room | apply paletteFilter_room]| |]); cbn [when]; walk_tight.
Qed.

Lemma tight_room i x y w h :
  triple (D i 0) (tight_decodeRect supports ZS inflateInit inflateReset pako_inflate self png x y w h) (done_ i).
Proof.
  assert (Hrest : forall i' k ctl, i <= i' -> triple (D i' k)
    (ret ← (if ctl =? 0x08 then tight_fillRect supports ZS x y w h
            else if ctl =? 0x09 then tight_imageRect supports ZS self "image/jpeg" x y
            else if ctl =? 0x0A then tight_pngRect supports ZS self png x y
            else if js_and ctl 0x80 =? 0 then basicRect supports ZS inflateInit pako_inflate self png ctl x y w h
            else throw (Error "Illegal tight compression received"));
     when ret (set_tight ZS self (fun t => t <| t_ctl := None |>));; mret ret) (done_ i)).
  { intros i' k ctl Hi. apply (triple_weaken _ (D i' 0)); [intros d; by apply D_end|].
    eapply tight_call.
    - instantiate (1 := i'). destruct (ctl =? 8); [apply fillRect_room|]. destruct (ctl =? 9); [apply imageRect_room|].
      destruct (ctl =? 10); [apply pngRect_room|]. destruct (js_and ctl 128 =? 0); [apply basicRect_room|apply triple_throw].
    - cbn [when]. walk_tight.
    - cbn [when]. walk_tight. }
  unfold tight_decodeRect. apply triple_keeps; [quiet_tight|]. intros [c|]; cbv beta iota.
  - apply triple_ret_bind. cbv beta iota. apply triple_keeps; [quiet_tight|]. intros c'. by apply Hrest.
  - apply triple_assoc, D_wait; [lia|by apply triple_ret_bind, triple_ret|]. apply triple_assoc, D_shift; [lia|]. intros v. cbv beta iota.
    apply triple_assoc, triple_keeps; [quiet_tight|]. intros []. apply triple_ret_bind. cbv beta iota.
    apply triple_keeps; [quiet_tight|]. intros c'. apply Hrest. lia.
Qed.

End TightRoom.

(** What is half read, if anything is. *)
Definition half_read (e : decoder) (w h : Z) (i : Z) d : Prop :=
  room i 0 (dc_sock d) /\ 0 <= dc_lines d /\ (hx_tiles (dc_hextile d) = 0 \/ e = Hextile_ /\ tiling i w h d).

Lemma decode_room e i x y w h depth :
  0 <= w -> 0 <= h ->
  triple (half_read e w h i) (decodeRect supports ZS inflateInit inflateReset pako_inflate e x y w h depth)
    (fun b d => if b then D i 0 d else exists j, half_read e w h j d).
Proof.
  intros Hw Hh.
  assert (Hsettled : forall m, e <> Hextile_ -> triple (D i 0) m (done_ i) ->
    triple (half_read e w h i) m (fun b d => if b then D i 0 d else exists j, half_read e w h j d)).
  { intros m He Hm. eapply triple_weaken; [|eapply triple_strong; [exact Hm|]].
    - intros d (H1 & H2 & [H3|[? _]]); [by split|done].
    - intros [] d Hd; [exact Hd|]. destruct Hd as [j [H1 [H2 H3]]]. exists j. split; [done|]. split; [done|]. by left. }
  destruct e; cbn [decodeRect].
  - apply Hsettled; [done|]. by apply raw_room.
  - apply Hsettled; [done|]. apply copyrect_room.
  - apply Hsettled; [done|]. apply rre_room.
  - eapply triple_weaken; [|eapply triple_strong; [by apply (hextile_room i)|]].
    + intros d (H1 & H2 & H3). split; [done|]. split; [done|]. tauto.
    + intros [] d Hd; [exact Hd|]. destruct Hd as [j Hd]. exists j. split; [apply Hd|]. split; [apply Hd|]. by right.
  - apply Hsettled; [done|]. apply tight_room. by intros [].
  - apply Hsettled; [done|]. apply tight_room. by intros [].
Qed.

End Decoding.
