(* ===== verification/Lost.v ===== *)
(** * Where the read index can be lost
    (src/ControlServer/web/www/novnc/core/rfb.js and core/decoders/raw.js)

    Of all that a message can make a session do, only one thing ends in [NaNIndex]:
    the raw decoder, at a rectangle of no width with nothing buffered, while the
    display has a render queue. *)

From S2P Require Import Prelude Websock Messages Display Decoders Strings Cursor Rfb.

(** ** The states in which code ends in [NaNIndex] *)

Section Marks.
Context {S : Type}.
Implicit Types (P : S -> Prop).

Definition marks P {A} (m : M S A) : Prop := forall s s', m s = (Throw NaNIndex, s') -> P s'.
Definition clean {A} (m : M S A) : Prop := marks (fun _ => False) m.

Lemma clean_marks P {A} (m : M S A) : clean m -> marks P m.
Proof. intros H s s' E. by destruct (H s s' E). Qed.

Lemma marks_ret P {A} (x : A) : marks P (mret x).
Proof. by intros s s'. Qed.

Lemma marks_gets P {A} (f : S -> A) : marks P (gets f).
Proof. by intros s s'. Qed.

Lemma gets_bind {A B} (f : S -> A) (g : A -> M S B) s : (gets f ≫= g) s = g (f s) s.
Proof. done. Qed.

Lemma marks_modify P (f : S -> S) : marks P (modify f).
Proof. by intros s s'. Qed.

Lemma marks_throw P {A} e : e <> NaNIndex -> marks P (throw (A := A) e).
Proof. by intros He s s' [= ?]. Qed.

Lemma marks_lift P {A} (o : outcome A) : o <> Throw NaNIndex -> marks P (lift o).
Proof. by intros Ho s s' [= ?]. Qed.

Lemma marks_bind P {A B} (m : M S A) (f : A -> M S B) : marks P m -> (forall x, marks P (f x)) -> marks P (m ≫= f).
Proof.
  intros Hm Hf s s'. rewrite bind_run. destruct (m s) as [[x|e] s1] eqn:E; [apply Hf|].
  intros [= -> ->]. by apply (Hm s).
Qed.

Lemma marks_when P b (m : M S unit) : marks P m -> marks P (when b m).
Proof. intros H. destruct b; [exact H|apply marks_ret]. Qed.

Lemma marks_catch P {A} (m : M S A) h : (forall e, marks P (h e)) -> marks P (catch m h).
Proof. intros Hh s s'. unfold catch. destruct (m s) as [[x|e] s1]; [done|apply Hh]. Qed.

Lemma clean_for n i (body : Z -> M S unit) : (forall i, clean (body i)) -> clean (for_upto n i body).
Proof.
  intros H. revert i. induction n as [|n IH]; intros i; [apply marks_ret|]. apply marks_bind; [apply H|intros _; apply IH].
Qed.

End Marks.

Lemma clean_zoom {S T A} (proj : S -> T) `{!Setter proj} (m : M T A) : clean m -> clean (zoom proj m).
Proof. intros H s s'. unfold zoom. destruct (m (proj s)) as [o t] eqn:E. intros [= -> _]. by destruct (H _ _ E). Qed.

Ltac head_of t := lazymatch t with ?f _ => head_of f | _ => t end.

(** Code is taken apart, unfolding what [base] does not know. *)
Ltac clean_step base :=
  first
    [ solve [base ()]
    | lazymatch goal with
      | |- marks _ (mbind _ _) => apply marks_bind; [|intros ?]
      | |- marks _ (mret _) => apply marks_ret
      | |- marks _ (gets _) => apply marks_gets
      | |- marks _ (modify _) => apply marks_modify
      | |- marks _ skip => apply marks_ret
      | |- marks _ (throw _) => apply marks_throw; discriminate
      | |- marks _ (when _ _) => apply marks_when
      | |- marks _ (zoom _ _) => apply clean_marks, clean_zoom
      | |- marks _ (for_upto _ _ _) => apply clean_marks, clean_for; intros ?
      | |- marks _ (match ?x with _ => _ end) => destruct x
      | |- clean _ => unfold clean
      end
    | progress cbv beta zeta
    | lazymatch goal with
      | |- marks _ (lift _) => fail
      | |- marks _ ?m => let h := head_of m in progress unfold h
      end ].
Ltac clean_by base := repeat clean_step base.
Ltac nothing _ := fail.

(** ** The socket and the display *)

Section Parts.
Import Websock Display Decoders.

Lemma clean_shift_loop n res : clean (rQshift_loop n res).
Proof. revert res. induction n as [|n IH]; intros res; clean_by ltac:(fun _ => simple apply IH). Qed.

Lemma clean_shiftStr_loop fuel i len str : clean (rQshiftStr_loop fuel i len str).
Proof. revert i len str. induction fuel as [|n IH]; intros i len str; clean_by ltac:(fun _ => simple apply IH). Qed.

Lemma clean_color c : check_color c <> Throw NaNIndex.
Proof. unfold check_color. by repeat case_match. Qed.
Lemma clean_create w h : createImageData w h <> Throw NaNIndex.
Proof. unfold createImageData. by repeat case_match. Qed.
Lemma clean_part h a i n : buffer_part h a i n <> Throw NaNIndex.
Proof. unfold buffer_part. by repeat case_match. Qed.

Ltac on_parts _ :=
  first [ simple apply clean_marks, clean_shift_loop | simple apply clean_marks, clean_shiftStr_loop
        | simple apply marks_lift; first [apply clean_color | apply clean_create | apply clean_part] ].

Lemma clean_shiftBytes len : clean (rQshiftBytes len).
Proof. clean_by on_parts. Qed.
Lemma clean_wait n goback : clean (rQwait n goback).
Proof. clean_by on_parts. Qed.

Section Shown.
Context (b : bool) (h : heap).

Lemma clean_run_action a : clean (run_action b h a).
Proof. clean_by on_parts. Qed.

Lemma clean_scan q : clean (scan_loop b h q).
Proof.
  induction q as [|a q IH]; [apply marks_ret|].
  clean_by ltac:(fun _ => first [simple apply clean_marks, clean_run_action | simple apply IH]).
Qed.

Lemma clean_push a : clean (renderQ_push b h a).
Proof. clean_by ltac:(fun _ => simple apply clean_marks, clean_scan). Qed.

Ltac on_shown _ := first [simple apply clean_marks, clean_push | on_parts ()].

Lemma clean_fillRect x y w hh c : clean (fillRect b h x y w hh c).
Proof. clean_by on_shown. Qed.
Lemma clean_copyImage x y x' y' w hh : clean (copyImage b h x y x' y' w hh).
Proof. clean_by on_shown. Qed.
Lemma clean_blit k x y w hh a o : clean (blit b h k x y w hh a o).
Proof. clean_by on_shown. Qed.
Lemma clean_imageRect x y mime a : clean (imageRect b h x y mime a).
Proof. clean_by on_shown. Qed.
Lemma clean_flip : clean (flip b h).
Proof. clean_by on_shown. Qed.
Lemma clean_startTile x y w hh c : clean (startTile h x y w hh c).
Proof. clean_by on_shown. Qed.
Lemma clean_subTile x y w hh c : clean (subTile h x y w hh c).
Proof. clean_by on_shown. Qed.
Lemma clean_finishTile : clean finishTile.
Proof. clean_by on_shown. Qed.
End Shown.
End Parts.

(** ** The decoders *)

Ltac on_drawn _ :=
  first [ simple apply clean_shiftBytes | simple apply clean_wait | simple apply clean_fillRect
        | simple apply clean_copyImage | simple apply clean_blit | simple apply clean_imageRect
        | simple apply clean_flip | simple apply clean_startTile | simple apply clean_subTile
        | simple apply clean_finishTile | simple apply clean_marks, clean_shift_loop
        | simple apply clean_marks, clean_shiftStr_loop ].

Section Rectangles.
Import Websock Display Decoders.
Context (supports : bool).
Context (ZS : Type) (inflateInit : ZS) (inflateReset : ZS -> ZS)
  (pako_inflate : ZS -> list Z -> Z -> ZS * list Z).

Lemma clean_rre_loop fuel x y : clean (rre_loop supports ZS fuel x y).
Proof. revert x y. induction fuel as [|n IH]; intros x y; clean_by ltac:(fun _ => first [simple apply IH | on_drawn ()]). Qed.

Lemma clean_rre x y w h : clean (rre_decodeRect supports ZS x y w h).
Proof. clean_by ltac:(fun _ => first [simple apply clean_marks, clean_rre_loop | on_drawn ()]). Qed.

Lemma clean_copyrect x y w h : clean (copyrect_decodeRect supports ZS x y w h).
Proof. clean_by on_drawn. Qed.

Lemma clean_subrects k c i : clean (tile_subrects supports ZS k c i).
Proof. revert i. induction k as [|k IH]; intros i; clean_by ltac:(fun _ => first [simple apply IH | on_drawn ()]). Qed.

Lemma clean_tile sub tx ty tw th n : clean (tile_draw supports ZS sub tx ty tw th n).
Proof. clean_by ltac:(fun _ => first [simple apply clean_marks, clean_subrects | on_drawn ()]). Qed.

Lemma clean_hextile_loop fuel x y w h : clean (hextile_loop supports ZS fuel x y w h).
Proof.
  induction fuel as [|n IH]; clean_by ltac:(fun _ =>
    first [simple apply IH | simple apply clean_marks, clean_tile | on_drawn ()]).
Qed.

Lemma clean_hextile x y w h : clean (hextile_decodeRect supports ZS x y w h).
Proof. clean_by ltac:(fun _ => first [simple apply clean_marks, clean_hextile_loop | on_drawn ()]). Qed.

Lemma clean_tight (self : decoding ZS -> tight ZS) `{!Setter self} png x y w h :
  clean (tight_decodeRect supports ZS inflateInit inflateReset pako_inflate self png x y w h).
Proof. clean_by on_drawn. Qed.

End Rectangles.

(** ** The session *)

Section Session.
Import Websock Messages Display Decoders Cursor Rfb.
Context (supports useFallback : bool) (screenSize : double * double) (keyEventsHaveCode : bool).
Context (ZS : Type) (inflateInit : ZS) (inflateReset : ZS -> ZS)
  (pako_inflate : ZS -> list Z -> Z -> ZS * list Z).

(** The raw decoder has asked for the height of a rectangle of no width, with
    nothing buffered and a render queue. *)
Definition lost (r : rfb ZS) : Prop :=
  decoder_of (default 0 (u_encoding (r_FBU r))) = Some Raw /\ u_width (r_FBU r) = 0
  /\ rQlen (r_sock r) = 0 /\ d_renderQ (dc_display (r_dec r)) <> [].

Lemma marks_raw x y w h depth :
  marks (fun d => w = 0 /\ rQlen (dc_sock d) = 0 /\ d_renderQ (dc_display d) <> [])
    (raw_decodeRect supports ZS x y w h depth).
Proof.
  unfold raw_decodeRect. apply marks_bind; [apply marks_modify|intros _]. cbv zeta.
  apply marks_bind; [clean_by on_drawn|intros [|]; [apply marks_ret|]].
  intros s s'. rewrite !gets_bind. destruct (_ && _) eqn:E.
  - rewrite gets_bind. apply andb_true_iff in E as [E1%Z.eqb_eq E2%Z.eqb_eq].
    destruct (d_renderQ _) eqn:Eq; intros [= <-]. split_and!; [|done|by rewrite Eq]. destruct (depth =? 8); lia.
  - lazymatch goal with |- ?m s = _ -> _ => assert (H : clean m) by clean_by on_drawn end.
    intros Es. by destruct (H s s' Es).
Qed.

Lemma marks_decode e x y w h depth :
  marks (fun d => e = Raw /\ w = 0 /\ rQlen (dc_sock d) = 0 /\ d_renderQ (dc_display d) <> [])
    (decodeRect supports ZS inflateInit inflateReset pako_inflate e x y w h depth).
Proof.
  destruct e; cbn [decodeRect];
    [ by intros s s' H; split; [done|apply (marks_raw _ _ _ _ _ _ _ H)]
    | apply clean_marks .. ].
  - apply clean_copyrect.
  - apply clean_rre.
  - apply clean_hextile.
  - apply clean_tight.
  - apply clean_tight.
Qed.

Lemma clean_fail : clean (fail useFallback ZS).
Proof. clean_by nothing. Qed.

Lemma marks_data : marks lost
  (handleDataRect supports useFallback ZS inflateInit inflateReset pako_inflate).
Proof.
  intros r r'. unfold handleDataRect. rewrite gets_bind. destruct (decoder_of _) as [e|] eqn:Ee.
  - cbv zeta. unfold catch, on_dec, zoom. cbn [id].
    destruct (decodeRect _ _ _ _ _ _ _ _ _ _ _ _) as [[b|x] d] eqn:Ed; [done|]. case_decide as Hx.
    + subst x. intros [= <-]. apply marks_decode in Ed as (-> & Ed). by split.
    + intros H. by destruct (clean_fail _ _ H).
  - intros H. by destruct (clean_fail _ _ H).
Qed.

Lemma clean_screens n first : clean (read_screens ZS n first).
Proof. revert first. induction n as [|n IH]; intros f; clean_by ltac:(fun _ => first [simple apply IH | on_drawn ()]). Qed.

Ltac on_session _ :=
  first [ simple apply marks_data | simple apply clean_marks, clean_fail
        | simple apply clean_marks, clean_screens | on_drawn () ].

Lemma marks_rect : marks lost
  (handleRect supports useFallback screenSize keyEventsHaveCode ZS inflateInit inflateReset pako_inflate).
Proof. clean_by on_session. Qed.

Lemma marks_rects fuel : marks lost
  (rect_loop supports useFallback screenSize keyEventsHaveCode ZS inflateInit inflateReset pako_inflate fuel).
Proof.
  induction fuel as [|n IH];
    clean_by ltac:(fun _ => first [simple apply IH | simple apply marks_rect | on_session ()]).
Qed.

Lemma marks_msg : marks lost
  (normal_msg supports useFallback screenSize keyEventsHaveCode ZS inflateInit inflateReset pako_inflate).
Proof. clean_by ltac:(fun _ => first [simple apply marks_rects | on_session ()]). Qed.

(** In the whole message loop the read index can be lost at one place only. *)
Lemma marks_loop fuel : marks lost
  (message_loop supports useFallback screenSize keyEventsHaveCode ZS inflateInit inflateReset pako_inflate fuel).
Proof.
  induction fuel as [|n IH]; clean_by ltac:(fun _ => first [simple apply IH | simple apply marks_msg]).
Qed.

End Session.
