(* ===== verification/Termination.v ===== *)
(** * No message makes the session loop for ever

    The loops of Rfb.v run with fuel; here is why the fuel they are given is
    enough: [_init_msg] calls itself at most three times, an update has as many
    rectangles as it says, and every message the server can send, well formed or
    not, takes the message loop forward. *)

From S2P Require Import Prelude Websock Messages Display Decoders Rfb Samples Progress Lost.

(** ** The handshake: [_init_msg] *)

Section InitMsg.
Import Websock Messages Display Decoders Rfb.
Context (supports useFallback : bool) (screenSize : double * double) (accepted : bool).
Context (ZS : Type).
Implicit Type r : rfb ZS.
Abbreviation init_msg_fuel := (init_msg_fuel supports useFallback screenSize accepted ZS).
Abbreviation init_msg_body := (init_msg_body supports useFallback screenSize accepted ZS).

(** How many more steps it can make of its own. *)
Definition rank r : nat :=
  match r_init r with
  | Security => 2
  | Authentication => if (r_auth_scheme r =? 1) || (r_auth_scheme r =? 16) then 1 else 0
  | SecurityResult => 1
  | _ => 0
  end.

(** Code that agrees on the states of [P]. *)
Definition agree (P : rfb ZS -> Prop) (m1 m2 : M (rfb ZS) bool) : Prop := forall r, P r -> m1 r = m2 r.

Lemma agree_refl P m : agree P m m.
Proof. by intros r _. Qed.

Lemma agree_bind {A} (P Q : rfb ZS -> Prop) (m : M (rfb ZS) A) f g :
  (forall r, P r -> Q (m r).2) -> (forall a, agree Q (f a) (g a)) -> agree P (m ≫= f) (m ≫= g).
Proof.
  intros Hm H r Hr. unfold mbind, M_bind. specialize (Hm r Hr). destruct (m r) as [[a|e] r']; [by apply H|done].
Qed.

Lemma gets_at {A B} (f : rfb ZS -> A) (g : A -> M (rfb ZS) B) r : (gets f ≫= g) r = g (f r) r.
Proof. done. Qed.

Lemma agree_if P (b : bool) m1 m2 k1 k2 : agree P m1 k1 -> agree P m2 k2 -> agree P (if b then m1 else m2) (if b then k1 else k2).
Proof. by destruct b. Qed.

Definition at_init (i : init_state) r : Prop := r_init r = i.
Definition anywhere r : Prop := True.

Section Body.
Context (rec1 rec2 : M (rfb ZS) bool).

Ltac on := apply (agree_bind anywhere anywhere); [done|intros ?].
Ltac reach i := apply (agree_bind anywhere (at_init i)); [done|intros ?].
Ltac stay i := apply (agree_bind (at_init i) (at_init i)); [done|intros ?].

Lemma agree_security : agree (fun r => rank r < 2)%nat rec1 rec2 ->
  agree anywhere (negotiate_security useFallback ZS rec1) (negotiate_security useFallback ZS rec2).
Proof.
  intros H. assert (Hat : forall i, i = SecurityReason \/ i = Authentication -> agree (at_init i) rec1 rec2).
  { intros i Hi r Hr. apply H. unfold rank. rewrite Hr. destruct Hi as [-> | ->]; [lia|]. destruct (_ || _); lia. }
  unfold negotiate_security. on. apply agree_if.
  - on. on. apply agree_if; [apply agree_refl|]. apply agree_if.
    + reach SecurityReason. stay SecurityReason. apply Hat. by left.
    + on. destruct (find _ _); [|apply agree_refl]. on. on. reach Authentication. apply Hat. by right.
  - on. apply agree_if; [apply agree_refl|]. on. on. apply agree_if.
    + reach SecurityReason. stay SecurityReason. apply Hat. by left.
    + reach Authentication. apply Hat. by right.
Qed.

Lemma agree_security_result : agree (fun r => rank r < 1)%nat rec1 rec2 ->
  agree anywhere (handle_security_result useFallback ZS rec1) (handle_security_result useFallback ZS rec2).
Proof.
  intros H. assert (Hat : forall i, i = SecurityReason \/ i = ClientInitialisation -> agree (at_init i) rec1 rec2).
  { intros i Hi r Hr. apply H. unfold rank. rewrite Hr. destruct Hi as [-> | ->]; lia. }
  unfold handle_security_result. on. apply agree_if; [apply agree_refl|]. on. apply agree_if.
  - reach ClientInitialisation. apply Hat. by right.
  - on. apply agree_if; [|apply agree_refl]. reach SecurityReason. stay SecurityReason. apply Hat. by left.
Qed.

(** *** The schemes of authentication *)

Lemma keep_init_sock {A} i (m : M sock A) : keeps (at_init i) (on_sock_ ZS m).
Proof. apply keeps_zoom. by intros []. Qed.

Ltac base _ :=
  lazymatch goal with
  | |- keeps _ (on_sock_ _ _) => apply keep_init_sock
  | |- keeps _ (modify _) => apply keeps_modify; by intros []
  | |- keeps _ (option_ _ _) => apply keeps_gets
  | |- keeps _ (dispatchEvent _ _) => apply keeps_modify; by intros []
  | |- keeps _ _ => first [assumption | solve [auto with nocore]]
  end.

Lemma keep_tunnels_init i n m : keeps (at_init i) (read_tunnels ZS n m).
Proof. revert m. induction n as [|n IH]; intros m; cbn [read_tunnels]; keeps_by base. Qed.

Lemma keep_auths_init i n : keeps (at_init i) (read_auths ZS n).
Proof. induction n as [|n IH]; cbn [read_auths]; keeps_by base. Qed.

Lemma keep_fail_init i : keeps (at_init i) (fail useFallback ZS).
Proof. unfold fail, transition, disconnect_, cursor_detach, cursor_clear. keeps_by base. Qed.

Lemma agree_tight : agree (fun r => rank r < 1)%nat rec1 rec2 ->
  agree (at_init Authentication) (negotiate_tight_auth useFallback ZS rec1) (negotiate_tight_auth useFallback ZS rec2).
Proof.
  intros H. pose proof (keep_fail_init Authentication) as Hfail.
  pose proof (fun n m => keep_tunnels_init Authentication n m) as Htun. pose proof (keep_auths_init Authentication) as Hauth.
  unfold negotiate_tight_auth.
  apply (agree_bind (at_init Authentication) (at_init Authentication)); [done|intros tightvnc].
  apply (agree_bind (at_init Authentication) (at_init Authentication)).
  { assert (Ht : forall n, keeps (at_init Authentication) (negotiate_tight_tunnels useFallback ZS n)).
    { intros n. unfold negotiate_tight_tunnels. keeps_by base. }
    intros r. match goal with |- _ -> at_init _ (?m r).2 => change (at_init Authentication r -> at_init Authentication (m r).2); revert r;
      change (keeps (at_init Authentication) m) end. keeps_by base. }
  intros stop. apply agree_if; [apply agree_refl|].
  apply (agree_bind (at_init Authentication) (at_init Authentication)); [apply keep_init_sock|intros wait].
  apply agree_if; [apply agree_refl|].
  apply (agree_bind (at_init Authentication) (at_init Authentication)); [apply keep_init_sock|intros subAuthCount].
  apply agree_if; [apply agree_refl|].
  apply (agree_bind (at_init Authentication) (at_init Authentication)); [apply keep_init_sock|intros wait'].
  apply agree_if; [apply agree_refl|].
  apply (agree_bind (at_init Authentication) (at_init Authentication)); [apply Hauth|intros types].
  destruct (decide _); [apply agree_refl|]. destruct (decide _); [|apply agree_refl].
  apply (agree_bind (at_init Authentication) (at_init Authentication)); [apply keep_init_sock|intros []].
  apply (agree_bind (at_init Authentication) (fun r => at_init Authentication r /\ r_auth_scheme r = 2)); [by intros [] |intros []].
  intros r [Hr Hs]. apply H. unfold rank. rewrite Hr, Hs. cbn. lia.
Qed.

Lemma agree_authentication r : at_init Authentication r ->
  agree (fun r' => rank r' < rank r)%nat rec1 rec2 ->
  negotiate_authentication useFallback ZS rec1 r = negotiate_authentication useFallback ZS rec2 r.
Proof.
  intros Hr H. unfold negotiate_authentication. rewrite !gets_at.
  unfold rank in H at 2. rewrite Hr in H.
  destruct (Z.eqb_spec (r_auth_scheme r) 1) as [E1|E1].
  - cbn [orb] in H. apply (agree_bind anywhere anywhere); [done|intros v|done]. apply agree_if; [apply agree_refl|].
    apply (agree_bind anywhere (at_init ClientInitialisation)); [done|intros []]. intros r' Hr'. apply H. unfold rank. rewrite Hr'. lia.
  - destruct (r_auth_scheme r =? 22); [done|]. destruct (r_auth_scheme r =? 2); [done|].
    destruct (r_auth_scheme r =? 16); [|done]. by apply agree_tight.
Qed.

Lemma agree_body r : agree (fun r' => rank r' < rank r)%nat rec1 rec2 -> init_msg_body rec1 r = init_msg_body rec2 r.
Proof.
  intros H. unfold Rfb.init_msg_body. rewrite !gets_at. destruct (r_init r) eqn:E;
    lazymatch type of E with
    | _ = Security => idtac | _ = Authentication => idtac | _ = SecurityResult => idtac | _ => reflexivity
    end.
  - apply agree_security; [|done]. unfold rank in H at 2. by rewrite E in H.
  - by apply agree_authentication.
  - apply agree_security_result; [|done]. unfold rank in H at 2. by rewrite E in H.
Qed.

End Body.

(** Three calls, and any more make no difference. *)
Lemma init_msg_enough n k r : (rank r < n)%nat -> init_msg_fuel (n + k) r = init_msg_fuel n r.
Proof.
  revert r. induction n as [|n IH]; intros r Hr; [lia|]. cbn [Nat.add Rfb.init_msg_fuel]. apply agree_body.
  intros r' Hr'. apply IH. lia.
Qed.

Lemma rank_bound r : (rank r < 3)%nat.
Proof. unfold rank. destruct (r_init r); try lia. destruct (_ || _); lia. Qed.

End InitMsg.

(** ** Methods that do not read *)

Section Quiet.
Import Websock Messages Display Decoders Rfb.
Context (supports useFallback : bool) (screenSize : double * double) (ZS : Type).
Implicit Type r : rfb ZS.

Definition same_reader (s0 s : sock) : Prop :=
  sk_rQi s = sk_rQi s0 /\ sk_rQlen s = sk_rQlen s0 /\ rQ_buf s = rQ_buf s0.

(** The socket's reader, the decoders and [_FBU] are as they were. *)
Definition quietly r0 r : Prop :=
  same_reader (r_sock r0) (r_sock r) /\ dc_lines (r_dec r) = dc_lines (r_dec r0)
  /\ dc_hextile (r_dec r) = dc_hextile (r_dec r0) /\ r_FBU r = r_FBU r0.

Lemma keep_push s0 l : keeps (same_reader s0) (push l).
Proof.
  unfold push. apply keeps_bind; [by apply keeps_modify; intros []|intros []]. intros s (E1 & E2 & E3).
  destruct (flush_same s) as (F1 & F2 & F3). unfold same_reader. by rewrite F1, F2, F3.
Qed.

Section Keep.
Context (r0 : rfb ZS).

Lemma quiet_sock {A} (m : M sock A) : (forall s0, keeps (same_reader s0) m) -> keeps (quietly r0) (on_sock_ ZS m).
Proof.
  intros Hm r (H1 & H2 & H3 & H4). unfold on_sock_, zoom. specialize (Hm (r_sock r0) (r_sock r) H1).
  destruct (m (r_sock r)) as [o s]. by destruct r as [[]].
Qed.

Lemma quiet_disp {A} (m : bool -> heap -> M display A) : keeps (quietly r0) (on_disp supports ZS m).
Proof.
  unfold on_disp, on_dec, on_display. intros r (H1 & H2 & H3 & H4). unfold zoom, mbind, M_bind, gets.
  destruct (m _ _ _) as [o d]. by destruct r as [[]].
Qed.

Lemma quiet_modify (f : rfb ZS -> rfb ZS) :
  (forall r, r_dec (f r) = r_dec r /\ r_FBU (f r) = r_FBU r) -> keeps (quietly r0) (modify f).
Proof. intros Hf. apply keeps_modify. intros r H. destruct (Hf r) as [E1 E2]. unfold quietly, r_sock in *. by rewrite E1, E2. Qed.

Ltac base _ :=
  lazymatch goal with
  | |- keeps _ (on_disp _ _ _) => apply quiet_disp
  | |- keeps _ (on_sock_ _ (push _)) => apply quiet_sock; intros ?; apply keep_push
  | |- keeps _ (on_sock_ _ close) => apply quiet_sock; intros ?; apply keeps_modify; intros s; by destruct (sk_websocket s)
  | |- keeps _ (on_sock_ _ _) => apply quiet_sock; intros ?; apply keep_push
  | |- keeps _ (dispatchEvent _ _) => apply quiet_modify; by intros []
  | |- keeps _ (modify _) => apply quiet_modify; by intros []
  | |- keeps _ (option_ _ _) => apply keeps_gets
  | |- keeps _ _ => first [assumption | solve [auto with quiet nocore]]
  end.
Ltac quiet := keeps_by base.

Create HintDb quiet.

Lemma quiet_updateCursor c : keeps (quietly r0) (updateCursor useFallback ZS c).
Proof.
  unfold updateCursor, refreshCursor, cursor_change, cursor_clear. do 2 (apply keeps_bind; [quiet|intros ?]).
  generalize (if shouldShowDotCursor ZS a0 then cursor_dot else r_cursorImage a0). intros c'. quiet.
Qed.

Lemma quiet_fail : keeps (quietly r0) (fail useFallback ZS).
Proof. unfold fail, transition, disconnect_, cursor_detach, cursor_clear. quiet. Qed.
Hint Resolve quiet_fail : quiet.

Lemma quiet_continuous : keeps (quietly r0) (updateContinuousUpdates ZS).
Proof. unfold updateContinuousUpdates. quiet. Qed.
Hint Resolve quiet_continuous : quiet.

Lemma quiet_resize w h : keeps (quietly r0) (resize_ supports screenSize ZS w h).
Proof. unfold resize_, updateClip, updateScale. quiet. Qed.

Lemma quiet_requestRemoteResize : keeps (quietly r0) (requestRemoteResize screenSize ZS).
Proof. unfold requestRemoteResize. quiet. Qed.

End Keep.
End Quiet.

(** ** Messages *)

Section Reader.
Import Websock Messages Display Decoders Rfb.
Context (supports useFallback : bool) (screenSize : double * double) (keyEventsHaveCode : bool).
Context (ZS : Type) (inflateInit : ZS) (inflateReset : ZS -> ZS)
  (pako_inflate : ZS -> list Z -> Z -> ZS * list Z).
Implicit Type r : rfb ZS.

(** No rectangle is half read, and [p] holds of the number to come. *)
Definition framed (p : Z -> Prop) r : Prop :=
  settled ZS (r_dec r) /\ 0 <= u_width (r_FBU r) /\ 0 <= u_height (r_FBU r) /\ p (u_rects (r_FBU r)).
(** The reader at [i] with [k] bytes before it. *)
Definition at_rest (p : Z -> Prop) (i k : Z) r : Prop := room i k (r_sock r) /\ framed p r.
(** In the midst of an update, and perhaps of a Hextile rectangle. *)
Definition drawing (p : Z -> Prop) (i : Z) r : Prop :=
  let u := r_FBU r in
  room i 0 (r_sock r) /\ 0 <= dc_lines (r_dec r) /\ (0 <= u_width u /\ 0 <= u_height u /\ p (u_rects u))
  /\ (hx_tiles (dc_hextile (r_dec r)) = 0
      \/ 0 < u_rects u /\ u_encoding u = Some encodingHextile /\ tiling ZS i (u_width u) (u_height u) (r_dec r)).
Definition more (rects : Z) : Prop := 0 < rects.
Definition none (rects : Z) : Prop := rects <= 0.
(** What there is while a session goes on. *)
Definition suspended r : Prop := r_conn r = Connected -> exists i, drawing (fun _ => True) i r.
Definition rested (p : Z -> Prop) r : Prop := exists i, at_rest p i 0 r.
(** Of a handler that answers whether it has had all of its message. *)
Definition handled (p : Z -> Prop) (i : Z) (b : bool) r : Prop := if b then at_rest p i 0 r else suspended r.

Lemma rest_less p i i' k k' r : i' <= i -> 0 <= k' <= k -> at_rest p i k r -> at_rest p i' k' r.
Proof. intros Hi Hk [(H1 & H2 & H3 & H4 & H5) H6]. split; [|done]. unfold room. split_and!; first [done | lia]. Qed.

Lemma rest_end p i i' k r : i <= i' -> at_rest p i' k r -> at_rest p i 0 r.
Proof. intros Hi H. apply (rest_less p i' _ k); [done| |done]. destruct H as [(_ & ? & _) _]. lia. Qed.

Lemma rest_rested p i k r : at_rest p i k r -> rested p r.
Proof. intros H. exists i. by apply (rest_end p i i k). Qed.

Lemma rest_drawing p i r : at_rest p i 0 r -> drawing p i r.
Proof. intros (H1 & [H2 H3] & H4). split; [done|]. split; [done|]. split; [done|]. by left. Qed.

Lemma drawing_any p i r : drawing p i r -> drawing (fun _ => True) i r.
Proof. intros (H1 & H2 & (H3 & H4 & H5) & H6). by split_and!. Qed.

Lemma drawing_suspended p i r : drawing p i r -> suspended r.
Proof. intros H _. exists i. by apply (drawing_any p). Qed.

Lemma rested_handled p p' i r : rested p r -> handled p' i false r.
Proof. intros [j H]. by eapply drawing_suspended, rest_drawing. Qed.

Lemma rest_handled p i i' k b r : i <= i' -> at_rest p i' k r -> handled p i b r.
Proof. intros Hi H. destruct b; [by eapply rest_end|]. by eapply rested_handled, rest_rested. Qed.

Lemma quiet_rest {A} p i k (m : M (rfb ZS) A) : (forall r0, keeps (quietly ZS r0) m) -> keeps (at_rest p i k) m.
Proof.
  intros Hm r [(H1 & H2 & H3 & H4 & H5) H6]. destruct (Hm r r) as ((E1 & E2 & E3) & E4 & E5 & E6); [done|].
  unfold at_rest, framed, settled, room. by rewrite E1, E2, E3, E4, E5, E6.
Qed.

Lemma quiet_rested {A} p (m : M (rfb ZS) A) : (forall r0, keeps (quietly ZS r0) m) -> keeps (rested p) m.
Proof. intros Hm r [i Hr]. exists i. revert Hr. by apply quiet_rest. Qed.

Lemma rest_sock {A B} p i k (m : M sock A) (R : A -> sock -> Prop) (f : A -> M (rfb ZS) B) Q :
  triple (room i k) m R ->
  (forall a, triple (fun r => R a (r_sock r) /\ framed p r) (f a) Q) -> triple (at_rest p i k) (on_sock_ ZS m ≫= f) Q.
Proof.
  intros Hm Hf. eapply (triple_bind _ _ _ (fun a r => R a (r_sock r) /\ framed p r)); [|exact Hf].
  eapply (triple_zoom r_sock); [|exact Hm|].
  - by intros r [H _].
  - by intros [[]] a t [_ H] Ha.
Qed.

Lemma rest_wait {B} p i k m g (f : bool -> M (rfb ZS) B) Q : 0 <= g ->
  triple (rested p) (f true) Q -> triple (at_rest p i (Z.max k m)) (f false) Q ->
  triple (at_rest p i k) (on_sock_ ZS (rQwait m g) ≫= f) Q.
Proof.
  intros Hg H1 H2. eapply rest_sock; [by apply wait_room|]. intros [].
  - eapply triple_weaken; [|exact H1]. intros r [[j H] ?]. by exists j.
  - eapply triple_weaken; [|exact H2]. intros r [H ?]. by split.
Qed.

Lemma rest_skip {B} p i k m (f : unit -> M (rfb ZS) B) Q :
  0 <= m <= k -> triple (at_rest p (i + m) (k - m)) (f tt) Q -> triple (at_rest p i k) (on_sock_ ZS (rQskipBytes m) ≫= f) Q.
Proof. intros Hm H. eapply rest_sock; [by apply skip_room|]. by intros []. Qed.

Lemma rest_shift {B} p i k m (f : Z -> M (rfb ZS) B) Q :
  Z.of_nat m <= k -> (forall v, triple (at_rest p (i + Z.of_nat m) (k - Z.of_nat m)) (f v) Q) ->
  triple (at_rest p i k) (on_sock_ ZS (rQshift m) ≫= f) Q.
Proof. intros Hm H. eapply rest_sock; [by apply shift_room|exact H]. Qed.

Lemma rest_bytes {B} p i k m (f : view -> M (rfb ZS) B) Q :
  m <= k -> (forall v, 0 <= m -> triple (at_rest p (i + m) (k - m)) (f v) Q) ->
  triple (at_rest p i k) (on_sock_ ZS (rQshiftBytes (Some m)) ≫= f) Q.
Proof. intros Hm H. eapply rest_sock; [by apply bytes_room|]. intros v d [(H0 & Hr & _) Hl]. by apply (H v H0 d). Qed.

Lemma rest_take {B} p i k m (f : list Z -> M (rfb ZS) B) Q :
  m <= k -> (forall l, 0 <= m -> bytes l -> triple (at_rest p (i + m) (k - m)) (f l) Q) ->
  triple (at_rest p i k) (on_sock_ ZS (rQtake m) ≫= f) Q.
Proof. intros Hm H. eapply rest_sock; [by apply take_room|]. intros l d [(H0 & Hr & Hb) Hl]. by apply (H l H0 Hb d). Qed.

Lemma rest_str {B} p i k m (f : list Z -> M (rfb ZS) B) Q :
  Z.max 0 m <= k -> (forall l, triple (at_rest p i 0) (f l) Q) ->
  triple (at_rest p i k) (on_sock_ ZS (rQshiftStr (Some m)) ≫= f) Q.
Proof. intros Hm H. eapply rest_sock; [by apply str_room|exact H]. Qed.

Ltac base _ :=
  lazymatch goal with
  | |- keeps _ (on_disp _ _ _) => apply quiet_disp
  | |- keeps _ (on_sock_ _ rQpeek8) => apply quiet_sock; intros ?; apply keeps_gets
  | |- keeps _ (on_sock_ _ (rQslice _ _)) => apply quiet_sock; intros ? ?; unfold rQslice, rQview; run_monad; repeat (case_match; try done)
  | |- keeps _ (on_sock_ _ _) => apply quiet_sock; intros ?; apply keep_push
  | |- keeps _ (dispatchEvent _ _) => apply quiet_modify; by intros []
  | |- keeps _ (modify _) => apply quiet_modify; by intros []
  | |- keeps _ (option_ _ _) => apply keeps_gets
  | |- keeps _ (fail _ _) => apply quiet_fail
  | |- keeps _ (updateCursor _ _ _) => apply quiet_updateCursor
  | |- keeps _ (updateContinuousUpdates _) => apply quiet_continuous
  | |- keeps _ (resize_ _ _ _ _ _) => apply quiet_resize
  | |- keeps _ (requestRemoteResize _ _) => apply quiet_requestRemoteResize
  | |- keeps _ _ => first [assumption | solve [auto with quiet nocore]]
  end.
Ltac quiet := lazymatch goal with
  | |- keeps (rested _) _ => apply quiet_rested; intros ?; keeps_by base
  | |- keeps (at_rest _ _ _) _ => apply quiet_rest; intros ?; keeps_by base
  | |- _ => keeps_by base
  end.

(** The end of a walk: a room at the place reached. *)
Ltac arrive := first
  [ eapply rest_handled; [|eassumption]; lia | eapply rested_handled; eassumption
  | eapply rested_handled, rest_rested; eassumption | eapply rest_end; [|eassumption]; lia ].

Ltac walk := repeat (cbv beta iota zeta; lazymatch goal with
  | |- triple _ ((_ ≫= _) ≫= _) _ => apply triple_assoc
  | |- triple _ (mret _ ≫= _) _ => apply triple_ret_bind
  | |- triple _ (mret _) _ => apply triple_ret; intros ? ?; arrive
  | |- triple _ (if ?b then _ else _) _ => destruct b eqn:?
  | |- triple (at_rest _ _ _) (on_sock_ _ (rQwait _ _) ≫= _) _ => apply rest_wait; [lia| |]
  | |- triple (at_rest _ _ _) (on_sock_ _ (rQskipBytes _) ≫= _) _ => apply rest_skip; [lia|]
  | |- triple (at_rest _ _ _) (on_sock_ _ (rQshift _) ≫= _) _ => apply rest_shift; [lia|intros ?]
  | |- triple (at_rest _ _ _) (on_sock_ _ rQshift8 ≫= _) _ => apply rest_shift; [lia|intros ?]
  | |- triple (at_rest _ _ _) (on_sock_ _ rQshift16 ≫= _) _ => apply rest_shift; [lia|intros ?]
  | |- triple (at_rest _ _ _) (on_sock_ _ rQshift32 ≫= _) _ => apply rest_shift; [lia|intros ?]
  | |- triple (at_rest _ _ _) (on_sock_ _ (rQshiftBytes (Some _)) ≫= _) _ => apply rest_bytes; [lia|intros ? ?]
  | |- triple (at_rest _ _ _) (on_sock_ _ (rQtake _) ≫= _) _ => apply rest_take; [lia|intros ? ? ?]
  | |- triple (at_rest _ _ _) (on_sock_ _ (rQshiftStr (Some _)) ≫= _) _ => apply rest_str; [repeat case_match; lia|intros ?]
  | |- triple _ (_ ≫= _) _ => apply triple_keeps; [solve [quiet]|intros ?]
  end).

(** [_fail] answers that there is nothing more, and the session is over. *)
Lemma connected_not state :
  state <> Connected -> keeps (fun r => r_conn r <> Connected) (transition useFallback ZS skip state).
Proof.
  intros Hs r Hr. unfold transition, disconnect_, cursor_detach, cursor_clear, dispatchEvent, on_sock_. run_monad.
  repeat case_match; simplify_eq; try done; by destruct r.
Qed.

Lemma disconnecting_down P : triple P (transition useFallback ZS skip Disconnecting) (fun _ r => r_conn r <> Connected).
Proof.
  apply (triple_weaken _ (fun _ => True)); [done|]. unfold transition. apply triple_gets. intros c.
  assert (Hc : c <> Connected -> triple (fun r => True /\ r_conn r = c) skip (fun _ r => r_conn r <> Connected)).
  { intros H r [_ <-]. exact H. }
  destruct (decide (Disconnecting = c)) as [<-|]; [by apply Hc|]. destruct (decide (c = Disconnected)) as [->|]; [by apply Hc|].
  destruct (allowed c Disconnecting) eqn:Ha; cbn [negb]; [|apply Hc; by intros ->].
  apply (triple_bind _ _ _ (fun _ r => r_conn r = Disconnecting)); [by intros []|intros []].
  eapply triple_kept; [|intros [] r Hr; rewrite Hr; discriminate].
  unfold disconnect_, cursor_detach. keeps_by ltac:(fun _ => lazymatch goal with
    | |- keeps _ (modify _) => apply keeps_modify; by intros [] | |- keeps _ (on_sock_ _ _) => apply keeps_zoom; by intros [] end).
Qed.

Lemma fail_down P : triple P (fail useFallback ZS) (fun b r => b = false /\ r_conn r <> Connected).
Proof.
  apply (triple_weaken _ (fun _ => True)); [done|]. unfold fail. apply triple_keeps; [done|intros []].
  eapply triple_bind; [apply disconnecting_down|]. intros []. apply triple_keeps; [by apply connected_not|]. intros []. by apply triple_ret.
Qed.

Lemma fail_handled P p i : triple P (fail useFallback ZS) (handled p i).
Proof. eapply triple_strong; [apply fail_down|]. intros a r [-> Hr] Hc. done. Qed.

Lemma cut_text_handled p i : triple (at_rest p i 0) (handle_server_cut_text ZS) (handled p i).
Proof. unfold handle_server_cut_text. walk. Qed.

Lemma fence_handled p i : triple (at_rest p i 0) (handle_server_fence_msg useFallback ZS) (handled p i).
Proof. unfold handle_server_fence_msg. walk. apply fail_handled. Qed.

Lemma xvp_handled p i : triple (at_rest p i 0) (handle_xvp_msg useFallback ZS) (handled p i).
Proof. unfold handle_xvp_msg. walk. Qed.

Lemma read_screens_handled p i m b :
  triple (at_rest p i (16 * Z.of_nat m)) (read_screens ZS m b) (fun _ => at_rest p i 0).
Proof.
  revert i b. induction m as [|m IH]; intros i b; cbn [read_screens].
  { apply triple_ret. intros r. apply rest_end. lia. }
  assert (Hnext : forall i' k, i <= i' -> k = 16 * Z.of_nat m ->
    triple (at_rest p i' k) (read_screens ZS m false) (fun _ => at_rest p i 0)).
  { intros i' k Hi ->. eapply triple_strong; [apply IH|]. intros []. intros r. by apply rest_end. }
  destruct b; walk; apply Hnext; lia.
Qed.

(** *** Rectangles *)

Lemma drawing_rest p i r : drawing p i r -> default 0 (u_encoding (r_FBU r)) <> encodingHextile -> at_rest p i 0 r.
Proof. intros (H1 & H2 & H3 & [H4|(_ & -> & _)]) He; [|done]. split; [done|]. by split. Qed.

Lemma rest_FBU {B} p i k (f : fbu -> M (rfb ZS) B) Q :
  (forall u, 0 <= u_width u -> 0 <= u_height u -> triple (at_rest p i k) (f u) Q) ->
  triple (at_rest p i k) (gets r_FBU ≫= f) Q.
Proof. intros H r Hr. pose proof Hr as (_ & _ & Hw & Hh & _). by apply (H (r_FBU r) Hw Hh r). Qed.

Lemma cursor_handled p i : triple (at_rest p i 0) (handleCursor useFallback ZS) (handled p i).
Proof.
  unfold handleCursor. apply rest_FBU. intros u Hw Hh. cbv zeta.
  set (pixels := u_width u * u_height u * 4). set (mask := (u_width u + 7) / 8 * u_height u).
  assert (0 <= pixels /\ 0 <= mask) as [Hp Hm].
  { assert (0 <= (u_width u + 7) / 8) by zlia. unfold pixels, mask. nia. }
  clearbody pixels mask. walk.
Qed.

Lemma screens_handled p i : triple (at_rest p i 0) (handleExtendedDesktopSize supports screenSize ZS) (handled p i).
Proof.
  unfold handleExtendedDesktopSize. walk. apply (triple_bind _ _ _ (fun _ => at_rest p i 0)); [|intros []; walk].
  eapply triple_weaken; [|apply read_screens_handled]. intros r. apply rest_less; lia.
Qed.

Abbreviation handleDataRect := (handleDataRect supports useFallback ZS inflateInit inflateReset pako_inflate).
Abbreviation handleRect := (handleRect supports useFallback screenSize keyEventsHaveCode ZS inflateInit inflateReset pako_inflate).
Abbreviation rect_loop := (rect_loop supports useFallback screenSize keyEventsHaveCode ZS inflateInit inflateReset pako_inflate).
Abbreviation framebufferUpdate :=
  (framebufferUpdate supports useFallback screenSize keyEventsHaveCode ZS inflateInit inflateReset pako_inflate).
Abbreviation normal_msg := (normal_msg supports useFallback screenSize keyEventsHaveCode ZS inflateInit inflateReset pako_inflate).
Abbreviation message_loop := (message_loop supports useFallback screenSize keyEventsHaveCode ZS inflateInit inflateReset pako_inflate).

Lemma decoder_hextile c : decoder_of c = Some Hextile_ <-> c = encodingHextile.
Proof.
  split; [|by intros ->]. unfold decoder_of. repeat case_match; try done. intros _. by apply Z.eqb_eq.
Qed.

Lemma data_handled i : triple (drawing more i) handleDataRect (handled more i).
Proof.
  unfold Rfb.handleDataRect. intros r (H1 & H2 & (H3 & H4 & Hpos) & H6). unfold mbind, M_bind, gets. cbn [id].
  destruct (decoder_of _) as [e|] eqn:He; [|by apply (fail_handled (fun _ => True))].
  set (u := r_FBU r) in *.
  pose proof (triple_catch (fun r' => r' = r) (on_dec ZS (decodeRect supports ZS inflateInit inflateReset pako_inflate e
    (u_x u) (u_y u) (u_width u) (u_height u) (r_fb_depth r))) (fun e => if decide (e = NaNIndex) then throw e else fail useFallback ZS) (handled more i)) as Hc.
  apply Hc; [|intros e'; destruct (decide _); [apply triple_throw|apply fail_handled]|done]. clear Hc. intros r' ->. unfold on_dec.
  eapply (triple_zoom r_dec (fun r' => r' = r));
    [|apply (decode_room supports ZS inflateInit inflateReset pako_inflate e i); done| |done].
  - intros r' ->. split; [done|]. split; [done|]. destruct H6 as [H6|(_ & H6 & H7)]; [by left|right]. split; [|done].
    rewrite H6 in He. by injection He.
  - intros r' [] d -> Hd.
    + destruct Hd as [Hd1 Hd2]. unfold u in *. by destruct r.
    + destruct Hd as (j & Hd1 & Hd2 & Hd3). intros _. exists j. unfold u in *. destruct r. split; [exact Hd1|]. split; [exact Hd2|].
      split; [done|]. destruct Hd3 as [Hd3|[-> Hd3]]; [by left|right]. split; [exact Hpos|]. split; [|exact Hd3].
      cbn in *. apply decoder_hextile in He. by destruct (u_encoding _); cbn in He; subst.
Qed.

Lemma rect_handled i : triple (drawing more i) handleRect (handled more i).
Proof.
  unfold Rfb.handleRect. apply triple_gets. intros u. cbv zeta.
  assert (Hrest : forall c m, c <> encodingHextile -> triple (at_rest more i 0) m (handled more i) -> default 0 (u_encoding u) = c ->
    triple (fun r => drawing more i r /\ r_FBU r = u) m (handled more i)).
  { intros c m Hc Hm E. eapply triple_weaken; [|exact Hm]. intros r [H <-]. apply drawing_rest; [done|]. by rewrite E. }
  destruct (Z.eqb_spec (default 0 (u_encoding u)) pseudoEncodingLastRect) as [E|_].
  { eapply Hrest; [ | .. | exact E]; [done|]. apply (triple_bind _ _ _ (fun _ => at_rest more i 0)); [|intros []; walk].
    intros r (H1 & H2 & H3 & H4 & H5). by destruct r as [? ? ? ? ? ? ? ? ? ? ? ? ? ? ? ? ? ? ? ? ? ? []]. }
  destruct (Z.eqb_spec (default 0 (u_encoding u)) pseudoEncodingCursor) as [E|_].
  { eapply Hrest; [|apply cursor_handled|exact E]; done. }
  destruct (Z.eqb_spec (default 0 (u_encoding u)) pseudoEncodingQEMUExtendedKeyEvent) as [E|_].
  { eapply Hrest; [ | .. | exact E]; [done|]. walk. }
  destruct (Z.eqb_spec (default 0 (u_encoding u)) pseudoEncodingDesktopSize) as [E|_].
  { eapply Hrest; [ | .. | exact E]; [done|]. walk. }
  destruct (Z.eqb_spec (default 0 (u_encoding u)) pseudoEncodingExtendedDesktopSize) as [E|_].
  { eapply Hrest; [|apply screens_handled|exact E]; done. }
  eapply triple_weaken; [|apply data_handled]. by intros r [H _].
Qed.

Lemma header_size l i : bytes l -> 0 <= js_shl (nint (aget l i)) 8 + nint (aget l (i + 1)).
Proof.
  intros Hl. assert (H : forall j, is_byte (nint (aget l j))).
  { intros j. unfold aget. destruct (j <? 0); [by split|]. destruct (l !! _) as [b|] eqn:E; [|by split].
    assert (Hb : is_byte b) by by eapply Forall_lookup_1. unfold nint, is_byte in *. cbn. rewrite toInt32_small; lia. }
  pose proof (H i). pose proof (H (i + 1)). unfold is_byte in *. rewrite js_shl_byte by (done || lia). rewrite toInt32_small; lia.
Qed.

(** With no rectangle to come, none is half read. *)
Lemma drawing_over p i r : drawing p i r -> u_rects (r_FBU r) <= 0 -> at_rest none i 0 r.
Proof. intros (H1 & H2 & (H3 & H4 & _) & [H5|[H5 _]]) Hu; [|lia]. by split. Qed.

(** A rectangle begins with its header. *)
Lemma rect_begins i u :
  triple (fun r => drawing more i r /\ r_FBU r = u)
    (match u_encoding u with
     | Some _ => mret false
     | None =>
         wait ← on_sock_ ZS (rQwait 12 0);
         if (wait : bool) then mret true
         else hdr ← on_sock_ ZS (rQtake 12); set_FBU ZS (rect_header hdr);; mret false
     end)
    (fun wait r => if wait : bool then suspended r else drawing more i r).
Proof.
  destruct (u_encoding u) as [e|] eqn:E. { apply triple_ret. by intros r [H _]. }
  apply (triple_weaken _ (at_rest more i 0)).
  { intros r [H <-]. apply drawing_rest; [done|]. by rewrite E. }
  apply rest_wait; [lia| |]; cbv iota.
  { apply triple_ret. intros r [j H]. by eapply drawing_suspended, rest_drawing. }
  apply rest_take; [lia|]. intros l _ Hl. apply (triple_bind _ _ _ (fun _ => at_rest more i 0)).
  - intros r (H1 & H2 & _ & _ & H3). pose proof (header_size l 4 Hl) as Hw. pose proof (header_size l 6 Hl) as Hh.
    change (4 + 1) with 5 in Hw. change (6 + 1) with 7 in Hh. apply (rest_end more i (i + 12) (Z.max 0 12 - 12)); [lia|].
    unfold set_FBU, modify. destruct r. split; [exact H1|]. split; [exact H2|]. split; [exact Hw|]. split; [exact Hh|exact H3].
  - intros []. apply triple_ret. intros r. apply rest_drawing.
Qed.

Lemma loop_handled fuel i : triple (drawing (fun _ => True) i) (rect_loop fuel) (handled none i).
Proof.
  induction fuel as [|fuel IH]; cbn [Rfb.rect_loop]; intros r Hr; rewrite gets_at;
    (destruct (Z.ltb_spec 0 (u_rects (r_FBU r))) as [Hpos|Hpos];
     [|assert (H : triple (at_rest none i 0) (on_disp supports ZS (fun b h => flip b h);; mret true) (handled none i)) by walk;
       by eapply H, drawing_over]).
  - by apply drawing_suspended in Hr.
  - assert (Hm : drawing more i r) by (destruct Hr as (H1 & H2 & (H3 & H4 & _) & H5); by split_and!).
    apply (triple_bind (fun r' => drawing more i r' /\ r_FBU r' = r_FBU r) _ _ _ _ (rect_begins i (r_FBU r))); [|done].
    intros []; [by apply triple_ret|]. eapply triple_bind; [apply rect_handled|]. intros []; [|by apply triple_ret].
    apply (triple_bind _ _ _ (fun _ => drawing (fun _ => True) i)); [|by intros []].
    intros r' (H1 & H2 & Hw & Hh & _). apply rest_drawing.
    unfold set_FBU, modify. destruct r'. split; [exact H1|]. split; [exact H2|]. split; [exact Hw|]. by split.
Qed.

(** An update that has begun, or begins. *)
Lemma update_handled i : triple (drawing (fun _ => True) i) framebufferUpdate (handled none i).
Proof.
  assert (Hloop : triple (drawing (fun _ => True) i) (u ← gets r_FBU; rect_loop (Z.to_nat (u_rects u))) (handled none i)).
  { apply triple_keeps; [apply keeps_gets|intros u]. apply loop_handled. }
  unfold Rfb.framebufferUpdate. intros r Hr. rewrite gets_at.
  destruct (Z.eqb_spec (u_rects (r_FBU r)) 0) as [E|_]; [|by apply Hloop].
  pose proof (drawing_over _ _ _ Hr ltac:(lia)) as H0. clear Hr E. revert r H0.
  match goal with |- forall r, _ -> match ?m r with _ => _ end => change (triple (at_rest none i 0) m (handled none i)) end.
  walk. match goal with |- triple _ (set_FBU _ (fun u => u <| u_rects := ?v |>) ≫= _) _ => rename v into rects end.
  apply (triple_bind _ _ _ (fun _ => at_rest (fun _ => True) i 0)).
  - intros r (H1 & H2 & Hw & Hh & _). apply (rest_end _ i (i + 1 + 2) (Z.max 0 3 - 1 - 2)); [lia|].
    unfold set_FBU, modify. destruct r. split; [exact H1|]. split; [exact H2|]. split; [exact Hw|]. by split.
  - intros []. apply triple_assoc, triple_keeps; [solve [quiet]|]. intros []; [by walk|]. apply triple_ret_bind.
    eapply triple_weaken; [|apply Hloop]. intros r. apply rest_drawing.
Qed.

(** *** One message *)

Lemma request_handled p i (ret : bool) :
  triple (handled p i ret)
    (r ← gets id;
     when (ret && negb (r_enabledContinuousUpdates r))
       (on_sock_ ZS (fbUpdateRequest true 0 0 (r_fb_width r) (r_fb_height r)));;
     mret ret) (handled p i).
Proof.
  destruct ret; cbn [andb]; [apply (triple_weaken _ (at_rest p i 0)); [done|walk]|].
  apply triple_keeps; [apply keeps_gets|intros ?]. cbn [when]. apply triple_keeps; [apply keeps_skip|intros []]. by apply triple_ret.
Qed.

Lemma message_handled_rest i : triple (at_rest none i 1) normal_msg (handled none (i + 1)).
Proof.
  unfold Rfb.normal_msg. intros r Hr. rewrite gets_at. assert (E : (0 <? u_rects (r_FBU r)) = false).
  { destruct Hr as (_ & _ & _ & _ & H). unfold none in H. lia. }
  rewrite E. clear E. revert r Hr.
  match goal with |- forall r, _ -> match ?m r with _ => _ end => change (triple (at_rest none i 1) m (handled none (i + 1))) end.
  apply rest_shift; [done|]. intros v. change (Z.of_nat 1) with 1.
  apply (triple_weaken _ (at_rest none (i + 1) 0)); [intros r; by apply rest_end|].
  destruct (v =? 0).
  { eapply triple_bind; [eapply triple_weaken; [|apply update_handled]|intros ret; apply request_handled].
    intros r H. by eapply drawing_any, rest_drawing. }
  destruct (v =? 1); [apply fail_handled|]. destruct (v =? 2); [walk|]. destruct (v =? 3); [apply cut_text_handled|].
  destruct (v =? 150); [walk|]. destruct (v =? 248); [apply fence_handled|]. destruct (v =? 250); [apply xvp_handled|]. walk.
Qed.

(** The rest of an update. *)
Lemma message_handled_drawing i : triple (drawing more i) normal_msg (handled none i).
Proof.
  unfold Rfb.normal_msg. intros r Hr. rewrite gets_at. assert (E : (0 <? u_rects (r_FBU r)) = true).
  { destruct Hr as (_ & _ & (_ & _ & H) & _). unfold more in H. lia. }
  rewrite E. clear E. revert r Hr.
  match goal with |- forall r, _ -> match ?m r with _ => _ end => change (triple (drawing more i) m (handled none i)) end.
  apply triple_ret_bind. cbn [Z.eqb]. eapply triple_bind; [eapply triple_weaken; [|apply update_handled]|].
  - intros r. apply drawing_any.
  - intros ret. apply request_handled.
Qed.

(** *** The loop *)

Lemma message_loop_S fuel r :
  message_loop (S fuel) r =
    if r_flushing r then (Ret true, r) else
    match normal_msg r with
    | (Ret more, r') => if negb more || (rQlen (r_sock r') =? 0) then (Ret true, r') else message_loop fuel r'
    | (Throw e, r') => (Throw e, r')
    end.
Proof.
  cbn [Rfb.message_loop]. unfold mbind, M_bind, gets. destruct (r_flushing r); [done|].
  destruct (normal_msg r) as [[more|e] r']; [|done]. by destruct (_ || _).
Qed.

(** More rounds make no difference, and leave a session that can go on. *)
Definition ends (fuel : nat) r : Prop :=
  (forall k, message_loop (fuel + k) r = message_loop fuel r)
  /\ match message_loop fuel r with (Ret b, r') => b = true /\ suspended r' | _ => True end.

(** One round. *)
Lemma ends_S fuel i r :
  suspended r ->
  match normal_msg r with
  | (Ret b, r') => handled none i b r'
                   /\ (at_rest none i 0 r' -> 1 <= rQlen (r_sock r') -> ends fuel r')
  | _ => True
  end -> ends (S fuel) r.
Proof.
  intros Hr Hm. unfold ends. pose proof (fun k => message_loop_S (fuel + k) r) as Hk. rewrite message_loop_S. revert Hk.
  destruct (r_flushing r); [done|]. destruct (normal_msg r) as [[b|e] r']; [|done]. destruct Hm as [Hh Hn].
  destruct b; cbn [negb orb]; [|done]. destruct (Z.eqb_spec (rQlen (r_sock r')) 0) as [E|E]; intros Hk.
  - split; [done|]. split; [done|]. by eapply drawing_suspended, rest_drawing.
  - destruct Hn as [H1 H2]; [done| |].
    + destruct Hh as [(_ & _ & H & _) _]. unfold rQlen in *. lia.
    + split; [intros k; etrans; [exact (Hk k)|exact (H1 k)]|done].
Qed.

Lemma loop_ends fuel i r : at_rest none i 0 r -> 1 <= rQlen (r_sock r) -> - i <= Z.of_nat fuel -> ends fuel r.
Proof.
  revert i r. induction fuel as [|fuel IH]; intros i r Hr Hlen Hfuel.
  { destruct Hr as [(H1 & _) _]. unfold rQlen in Hlen. lia. }
  apply (ends_S fuel (i + 1)); [by eapply drawing_suspended, rest_drawing|].
  assert (H1 : at_rest none i 1 r).
  { destruct Hr as [(H1 & H2 & H3 & H4 & H5) H6]. split; [|done]. unfold rQlen in Hlen. unfold room. split_and!; first [done|lia]. }
  pose proof (message_handled_rest i r H1) as Hm. destruct (normal_msg r) as [[b|e] r']; [|done]. split; [exact Hm|].
  intros H H'. apply (IH (i + 1)); [done|done|lia].
Qed.

(** *** The rectangles of an update *)

Definition at_most (n : Z) r : Prop := u_rects (r_FBU r) <= n.

Lemma most_dec {A} n (m : M (decoding ZS) A) : keeps (at_most n) (on_dec ZS m).
Proof. apply keeps_zoom. by intros []. Qed.

Lemma most_sock {A} n (m : M sock A) : keeps (at_most n) (on_sock_ ZS m).
Proof. apply keeps_zoom. by intros []. Qed.

Lemma most_quiet {A} n (m : M (rfb ZS) A) : (forall r0, keeps (quietly ZS r0) m) -> keeps (at_most n) m.
Proof. intros Hm r Hr. destruct (Hm r r) as (_ & _ & _ & E); [done|]. unfold at_most. by rewrite E. Qed.

Ltac most := keeps_by ltac:(fun _ => lazymatch goal with
  | |- keeps _ (on_sock_ _ _) => apply most_sock
  | |- keeps _ (on_dec _ _) => apply most_dec
  | |- keeps _ (read_screens _ _ _) => first [assumption | auto]
  | |- keeps _ (modify _) => apply keeps_modify; by intros []
  | |- keeps _ _ => apply most_quiet; intros ?; base ()
  end).

Lemma most_screens n m b : keeps (at_most n) (read_screens ZS m b).
Proof. revert b. induction m as [|m IH]; intros b; cbn [read_screens]; most. Qed.

Lemma most_rect n : 1 <= n -> keeps (at_most n) handleRect.
Proof.
  intros Hn. pose proof (most_screens n) as Hs. unfold Rfb.handleRect.
  apply keeps_bind; [apply keeps_gets|]. intros u. cbv zeta. destruct (_ =? pseudoEncodingLastRect).
  - apply keeps_bind; [|intros; apply keeps_ret]. apply keeps_modify. intros [? ? ? ? ? ? ? ? ? ? ? ? ? ? ? ? ? ? ? ? ? ? []] _. exact Hn.
  - unfold handleCursor, handleExtendedDesktopSize, Rfb.handleDataRect. most.
Qed.

(** Each round leaves one less. *)
Lemma rects_enough fuel k : agree ZS (at_most (Z.of_nat fuel)) (rect_loop (fuel + k)) (rect_loop fuel).
Proof.
  induction fuel as [|fuel IH]; [destruct k as [|k]; [apply agree_refl|]|]; cbn [Nat.add Rfb.rect_loop]; intros r Hr;
    rewrite !gets_at; destruct (Z.ltb_spec 0 (u_rects (r_FBU r))) as [Hpos|_]; try done.
  { unfold at_most in Hr. lia. }
  apply (agree_bind ZS (at_most (Z.of_nat (S fuel))) (at_most (Z.of_nat (S fuel)))); [| |done].
  - match goal with |- forall r, at_most ?n r -> at_most ?n (?m r).2 => change (keeps (at_most n) m) end.
    unfold set_FBU. most.
  - intros wait. apply agree_if; [apply agree_refl|].
    apply (agree_bind ZS (at_most (Z.of_nat (S fuel))) (at_most (Z.of_nat (S fuel)))); [apply most_rect; lia|].
    intros ok. apply agree_if; [|apply agree_refl].
    apply (agree_bind ZS _ (at_most (Z.of_nat fuel))); [|intros []; exact IH].
    intros r' Hr'. unfold at_most, set_FBU, modify in *. destruct r'. cbn in *. lia.
Qed.

(** *** No message stops the loop *)

(** What the loop relies on: the reader stands in what has arrived, the sizes of
    the current rectangle are not negative, and a Hextile rectangle that is half
    drawn is the current one. *)
Definition readable r : Prop :=
  let s := r_sock r in let d := r_dec r in let u := r_FBU r in
  (0 <= sk_rQi s <= sk_rQlen s /\ bytes (rQ_buf s))
  /\ 0 <= dc_lines d /\ 0 <= u_width u /\ 0 <= u_height u
  /\ (hx_tiles (dc_hextile d) = 0
      \/ 0 < u_rects u /\ u_encoding u = Some encodingHextile
         /\ exists t, 0 <= t <= (u_width u + 15) / 16 * ((u_height u + 15) / 16) /\ grid ZS (u_width u) (u_height u) t d).

Lemma readable_drawing r : readable r -> drawing (fun _ => True) (- rQlen (r_sock r)) r.
Proof.
  intros ((Hq & Hb) & Hl & Hw & Hh & Hx).
  assert (Hr : room (- rQlen (r_sock r)) 0 (r_sock r)). { unfold room, rQlen. split_and!; first [done|lia]. }
  split; [done|]. split; [done|]. split; [done|]. destruct Hx as [Hx|(H1 & H2 & Hx)]; [by left|right]. by split_and!.
Qed.

Lemma drawing_readable i r : drawing (fun _ => True) i r -> readable r.
Proof.
  intros ((H1 & H2 & H3 & H4 & H5) & H6 & (H7 & H8 & _) & H9). split; [split; [lia|done]|]. split_and!; [done..|].
  destruct H9 as [H9|(H9 & H10 & _ & _ & H11)]; [by left|right]. by split_and!.
Qed.

Lemma readable_ends r :
  readable r -> 0 < rQlen (r_sock r) -> ends (Z.to_nat (rQlen (r_sock r)) + 2) r.
Proof.
  intros Hr Hlen. pose proof (readable_drawing r Hr) as Hd. set (n := rQlen (r_sock r)) in *.
  destruct (Z.ltb_spec 0 (u_rects (r_FBU r))) as [Hpos|Hpos].
  - replace (Z.to_nat n + 2)%nat with (S (Z.to_nat n + 1)) by lia. apply (ends_S _ (- n)); [by eapply drawing_suspended|].
    assert (Hm : drawing more (- n) r) by (destruct Hd as (H1 & H2 & (H3 & H4 & _) & H5); by split_and!).
    apply message_handled_drawing in Hm. destruct (normal_msg r) as [[b|e] r']; [|done]. split; [exact Hm|].
    intros H H'. apply (loop_ends _ (- n)); [done|done|lia].
  - apply (loop_ends _ (- n)); [by apply (drawing_over (fun _ => True))|fold n; lia|lia].
Qed.

(** Loops that count what a message says end: [_init_msg] calls itself at most
    three times, and an update takes no more rounds than it has rectangles; with more
    fuel both do the same. *)
Theorem counted_loops_end screenSize' accepted k r :
  init_msg_fuel supports useFallback screenSize' accepted ZS (4 + k) r
    = init_msg supports useFallback screenSize' accepted ZS r
  /\ rect_loop (Z.to_nat (u_rects (r_FBU r)) + k) r = rect_loop (Z.to_nat (u_rects (r_FBU r))) r.
Proof.
  split; [|apply rects_enough; unfold at_most; lia].
  pose proof (rank_bound ZS r). apply init_msg_enough. lia.
Qed.

(** [C11] The message loop ends, whatever the server has sent: every message, well formed
    or not, takes at least a byte, but for an update that goes on, so that the rounds
    it is given are enough (with more it does the same); a session still connected
    when the loop returns can go on reading.  It may end by an exception instead;
    of these [NaNIndex] marks the one place where the program itself loses its read
    index and goes on without one, and the raw decoder is alone in getting there:
    at a rectangle of no width with nothing buffered while the display is busy. *)
Theorem message_loop_ends r :
  readable r -> 0 < rQlen (r_sock r) ->
  let fuel := (Z.to_nat (rQlen (r_sock r)) + 2)%nat in
  (forall k, message_loop (fuel + k) r = message_loop fuel r)
  /\ match message_loop fuel r with
     | (Ret b, r') => b = true /\ (r_conn r' = Connected -> readable r')
     | (Throw e, r') => e = NaNIndex -> lost ZS r'
     end.
Proof.
  intros Hr Hlen. cbv zeta. destruct (readable_ends r Hr Hlen) as [H1 H2]. split; [exact H1|].
  destruct (message_loop _ r) as [[b|e] r'] eqn:E; [|intros ->; by eapply marks_loop]. destruct H2 as [-> H2]. split; [done|].
  intros Hc. destruct (H2 Hc) as [i Hd]. by eapply drawing_readable.
Qed.

End Reader.

(** ** Example *)

(** A bell, the start of an update, and nothing of its rectangle yet. *)
Definition ringing : Rfb.rfb unit := Samples.session Rfb.Connected [2; 0; 0; 0; 1].

Lemma message_loop_ends_witness :
  readable unit ringing /\ 0 < Websock.rQlen (Rfb.r_sock ringing)
  /\ exists r, Rfb.message_loop true false Samples.size true unit tt (fun z => z) Samples.no_inflate 7 ringing = (Ret true, r)
     /\ readable unit r.
Proof.
  assert (Hr : readable unit ringing).
  { unfold readable, ringing. split; [split; [by vm_compute|]|].
    - apply Samples.sock_with_wf; [repeat constructor; by vm_compute|cbn; lia].
    - do 3 (split; [done|]). by left. }
  assert (Hl : 0 < Websock.rQlen (Rfb.r_sock ringing)) by done.
  split; [exact Hr|]. split; [exact Hl|].
  destruct (message_loop_ends true false Samples.size true unit tt (fun z => z) Samples.no_inflate ringing Hr Hl) as [_ H].
  change (Z.to_nat (Websock.rQlen (Rfb.r_sock ringing)) + 2)%nat with 7%nat in H.
  destruct (Rfb.message_loop _ _ _ _ _ _ _ _ 7 ringing) as [[b|e] r] eqn:E; [|by vm_compute in E].
  destruct H as [-> H]. exists r. split; [done|]. apply H.
  change r with (Ret true, r).2. rewrite <- E. by vm_compute.
Defined.

(** A picture that the browser still loads, then a raw rectangle of no width at the
    end of what has arrived: the read index is lost. *)
Example index_lost :
  (Rfb.message_loop true false Samples.size true unit tt (fun z => z) Samples.no_inflate 50
     (Samples.session Rfb.Connected
        ([0; 0; 0; 2] ++ [0; 0; 0; 0; 0; 1; 0; 1; 0; 0; 0; 7; 144; 3; 1; 2; 3]
         ++ [0; 0; 0; 0; 0; 0; 0; 1; 0; 0; 0; 0]))).1 = Throw NaNIndex.
Proof. by vm_compute. Qed.
